(** * scd-hwmon: SMBus and MDIO transaction engines

    A shallow embedding of the transaction engines of [src/scd-hwmon.c]
    (register codec, SMBus phase sequencing, response validation,
    reset-on-failure, adapter-level retry, MDIO request/poll, per-address
    timing overrides and the two sysfs configuration entry points), and
    the properties of the specification stated and proved over it.

    Conventions.  C integers are [Z]; a value stored into a bit-field of
    width [w] is reduced modulo [2^w].  The packed bit-field unions are
    32-bit words whose first declared member occupies the least
    significant bits (the layout the driver is built for).  Hardware
    registers are read from an oracle indexed by the number of reads made
    so far, and every register access, delay, log line and buffer store is
    appended to a trace. *)

From Stdlib Require Import ZArith List String Ascii Lia Bool Arith.
Import ListNotations.
Local Open Scope Z_scope.

(* ================================================================== *)
(** ** Bit-fields of a 32-bit register *)

Module Bitfield.

Record field := Field { f_off : Z; f_width : Z }.

(** Reading member [f] of the union: shift and mask. *)
Definition get (f : field) (reg : Z) : Z :=
  Z.land (Z.shiftr reg (f_off f)) (Z.ones (f_width f)).

(** Assigning [v] to member [f]: the value is truncated to the width of
    the member, the other members keep their bits. *)
Definition set (f : field) (v : Z) (reg : Z) : Z :=
  Z.lor (Z.ldiff reg (Z.shiftl (Z.ones (f_width f)) (f_off f)))
        (Z.shiftl (Z.land v (Z.ones (f_width f))) (f_off f)).

Arguments get : simpl never.
Arguments set : simpl never.

Definition wf (f : field) : Prop := 0 <= f_off f /\ 0 <= f_width f.

Definition disjoint (f g : field) : Prop :=
  f_off f + f_width f <= f_off g \/ f_off g + f_width g <= f_off f.

End Bitfield.

Import Bitfield.

Declare Scope reg_scope.
Delimit Scope reg_scope with reg.
Notation "r '.[' f ']'" := (get f r) (at level 1, left associativity,
  format "r .[ f ]") : reg_scope.
Notation "r '.[' f ':=' v ']'" := (set f v r) (at level 1, left associativity,
  format "r .[ f  :=  v ]") : reg_scope.
Local Open Scope reg_scope.

(* ================================================================== *)
(** ** C integers, error codes and constants *)

Definition u32 (x : Z) : Z := x mod 2 ^ 32.
Definition u8 (x : Z) : Z := x mod 2 ^ 8.
Arguments u32 : simpl never.
Arguments u8 : simpl never.

Definition EIO : Z := 5.
Definition EAGAIN : Z := 11.
Definition ENOMEM : Z := 12.
Definition EBUSY : Z := 16.
Definition ENODEV : Z := 19.
Definition EINVAL : Z := 22.
Definition ERANGE : Z := 34.
Definition EOPNOTSUPP : Z := 95.

(** <linux/i2c.h> *)
Definition I2C_SMBUS_READ : Z := 1.
Definition I2C_SMBUS_WRITE : Z := 0.
Definition I2C_SMBUS_QUICK : Z := 0.
Definition I2C_SMBUS_BYTE : Z := 1.
Definition I2C_SMBUS_BYTE_DATA : Z := 2.
Definition I2C_SMBUS_WORD_DATA : Z := 3.
Definition I2C_SMBUS_BLOCK_DATA : Z := 5.
Definition I2C_SMBUS_I2C_BLOCK_DATA : Z := 8.
Definition I2C_SMBUS_BLOCK_MAX : Z := 32.

(** scd-hwmon.c *)
Definition I2C_SMBUS_I2C_BLOCK_DATA_MSG : Z := 9.
Definition MASTER_DEFAULT_MAX_RETRIES : Z := 6.
Definition MAX_CONFIG_LINE_SIZE : Z := 100.
Definition SMBUS_BLOCK_READ_TIMEOUT_STEP : Z := 1.
Definition FAIL_REASON_MAX_SZ : nat := 50.

(** [SET_FAIL_REASON]: [snprintf] into a buffer of [FAIL_REASON_MAX_SZ]
    bytes keeps at most [FAIL_REASON_MAX_SZ - 1] characters. *)
Definition SET_FAIL_REASON (s : string) : string :=
  substring 0 (FAIL_REASON_MAX_SZ - 1) s.

(** [static int smbus_master_max_retries = MASTER_DEFAULT_MAX_RETRIES;] *)
Definition smbus_master_max_retries_default : Z := MASTER_DEFAULT_MAX_RETRIES.

(* ================================================================== *)
(** ** Register layouts *)

(** [union smbus_request_reg] *)
Module Req.
Definition d := Field 0 8.
Definition ss := Field 8 6.
Definition ed := Field 14 1.
Definition br := Field 15 1.
Definition dat := Field 16 2.
Definition t := Field 18 2.
Definition sp := Field 20 1.
Definition da := Field 21 1.
Definition dod := Field 22 1.
Definition st := Field 23 1.
Definition bs := Field 24 4.
Definition ti := Field 28 4.
End Req.

(** [union smbus_ctrl_status_reg] *)
Module Cs.
Definition fs := Field 0 10.
Definition foe := Field 13 1.
Definition brb := Field 26 1.
Definition ver := Field 28 2.
Definition fe := Field 30 1.
Definition reset := Field 31 1.
End Cs.

(** [union smbus_response_reg] *)
Module Rsp.
Definition d := Field 0 8.
Definition bus_conflict_error := Field 8 1.
Definition timeout_error := Field 9 1.
Definition ack_error := Field 10 1.
Definition flushed := Field 11 1.
Definition ti := Field 12 4.
Definition ss := Field 16 6.
Definition foe := Field 30 1.
Definition fe := Field 31 1.
End Rsp.

(* ================================================================== *)
(** ** State passing *)

Definition St (S A : Type) : Type := S -> A * S.

Definition ret {S A} (a : A) : St S A := fun s => (a, s).
Definition bind {S A B} (m : St S A) (k : A -> St S B) : St S B :=
  fun s => let (a, s') := m s in k a s'.

Declare Scope monad_scope.
Delimit Scope monad_scope with monad.
Notation "x <- m ;; k" := (bind m (fun x => k))
  (at level 61, m at next level, right associativity) : monad_scope.
Notation "' p <- m ;; k" := (bind m (fun x => let p := x in k))
  (at level 61, p pattern, m at next level, right associativity) : monad_scope.
Notation "m ;; k" := (bind m (fun _ => k))
  (at level 61, right associativity) : monad_scope.
Local Open Scope monad_scope.

(* ================================================================== *)
(** ** The world seen by one SMBus master *)

Inductive event : Type :=
| EvWriteReq (v : Z)        (* scd_write_register(master->req, v) *)
| EvWriteCs (v : Z)         (* scd_write_register(master->cs, v) *)
| EvReadCs (v : Z)          (* scd_read_register(master->cs) = v *)
| EvReadResp (v : Z)        (* scd_read_register(master->resp) = v *)
| EvMsleep (ms : Z)
| EvMdelay (ms : Z)
| EvErr (msg : string)      (* master_err / scd_err *)
| EvWarn (msg : string)     (* scd_warn *)
| EvStore (idx v : Z).      (* data->block[idx] = v *)

(** [cs_in] and [resp_in] are what the hardware answers to the n-th read
    of the control/status and of the response register; [data] is the
    memory behind the [union i2c_smbus_data *data] pointer, by byte
    offset. *)
Record world : Type := World {
  cs_in : nat -> Z;
  resp_in : nat -> Z;
  cs_n : nat;
  resp_n : nat;
  data : Z -> Z;
  trace : list event
}.

(** Actions of the engine on the world. *)
Definition M : Type -> Type := St world.

Definition emit (e : event) : M unit :=
  fun w => (tt, World (cs_in w) (resp_in w) (cs_n w) (resp_n w) (data w)
                      (trace w ++ [e])).

Definition msleep (ms : Z) : M unit := emit (EvMsleep ms).
Definition mdelay (ms : Z) : M unit := emit (EvMdelay ms).

(** [data->block[i]] as an rvalue. *)
Definition load (i : Z) : M Z := fun w => (u8 (data w i), w).

(** [data->block[i] = v] *)
Definition store (i v : Z) : M unit :=
  fun w => (tt, World (cs_in w) (resp_in w) (cs_n w) (resp_n w)
                      (fun j => if j =? i then u8 v else data w j)
                      (trace w ++ [EvStore i (u8 v)])).

(** ** Register access *)

Definition smbus_master_write_req (req : Z) : M unit := emit (EvWriteReq req).
Definition smbus_master_write_cs (cs : Z) : M unit := emit (EvWriteCs cs).

Definition smbus_master_read_cs : M Z :=
  fun w => let v := u32 (cs_in w (cs_n w)) in
           (v, World (cs_in w) (resp_in w) (S (cs_n w)) (resp_n w) (data w)
                     (trace w ++ [EvReadCs v])).

Definition __smbus_master_read_resp : M Z :=
  fun w => let v := u32 (resp_in w (resp_n w)) in
           (v, World (cs_in w) (resp_in w) (cs_n w) (S (resp_n w)) (data w)
                     (trace w ++ [EvReadResp v])).

(** The [while (!cs.fs && --retries)] loop of [smbus_master_read_resp];
    [retries] is the C counter, decremented only when [cs.fs] is zero. *)
Fixpoint smbus_fifo_poll (retries : nat) (cs : Z) : M Z :=
  if cs.[Cs.fs] =? 0 then
    match retries with
    | S (S _ as retries') =>
        msleep 10 ;;
        cs' <- smbus_master_read_cs ;;
        smbus_fifo_poll retries' cs'
    | _ => ret cs
    end
  else ret cs.

Definition smbus_master_read_resp : M Z :=
  cs <- smbus_master_read_cs ;;
  cs <- smbus_fifo_poll 20 cs ;;
  (if cs.[Cs.fs] =? 0
   then emit (EvErr "fifo still empty after retries"%string)
   else ret tt) ;;
  __smbus_master_read_resp.

(** [fail_reason] is [None] for a NULL pointer. *)
Definition smbus_check_resp (resp tid : Z) (fail_reason : option string)
  : Z * option string :=
  let fail (error : string) :=
    (- EIO,
     match fail_reason with
     | Some _ => Some (SET_FAIL_REASON ("bad response: " ++ error)%string)
     | None => None
     end) in
  if negb (resp.[Rsp.fe] =? 0) then fail "fe"%string
  else if negb (resp.[Rsp.ack_error] =? 0) then fail "ack"%string
  else if negb (resp.[Rsp.timeout_error] =? 0) then fail "timeout"%string
  else if negb (resp.[Rsp.bus_conflict_error] =? 0) then fail "conflict"%string
  else if negb (resp.[Rsp.flushed] =? 0) then fail "flush"%string
  else if negb (resp.[Rsp.ti] =? tid) then fail "tid"%string
  else if negb (resp.[Rsp.foe] =? 0) then fail "overflow"%string
  else (0, fail_reason).

Definition smbus_master_reset : M unit :=
  cs <- smbus_master_read_cs ;;
  let cs := cs.[Cs.reset := 1] in
  let cs := cs.[Cs.foe := 1] in
  smbus_master_write_cs cs ;;
  mdelay 50 ;;
  let cs := cs.[Cs.reset := 0] in
  smbus_master_write_cs cs ;;
  mdelay 50.

(* ================================================================== *)
(** ** Masters, buses and per-address timing parameters *)

(** [struct bus_params] *)
Record bus_params : Type := BusParams {
  bp_addr : Z;   (* u16 *)
  bp_t : Z;      (* u8 *)
  bp_datw : Z;   (* u8 *)
  bp_datr : Z;   (* u8 *)
  bp_ed : Z      (* u8 *)
}.

Definition default_smbus_params : bus_params :=
  {| bp_addr := 0; bp_t := 1; bp_datw := 3; bp_datr := 3; bp_ed := 0 |}.

(** [struct scd_smbus]; [bus_nr] is [adap.nr], the adapter number given by
    the i2c core when the adapter was registered. *)
Record scd_smbus : Type := ScdSmbus {
  bus_id : Z;
  bus_nr : Z;
  bus_params_list : list bus_params
}.

(** [struct scd_smbus_master]; a bus reaches its master through the
    [master] back-pointer, which the functions below take as an argument. *)
Record scd_smbus_master : Type := ScdSmbusMaster {
  m_id : Z;
  m_br_supported : bool;
  m_max_retries : Z;
  m_bus_list : list scd_smbus
}.

Definition get_smbus_params (bus : scd_smbus) (addr : Z) : bus_params :=
  match find (fun p => bp_addr p =? addr) (bus_params_list bus) with
  | Some p => p
  | None => default_smbus_params
  end.

(* ================================================================== *)
(** ** Hardware-assisted block read: [scd_smbus_block_read] *)

(** [(((addr & 0xff) << 1) | b)] *)
Definition addr_byte (addr b : Z) : Z :=
  Z.lor (Z.shiftl (Z.land addr 255) 1) b.

(** [req.da = ((!(req.dod || req.sp)) ? 1 : 0)] *)
Definition set_da (req : Z) : Z :=
  req.[Req.da := if negb (req.[Req.dod] =? 0) || negb (req.[Req.sp] =? 0)
                 then 0 else 1].

(** [req.ti++] *)
Definition inc_ti (req : Z) : Z := req.[Req.ti := req.[Req.ti] + 1].

(** First loop, [for (i = 0; i < ss; ++i)] with [ss = 3]; [n] counts the
    iterations left. *)
Fixpoint br_issue (n : nat) (i : Z) (addr command : Z) (req : Z) : M Z :=
  match n with
  | O => ret req
  | S n' =>
      let req := if i =? 1
                 then req.[Req.st := 0].[Req.ss := 0].[Req.d := command]
                 else req in
      let req := if i =? 2
                 then req.[Req.br := 1].[Req.st := 1].[Req.d := addr_byte addr 1]
                 else req in
      let req := set_da req in
      smbus_master_write_req req ;;
      br_issue n' (i + 1) addr command (inc_ti req)
  end.

(** [t = (int[]){5, 35 + 5, 500 + 5, 1000 + 5}[params->t]], or 100. *)
Definition block_read_timeout (t : Z) : Z :=
  if 3 <? t then 100
  else nth (Z.to_nat t) [5; 35 + 5; 500 + 5; 1000 + 5] 0.

(** [while (cs.brb && ct < t)]; returns the final [(ct, cs)]. *)
Fixpoint brb_wait (fuel : nat) (t ct cs : Z) : M (Z * Z) :=
  if negb (cs.[Cs.brb] =? 0) && (ct <? t) then
    match fuel with
    | O => ret (ct, cs)
    | S fuel' =>
        msleep SMBUS_BLOCK_READ_TIMEOUT_STEP ;;
        let ct := ct + SMBUS_BLOCK_READ_TIMEOUT_STEP in
        cs <- smbus_master_read_cs ;;
        brb_wait fuel' t ct cs
    end
  else ret (ct, cs).

(** Second loop, [for (i = 0; i < ss; ++i)], in which [ss] grows by the
    length byte at [i == 3]. *)
Fixpoint br_read (fuel : nat) (i ss req data_size : Z) : M Z :=
  if i <? ss then
    match fuel with
    | O => ret 0
    | S fuel' =>
        resp <- smbus_master_read_resp ;;
        let r := fst (smbus_check_resp resp req.[Req.ti] None) in
        if negb (r =? 0) then ret r
        else
          let req := inc_ti req in
          let ss := if i =? 3 then u32 (ss + resp.[Rsp.d]) else ss in
          if 3 <=? i then
            if data_size <=? i - 3 then
              emit (EvWarn "smbus read failed (output too big)"%string) ;;
              ret (- EINVAL)
            else
              store (i - 3) resp.[Rsp.d] ;;
              br_read fuel' (i + 1) ss req data_size
          else br_read fuel' (i + 1) ss req data_size
    end
  else ret 0.

(** The read loop runs at most [4 + 255] times. *)
Definition br_read_fuel : nat := 260.

Definition scd_smbus_block_read (bus : scd_smbus) (addr command data_size : Z)
  : M Z :=
  let params := get_smbus_params bus addr in
  let ss := 3 in
  let req := 0 in
  let req := req.[Req.bs := bus_id bus] in
  let req := req.[Req.t := bp_t params] in
  let req := req.[Req.st := 1] in
  let req := req.[Req.ss := ss] in
  let req := req.[Req.d := addr_byte addr 0] in
  let req := req.[Req.dod := 1] in
  req <- br_issue (Z.to_nat ss) 0 addr command req ;;
  let ss := ss + 1 in
  let t := block_read_timeout (bp_t params) in
  cs <- smbus_master_read_cs ;;
  '(ct, cs) <- brb_wait (Z.to_nat t) t 0 cs ;;
  if ct =? t then
    emit (EvWarn "smbus response timeout"%string) ;;
    ret (- EINVAL)
  else
    let req := req.[Req.ti := 0] in
    br_read br_read_fuel 0 ss req data_size.

(* ================================================================== *)
(** ** The generic engine: [scd_smbus_do_impl] *)

(** [data->byte = v] *)
Definition store_byte (v : Z) : M unit := store 0 v.

(** [data->word] is the 16-bit little-endian view of bytes 0 and 1. *)
Definition load_word : M Z :=
  b0 <- load 0 ;; b1 <- load 1 ;; ret (b0 + 256 * b1).
Definition store_word (v : Z) : M unit :=
  store 0 v ;; store 1 (Z.shiftr v 8).

(** Request loop, [for (i = 0; i < ss; i++)]; [n] counts the iterations
    left.  Inside the loop [0 <= i < ss], so the mixed [int]/[u32]
    comparisons are comparisons of the mathematical values. *)
Fixpoint issue_phases (n : nat) (i : Z) (params : bus_params)
    (addr read_write command ss data_offset : Z) (req : Z) : M Z :=
  match n with
  | O => ret req
  | S n' =>
      let req :=
        if i =? ss - 1 then
          let req := req.[Req.sp := 1] in
          let req := req.[Req.ed := bp_ed params] in
          if read_write =? I2C_SMBUS_WRITE
          then req.[Req.dat := bp_datw params]
          else req.[Req.dat := bp_datr params]
        else req in
      let req :=
        if i =? 1 then
          let req := req.[Req.st := 0].[Req.ss := 0].[Req.d := command] in
          if ss =? 2
          then req.[Req.dod := if read_write =? I2C_SMBUS_WRITE then 1 else 0]
          else req.[Req.dod := 1]
        else req in
      let req :=
        if (i =? 2) && (read_write =? I2C_SMBUS_READ)
        then req.[Req.st := 1].[Req.d := addr_byte addr 1]
        else req in
      req <- (if (2 <=? i) && (read_write =? I2C_SMBUS_WRITE)
              then v <- load (u32 (data_offset + i - 2)) ;;
                   ret req.[Req.d := v]
              else ret req) ;;
      let req :=
        if (i =? 3) && (read_write =? I2C_SMBUS_READ)
        then req.[Req.dod := 0]
        else req in
      let req := set_da req in
      smbus_master_write_req req ;;
      let req := inc_ti req in
      let req := req.[Req.st := 0] in
      issue_phases n' (i + 1) params addr read_write command ss data_offset req
  end.

(** Response loop, [for (i = 0; i < ss; i++)]; a result other than [0]
    is the [goto fail]. *)
Fixpoint read_phases (n : nat) (i : Z)
    (read_write size ss data_size : Z) (req : Z) (fail_reason : string)
  : M (Z * string) :=
  match n with
  | O => ret (0, fail_reason)
  | S n' =>
      resp <- smbus_master_read_resp ;;
      let chk := smbus_check_resp resp req.[Req.ti] (Some fail_reason) in
      let r := fst chk in
      let fail_reason :=
        match snd chk with Some s => s | None => fail_reason end in
      if negb (r =? 0) then ret (r, fail_reason)
      else
        let req := inc_ti req in
        let continue :=
          read_phases n' (i + 1) read_write size ss data_size req fail_reason in
        if read_write =? I2C_SMBUS_READ then
          if (size =? I2C_SMBUS_BYTE) || (size =? I2C_SMBUS_BYTE_DATA) then
            (if i =? ss - 1 then store_byte resp.[Rsp.d] else ret tt) ;;
            continue
          else if size =? I2C_SMBUS_WORD_DATA then
            (if i =? ss - 2 then store_word resp.[Rsp.d]
             else if i =? ss - 1 then
               w <- load_word ;;
               store_word (Z.lor w (Z.shiftl resp.[Rsp.d] 8))
             else ret tt) ;;
            continue
          else if 3 <=? i then
            if size =? I2C_SMBUS_I2C_BLOCK_DATA then
              if data_size <=? i - 2
              then ret (- EINVAL, SET_FAIL_REASON "buffer too short")
              else store (i - 2) resp.[Rsp.d] ;; continue
            else
              if data_size <=? i - 3
              then ret (- EINVAL, SET_FAIL_REASON "buffer too short")
              else store (i - 3) resp.[Rsp.d] ;; continue
          else continue
        else continue
  end.

(** Outcome of the [switch (size)]. *)
Inductive prologue : Type :=
| Proceed (ss data_offset : Z)          (* break *)
| Return0                               (* return 0 *)
| GotoFail (r : Z) (fail_reason : string).

Definition do_impl_t : Type :=
  scd_smbus_master -> scd_smbus -> Z -> Z -> Z -> Z -> Z -> Z -> string ->
  M (Z * string).

(** What [scd_smbus_do_impl] does after the [switch]: the request loop,
    the response loop and the [fail] label. *)
Definition exchange (params : bus_params)
    (addr read_write command size data_size : Z)
    (ss data_offset : Z) (req : Z) (fail_reason : string) : M (Z * string) :=
  let req := req.[Req.st := 1] in
  let req := req.[Req.ss := ss] in
  let req :=
    req.[Req.d := addr_byte addr (if ss <=? 2 then read_write else 0)] in
  let req := req.[Req.dod := 1] in
  req <- issue_phases (Z.to_nat ss) 0 params addr read_write command ss
                      data_offset req ;;
  let req := req.[Req.ti := 0] in
  '(r, fail_reason) <-
     read_phases (Z.to_nat ss) 0 read_write size ss data_size req
                 fail_reason ;;
  if negb (r =? 0)
  then smbus_master_reset ;; ret (r, fail_reason)
  else ret (0, fail_reason).

(** The body of [scd_smbus_do_impl], with the function it calls for the
    one-byte length probe as [self]. *)
Definition do_impl_body (self : do_impl_t)
    (master : scd_smbus_master) (bus : scd_smbus)
    (addr flags read_write command size data_size : Z) (fail_reason : string)
  : M (Z * string) :=
  let params := get_smbus_params bus addr in
  let req := 0 in
  let req := req.[Req.bs := bus_id bus] in
  let req := req.[Req.t := bp_t params] in
  pro <-
    (if size =? I2C_SMBUS_QUICK then ret (Proceed 1 0)
     else if size =? I2C_SMBUS_BYTE then ret (Proceed 2 0)
     else if size =? I2C_SMBUS_BYTE_DATA then
       ret (Proceed (if read_write =? I2C_SMBUS_WRITE then 3 else 4) 0)
     else if size =? I2C_SMBUS_WORD_DATA then
       ret (Proceed (if read_write =? I2C_SMBUS_WRITE then 4 else 5) 0)
     else if size =? I2C_SMBUS_I2C_BLOCK_DATA_MSG then
       ret (Proceed (if read_write =? I2C_SMBUS_WRITE
                     then u32 (2 + data_size) else u32 (3 + data_size)) 0)
     else if size =? I2C_SMBUS_I2C_BLOCK_DATA then
       b0 <- load 0 ;;
       ret (Proceed (if read_write =? I2C_SMBUS_WRITE
                     then 2 + b0 else 3 + b0) 1)
     else if size =? I2C_SMBUS_BLOCK_DATA then
       if read_write =? I2C_SMBUS_WRITE then
         b0 <- load 0 ;; ret (Proceed (3 + b0) 0)
       else if m_br_supported master then
         r <- scd_smbus_block_read bus addr command data_size ;;
         if negb (r =? 0)
         then ret (GotoFail r (SET_FAIL_REASON "block read failed"))
         else ret Return0
       else
         '(r, _fail_reason) <-
            self master bus addr flags I2C_SMBUS_READ command
                 I2C_SMBUS_BYTE_DATA data_size EmptyString ;;
         if negb (r =? 0)
         then ret (GotoFail r
                     (SET_FAIL_REASON ("block size: " ++ _fail_reason)%string))
         else b0 <- load 0 ;; ret (Proceed (4 + b0) 0)
     else ret (Proceed 0 0)) ;;
  match pro with
  | Return0 => ret (0, fail_reason)
  | GotoFail r fail_reason => smbus_master_reset ;; ret (r, fail_reason)
  | Proceed ss data_offset =>
      exchange params addr read_write command size data_size ss data_offset
               req fail_reason
  end.

(** The recursion of [scd_smbus_do_impl] is one call deep: the probe is a
    byte-data read, which calls nothing (lemma [scd_smbus_do_impl_unfold]
    below). *)
Definition scd_smbus_do_impl : do_impl_t :=
  do_impl_body (do_impl_body (fun _ _ _ _ _ _ _ _ fr => ret (0, fr))).

(** [scd_smbus_do] takes the master lock around the call; execution here
    is sequential. *)
Definition scd_smbus_do : do_impl_t := scd_smbus_do_impl.

(** The [do { } while (retry < master->max_retries)] loop of
    [scd_smbus_access_impl]; [fuel] bounds the number of times the loop
    condition can still hold. *)
Fixpoint access_loop (fuel : nat) (master : scd_smbus_master) (bus : scd_smbus)
    (addr flags read_write command size data_size : Z)
    (retry : Z) (fail_reason : string) : M (Z * string) :=
  '(r, fail_reason) <-
     scd_smbus_do master bus addr flags read_write command size data_size
                  fail_reason ;;
  if negb (r =? - EIO) then ret (r, fail_reason)
  else
    let retry := retry + 1 in
    let exhausted :=
      emit (EvWarn ("smbus failed (" ++ fail_reason ++ ")")%string) ;;
      ret (- EIO, fail_reason) in
    if retry <? m_max_retries master then
      match fuel with
      | O => exhausted
      | S fuel' =>
          access_loop fuel' master bus addr flags read_write command size
                      data_size retry fail_reason
      end
    else exhausted.

Definition scd_smbus_access_impl (master : scd_smbus_master) (bus : scd_smbus)
    (addr flags read_write command size data_size : Z) : M Z :=
  '(r, _) <- access_loop (Z.to_nat (m_max_retries master)) master bus addr
               flags read_write command size data_size 0 EmptyString ;;
  ret r.

Definition scd_smbus_access (master : scd_smbus_master) (bus : scd_smbus)
    (addr flags read_write command size : Z) : M Z :=
  scd_smbus_access_impl master bus addr flags read_write command size
                        (I2C_SMBUS_BLOCK_MAX + 2).

(* ================================================================== *)
(** ** The MDIO engine *)

Module Mdio.

(** What [scd_mdio_bus_request] and [mdio_master_wait_response] take from
    scd-mdio.h, which is not among the source files: the wait macros, the
    values of [enum mdio_operation] and the members of the four register
    unions.  They are parameters of everything below. *)
Record scd_mdio_h : Type := ScdMdioH {
  MDIO_WAIT_INITIAL : Z;
  MDIO_WAIT_END : Z -> bool;
  MDIO_WAIT_MAX_UDELAY : Z;
  MDIO_WAIT_NEXT : Z -> Z;
  SCD_MDIO_SET : Z;
  SCD_MDIO_READ : Z;
  SCD_MDIO_WRITE : Z;
  (* union mdio_ctrl_status_reg *)
  cs_res_count : field;
  cs_sp : field;
  cs_fe : field;
  cs_reset : field;
  (* union mdio_request_lo_reg *)
  lo_bs : field;
  lo_t : field;
  lo_op : field;
  lo_dt : field;
  lo_pa : field;
  lo_d : field;
  (* union mdio_request_hi_reg *)
  hi_ri : field;
  (* union mdio_response_reg *)
  resp_ts : field;
  resp_fe : field;
  resp_d : field
}.

Inductive event : Type :=
| EvWriteCs (v : Z)
| EvWriteReqLo (v : Z)
| EvWriteReqHi (v : Z)
| EvReadCs (v : Z)
| EvReadResp (v : Z)
| EvUdelay (us : Z)
| EvMsleep (ms : Z)
| EvWarn (msg : string).

(** The registers of one MDIO master, its [req_id] counter and the trace
    of what the engine did. *)
Record world : Type := World {
  cs_in : nat -> Z;
  resp_in : nat -> Z;
  cs_n : nat;
  resp_n : nat;
  req_id : Z;
  trace : list event
}.

Definition M : Type -> Type := St world.

Definition emit (e : event) : M unit :=
  fun w => (tt, World (cs_in w) (resp_in w) (cs_n w) (resp_n w) (req_id w)
                      (trace w ++ [e])).

Definition mdio_master_read_cs : M Z :=
  fun w => let v := u32 (cs_in w (cs_n w)) in
           (v, World (cs_in w) (resp_in w) (S (cs_n w)) (resp_n w) (req_id w)
                     (trace w ++ [EvReadCs v])).

Definition mdio_master_write_cs (cs : Z) : M unit := emit (EvWriteCs cs).

Definition mdio_read_resp : M Z :=
  fun w => let v := u32 (resp_in w (resp_n w)) in
           (v, World (cs_in w) (resp_in w) (cs_n w) (S (resp_n w)) (req_id w)
                     (trace w ++ [EvReadResp v])).

(** [return master->req_id++;] through a [u8] return type. *)
Definition mdio_master_get_req_id : M Z :=
  fun w => (u8 (req_id w),
            World (cs_in w) (resp_in w) (cs_n w) (resp_n w) (req_id w + 1)
                  (trace w)).

Section Engine.

Variable h : scd_mdio_h.
Variable speed : Z.    (* master->speed *)

Definition get_default_mdio_cs : Z := 0.[cs_sp h := speed].

Definition mdio_master_reset_interrupt : M unit :=
  let cs := get_default_mdio_cs in
  let cs := cs.[cs_fe h := 1] in
  mdio_master_write_cs cs.

(** [while (!MDIO_WAIT_END(delay))]; whether the loop ends is a matter of
    the macros, so the model takes [fuel] and answers [None] when it runs
    out. *)
Fixpoint wait_loop (fuel : nat) (delay : Z) : M (option Z) :=
  if negb (MDIO_WAIT_END h delay) then
    match fuel with
    | O => ret None
    | S fuel' =>
        cs <- mdio_master_read_cs ;;
        if cs.[cs_res_count h] =? 1 then ret (Some 0)
        else if cs.[cs_res_count h] =? 0 then
          (if delay <? MDIO_WAIT_MAX_UDELAY h
           then emit (EvUdelay delay)
           else emit (EvMsleep (delay / 1000))) ;;
          wait_loop fuel' (MDIO_WAIT_NEXT h delay)
        else
          emit (EvWarn "mdio wait_resp failed"%string) ;;
          ret (Some (- EOPNOTSUPP))
    end
  else
    emit (EvWarn "mdio wait_resp timeout"%string) ;;
    ret (Some (- EAGAIN)).

Definition mdio_master_wait_response (fuel : nat) : M (option Z) :=
  wait_loop fuel (MDIO_WAIT_INITIAL h).

Definition scd_mdio_bus_request (fuel : nat) (bus_id : Z)
    (op clause prtad devad data : Z) : M (option Z) :=
  mdio_master_reset_interrupt ;;
  let req_lo := 0 in
  let req_lo := req_lo.[lo_bs h := bus_id] in
  let req_lo := req_lo.[lo_t h := clause] in
  let req_lo := req_lo.[lo_op h := op] in
  let req_lo := req_lo.[lo_dt h := devad] in
  let req_lo := req_lo.[lo_pa h := prtad] in
  let req_lo := req_lo.[lo_d h := data] in
  emit (EvWriteReqLo req_lo) ;;
  ri <- mdio_master_get_req_id ;;
  let req_hi := 0.[hi_ri h := ri] in
  emit (EvWriteReqHi req_hi) ;;
  err <- mdio_master_wait_response fuel ;;
  match err with
  | None => ret None
  | Some err =>
      if negb (err =? 0) then ret (Some err)
      else
        mdio_master_reset_interrupt ;;
        resp <- mdio_read_resp ;;
        if negb (resp.[resp_ts h] =? 1) || (resp.[resp_fe h] =? 1) then
          emit (EvWarn "mdio bus request failed in reading resp"%string) ;;
          ret (Some (- EIO))
        else if op =? SCD_MDIO_READ h then ret (Some resp.[resp_d h])
        else ret (Some 0)
  end.

(** *** Vocabulary of the properties *)

(** The delay of the j-th back-off. *)
Definition delay_at (j : nat) : Z :=
  Nat.iter j (MDIO_WAIT_NEXT h) (MDIO_WAIT_INITIAL h).

(** The way the engine waits for [delay]. *)
Definition backoff (delay : Z) : event :=
  if delay <? MDIO_WAIT_MAX_UDELAY h
  then EvUdelay delay else EvMsleep (delay / 1000).

(** The values the hardware gives at the j-th control/status read and
    at the j-th response read from world [w] on. *)
Definition cs_at (w : world) (j : nat) : Z := u32 (cs_in w (cs_n w + j)).
Definition resp_at (w : world) (j : nat) : Z := u32 (resp_in w (resp_n w + j)).

(** [k] polls that found the result count at zero, each followed by its
    back-off. *)
Definition polls (w : world) (k : nat) : list event :=
  flat_map (fun j => [EvReadCs (cs_at w j); backoff (delay_at j)]) (seq 0 k).

(** What issuing a request leaves in the trace. *)
Definition irq_clear : Z := (0.[cs_sp h := speed]).[cs_fe h := 1].

Definition issued (w : world) (bus_id op clause prtad devad data : Z)
  : list event :=
  [ EvWriteCs irq_clear;
    EvWriteReqLo
      (0.[lo_bs h := bus_id].[lo_t h := clause].[lo_op h := op]
        .[lo_dt h := devad].[lo_pa h := prtad].[lo_d h := data]);
    EvWriteReqHi (0.[hi_ri h := u8 (req_id w)]) ].

(** A response that makes the request fail. *)
Definition bad_response (resp : Z) : bool :=
  negb (resp.[resp_ts h] =? 1) || (resp.[resp_fe h] =? 1).

(** The world after [cs] control/status reads, [rs] response reads, one
    request id and the events [l]. *)
Definition after (w : world) (cs rs : nat) (l : list event) : world :=
  World (cs_in w) (resp_in w) (cs_n w + cs) (resp_n w + rs) (req_id w + 1)
        (trace w ++ l).

End Engine.

End Mdio.

(* ================================================================== *)
(** ** The registry and its two configuration files *)

(** [struct scd_context], as far as the SMBus registry goes. *)
Record scd_context : Type := ScdContext {
  res_size : Z;
  initialized : bool;
  smbus_master_list : list scd_smbus_master
}.

(** *** C strings

    A buffer is a [string]; its end, like a NUL character inside it,
    terminates the C string. *)

Definition NUL : ascii := Ascii.zero.
Definition NL : ascii := "010"%char.
Definition SPACE : ascii := " "%char.

(** The C string that starts at a buffer. *)
Fixpoint c_str (s : string) : string :=
  match s with
  | EmptyString => EmptyString
  | String a s' => if Ascii.eqb a NUL then EmptyString else String a (c_str s')
  end.

(** [buf + n] *)
Fixpoint advance (n : nat) (s : string) : string :=
  match n, s with
  | O, _ => s
  | S _, EmptyString => EmptyString
  | S n', String _ s' => advance n' s'
  end.

(** [strnchr(s, count, c)], as an offset from [s]: at most [count]
    characters are looked at, the one equal to [c] is found, the
    terminating NUL stops the search. *)
Fixpoint strnchr (s : string) (count : nat) (c : ascii) : option nat :=
  match count with
  | O => None
  | S count' =>
      match s with
      | EmptyString => if Ascii.eqb NUL c then Some O else None
      | String a s' =>
          if Ascii.eqb a c then Some O
          else if Ascii.eqb a NUL then None
          else option_map S (strnchr s' count' c)
      end
  end.

(** [strncpy(tmp, buf, count); tmp[count] = 0;] *)
Definition strncpy0 (buf : string) (count : nat) : string :=
  c_str (substring 0 count buf).

(** Offset of the first [delim] in a C string. *)
Fixpoint find_delim (s : string) (delim : ascii) : option nat :=
  match s with
  | EmptyString => None
  | String a s' =>
      if Ascii.eqb a delim then Some O
      else option_map S (find_delim s' delim)
  end.

(** [strsep(&p, " ")] for a one-character delimiter set: the token and
    the new value of [p] ([None] is NULL). *)
Definition strsep (stringp : option string) (delim : ascii)
  : option string * option string :=
  match stringp with
  | None => (None, None)
  | Some s =>
      match find_delim s delim with
      | Some k => (Some (substring 0 k s), Some (advance (S k) s))
      | None => (Some s, None)
      end
  end.

(** *** [kstrtou16] and [kstrtou8] with base 0 (kernel library,
    lib/kstrtox.c): an optional [+], the radix read from the prefix,
    at least one digit, an optional final newline, nothing else;
    [-ERANGE] when the value does not fit. *)

Definition digit_val (a : ascii) : option Z :=
  let n := Z.of_nat (nat_of_ascii a) in
  if (48 <=? n) && (n <=? 57) then Some (n - 48)
  else if (97 <=? n) && (n <=? 102) then Some (n - 97 + 10)
  else if (65 <=? n) && (n <=? 70) then Some (n - 65 + 10)
  else None.

Definition is_digit (base : Z) (a : ascii) : bool :=
  match digit_val a with Some v => v <? base | None => false end.

(** [_parse_integer]: the value of the longest run of digits, the number
    of digits and what follows. *)
Fixpoint parse_digits (base : Z) (s : string) (acc : Z) (n : nat)
  : Z * nat * string :=
  match s with
  | EmptyString => (acc, n, s)
  | String a s' =>
      match digit_val a with
      | Some v => if v <? base then parse_digits base s' (acc * base + v) (S n)
                  else (acc, n, s)
      | None => (acc, n, s)
      end
  end.

Definition lower_x (a : ascii) : bool :=
  Ascii.eqb a "x"%char || Ascii.eqb a "X"%char.

(** [_parse_integer_fixup_radix] with [base = 0]. *)
Definition fixup_radix (s : string) : Z * string :=
  match s with
  | String "0"%char (String x (String d rest)) =>
      if lower_x x && is_digit 16 d then (16, String d rest) else (8, s)
  | String "0"%char _ => (8, s)
  | _ => (10, s)
  end.

(** The result is [inl value] or [inr error]. *)
Definition kstrtoull (s : string) : Z + Z :=
  let s := match s with String "+"%char s' => s' | _ => s end in
  let '(base, s) := fixup_radix s in
  let '(v, n, rest) := parse_digits base s 0 0 in
  if Nat.eqb n 0 then inr (- EINVAL)
  else if 2 ^ 64 <=? v then inr (- ERANGE)
  else
    let rest := match rest with
                | String a r => if Ascii.eqb a NL then r else rest
                | EmptyString => rest
                end in
    match rest with
    | EmptyString => inl v
    | String _ _ => inr (- EINVAL)
    end.

Definition kstrtou (bits : Z) (s : string) : Z + Z :=
  match kstrtoull s with
  | inl v => if v <? 2 ^ bits then inl v else inr (- ERANGE)
  | inr e => inr e
  end.

Definition kstrtou16 := kstrtou 16.
Definition kstrtou8 := kstrtou 8.

(** [PARSE_INT_OR_RETURN(Buf, Tmp, Type, Ptr)]: [inl (value, Buf)] when
    the macro falls through, [inr error] when it returns. *)
Definition PARSE_INT_OR_RETURN (kstrto : string -> Z + Z) (buf : option string)
  : (Z * option string) + Z :=
  let '(tmp, buf) := strsep buf SPACE in
  match tmp with
  | None => inr (- EINVAL)
  | Some EmptyString => inr (- EINVAL)
  | Some tmp =>
      match kstrto tmp with
      | inl v => inl (v, buf)
      | inr e => inr e
      end
  end.

(** *** Line splitting: [parse_lines] *)

Definition line_parser_func : Type :=
  scd_context -> string -> nat -> Z * scd_context.

(** [while (left && *buf == '\n') { buf++; left--; }]; [left_] is [left] *)
Fixpoint skip_newlines (buf : string) (left_ : nat) : string * nat :=
  match left_, buf with
  | S left_', String a buf' =>
      if Ascii.eqb a NL then skip_newlines buf' left_' else (buf, left_)
  | _, _ => (buf, left_)
  end.

(** The [while (true)] loop; every turn consumes the line it parsed, so
    [fuel] is the number of turns still allowed. *)
Fixpoint parse_lines_loop (fuel : nat) (parser : line_parser_func)
    (ctx : scd_context) (buf : string) (left_ : nat) (count : nat)
  : Z * scd_context :=
  match fuel with
  | O => (Z.of_nat count, ctx)
  | S fuel' =>
      let nl := match strnchr buf left_ NL with
                | Some k => k
                | None => left_
                end in
      let '(res, ctx) := parser ctx buf nl in
      if res <? 0 then (res, ctx)
      else
        let left_ := (left_ - Z.to_nat res)%nat in
        let buf := advance nl buf in
        let '(buf, left_) := skip_newlines buf left_ in
        if Nat.eqb left_ 0 then (Z.of_nat count, ctx)
        else parse_lines_loop fuel' parser ctx buf left_ count
  end.

Definition parse_lines (parser : line_parser_func) (ctx : scd_context)
    (buf : string) (count : nat) : Z * scd_context :=
  if Nat.eqb count 0 then (0, ctx)
  else parse_lines_loop (S count) parser ctx buf count count.

(** *** [new_object] *)

Definition new_object_parse_func : Type :=
  scd_context -> option string -> Z -> Z * scd_context.

(** The names of [funcs[]], in order.  The functions themselves create
    kernel objects and are a parameter, [func]. *)
Definition funcs_names : list string :=
  [ "fan_group"; "gpio"; "led"; "mdio_device"; "mdio_master";
    "osfp"; "qsfp"; "reset"; "sfp"; "smbus_master" ]%string.

Definition parse_new_object (func : string -> new_object_parse_func)
    (ctx : scd_context) (buf : string) (count : nat) : Z * scd_context :=
  if MAX_CONFIG_LINE_SIZE <=? Z.of_nat count then (- EINVAL, ctx)
  else
    let tmp := strncpy0 buf count in
    let '(tok, ptr) := strsep (Some tmp) SPACE in
    match tok with
    | None => (- EINVAL, ctx)
    | Some tok =>
        match find (String.eqb tok) funcs_names with
        | None => (- EINVAL, ctx)
        | Some name =>
            let consumed :=
              match ptr with
              | Some p => (String.length tmp - String.length p)%nat
              | None => O
              end in
            let '(err, ctx) :=
              func name ctx ptr (Z.of_nat count - Z.of_nat consumed) in
            if err <? 0 then (err, ctx) else (Z.of_nat count, ctx)
        end
    end.

(** [ctx] is [None] when [get_context_for_dev] finds nothing. *)
Definition new_object (func : string -> new_object_parse_func)
    (ctx : option scd_context) (buf : string) (count : nat)
  : Z * option scd_context :=
  match ctx with
  | None => (- ENODEV, None)
  | Some ctx =>
      if initialized ctx then (- EBUSY, Some ctx)
      else
        let '(res, ctx) := parse_lines (parse_new_object func) ctx buf count in
        (res, Some ctx)
  end.

(** *** [smbus_tweaks] *)

Definition scd_find_smbus (ctx : scd_context) (nr : Z) : option scd_smbus :=
  find (fun bus => bus_nr bus =? nr)
       (flat_map m_bus_list (smbus_master_list ctx)).

(** The first loop of [scd_set_smbus_params]: the list with the entry for
    [params->addr] overwritten, or [None] when there is no such entry. *)
Fixpoint update_params (l : list bus_params) (params : bus_params)
  : option (list bus_params) :=
  match l with
  | [] => None
  | p :: l' =>
      if bp_addr p =? bp_addr params then
        Some (BusParams (bp_addr p) (bp_t params) (bp_datw params)
                        (bp_datr params) (bp_ed params) :: l')
      else option_map (cons p) (update_params l' params)
  end.

(** What [scd_set_smbus_params] does to the bus it found; [kzalloc_ok]
    tells whether the allocation of a new entry succeeds. *)
Definition set_params_of_bus (kzalloc_ok : bool) (bus : scd_smbus)
    (params : bus_params) : Z * scd_smbus :=
  match update_params (bus_params_list bus) params with
  | Some l => (0, ScdSmbus (bus_id bus) (bus_nr bus) l)
  | None =>
      if kzalloc_ok then
        (0, ScdSmbus (bus_id bus) (bus_nr bus)
              (bus_params_list bus ++
               [BusParams (bp_addr params) (bp_t params) (bp_datw params)
                          (bp_datr params) (bp_ed params)]))
      else (- ENOMEM, bus)
  end.

(** The bus that [scd_find_smbus] returns is the first one with the
    number; these two put the modified bus back in its place. *)
Fixpoint replace_bus (l : list scd_smbus) (nr : Z) (b : scd_smbus)
  : option (list scd_smbus) :=
  match l with
  | [] => None
  | x :: l' =>
      if bus_nr x =? nr then Some (b :: l')
      else option_map (cons x) (replace_bus l' nr b)
  end.

Fixpoint replace_bus_in_masters (ms : list scd_smbus_master) (nr : Z)
    (b : scd_smbus) : list scd_smbus_master :=
  match ms with
  | [] => []
  | m :: ms' =>
      match replace_bus (m_bus_list m) nr b with
      | Some l =>
          ScdSmbusMaster (m_id m) (m_br_supported m) (m_max_retries m) l :: ms'
      | None => m :: replace_bus_in_masters ms' nr b
      end
  end.

Definition scd_set_smbus_params (kzalloc_ok : bool) (ctx : scd_context)
    (bus : Z) (params : bus_params) : Z * scd_context :=
  match scd_find_smbus ctx bus with
  | None => (- EINVAL, ctx)
  | Some scd_smbus =>
      let '(r, scd_smbus) := set_params_of_bus kzalloc_ok scd_smbus params in
      (r, ScdContext (res_size ctx) (initialized ctx)
            (replace_bus_in_masters (smbus_master_list ctx) bus scd_smbus))
  end.

Definition parse_smbus_tweak (kzalloc_ok : bool) : line_parser_func :=
  fun ctx buf count =>
  if MAX_CONFIG_LINE_SIZE <=? Z.of_nat count then (- EINVAL, ctx)
  else
    let ptr := Some (strncpy0 buf count) in
    match PARSE_INT_OR_RETURN kstrtou16 ptr with
    | inr e => (e, ctx)
    | inl (bus, ptr) =>
    match PARSE_INT_OR_RETURN kstrtou16 ptr with
    | inr e => (e, ctx)
    | inl (addr, ptr) =>
    match PARSE_INT_OR_RETURN kstrtou8 ptr with
    | inr e => (e, ctx)
    | inl (t, ptr) =>
    match PARSE_INT_OR_RETURN kstrtou8 ptr with
    | inr e => (e, ctx)
    | inl (datr, ptr) =>
    match PARSE_INT_OR_RETURN kstrtou8 ptr with
    | inr e => (e, ctx)
    | inl (datw, ptr) =>
    match PARSE_INT_OR_RETURN kstrtou8 ptr with
    | inr e => (e, ctx)
    | inl (ed, ptr) =>
        let params := BusParams addr t datw datr ed in
        let '(err, ctx) := scd_set_smbus_params kzalloc_ok ctx bus params in
        if err =? 0 then (Z.of_nat count, ctx) else (err, ctx)
    end end end end end end.

Definition smbus_tweaks (kzalloc_ok : bool) (ctx : option scd_context)
    (buf : string) (count : nat) : Z * option scd_context :=
  match ctx with
  | None => (- ENODEV, None)
  | Some ctx =>
      let '(res, ctx) := parse_lines (parse_smbus_tweak kzalloc_ok) ctx buf count in
      (res, Some ctx)
  end.

(** [scd_ext_hwmon_finish_init] *)
Definition scd_ext_hwmon_finish_init (ctx : option scd_context)
  : Z * option scd_context :=
  match ctx with
  | None => (- ENODEV, None)
  | Some ctx =>
      (0, Some (ScdContext (res_size ctx) true (smbus_master_list ctx)))
  end.

(* ================================================================== *)
(** ** Vocabulary of the properties *)

(** The validation order as the specification words it: the conditions,
    first match wins, each with its reason. *)
Definition validation_order : list ((Z -> Z -> bool) * string) :=
  [ (fun resp _ => negb (resp.[Rsp.fe] =? 0), "fe"%string);
    (fun resp _ => negb (resp.[Rsp.ack_error] =? 0), "ack"%string);
    (fun resp _ => negb (resp.[Rsp.timeout_error] =? 0), "timeout"%string);
    (fun resp _ => negb (resp.[Rsp.bus_conflict_error] =? 0), "conflict"%string);
    (fun resp _ => negb (resp.[Rsp.flushed] =? 0), "flush"%string);
    (fun resp tid => negb (resp.[Rsp.ti] =? tid), "tid"%string);
    (fun resp _ => negb (resp.[Rsp.foe] =? 0), "overflow"%string) ].

Definition reason_string (error : string) : string :=
  SET_FAIL_REASON ("bad response: " ++ error)%string.

Definition first_failure (resp tid : Z) : option string :=
  option_map snd (find (fun c => fst c resp tid) validation_order).

(** The values written to the request register, read from the response
    register and stored into the caller's buffer, in trace order. *)
Definition reqs (l : list event) : list Z :=
  flat_map (fun e => match e with EvWriteReq v => [v] | _ => [] end) l.
Definition resps (l : list event) : list Z :=
  flat_map (fun e => match e with EvReadResp v => [v] | _ => [] end) l.
Definition stores (l : list event) : list (Z * Z) :=
  flat_map (fun e => match e with EvStore i v => [(i, v)] | _ => [] end) l.

(** The values the hardware gives at the j-th control/status read and at
    the j-th response read from world [w] on. *)
Definition cs_at (w : world) (j : nat) : Z := u32 (cs_in w (cs_n w + j)).
Definition resp_at (w : world) (j : nat) : Z := u32 (resp_in w (resp_n w + j)).

(** What [smbus_master_reset] leaves in the trace when the control/status
    register reads [cs]. *)
Definition reset_trace (cs : Z) : list event :=
  [ EvReadCs cs;
    EvWriteCs cs.[Cs.reset := 1].[Cs.foe := 1];
    EvMdelay 50;
    EvWriteCs cs.[Cs.reset := 1].[Cs.foe := 1].[Cs.reset := 0];
    EvMdelay 50 ].

(** The fifo polling of [smbus_master_read_resp] that sleeps [m] times:
    [cs j] is the j-th value read. *)
Definition poll_trace (cs : nat -> Z) (m : nat) : list event :=
  flat_map (fun j => [EvReadCs (cs j); EvMsleep 10]) (seq 0 m)
  ++ [EvReadCs (cs m)].

(** The world after [n] executions of the whole exchange, each given the
    reason buffer the previous one left, and the status of the next one. *)
Fixpoint after_attempts (n : nat) (master : scd_smbus_master) (bus : scd_smbus)
    (addr flags read_write command size data_size : Z)
    (fail_reason : string) (w : world) : string * world :=
  match n with
  | O => (fail_reason, w)
  | S n' =>
      let '(fr, w') := after_attempts n' master bus addr flags read_write
                         command size data_size fail_reason w in
      let '((_, fr'), w'') := scd_smbus_do master bus addr flags read_write
                                command size data_size fr w' in
      (fr', w'')
  end.

Definition attempt_status (n : nat) (master : scd_smbus_master) (bus : scd_smbus)
    (addr flags read_write command size data_size : Z)
    (fail_reason : string) (w : world) : Z :=
  let '(fr, w') := after_attempts n master bus addr flags read_write
                     command size data_size fail_reason w in
  fst (fst (scd_smbus_do master bus addr flags read_write command size
              data_size fr w')).

(** A response register value that passes validation against [tid]. *)
Definition resp_ok (resp tid : Z) : bool :=
  fst (smbus_check_resp resp tid None) =? 0.

(** The world after the final warning of [scd_smbus_access_impl]. *)
Definition gave_up (fail_reason : string) (w : world) : world :=
  snd (emit (EvWarn ("smbus failed (" ++ fail_reason ++ ")")%string) w).

(** The number of times [scd_smbus_access_impl] can execute the exchange. *)
Definition max_attempts (master : scd_smbus_master) : nat :=
  Z.to_nat (Z.max 1 (m_max_retries master)).

(** The buffer after a list of stores, oldest first. *)
Definition apply_stores (l : list (Z * Z)) (d : Z -> Z) : Z -> Z :=
  fold_left (fun d iv => fun j => if j =? fst iv then snd iv else d j) l d.

(** [run w w' l]: world [w'] is world [w] after the events [l]: the
    hardware is the same, the responses read are the next ones of the
    response register, the buffer has received the stores of [l]. *)
Record run (w w' : world) (l : list event) : Prop := MkRun {
  run_cs_in : cs_in w' = cs_in w;
  run_resp_in : resp_in w' = resp_in w;
  run_trace : trace w' = trace w ++ l;
  run_resp_n : resp_n w' = (resp_n w + List.length (resps l))%nat;
  run_resps : resps l = map (resp_at w) (seq 0 (List.length (resps l)));
  run_data : forall j, data w' j = apply_stores (stores l) (data w) j
}.

(** Events that touch neither the request register, nor the response
    register, nor the buffer. *)
Definition quiet (l : list event) : Prop :=
  reqs l = [] /\ resps l = [] /\ stores l = [].

(** The value that iteration [i] of the request loop writes, from the
    value [req] left by the previous iteration and the buffer [d]. *)
Definition phase_req (i : Z) (params : bus_params)
    (addr read_write command ss data_offset : Z) (d : Z -> Z) (req : Z) : Z :=
  let req :=
    if i =? ss - 1 then
      let req := req.[Req.sp := 1] in
      let req := req.[Req.ed := bp_ed params] in
      if read_write =? I2C_SMBUS_WRITE
      then req.[Req.dat := bp_datw params]
      else req.[Req.dat := bp_datr params]
    else req in
  let req :=
    if i =? 1 then
      let req := req.[Req.st := 0].[Req.ss := 0].[Req.d := command] in
      if ss =? 2
      then req.[Req.dod := if read_write =? I2C_SMBUS_WRITE then 1 else 0]
      else req.[Req.dod := 1]
    else req in
  let req :=
    if (i =? 2) && (read_write =? I2C_SMBUS_READ)
    then req.[Req.st := 1].[Req.d := addr_byte addr 1]
    else req in
  let req :=
    if (2 <=? i) && (read_write =? I2C_SMBUS_WRITE)
    then req.[Req.d := u8 (d (u32 (data_offset + i - 2)))]
    else req in
  let req :=
    if (i =? 3) && (read_write =? I2C_SMBUS_READ)
    then req.[Req.dod := 0]
    else req in
  set_da req.

(** The data width that goes with a direction. *)
Definition dat_of (params : bus_params) (read_write : Z) : Z :=
  if read_write =? I2C_SMBUS_WRITE then bp_datw params else bp_datr params.

(** The transaction-id expected on the j-th response after [req]. *)
Definition tid_at (req : Z) (j : nat) : Z := (req.[Req.ti] + Z.of_nat j) mod 16.

(** The capacity check of phase [i] of the response loop trips. *)
Definition overflows (read_write size data_size i : Z) : bool :=
  (read_write =? I2C_SMBUS_READ)
  && negb ((size =? I2C_SMBUS_BYTE) || (size =? I2C_SMBUS_BYTE_DATA))
  && negb (size =? I2C_SMBUS_WORD_DATA)
  && (3 <=? i)
  && (if size =? I2C_SMBUS_I2C_BLOCK_DATA
      then data_size <=? i - 2 else data_size <=? i - 3).

(** What phase [i] of the response loop stores when it is given [resp]
    and its capacity check does not trip; [d] is the buffer (the second
    byte of a word is or-ed into what the buffer holds). *)
Definition phase_stores (read_write size ss i resp : Z) (d : Z -> Z)
  : list (Z * Z) :=
  if read_write =? I2C_SMBUS_READ then
    if (size =? I2C_SMBUS_BYTE) || (size =? I2C_SMBUS_BYTE_DATA) then
      if i =? ss - 1 then [(0, resp.[Rsp.d])] else []
    else if size =? I2C_SMBUS_WORD_DATA then
      if i =? ss - 2 then [(0, resp.[Rsp.d]); (1, Z.shiftr resp.[Rsp.d] 8)]
      else if i =? ss - 1 then
        let v := Z.lor (u8 (d 0) + 256 * u8 (d 1)) (Z.shiftl resp.[Rsp.d] 8) in
        [(0, v); (1, Z.shiftr v 8)]
      else []
    else if 3 <=? i then
      if size =? I2C_SMBUS_I2C_BLOCK_DATA
      then [(i - 2, resp.[Rsp.d])] else [(i - 3, resp.[Rsp.d])]
    else []
  else [].

(** A sequence of [data->block[i] = v]. *)
Fixpoint do_stores (l : list (Z * Z)) (w : world) : world :=
  match l with
  | [] => w
  | (i, v) :: l' => do_stores l' (snd (store i v w))
  end.

Definition store_events (l : list (Z * Z)) : list event :=
  map (fun iv => EvStore (fst iv) (u8 (snd iv))) l.

(** A store as it shows in the trace: the byte kept is [u8 v]. *)
Definition stored (iv : Z * Z) : Z * Z := (fst iv, u8 (snd iv)).

(** The bound of the read loop of the hardware-assisted block read once
    the length byte (the response of phase 3) is in: [ss] itself after
    phase 3, [ss] plus the length byte that is still to come before. *)
Definition final_ss (i ss : Z) (w : world) : Z :=
  if i <=? 3 then u32 (ss + (resp_at w (Z.to_nat (3 - i))).[Rsp.d]) else ss.

(** What phase [i] of that loop stores. *)
Definition br_stores (i resp : Z) : list (Z * Z) :=
  if 3 <=? i then [(i - 3, u8 resp.[Rsp.d])] else [].

(** The three ways through [scd_smbus_do_impl]: one exchange, the
    hardware-assisted block read, the length probe followed by the block
    exchange. *)
Definition req_init (bus : scd_smbus) (params : bus_params) : Z :=
  0.[Req.bs := bus_id bus].[Req.t := bp_t params].

Definition single_exchange (size read_write : Z) : bool :=
  negb ((size =? I2C_SMBUS_BLOCK_DATA) && negb (read_write =? I2C_SMBUS_WRITE)).

(** [ss] and [data_offset] as the [switch] sets them; [b0] is
    [data->block[0]]. *)
Definition plan (size read_write data_size b0 : Z) : Z * Z :=
  if size =? I2C_SMBUS_QUICK then (1, 0)
  else if size =? I2C_SMBUS_BYTE then (2, 0)
  else if size =? I2C_SMBUS_BYTE_DATA then
    (if read_write =? I2C_SMBUS_WRITE then 3 else 4, 0)
  else if size =? I2C_SMBUS_WORD_DATA then
    (if read_write =? I2C_SMBUS_WRITE then 4 else 5, 0)
  else if size =? I2C_SMBUS_I2C_BLOCK_DATA_MSG then
    (if read_write =? I2C_SMBUS_WRITE
     then u32 (2 + data_size) else u32 (3 + data_size), 0)
  else if size =? I2C_SMBUS_I2C_BLOCK_DATA then
    (if read_write =? I2C_SMBUS_WRITE then 2 + b0 else 3 + b0, 1)
  else if size =? I2C_SMBUS_BLOCK_DATA then (3 + b0, 0)
  else (0, 0).

Definition fail_with (r : Z) (fail_reason : string) : M (Z * string) :=
  (smbus_master_reset ;; ret (r, fail_reason))%monad.

Definition hw_path (bus : scd_smbus) (addr command data_size : Z)
    (fail_reason : string) : M (Z * string) :=
  (r <- scd_smbus_block_read bus addr command data_size ;;
   if negb (r =? 0)
   then fail_with r (SET_FAIL_REASON "block read failed")
   else ret (0, fail_reason))%monad.

Definition nested_path (bus : scd_smbus)
    (addr read_write command size data_size : Z) (fail_reason : string)
  : M (Z * string) :=
  let p := get_smbus_params bus addr in
  ('(r, fr1) <- exchange p addr I2C_SMBUS_READ command I2C_SMBUS_BYTE_DATA
                  data_size 4 0 (req_init bus p) EmptyString ;;
   if negb (r =? 0)
   then fail_with r (SET_FAIL_REASON ("block size: " ++ fr1)%string)
   else b0 <- load 0 ;;
        exchange p addr read_write command size data_size (4 + b0) 0
                 (req_init bus p) fail_reason)%monad.

(** The transaction-id expected on the j-th response of one call of
    [scd_smbus_do_impl]: the ids start again at 0 with each exchange, and
    the length probe is an exchange of four phases. *)
Definition exp_tid (probe : bool) (j : nat) : Z :=
  if probe then
    if (j <? 4)%nat then Z.of_nat j else Z.of_nat (j - 4) mod 16
  else Z.of_nat j mod 16.

(** The call goes through the length probe. *)
Definition with_probe (master : scd_smbus_master) (size read_write : Z) : bool :=
  (size =? I2C_SMBUS_BLOCK_DATA) && negb (read_write =? I2C_SMBUS_WRITE)
  && negb (m_br_supported master).

(** How a call that returned [r] after the events [l] went, as far as
    validation is concerned: every response read but the last one passed;
    the status is [-EIO] exactly when the last one failed, and then
    nothing follows that read but one or two master resets; a status of
    [-EINVAL] is followed by a master reset as well. *)
Definition validation_outcome (tid : nat -> Z) (w : world) (r : Z)
    (l : list event) : Prop :=
  let n := List.length (resps l) in
  (r = 0 \/ r = - EIO \/ r = - EINVAL) /\
  (forall j, (S j < n)%nat -> resp_ok (resp_at w j) (tid j) = true) /\
  (r <> - EIO ->
   forall j, (j < n)%nat -> resp_ok (resp_at w j) (tid j) = true) /\
  (r = - EIO ->
   exists k pre tail cs,
     n = S k /\ resp_ok (resp_at w k) (tid k) = false /\
     l = pre ++ [EvReadResp (resp_at w k)] ++ tail ++ reset_trace cs /\
     (tail = [] \/ exists cs', tail = reset_trace cs')) /\
  (r = - EINVAL -> exists pre cs, l = pre ++ reset_trace cs).

(** The table of phase counts of the specification (section 4.2), for a
    shape and a direction: [len] is the length of an address-prefixed
    block, [b0] the length byte of a length-prefixed buffer.  The code
    has two shapes whose buffer starts with its length, the i2c block
    and the SMBus block (the one with a hardware-assisted read); the
    table has the one row "block (length-prefixed buffer): 2+buf[0],
    3+buf[0] or hardware-assisted path" for them. *)
Definition table_phases (size read_write len b0 : Z) : option Z :=
  let wr := read_write =? I2C_SMBUS_WRITE in
  if size =? I2C_SMBUS_QUICK then Some 1
  else if size =? I2C_SMBUS_BYTE then Some 2
  else if size =? I2C_SMBUS_BYTE_DATA then Some (if wr then 3 else 4)
  else if size =? I2C_SMBUS_WORD_DATA then Some (if wr then 4 else 5)
  else if size =? I2C_SMBUS_I2C_BLOCK_DATA_MSG
       then Some (if wr then 2 + len else 3 + len)
  else if size =? I2C_SMBUS_I2C_BLOCK_DATA
       then Some (if wr then 2 + b0 else 3 + b0)
  else if size =? I2C_SMBUS_BLOCK_DATA
       then Some (if wr then 2 + b0 else 3 + b0)
  else None.

(** Transaction-ids that go 0, 1, 2, ... : strictly increasing from 0
    with no gaps. *)
Definition counts_from_0 (ids : list Z) : Prop :=
  forall j, (j < List.length ids)%nat -> nth j ids 0 = Z.of_nat j.

(** The events a call added to the trace. *)
Definition new_events (w w' : world) : list event :=
  skipn (List.length (trace w)) (trace w').

(** An override as [scd_set_smbus_params] records it. *)
Definition recorded (params : bus_params) : bus_params :=
  BusParams (bp_addr params) (bp_t params) (bp_datw params) (bp_datr params)
            (bp_ed params).

(** The context with its [initialized] flag set to [b]. *)
Definition with_initialized (b : bool) (ctx : scd_context) : scd_context :=
  ScdContext (res_size ctx) b (smbus_master_list ctx).

(** The block shapes, and what it means for the block the hardware
    returns to fit a buffer of [data_size] bytes: an i2c-block read of
    [block[0]] bytes fills indices 1 to [block[0]]; an SMBus block read
    whose length byte (the data of the response of phase 3) is [L] fills
    indices 0 to [L]; a message read asks for exactly [data_size] bytes. *)
Definition block_like (size : Z) : Prop :=
  size = I2C_SMBUS_I2C_BLOCK_DATA \/ size = I2C_SMBUS_BLOCK_DATA \/
  size = I2C_SMBUS_I2C_BLOCK_DATA_MSG.

Definition block_fits (size data_size : Z) (w : world) : Prop :=
  if size =? I2C_SMBUS_I2C_BLOCK_DATA then
    1 <= u8 (data w 0) -> u8 (data w 0) < data_size
  else if size =? I2C_SMBUS_BLOCK_DATA then
    (resp_at w 3).[Rsp.d] < data_size
  else True.

Definition in_buffer (data_size : Z) (iv : Z * Z) : Prop :=
  0 <= fst iv < data_size.

(* ================================================================== *)
(** ** Vocabulary of the exchanges of a call *)

(** The length byte of an SMBus block read: the data of the response of
    phase 3, of the length probe or of the hardware-assisted read. *)
Definition length_byte (w : world) : Z := (resp_at w 3).[Rsp.d].

(** The four responses of the length probe pass validation. *)
Definition probe_passes (w : world) : bool :=
  forallb (fun j => resp_ok (resp_at w j) (Z.of_nat j)) (seq 0 4).

(** The transaction-ids of one exchange of [n] phases: [n] of them, the
    j-th (from 0) is [j mod 16], the id being a 4-bit field; they count
    from 0 without a gap when there are at most 16. *)
Definition exchange_ids (n : Z) (ids : list Z) : Prop :=
  List.length ids = Z.to_nat n /\
  (forall j, (j < List.length ids)%nat -> nth j ids 0 = Z.of_nat j mod 16) /\
  (n <= 16 -> counts_from_0 ids).

(** The data width and early-data flag in the requests of one exchange
    of [n] phases in direction [rw] under the parameters [p]: [n]
    requests, the last one with the width of the direction (2-bit
    field) and the flag (1-bit field), the earlier ones with zero
    there. *)
Definition exchange_widths (p : bus_params) (rw n : Z) (rq : list Z) : Prop :=
  List.length rq = Z.to_nat n /\
  forall j, (j < List.length rq)%nat ->
    if (S j =? List.length rq)%nat
    then (nth j rq 0).[Req.dat] = dat_of p rw mod 4 /\
         (nth j rq 0).[Req.ed] = bp_ed p mod 2
    else (nth j rq 0).[Req.dat] = 0 /\ (nth j rq 0).[Req.ed] = 0.

(** The number of responses a call has to read: those of its one
    exchange; on the hardware-assisted path the four of the header and
    the bytes that the length byte announces; with the length probe, its
    four and then those of the block exchange. *)
Definition responses_due (master : scd_smbus_master)
    (size read_write data_size : Z) (w : world) : Z :=
  if single_exchange size read_write
  then fst (plan size read_write data_size (u8 (data w 0)))
  else if m_br_supported master then 4 + length_byte w
  else 4 + (4 + length_byte w).

(** The capacity check that follows the validation of the j-th response
    of a call trips. *)
Definition capacity_trips (master : scd_smbus_master)
    (size read_write data_size : Z) (j : nat) : bool :=
  if single_exchange size read_write
  then overflows read_write size data_size (Z.of_nat j)
  else if m_br_supported master
  then (3 <=? Z.of_nat j) && (data_size <=? Z.of_nat j - 3)
  else (4 <=? Z.of_nat j) && overflows read_write size data_size (Z.of_nat j - 4).

(** The engine of the hardware-assisted block read is done in time: the
    busy bit is set at the first [m] reads of the control/status
    register, clear at the next, and [m] sleeps are below the timeout of
    the timing class. *)
Definition engine_done (bus : scd_smbus) (addr : Z) (w : world) (m : nat)
  : Prop :=
  Z.of_nat m < block_read_timeout (bp_t (get_smbus_params bus addr)) /\
  (forall j, (j < m)%nat -> (cs_at w j).[Cs.brb] <> 0) /\
  (cs_at w m).[Cs.brb] = 0.

(* ================================================================== *)
(** ** Example inputs *)

Module Ex.

(** A master without and with the hardware-assisted block read, and one
    configured with [smbus_master_max_retries=0]. *)
Definition master : scd_smbus_master := ScdSmbusMaster 0 false 6 [].
Definition master_hw : scd_smbus_master := ScdSmbusMaster 0 true 6 [].
Definition master_0 : scd_smbus_master := ScdSmbusMaster 0 false 0 [].

(** Bus 2 (adapter 7), with an override for address 80: timing class 2,
    write width 1, read width 2, early data. *)
Definition bus : scd_smbus := ScdSmbus 2 7 [BusParams 80 2 1 2 1].

(** Hardware whose fifo is never empty and whose j-th response is a good
    one, with transaction-id [j mod 16] and data [100 + j]; the buffer
    starts with [b0] at index 0. *)
Definition good_resp (j : nat) : Z :=
  (0.[Rsp.d := 100 + Z.of_nat j]).[Rsp.ti := Z.of_nat j].
Definition good (b0 : Z) : world :=
  World (fun _ => 1) good_resp 0 0 (fun i => if i =? 0 then b0 else 0) [].

(** Hardware that answers every phase with an ack error. *)
Definition nack : world :=
  World (fun _ => 1) (fun _ => 0.[Rsp.ack_error := 1]) 0 0 (fun _ => 0) [].

(** An initialised device with one master and the bus above. *)
Definition ctx : scd_context :=
  ScdContext 4096 true [ScdSmbusMaster 0 false 6 [bus]].

(** A header for the MDIO engine: delays 1, 2, 4, ... microseconds, the
    wait over past 1000, a 2-bit result count. *)
Definition mdio_h : Mdio.scd_mdio_h :=
  Mdio.ScdMdioH 1 (fun d => 1000 <? d) 100 (fun d => 2 * d) 0 1 2
    (Field 0 2) (Field 2 2) (Field 30 1) (Field 31 1)
    (Field 0 6) (Field 6 1) (Field 7 2) (Field 9 5) (Field 14 5) (Field 16 16)
    (Field 0 8)
    (Field 0 1) (Field 1 1) (Field 16 16).

(** MDIO hardware that is ready at the third poll and answers with the
    transaction-started bit and the data 0x1234. *)
Definition mdio_w : Mdio.world :=
  Mdio.World (fun n => if (n <? 2)%nat then 0 else 1)
             (fun _ => (0.[Field 0 1 := 1]).[Field 16 16 := 4660])
             0 0 0 [].

End Ex.

(* ================================================================== *)
(** ** The request sequence of an exchange *)

(** The values the request loop writes in [n] iterations from iteration
    [i] on, the buffer being [d] and [req] what the previous iteration
    left. *)
Fixpoint phase_reqs (n : nat) (i : Z) (params : bus_params)
    (addr read_write command ss data_offset : Z) (d : Z -> Z) (req : Z)
  : list Z :=
  match n with
  | O => []
  | S n' =>
      let v := phase_req i params addr read_write command ss data_offset d req in
      v :: phase_reqs n' (i + 1) params addr read_write command ss data_offset d
             (inc_ti v).[Req.st := 0]
  end.

(** [req] as [scd_smbus_do_impl] has it when the request loop starts. *)
Definition req_start (bus : scd_smbus) (params : bus_params)
    (addr read_write ss : Z) : Z :=
  (req_init bus params).[Req.st := 1].[Req.ss := ss]
    .[Req.d := addr_byte addr (if ss <=? 2 then read_write else 0)]
    .[Req.dod := 1].

(** The buffer after the response loop has processed [n] phases from
    phase [i] on, all of them passing: [resp j] is the j-th response it
    reads, [d] the buffer before. *)
Fixpoint read_data (n : nat) (i : Z) (read_write size ss : Z)
    (resp : nat -> Z) (d : Z -> Z) : Z -> Z :=
  match n with
  | O => d
  | S n' =>
      read_data n' (i + 1) read_write size ss (fun j => resp (S j))
        (apply_stores
           (map stored (phase_stores read_write size ss i (resp O) d)) d)
  end.

(* ================================================================== *)
(** ** The i2c message interface: [scd_smbus_master_xfer] *)

Definition I2C_M_RD : Z := 1.

(** [struct i2c_msg].  [msg_buf0] is [buf[0]]; the bytes that the
    transfer reads or writes through the [data] pointer are the buffer of
    the world: [msgs[1].buf] in a two-message transfer, [&msgs[0].buf[1]]
    in a one-message transfer. *)
Record i2c_msg : Type := I2cMsg {
  msg_addr : Z;
  msg_flags : Z;
  msg_len : Z;
  msg_buf0 : Z
}.

Definition scd_smbus_master_xfer_get_command (msg : i2c_msg) : Z :=
  if negb (Z.land (msg_flags msg) I2C_M_RD =? 0) || negb (msg_len msg =? 1)
  then - EINVAL
  else u8 (msg_buf0 msg).

(** [msg0] and [msg1] are [msgs[0]] and [msgs[1]]; the second is looked
    at only when [num == 2]. *)
Definition scd_smbus_master_xfer (master : scd_smbus_master) (bus : scd_smbus)
    (msg0 msg1 : i2c_msg) (num : Z) : M Z :=
  if 2 <? num then
    emit (EvErr "i2c rw (unsupported request)"%string) ;;
    ret (- EINVAL)
  else
    let sel :=
      if num =? 2 then
        let command := scd_smbus_master_xfer_get_command msg0 in
        if command <? 0 then inr command
        else inl (command, msg_len msg1, msg1)
      else inl (u8 (msg_buf0 msg0), msg_len msg0 - 1, msg0) in
    match sel with
    | inr e => ret e
    | inl (command, len, msg) =>
        let read_write :=
          if negb (Z.land (msg_flags msg) I2C_M_RD =? 0)
          then I2C_SMBUS_READ else 0 in
        r <- scd_smbus_access_impl master bus (msg_addr msg) 0 read_write
               command I2C_SMBUS_I2C_BLOCK_DATA_MSG len ;;
        if negb (r =? 0)
        then emit (EvWarn "i2c rw error"%string) ;; ret r
        else ret num
    end.

(* ================================================================== *)
(** ** Lines and tokens of a configuration write *)

(** Characters that end neither a line nor the C string, and characters
    that in addition do not end a token. *)
Definition line_char (a : ascii) : bool :=
  negb (Ascii.eqb a NL) && negb (Ascii.eqb a NUL).
Definition token_char (a : ascii) : bool :=
  line_char a && negb (Ascii.eqb a SPACE).

Fixpoint all_chars (p : ascii -> bool) (s : string) : bool :=
  match s with
  | EmptyString => true
  | String a s' => p a && all_chars p s'
  end.

(** A line of a write: not empty, no newline, no NUL.  A token: not
    empty, and no space either. *)
Definition line_ok (s : string) : bool :=
  negb (String.eqb s EmptyString) && all_chars line_char s.
Definition token_ok (s : string) : bool :=
  negb (String.eqb s EmptyString) && all_chars token_char s.

(** [n] newlines. *)
Fixpoint newlines (n : nat) : string :=
  match n with
  | O => EmptyString
  | S n' => String NL (newlines n')
  end.

(** Lines separated by one newline, and tokens separated by one space. *)
Fixpoint join_with (sep : ascii) (ls : list string) : string :=
  match ls with
  | [] => EmptyString
  | [l] => l
  | l :: ls' => l ++ String sep (join_with sep ls')
  end.

(** The lines given to a line parser one after the other: the first
    error ends the sequence and is the result, what the lines before it
    did to the registry stays; when no line fails the result is
    [count]. *)
Fixpoint run_lines (parser : line_parser_func) (ctx : scd_context)
    (ls : list string) (count : Z) : Z * scd_context :=
  match ls with
  | [] => (count, ctx)
  | l :: ls' =>
      let '(res, ctx) := parser ctx l (String.length l) in
      if res <? 0 then (res, ctx) else run_lines parser ctx ls' count
  end.

(* ================================================================== *)
(** ** The [smbus_master] line of [new_object] *)

Definition MASTER_DEFAULT_BUS_COUNT : Z := 8.
Definition kstrtou32 := kstrtou 32.

(** [PARSE_ADDR_OR_RETURN(Buf, Tmp, Type, Ptr, Size)] *)
Definition PARSE_ADDR_OR_RETURN (kstrto : string -> Z + Z) (buf : option string)
    (size : Z) : (Z * option string) + Z :=
  match PARSE_INT_OR_RETURN kstrto buf with
  | inl (v, buf) => if size <? v then inr (- EINVAL) else inl (v, buf)
  | inr e => inr e
  end.

(** [PARSE_END_OR_RETURN(Buf, Tmp)]: [Some error] when the macro returns. *)
Definition PARSE_END_OR_RETURN (buf : option string) : option Z :=
  let '(tmp, _) := strsep buf SPACE in
  match tmp with
  | Some _ => Some (- EINVAL)
  | None => None
  end.

(** [parse_new_object_smbus_master]; [scd_smbus_master_add] creates kernel
    objects and talks to the hardware, it is the parameter [add]. *)
Definition parse_new_object_smbus_master
    (add : scd_context -> Z -> Z -> Z -> Z * scd_context)
  : new_object_parse_func :=
  fun ctx buf count =>
  match buf with
  | None => (- EINVAL, ctx)
  | Some _ =>
    match PARSE_ADDR_OR_RETURN kstrtou32 buf (res_size ctx) with
    | inr e => (e, ctx)
    | inl (addr, buf) =>
    match PARSE_INT_OR_RETURN kstrtou32 buf with
    | inr e => (e, ctx)
    | inl (id, buf) =>
        let '(tmp, buf) := strsep buf SPACE in
        let finish (bus_count : Z) :=
          let '(res, ctx) := add ctx addr id bus_count in
          if res =? 0 then (count, ctx) else (res, ctx) in
        match tmp with
        | Some (String a t) =>
            match kstrtou32 (String a t) with
            | inr e => (e, ctx)
            | inl bus_count =>
                match PARSE_END_OR_RETURN buf with
                | Some e => (e, ctx)
                | None => finish bus_count
                end
            end
        | _ => finish MASTER_DEFAULT_BUS_COUNT
        end
    end end
  end.

(* ================================================================== *)
(** ** GPIO, transceiver and reset attributes *)

(** *** [kstrtol] with base 10 (kernel library, lib/kstrtox.c), for a
    64-bit [long]: an optional sign, at least one decimal digit, an
    optional final newline, nothing else. *)

(** [_kstrtoull] with [base = 10]: no prefix is looked for. *)
Definition _kstrtoull10 (s : string) : Z + Z :=
  let '(v, n, rest) := parse_digits 10 s 0 0 in
  if 2 ^ 64 <=? v then inr (- ERANGE)
  else if Nat.eqb n 0 then inr (- EINVAL)
  else
    let rest := match rest with
                | String a r => if Ascii.eqb a NL then r else rest
                | EmptyString => rest
                end in
    match rest with
    | EmptyString => inl v
    | String _ _ => inr (- EINVAL)
    end.

Definition kstrtol10 (s : string) : Z + Z :=
  match s with
  | String "-"%char s' =>
      match _kstrtoull10 s' with
      | inr e => inr e
      | inl tmp => if 2 ^ 63 <? tmp then inr (- ERANGE) else inl (- tmp)
      end
  | _ =>
      let s := match s with String "+"%char s' => s' | _ => s end in
      match _kstrtoull10 s with
      | inr e => inr e
      | inl tmp => if 2 ^ 63 <=? tmp then inr (- ERANGE) else inl tmp
      end
  end.

(** [sprintf(buf, "%u\n", res)] for a [u32]: the decimal digits and a
    newline; a [u32] has at most ten digits. *)
Fixpoint utoa (fuel : nat) (n : Z) (acc : string) : string :=
  match fuel with
  | O => acc
  | S fuel' =>
      let acc := String (ascii_of_nat (48 + Z.to_nat (n mod 10))) acc in
      if n / 10 =? 0 then acc else utoa fuel' (n / 10) acc
  end.

Definition sprintf_u_nl (res : Z) : string :=
  utoa 10 (u32 res) (String NL EmptyString).

Module Gpio.

Inductive event : Type :=
| EvRead (addr v : Z)       (* scd_read_register(pdev, addr) = v *)
| EvWrite (addr v : Z).     (* scd_write_register(pdev, addr, v) *)

(** [reg_in] is what the device answers to the n-th register read. *)
Record world : Type := World {
  reg_in : nat -> Z;
  reg_n : nat;
  trace : list event
}.

Definition M : Type -> Type := St world.

Definition scd_read_register (addr : Z) : M Z :=
  fun w => let v := u32 (reg_in w (reg_n w)) in
           (v, World (reg_in w) (S (reg_n w)) (trace w ++ [EvRead addr v])).

Definition scd_write_register (addr v : Z) : M unit :=
  fun w => (tt, World (reg_in w) (reg_n w) (trace w ++ [EvWrite addr v])).

(** [1 << bit] and [~(1 << bit)] as they enter an operation with a
    [u32].  [bit] is a [u32] that nothing bounds ([scd_gpio_add] and the
    like take it as parsed); C defines the shift of an [int] for a count
    below 32 only, and the shift instruction the driver is built to takes
    the count modulo 32, which is what is written here. *)
Definition bit_mask (bit : Z) : Z := u32 (Z.shiftl 1 (bit mod 32)).
Definition bit_unmask (bit : Z) : Z := u32 (Z.lnot (Z.shiftl 1 (bit mod 32))).

(** [!!(reg & (1 << bit))] *)
Definition bit_of (reg bit : Z) : Z :=
  if Z.land reg (bit_mask bit) =? 0 then 0 else 1.

(** [!res] *)
Definition lnot01 (res : Z) : Z := if res =? 0 then 1 else 0.

(** [struct scd_gpio_attribute] *)
Record scd_gpio_attribute : Type := ScdGpioAttribute {
  g_addr : Z;
  g_bit : Z;
  g_active_low : Z
}.

(** The result of a show function: its return value and the text in
    [buf]. *)
Definition show (s : string) : Z * string := (Z.of_nat (String.length s), s).

Definition attribute_gpio_get (gpio : scd_gpio_attribute) : M (Z * string) :=
  reg <- scd_read_register (g_addr gpio) ;;
  let res := bit_of reg (g_bit gpio) in
  let res := if negb (g_active_low gpio =? 0) then lnot01 res else res in
  ret (show (sprintf_u_nl res)).

(** The four assignments to [reg] of the two store functions. *)
Definition set_bit (active_low value bit reg : Z) : Z :=
  if negb (active_low =? 0) then
    if negb (value =? 0) then Z.land reg (bit_unmask bit)
    else Z.lor reg (bit_unmask bit)
  else
    if negb (value =? 0) then Z.lor reg (bit_mask bit)
    else Z.land reg (bit_unmask bit).

Definition attribute_gpio_set (gpio : scd_gpio_attribute) (buf : string)
    (count : Z) : M Z :=
  match kstrtol10 (c_str buf) with
  | inr res => ret res
  | inl value =>
      if negb (value =? 0) && negb (value =? 1) then ret (- EINVAL)
      else
        reg <- scd_read_register (g_addr gpio) ;;
        let reg := set_bit (g_active_low gpio) value (g_bit gpio) reg in
        scd_write_register (g_addr gpio) reg ;;
        ret count
  end.

(** *** Transceivers *)

Definition XCVR_ATTR_MAX_COUNT : nat := 9.

(** [struct scd_xcvr_attribute] *)
Record scd_xcvr_attribute : Type := ScdXcvrAttribute {
  x_bit : Z;
  x_active_low : Z;
  x_clear_on_read : Z;
  x_clear_on_read_value : Z
}.

(** [struct scd_xcvr]; [x_attr] has [XCVR_ATTR_MAX_COUNT] entries. *)
Record scd_xcvr : Type := ScdXcvr {
  x_addr : Z;
  x_attr : list scd_xcvr_attribute
}.

(** The body of the loop of [scd_xcvr_read_register] for [attr[i]]. *)
Definition latch (reg i : Z) (a : scd_xcvr_attribute) : scd_xcvr_attribute :=
  if negb (x_clear_on_read a =? 0) then
    ScdXcvrAttribute (x_bit a) (x_active_low a) (x_clear_on_read a)
      (Z.lor (x_clear_on_read_value a) (bit_of reg i))
  else a.

(** The loop, from index [i] on. *)
Fixpoint latch_from (reg i : Z) (attrs : list scd_xcvr_attribute)
  : list scd_xcvr_attribute :=
  match attrs with
  | [] => []
  | a :: attrs' => latch reg i a :: latch_from reg (i + 1) attrs'
  end.

Definition scd_xcvr_read_register (xcvr : scd_xcvr) : M (Z * scd_xcvr) :=
  reg <- scd_read_register (x_addr xcvr) ;;
  ret (reg, ScdXcvr (x_addr xcvr) (latch_from reg 0 (x_attr xcvr))).

(** [attr[i] = a] *)
Fixpoint assign (i : nat) (a : scd_xcvr_attribute)
    (attrs : list scd_xcvr_attribute) : list scd_xcvr_attribute :=
  match attrs, i with
  | [], _ => []
  | _ :: attrs', O => a :: attrs'
  | b :: attrs', S i' => b :: assign i' a attrs'
  end.

Definition no_attr : scd_xcvr_attribute := ScdXcvrAttribute 0 0 0 0.

(** The attribute is [xcvr->attr[i]]. *)
Definition attribute_xcvr_get (xcvr : scd_xcvr) (i : nat)
  : M (Z * string * scd_xcvr) :=
  '(reg, xcvr) <- scd_xcvr_read_register xcvr ;;
  let gpio := nth i (x_attr xcvr) no_attr in
  let res := bit_of reg (x_bit gpio) in
  let res := if negb (x_active_low gpio =? 0) then lnot01 res else res in
  if negb (x_clear_on_read gpio =? 0) then
    let res := Z.lor (x_clear_on_read_value gpio) res in
    let gpio := ScdXcvrAttribute (x_bit gpio) (x_active_low gpio)
                  (x_clear_on_read gpio) 0 in
    ret (show (sprintf_u_nl res),
         ScdXcvr (x_addr xcvr) (assign i gpio (x_attr xcvr)))
  else ret (show (sprintf_u_nl res), xcvr).

Definition attribute_xcvr_set (xcvr : scd_xcvr) (i : nat) (buf : string)
    (count : Z) : M (Z * scd_xcvr) :=
  match kstrtol10 (c_str buf) with
  | inr res => ret (res, xcvr)
  | inl value =>
      if negb (value =? 0) && negb (value =? 1) then ret (- EINVAL, xcvr)
      else
        '(reg, xcvr) <- scd_xcvr_read_register xcvr ;;
        let gpio := nth i (x_attr xcvr) no_attr in
        let reg := set_bit (x_active_low gpio) value (x_bit gpio) reg in
        scd_write_register (x_addr xcvr) reg ;;
        ret (count, xcvr)
  end.

(** Reading the attributes [js] of a transceiver one after the other. *)
Fixpoint xcvr_gets (xcvr : scd_xcvr) (js : list nat) : M scd_xcvr :=
  match js with
  | [] => ret xcvr
  | j :: js' =>
      '(_, xcvr) <- attribute_xcvr_get xcvr j ;;
      xcvr_gets xcvr js'
  end.

(** The value of the k-th register read from world [w] on, and whether
    bit [i] is set in one of the first [n] of them (0 or 1). *)
Definition reg_at (w : world) (k : nat) : Z := u32 (reg_in w (reg_n w + k)).

Fixpoint seen (w : world) (n : nat) (i : Z) : Z :=
  match n with
  | O => 0
  | S n' => Z.lor (seen w n' i) (bit_of (reg_at w n') i)
  end.

(** *** Resets *)

Definition RESET_SET_OFFSET : Z := 0.
Definition RESET_CLEAR_OFFSET : Z := 16.

(** [struct scd_reset_attribute] *)
Record scd_reset_attribute : Type := ScdResetAttribute {
  r_addr : Z;
  r_bit : Z
}.

Definition attribute_reset_get (reset : scd_reset_attribute) : M (Z * string) :=
  reg <- scd_read_register (r_addr reset) ;;
  let res := bit_of reg (r_bit reset) in
  ret (show (sprintf_u_nl res)).

Definition attribute_reset_set (reset : scd_reset_attribute) (buf : string)
    (count : Z) : M Z :=
  match kstrtol10 (c_str buf) with
  | inr res => ret res
  | inl value =>
      if negb (value =? 0) && negb (value =? 1) then ret (- EINVAL)
      else
        let offset := if value =? 0 then RESET_CLEAR_OFFSET
                      else RESET_SET_OFFSET in
        let reg := bit_mask (r_bit reset) in
        scd_write_register (u32 (r_addr reset + offset)) reg ;;
        ret count
  end.

End Gpio.

(* ================================================================== *)
(** ** The MII bus functions *)

Module Mii.

(** linux/mdio.h *)
Definition MDIO_PHY_ID_C45 : Z := 32768.
Definition MDIO_SUPPORTS_C45 : Z := 2.

Definition u16 (x : Z) : Z := x mod 2 ^ 16.

(** The three locals of [scd_mii_bus_do], from its [addr]. *)
Definition mii_prtad (addr : Z) : Z := Z.shiftr addr 5.
Definition mii_devad (addr : Z) : Z := Z.land addr 31.
Definition mii_clause (addr : Z) : Z :=
  if negb (Z.land addr MDIO_PHY_ID_C45 =? 0) then 1 else 0.

Definition scd_mdio_mii_id (prtad devad mode : Z) : Z :=
  let dev_id := Z.lor (Z.shiftl prtad 5) devad in
  if negb (Z.land mode MDIO_SUPPORTS_C45 =? 0)
  then Z.lor dev_id MDIO_PHY_ID_C45
  else dev_id.

Section Bus.

Variable h : Mdio.scd_mdio_h.
Variable speed : Z.    (* master->speed *)

(** The [data] parameter of [scd_mdio_bus_request] is a [u16]. *)
Definition scd_mii_bus_do (fuel : nat) (bus_id : Z) (addr op regnum val : Z)
  : Mdio.M (option Z) :=
  let prtad := mii_prtad addr in
  let devad := mii_devad addr in
  let clause := mii_clause addr in
  err <- Mdio.scd_mdio_bus_request h speed fuel bus_id (Mdio.SCD_MDIO_SET h)
           clause prtad devad (u16 regnum) ;;
  match err with
  | None => ret None
  | Some err =>
      if negb (err =? 0) then ret (Some err)
      else Mdio.scd_mdio_bus_request h speed fuel bus_id op clause prtad devad
             (u16 val)
  end.

Definition scd_mii_bus_read (fuel : nat) (bus_id : Z) (addr regnum : Z)
  : Mdio.M (option Z) :=
  scd_mii_bus_do fuel bus_id addr (Mdio.SCD_MDIO_READ h) regnum 0.

Definition scd_mii_bus_write (fuel : nat) (bus_id : Z) (addr regnum val : Z)
  : Mdio.M (option Z) :=
  scd_mii_bus_do fuel bus_id addr (Mdio.SCD_MDIO_WRITE h) regnum val.

End Bus.

End Mii.

(* ================================================================== *)
(** ** Adding an SMBus master *)

Definition EEXIST : Z := 17.

(** What the kernel answers for one bus: whether [kzalloc] gives memory,
    and the result of [i2c_add_adapter] with the adapter number it
    assigns. *)
Record bus_env : Type := BusEnv {
  be_kzalloc : bool;
  be_err : Z;
  be_nr : Z
}.

Definition scd_smbus_bus_add (e : bus_env) (master : scd_smbus_master) (id : Z)
  : Z * scd_smbus_master :=
  if negb (be_kzalloc e) then (- ENOMEM, master)
  else if negb (be_err e =? 0) then (be_err e, master)
  else
    (0, ScdSmbusMaster (m_id master) (m_br_supported master)
          (m_max_retries master)
          (m_bus_list master ++ [ScdSmbus id (be_nr e) []])).

(** [for (i = 0; i < bus_count; ++i)], [n] turns from [i] on. *)
Fixpoint bus_add_loop (n : nat) (i : nat) (env : nat -> bus_env)
    (master : scd_smbus_master) : Z * scd_smbus_master :=
  match n with
  | O => (0, master)
  | S n' =>
      let '(err, master) := scd_smbus_bus_add (env i) master (Z.of_nat i) in
      if negb (err =? 0) then (err, master)
      else bus_add_loop n' (S i) env master
  end.

(** How [scd_smbus_master_add] ends.  At [fail_bus] it calls
    [scd_smbus_master_remove] for the master it could not complete; that
    function ends with [list_del(&master->list)], and the master is not
    in [ctx->smbus_master_list] yet: its [list] member is as [kzalloc]
    left it.  What [list_del] does with it is kernel code and is not
    modelled: [UnlinksNewMaster err] is the call reaching it, [err]
    being what [return err] gives back once [list_del] has returned. *)
Inductive add_result : Type :=
| Returns (err : Z) (ctx : scd_context)
| UnlinksNewMaster (err : Z).

(** [kzalloc_ok] is the allocation of the master, [max_retries] the module
    parameter [smbus_master_max_retries]; [addr] places the three
    registers of the master, whose accesses are those of the world. *)
Definition scd_smbus_master_add (kzalloc_ok : bool) (env : nat -> bus_env)
    (max_retries : Z) (ctx : scd_context) (addr id bus_count : Z)
  : M add_result :=
  if existsb (fun master => m_id master =? id) (smbus_master_list ctx)
  then ret (Returns (- EEXIST) ctx)
  else if negb kzalloc_ok then ret (Returns (- ENOMEM) ctx)
  else
    let master := ScdSmbusMaster id false max_retries [] in
    let '(err, master) := bus_add_loop (Z.to_nat bus_count) O env master in
    if negb (err =? 0) then
      smbus_master_reset ;;
      ret (UnlinksNewMaster err)
    else
      smbus_master_reset ;;
      cs <- smbus_master_read_cs ;;
      let master := ScdSmbusMaster (m_id master) (2 <=? cs.[Cs.ver])
                      (m_max_retries master) (m_bus_list master) in
      ret (Returns 0 (ScdContext (res_size ctx) (initialized ctx)
                        (smbus_master_list ctx ++ [master]))).

(* ================================================================== *)
(** ** Showing the overrides: [scd_dump_smbus_tweaks] *)

(** [vsnprintf] of the kernel for the two conversions of the format:
    a signed decimal [int] and a lower-case hexadecimal [unsigned int]
    of at least two digits. *)
Definition s32 (x : Z) : Z :=
  let y := x mod 2 ^ 32 in if y <? 2 ^ 31 then y else y - 2 ^ 32.

Definition fmt_d (v : Z) : string :=
  let v := s32 v in
  if v <? 0 then String "-" (utoa 10 (- v) EmptyString)
  else utoa 10 v EmptyString.

Definition hex_digit (n : Z) : ascii :=
  if n <? 10 then ascii_of_nat (48 + Z.to_nat n)
  else ascii_of_nat (87 + Z.to_nat n).

Fixpoint xtoa (fuel : nat) (n : Z) (acc : string) : string :=
  match fuel with
  | O => acc
  | S fuel' =>
      let acc := String (hex_digit (n mod 16)) acc in
      if n / 16 =? 0 then acc else xtoa fuel' (n / 16) acc
  end.

Definition fmt_02x (v : Z) : string :=
  let s := xtoa 8 (u32 v) EmptyString in
  if (String.length s <? 2)%nat then String "0" s else s.

(** The text of ["%d/%d/%02x: adap=%d t=%d datr=%d datw=%d ed=%d\n"]
    for one override. *)
Definition tweak_text (master : scd_smbus_master) (bus : scd_smbus)
    (params : bus_params) : string :=
  (fmt_d (m_id master) ++ "/" ++ fmt_d (bus_id bus) ++ "/" ++
   fmt_02x (bp_addr params) ++ ": adap=" ++ fmt_d (bus_nr bus) ++
   " t=" ++ fmt_d (bp_t params) ++ " datr=" ++ fmt_d (bp_datr params) ++
   " datw=" ++ fmt_d (bp_datw params) ++ " ed=" ++ fmt_d (bp_ed params) ++
   String NL EmptyString)%string.

(** [scnprintf(buf + count, size, ...)] of a text: the characters it
    puts in the buffer, whose number is its result. *)
Definition scnprintf (size : Z) (text : string) : string :=
  let i := Z.of_nat (String.length text) in
  if i <? size then text
  else if negb (size =? 0) then substring 0 (Z.to_nat (size - 1)) text
  else EmptyString.

(** The state of the dump is the text in [buf] and [count]; [inr] is the
    [return count] inside the loops. *)
Definition dump_state : Type := string * Z.

Fixpoint dump_params (max : Z) (master : scd_smbus_master) (bus : scd_smbus)
    (l : list bus_params) (st : dump_state) : dump_state + dump_state :=
  match l with
  | [] => inl st
  | params :: l' =>
      let '(buf, count) := st in
      let out := scnprintf (max - count) (tweak_text master bus params) in
      let count := count + Z.of_nat (String.length out) in
      let st := ((buf ++ out)%string, count) in
      if count =? max then inr st
      else dump_params max master bus l' st
  end.

Fixpoint dump_buses (max : Z) (master : scd_smbus_master) (l : list scd_smbus)
    (st : dump_state) : dump_state + dump_state :=
  match l with
  | [] => inl st
  | bus :: l' =>
      match dump_params max master bus (bus_params_list bus) st with
      | inr st => inr st
      | inl st => dump_buses max master l' st
      end
  end.

Fixpoint dump_masters (max : Z) (l : list scd_smbus_master) (st : dump_state)
  : dump_state + dump_state :=
  match l with
  | [] => inl st
  | master :: l' =>
      match dump_buses max master (m_bus_list master) st with
      | inr st => inr st
      | inl st => dump_masters max l' st
      end
  end.

(** The result and the text in [buf]. *)
Definition scd_dump_smbus_tweaks (ctx : scd_context) (max : Z) : Z * string :=
  match dump_masters max (smbus_master_list ctx) (EmptyString, 0) with
  | inl (buf, count) => (count, buf)
  | inr (buf, count) => (count, buf)
  end.

Definition PAGE_SIZE : Z := 4096.

Definition show_smbus_tweaks (ctx : option scd_context) : Z * string :=
  match ctx with
  | None => (- ENODEV, EmptyString)
  | Some ctx => scd_dump_smbus_tweaks ctx PAGE_SIZE
  end.

(** Every override of the registry as text, in the order of the lists. *)
Definition all_tweaks (ctx : scd_context) : string :=
  String.concat EmptyString
    (flat_map (fun master =>
       flat_map (fun bus => map (tweak_text master bus) (bus_params_list bus))
                (m_bus_list master))
       (smbus_master_list ctx)).

(** What the dump holds after the texts [L]: all of them, or their first
    [max - 1] characters. *)
Definition dumped (max : Z) (L : string) : dump_state :=
  (substring 0 (Z.to_nat (max - 1)) L,
   Z.min (Z.of_nat (String.length L)) (max - 1)).

(* ================================================================== *)
(** ** More example inputs *)

Module Ex2.

(** Hardware whose block read never ends: the busy bit is always set. *)
Definition busy : world :=
  World (fun _ => 0.[Cs.brb := 1]) Ex.good_resp 0 0 (fun _ => 0) [].

(** Responses with the data 2 and the transaction id [j mod 16]; the
    block-read engine is busy at the first poll only. *)
Definition short_resp (j : nat) : Z :=
  (0.[Rsp.d := 2]).[Rsp.ti := Z.of_nat j].
Definition hw_ready : world :=
  World (fun n => if (n <? 1)%nat then 0.[Cs.brb := 1] else 1)
        short_resp 0 0 (fun _ => 0) [].

(** The four responses of a length probe, then those of the read
    itself, whose ids start again at 0. *)
Definition probed_resp (j : nat) : Z :=
  if (j <? 4)%nat then short_resp j
  else (0.[Rsp.d := 50 + Z.of_nat j]).[Rsp.ti := Z.of_nat j - 4].
Definition probed : world :=
  World (fun _ => 1) probed_resp 0 0 (fun _ => 0) [].

(** The same hardware, except that its response 5 (phase 1 of the
    block exchange that follows the probe) is an ack error. *)
Definition late_nack : world :=
  World (fun _ => 1)
        (fun j => if (j =? 5)%nat then 0.[Rsp.ack_error := 1] else probed_resp j)
        0 0 (fun _ => 0) [].

(** A one-byte write of the command 17 and a two-byte read, both to
    address 80; a three-byte write. *)
Definition msg_command : i2c_msg := I2cMsg 80 0 1 17.
Definition msg_read : i2c_msg := I2cMsg 80 I2C_M_RD 2 0.
Definition msg_write : i2c_msg := I2cMsg 80 0 3 17.

(** The device of [Ex.ctx] before [scd_ext_hwmon_finish_init]. *)
Definition ctx0 : scd_context :=
  ScdContext 4096 false [ScdSmbusMaster 0 false 6 [Ex.bus]].

(** [scd_smbus_master_add] without the hardware, and the table of
    [new_object] with it in every place. *)
Definition add0 (ctx : scd_context) (addr id bus_count : Z) : Z * scd_context :=
  (0, ctx).
Definition func0 (name : string) : new_object_parse_func :=
  parse_new_object_smbus_master add0.

(** An active-low GPIO at bit 8, and a register that reads 5 and then
    what a store of 0 to this GPIO writes. *)
Definition gpio : Gpio.scd_gpio_attribute := Gpio.ScdGpioAttribute 20480 8 1.
Definition gpio_w : Gpio.world :=
  Gpio.World (fun n => if (n <? 1)%nat then 5 else 4294967039) 0 [].

(** The same GPIO given the bit position 40, which the shift takes as
    bit 8. *)
Definition gpio_far : Gpio.scd_gpio_attribute :=
  Gpio.ScdGpioAttribute 20480 40 1.

(** The attributes of an SFP, and a register in which bit 3 is set at
    the first read only. *)
Definition sfp : Gpio.scd_xcvr :=
  Gpio.ScdXcvr 20496
    [ Gpio.ScdXcvrAttribute 0 0 0 0; Gpio.ScdXcvrAttribute 1 0 0 0;
      Gpio.ScdXcvrAttribute 2 1 0 0; Gpio.ScdXcvrAttribute 3 0 1 0;
      Gpio.ScdXcvrAttribute 4 0 1 0; Gpio.ScdXcvrAttribute 5 0 1 0;
      Gpio.ScdXcvrAttribute 6 0 0 0; Gpio.ScdXcvrAttribute 7 0 0 0;
      Gpio.ScdXcvrAttribute 8 0 0 0 ].
Definition sfp_w : Gpio.world :=
  Gpio.World (fun n => if (n <? 1)%nat then 8 else 0) 0 [].

Definition reset : Gpio.scd_reset_attribute := Gpio.ScdResetAttribute 16384 3.

(** MDIO hardware that is ready at once and answers without the
    transaction-started bit. *)
Definition mdio_bad : Mdio.world :=
  Mdio.World (fun _ => 1) (fun _ => 0) 0 0 0 [].

(** A kernel that registers every bus as adapter [10 + j], and one that
    has no memory for the second bus. *)
Definition env_ok (j : nat) : bus_env := BusEnv true 0 (10 + Z.of_nat j).
Definition env_short (j : nat) : bus_env := BusEnv (j <? 1)%nat 0 (Z.of_nat j).

End Ex2.

(* ================================================================== *)
(** * Properties *)

(** ** Bit-field algebra *)

Section BitfieldLemmas.

Lemma testbit_ones_full (w i : Z) :
  0 <= w -> Z.testbit (Z.ones w) i = (0 <=? i) && (i <? w).
Proof.
  intros Hw. destruct (Z.leb_spec 0 i) as [Hi|Hi]; simpl.
  - apply Z.testbit_ones_nonneg; assumption.
  - apply Z.testbit_neg_r; assumption.
Qed.

Lemma testbit_get (f : field) (reg i : Z) :
  wf f -> 0 <= i ->
  Z.testbit (get f reg) i = Z.testbit reg (i + f_off f) && (i <? f_width f).
Proof.
  intros [Ho Hw] Hi. unfold get.
  rewrite Z.land_spec, Z.shiftr_spec, testbit_ones_full by assumption.
  replace (0 <=? i) with true by (symmetry; apply Z.leb_le; assumption).
  reflexivity.
Qed.

Lemma testbit_set (f : field) (v reg i : Z) :
  wf f -> 0 <= i ->
  Z.testbit (set f v reg) i =
  if (f_off f <=? i) && (i <? f_off f + f_width f)
  then Z.testbit v (i - f_off f)
  else Z.testbit reg i.
Proof.
  intros [Ho Hw] Hi. unfold set.
  rewrite Z.lor_spec, Z.ldiff_spec, !Z.shiftl_spec, Z.land_spec by assumption.
  rewrite !testbit_ones_full by assumption.
  destruct (Z.leb_spec (f_off f) i) as [H1|H1];
    destruct (Z.ltb_spec i (f_off f + f_width f)) as [H2|H2]; simpl.
  - replace (0 <=? i - f_off f) with true by (symmetry; apply Z.leb_le; lia).
    replace (i - f_off f <? f_width f) with true
      by (symmetry; apply Z.ltb_lt; lia).
    simpl. rewrite andb_false_r, andb_true_r. reflexivity.
  - replace (i - f_off f <? f_width f) with false
      by (symmetry; apply Z.ltb_ge; lia).
    rewrite !andb_false_r. simpl. rewrite andb_true_r, orb_false_r.
    reflexivity.
  - replace (0 <=? i - f_off f) with false by (symmetry; apply Z.leb_gt; lia).
    simpl. rewrite andb_false_r, andb_true_r, orb_false_r. reflexivity.
  - replace (0 <=? i - f_off f) with false by (symmetry; apply Z.leb_gt; lia).
    simpl. rewrite andb_false_r, andb_true_r, orb_false_r. reflexivity.
Qed.

(** What is read back from a member is what was stored, truncated. *)
Lemma get_set_same (f : field) (v reg : Z) :
  wf f -> (reg.[f := v]).[f] = v mod 2 ^ f_width f.
Proof.
  intros Hf. pose proof Hf as [Ho Hw].
  rewrite <- Z.land_ones by assumption.
  apply Z.bits_inj'. intros i Hi.
  rewrite testbit_get, testbit_set by (assumption || lia).
  rewrite Z.land_spec, testbit_ones_full by assumption.
  replace (0 <=? i) with true by (symmetry; apply Z.leb_le; assumption).
  destruct (Z.ltb_spec i (f_width f)) as [H|H]; simpl.
  - replace (f_off f <=? i + f_off f) with true
      by (symmetry; apply Z.leb_le; lia).
    replace (i + f_off f <? f_off f + f_width f) with true
      by (symmetry; apply Z.ltb_lt; lia).
    simpl. replace (i + f_off f - f_off f) with i by lia.
    rewrite ?andb_true_r. reflexivity.
  - rewrite !andb_false_r. reflexivity.
Qed.

(** Assigning one member leaves every other member unchanged. *)
Lemma get_set_other (f g : field) (v reg : Z) :
  wf f -> wf g -> disjoint f g -> (reg.[f := v]).[g] = reg.[g].
Proof.
  intros Hf Hg Hd. pose proof Hf as [Hfo Hfw]. pose proof Hg as [Hgo Hgw].
  apply Z.bits_inj'. intros i Hi.
  rewrite !testbit_get, testbit_set by (assumption || lia).
  destruct (Z.ltb_spec i (f_width g)) as [H|H];
    [|rewrite !andb_false_r; reflexivity].
  rewrite !andb_true_r.
  destruct (Z.leb_spec (f_off f) (i + f_off g)) as [H1|H1];
    destruct (Z.ltb_spec (i + f_off g) (f_off f + f_width f)) as [H2|H2];
    simpl; try reflexivity.
  unfold disjoint in Hd. lia.
Qed.

Lemma get_range (f : field) (reg : Z) :
  wf f -> 0 <= reg.[f] < 2 ^ f_width f.
Proof.
  intros [Ho Hw]. unfold get. rewrite Z.land_ones by assumption.
  apply Z.mod_pos_bound. apply Z.pow_pos_nonneg; lia.
Qed.

Lemma get_0 (f : field) : 0.[f] = 0.
Proof. unfold get. rewrite Z.shiftr_0_l. apply Z.land_0_l. Qed.

End BitfieldLemmas.

(** Reads of a member through assignments to members. *)
Ltac fields :=
  repeat first
    [ rewrite get_set_same by (unfold wf; simpl; lia)
    | rewrite get_set_other by (unfold wf, disjoint; simpl; lia)
    | rewrite get_0 ].


(* ================================================================== *)
(** ** Response validation *)

Section CheckResp.

Ltac case_checks :=
  unfold smbus_check_resp; cbv zeta;
  repeat match goal with
         | |- context [negb (?a =? ?b)] =>
             destruct (a =? b); cbn [negb fst snd]
         end.

Lemma check_resp_status (resp tid : Z) (fr : option string) :
  fst (smbus_check_resp resp tid fr) = 0 \/
  fst (smbus_check_resp resp tid fr) = - EIO.
Proof.
  case_checks; auto.
Qed.

Lemma check_resp_status_indep (resp tid : Z) (fr fr' : option string) :
  fst (smbus_check_resp resp tid fr) = fst (smbus_check_resp resp tid fr').
Proof.
  case_checks; auto.
Qed.

Lemma check_resp_reason_some (resp tid : Z) (fr : string) :
  exists s, snd (smbus_check_resp resp tid (Some fr)) = Some s.
Proof.
  case_checks; eauto.
Qed.

(** C2.  [smbus_check_resp] is the first-match search through the
    validation order framing-error, ack-error, timeout-error,
    bus-conflict-error, flushed, transaction-id mismatch, overflow: the
    first condition that holds decides the reason string and the status
    is [-EIO]; when none holds (no indication, matching transaction-id)
    the response is accepted with status [0] and the reason buffer is
    untouched.  The seven reason strings are pairwise distinct. *)
Theorem smbus_check_resp_order (resp tid : Z) (fail_reason : string) :
  smbus_check_resp resp tid (Some fail_reason) =
    match first_failure resp tid with
    | Some error => (- EIO, Some (reason_string error))
    | None => (0, Some fail_reason)
    end
  /\ map snd validation_order =
       [ "fe"; "ack"; "timeout"; "conflict"; "flush"; "tid"; "overflow" ]%string
  /\ NoDup (map (fun c => reason_string (snd c)) validation_order).
Proof.
  split; [|split].
  - unfold first_failure, validation_order, reason_string.
    cbn [find fst snd option_map]. case_checks; reflexivity.
  - reflexivity.
  - unfold validation_order. cbn [map snd].
    repeat (constructor; [cbv; intuition discriminate|]).
    constructor.
Qed.

End CheckResp.

(* ================================================================== *)
(** ** Reading one response: the fifo-empty check *)

Section ReadResp.

Lemma fifo_poll_step (r : nat) (cs0 : Z) (w : world) :
  smbus_fifo_poll (S (S r)) cs0 w =
  if cs0.[Cs.fs] =? 0
  then smbus_fifo_poll (S r) (cs_at w 0)
         (World (cs_in w) (resp_in w) (S (cs_n w)) (resp_n w) (data w)
                (trace w ++ [EvMsleep 10; EvReadCs (cs_at w 0)]))
  else (cs0, w).
Proof.
  cbn [smbus_fifo_poll]. destruct (cs0.[Cs.fs] =? 0); [|reflexivity].
  unfold bind, msleep, emit, smbus_master_read_cs, cs_at.
  cbn [cs_in cs_n resp_in resp_n data trace].
  rewrite Nat.add_0_r, <- app_assoc. reflexivity.
Qed.

Lemma fifo_poll_last (cs0 : Z) (w : world) :
  smbus_fifo_poll 1 cs0 w = (cs0, w).
Proof. cbn [smbus_fifo_poll]. destruct (cs0.[Cs.fs] =? 0); reflexivity. Qed.

Lemma cs_at_shift (w w' : world) (j : nat) :
  cs_in w' = cs_in w -> cs_n w' = S (cs_n w) -> cs_at w' j = cs_at w (S j).
Proof.
  intros H1 H2. unfold cs_at. rewrite H1, H2. f_equal. f_equal. lia.
Qed.

Lemma flat_map_seq_shift {A} (f : nat -> list A) (n a : nat) :
  flat_map f (seq (S a) n) = flat_map (fun j => f (S j)) (seq a n).
Proof.
  revert a. induction n as [|n IH]; intros a; [reflexivity|].
  cbn [seq flat_map]. rewrite IH. reflexivity.
Qed.

Lemma world_eta (w : world) :
  World (cs_in w) (resp_in w) (cs_n w) (resp_n w) (data w) (trace w) = w.
Proof. destruct w; reflexivity. Qed.

Lemma fifo_poll_spec (retries : nat) :
  forall (w : world) (cs0 : Z), (1 <= retries)%nat ->
  let cs := fun j => match j with O => cs0 | S j' => cs_at w j' end in
  exists m : nat,
    (m < retries)%nat /\
    (forall j, (j < m)%nat -> (cs j).[Cs.fs] = 0) /\
    ((cs m).[Cs.fs] <> 0 \/ S m = retries) /\
    smbus_fifo_poll retries cs0 w =
      (cs m,
       World (cs_in w) (resp_in w) (cs_n w + m) (resp_n w) (data w)
             (trace w ++
              flat_map (fun j => [EvMsleep 10; EvReadCs (cs (S j))]) (seq 0 m))).
Proof.
  induction retries as [|r IH]; intros w cs0 Hr cs; [lia|].
  destruct r as [|r].
  - exists O. repeat split; try lia; auto.
    rewrite fifo_poll_last. cbn [seq flat_map].
    rewrite Nat.add_0_r, app_nil_r, world_eta. reflexivity.
  - rewrite fifo_poll_step.
    destruct (Z.eqb_spec (cs0.[Cs.fs]) 0) as [Hz|Hnz].
    + match goal with |- context [smbus_fifo_poll (S r) ?c ?w'] =>
        destruct (IH w' c ltac:(lia)) as (m & Hm & Hall & Hlast & Heq);
        pose proof (fun j => cs_at_shift w w' j eq_refl eq_refl) as Hsh
      end.
      cbn [cs_in cs_n resp_in resp_n data trace] in *.
      subst cs. cbn beta iota in *.
      exists (S m). split; [lia|]. split; [|split].
      * intros [|j] Hj; [exact Hz|]. specialize (Hall j ltac:(lia)).
        destruct j; [exact Hall|].
        rewrite <- Hsh. exact Hall.
      * destruct Hlast as [Hl|Hl]; [left|right; lia].
        destruct m; [exact Hl|].
        rewrite <- Hsh. exact Hl.
      * rewrite Heq. f_equal.
        -- destruct m; [reflexivity|]. apply Hsh.
        -- f_equal; [lia|].
           rewrite <- app_assoc. f_equal.
           change (seq 0 (S m)) with (0%nat :: seq 1 m).
           cbn [flat_map app]. do 2 f_equal.
           rewrite flat_map_seq_shift.
           apply flat_map_ext. intros j. rewrite Hsh. reflexivity.
    + exists O. repeat split; try lia; auto.
      cbn [seq flat_map]. rewrite Nat.add_0_r, app_nil_r, world_eta.
      reflexivity.
Qed.

Lemma read_resp_spec (w : world) :
  exists m : nat,
    (m + 1 <= 20)%nat /\
    (forall j, (j < m)%nat -> (cs_at w j).[Cs.fs] = 0) /\
    ((cs_at w m).[Cs.fs] <> 0 \/ (m + 1 = 20)%nat) /\
    smbus_master_read_resp w =
      (resp_at w 0,
       World (cs_in w) (resp_in w) (cs_n w + m + 1) (S (resp_n w)) (data w)
             (trace w ++ poll_trace (cs_at w) m ++
              (if (cs_at w m).[Cs.fs] =? 0
               then [EvErr "fifo still empty after retries"] else []) ++
              [EvReadResp (resp_at w 0)])).
Proof.
  unfold smbus_master_read_resp, bind.
  unfold smbus_master_read_cs at 1.
  match goal with |- context [smbus_fifo_poll 20 ?c ?w'] =>
    destruct (fifo_poll_spec 20 w' c ltac:(lia)) as (m & Hm & Hall & Hlast & Heq);
    pose proof (fun j => cs_at_shift w w' j eq_refl eq_refl) as Hsh
  end.
  cbn [cs_in cs_n resp_in resp_n data trace] in *.
  assert (Hcs : forall j,
    match j with
    | O => u32 (cs_in w (cs_n w))
    | S j' => cs_at
        (World (cs_in w) (resp_in w) (S (cs_n w)) (resp_n w) (data w)
               (trace w ++ [EvReadCs (u32 (cs_in w (cs_n w)))])) j'
    end = cs_at w j).
  { intros [|j]; [unfold cs_at; rewrite Nat.add_0_r; reflexivity|apply Hsh]. }
  exists m. split; [lia|]. split; [|split].
  - intros j Hj. rewrite <- Hcs. apply Hall. exact Hj.
  - destruct Hlast as [Hl|Hl]; [left; rewrite <- Hcs; exact Hl | right; lia].
  - rewrite Heq. rewrite (Hcs m).
    assert (Htr : forall k,
      [EvReadCs (u32 (cs_in w (cs_n w)))] ++
      flat_map (fun j => [EvMsleep 10; EvReadCs
         (cs_at
           (World (cs_in w) (resp_in w) (S (cs_n w)) (resp_n w) (data w)
               (trace w ++ [EvReadCs (u32 (cs_in w (cs_n w)))])) j)])
        (seq 0 k) = poll_trace (cs_at w) k).
    { intros k. unfold poll_trace. induction k as [|k IHk].
      - cbn [seq flat_map app]. unfold cs_at. rewrite Nat.add_0_r. reflexivity.
      - rewrite seq_S, !flat_map_app, app_assoc, IHk. cbn [flat_map app Nat.add].
        rewrite <- !app_assoc. cbn [app]. rewrite Hsh. reflexivity. }
    destruct (Z.eqb_spec ((cs_at w m).[Cs.fs]) 0) as [Hz|Hnz];
      unfold emit, ret, __smbus_master_read_resp, resp_at;
      cbn [cs_in cs_n resp_in resp_n data trace];
      rewrite ?Nat.add_0_r; f_equal; f_equal; try lia;
      rewrite <- !app_assoc; f_equal; rewrite !app_assoc, Htr;
      rewrite <- ?app_assoc; reflexivity.
Qed.


End ReadResp.

(* ================================================================== *)
(** ** Adapter-level retry *)

Section Retry.

Variables (master : scd_smbus_master) (bus : scd_smbus).
Variables (addr flags read_write command size data_size : Z).

Local Abbreviation attempt :=
  (scd_smbus_do master bus addr flags read_write command size data_size).
Local Abbreviation after n :=
  (after_attempts n master bus addr flags read_write command size data_size).
Local Abbreviation status n :=
  (attempt_status n master bus addr flags read_write command size data_size).
Local Abbreviation loop fuel :=
  (access_loop fuel master bus addr flags read_write command size data_size).

Lemma access_loop_unfold (fuel : nat) (retry : Z) (fr : string) (w : world) :
  loop fuel retry fr w =
  let '((r, fr1), w1) := attempt fr w in
  if negb (r =? - EIO) then ((r, fr1), w1)
  else if retry + 1 <? m_max_retries master then
    match fuel with
    | O => ((- EIO, fr1), gave_up fr1 w1)
    | S fuel' => loop fuel' (retry + 1) fr1 w1
    end
  else ((- EIO, fr1), gave_up fr1 w1).
Proof.
  destruct fuel; cbn [access_loop]; unfold bind, gave_up;
    destruct (attempt fr w) as [[r fr1] w1];
    destruct (negb (r =? - EIO)); try reflexivity;
    destruct (retry + 1 <? m_max_retries master); try reflexivity.
Qed.

Lemma after_attempts_shift (n : nat) (fr : string) (w : world) :
  after (S n) fr w =
  let '((_, fr1), w1) := attempt fr w in after n fr1 w1.
Proof.
  induction n as [|n IH].
  - cbn [after_attempts]. destruct (attempt fr w) as [[r fr1] w1]. reflexivity.
  - change (after (S (S n)) fr w) with
      (let '(fr0, w') := after (S n) fr w in
       let '((_, fr'), w'') := attempt fr0 w' in (fr', w'')).
    rewrite IH. destruct (attempt fr w) as [[r fr1] w1]. reflexivity.
Qed.

Lemma attempt_status_shift (n : nat) (fr : string) (w : world) :
  status (S n) fr w =
  let '((_, fr1), w1) := attempt fr w in status n fr1 w1.
Proof.
  unfold attempt_status. rewrite after_attempts_shift.
  destruct (attempt fr w) as [[r fr1] w1]. reflexivity.
Qed.

Lemma access_loop_spec (fuel : nat) :
  forall (retry : Z) (fr : string) (w : world) (j : nat),
  let N := Z.to_nat (Z.max 1 (m_max_retries master - retry)) in
  (N <= S fuel)%nat ->
  (j <= N)%nat ->
  (forall i, (i < j)%nat -> status i fr w = - EIO) ->
  ((j < N)%nat -> status j fr w <> - EIO) ->
  loop fuel retry fr w =
  if (j =? N)%nat
  then let '(fr', w') := after N fr w in ((- EIO, fr'), gave_up fr' w')
  else let '(fr', w') := after (S j) fr w in ((status j fr w, fr'), w').
Proof.
  induction fuel as [|fuel IH]; intros retry fr w j N HN Hj Hfail Hstop;
    rewrite access_loop_unfold.
  - (* a single attempt is left *)
    assert (HN1 : N = 1%nat) by lia.
    assert (Hmax : m_max_retries master - retry <= 1) by lia.
    rewrite HN1 in *.
    destruct j as [|[|j]]; [| |lia].
    + specialize (Hstop ltac:(lia)). cbn [Nat.eqb].
      unfold attempt_status in *. cbn [after_attempts] in *.
      destruct (attempt fr w) as [[r fr1] w1]. cbn [fst] in *.
      destruct (Z.eqb_spec r (- EIO)); [contradiction|]. reflexivity.
    + specialize (Hfail O ltac:(lia)). cbn [Nat.eqb].
      unfold attempt_status in *. cbn [after_attempts] in *.
      destruct (attempt fr w) as [[r fr1] w1]. cbn [fst] in *. subst r.
      rewrite Z.eqb_refl. cbn [negb].
      destruct (Z.ltb_spec (retry + 1) (m_max_retries master)); [lia|].
      reflexivity.
  - destruct j as [|j].
    + specialize (Hstop ltac:(lia)).
      replace (0 =? N)%nat with false by (symmetry; apply Nat.eqb_neq; lia).
      unfold attempt_status in *. cbn [after_attempts] in *.
      destruct (attempt fr w) as [[r fr1] w1]. cbn [fst] in *.
      destruct (Z.eqb_spec r (- EIO)); [contradiction|]. reflexivity.
    + pose proof (Hfail O ltac:(lia)) as H0.
      assert (Hshift : forall i, status (S i) fr w =
                let '((_, fr1), w1) := attempt fr w in status i fr1 w1)
        by (intros; apply attempt_status_shift).
      assert (HafterN : forall n, after (S n) fr w =
                let '((_, fr1), w1) := attempt fr w in after n fr1 w1)
        by (intros; apply after_attempts_shift).
      unfold attempt_status in H0. cbn [after_attempts] in H0.
      destruct (attempt fr w) as [[r fr1] w1]. cbn [fst] in H0. subst r.
      rewrite Z.eqb_refl. cbn [negb].
      destruct (Z.ltb_spec (retry + 1) (m_max_retries master)) as [Hlt|Hge].
      * (* the loop condition holds: go round again *)
        assert (HN' : N = S (Z.to_nat (Z.max 1 (m_max_retries master - (retry + 1)))))
          by (subst N; lia).
        rewrite (IH (retry + 1) fr1 w1 j); try lia.
        -- rewrite HN'. cbn [Nat.eqb].
           destruct (Nat.eqb_spec j
             (Z.to_nat (Z.max 1 (m_max_retries master - (retry + 1))))).
           ++ rewrite HafterN. reflexivity.
           ++ rewrite (HafterN (S j)), Hshift. reflexivity.
        -- intros i Hi. specialize (Hfail (S i) ltac:(lia)).
           rewrite Hshift in Hfail. exact Hfail.
        -- intros Hlt'. specialize (Hstop ltac:(lia)).
           rewrite Hshift in Hstop. exact Hstop.
      * (* retries exhausted *)
        assert (HN1 : N = 1%nat) by (subst N; lia).
        assert (j = O) by lia. subst j. rewrite HN1. cbn [Nat.eqb].
        rewrite HafterN. reflexivity.
Qed.

(** C3 (amended).  [scd_smbus_access_impl] executes the whole exchange
    until one execution returns something other than [-EIO], at most
    [max_attempts master = max 1 max_retries] times.  If the first [j]
    executions fail with [-EIO] and [j] is that maximum, the call returns
    [-EIO] after exactly [j] executions (and one warning); if [j] is below
    the maximum and execution [j] returns another status, the call
    returns that status right after it, with no further execution. *)
Theorem scd_smbus_access_impl_retries (w : world) (j : nat) :
  (j <= max_attempts master)%nat ->
  (forall i, (i < j)%nat -> status i EmptyString w = - EIO) ->
  ((j < max_attempts master)%nat -> status j EmptyString w <> - EIO) ->
  scd_smbus_access_impl master bus addr flags read_write command size
                        data_size w =
  if (j =? max_attempts master)%nat
  then let '(fr, w') := after (max_attempts master) EmptyString w in
       (- EIO, gave_up fr w')
  else (status j EmptyString w, snd (after (S j) EmptyString w)).
Proof.
  intros Hj Hfail Hstop. unfold scd_smbus_access_impl, bind.
  rewrite (access_loop_spec _ 0 EmptyString w j);
    rewrite ?Z.sub_0_r; fold (max_attempts master); try assumption.
  - destruct (j =? max_attempts master)%nat.
    + destruct (after (max_attempts master) EmptyString w). reflexivity.
    + destruct (after (S j) EmptyString w). reflexivity.
  - unfold max_attempts. lia.
Qed.

End Retry.

(* ================================================================== *)
(** ** Worlds along an execution *)

Section Run.

Lemma reqs_app (l1 l2 : list event) : reqs (l1 ++ l2) = reqs l1 ++ reqs l2.
Proof. apply flat_map_app. Qed.

Lemma resps_app (l1 l2 : list event) : resps (l1 ++ l2) = resps l1 ++ resps l2.
Proof. apply flat_map_app. Qed.

Lemma stores_app (l1 l2 : list event) :
  stores (l1 ++ l2) = stores l1 ++ stores l2.
Proof. apply flat_map_app. Qed.

Lemma quiet_app (l1 l2 : list event) : quiet l1 -> quiet l2 -> quiet (l1 ++ l2).
Proof.
  intros (A1 & B1 & C1) (A2 & B2 & C2). unfold quiet.
  rewrite reqs_app, resps_app, stores_app, A1, A2, B1, B2, C1, C2. auto.
Qed.

Lemma quiet_nil : quiet [].
Proof. repeat split. Qed.

Lemma apply_stores_ext (l : list (Z * Z)) :
  forall d d' : Z -> Z, (forall j, d j = d' j) ->
  forall j, apply_stores l d j = apply_stores l d' j.
Proof.
  induction l as [|[i v] l IH]; intros d d' H j; [apply H|].
  cbn [apply_stores fold_left]. apply IH. intros k. cbn [fst snd].
  rewrite H. reflexivity.
Qed.

Lemma apply_stores_app (l1 l2 : list (Z * Z)) (d : Z -> Z) :
  apply_stores (l1 ++ l2) d = apply_stores l2 (apply_stores l1 d).
Proof. apply fold_left_app. Qed.

Lemma run_refl (w : world) : run w w [].
Proof.
  constructor; try reflexivity.
  - rewrite app_nil_r. reflexivity.
  - cbn. lia.
Qed.

Lemma resp_at_run (w w1 : world) (l : list event) (j : nat) :
  run w w1 l -> resp_at w1 j = resp_at w (List.length (resps l) + j).
Proof.
  intros H. unfold resp_at. rewrite (run_resp_in _ _ _ H), (run_resp_n _ _ _ H).
  do 2 f_equal. lia.
Qed.

Lemma run_trans (w w1 w2 : world) (l1 l2 : list event) :
  run w w1 l1 -> run w1 w2 l2 -> run w w2 (l1 ++ l2).
Proof.
  intros H1 H2. constructor.
  - rewrite (run_cs_in _ _ _ H2). apply (run_cs_in _ _ _ H1).
  - rewrite (run_resp_in _ _ _ H2). apply (run_resp_in _ _ _ H1).
  - rewrite (run_trace _ _ _ H2), (run_trace _ _ _ H1), app_assoc. reflexivity.
  - rewrite (run_resp_n _ _ _ H2), (run_resp_n _ _ _ H1), resps_app, length_app.
    lia.
  - rewrite resps_app, length_app, seq_app, map_app.
    rewrite <- (run_resps _ _ _ H1). f_equal.
    rewrite (run_resps _ _ _ H2). cbn [Nat.add].
    assert (Hsh : forall n a,
      map (resp_at w1) (seq a n) =
      map (resp_at w) (seq (List.length (resps l1) + a) n)).
    { induction n as [|n IH]; intros a; [reflexivity|].
      cbn [seq map]. rewrite (resp_at_run _ _ _ a H1). f_equal.
      rewrite IH. f_equal. f_equal. lia. }
    rewrite Hsh, Nat.add_0_r, length_map, length_seq. reflexivity.
  - intros j. rewrite (run_data _ _ _ H2), stores_app, apply_stores_app.
    apply apply_stores_ext. apply (run_data _ _ _ H1).
Qed.

Lemma run_quiet_step (w w' : world) (l : list event) :
  quiet l ->
  cs_in w' = cs_in w -> resp_in w' = resp_in w -> resp_n w' = resp_n w ->
  data w' = data w -> trace w' = trace w ++ l ->
  run w w' l.
Proof.
  intros (Hq1 & Hq2 & Hq3) H1 H2 H3 H4 H5. constructor; auto.
  - rewrite Hq2. cbn. lia.
  - rewrite Hq2. reflexivity.
  - intros j. rewrite Hq3, H4. reflexivity.
Qed.

Lemma run_emit (e : event) (w : world) :
  quiet [e] -> run w (snd (emit e w)) [e].
Proof. intros Hq. apply run_quiet_step; auto. Qed.

Lemma run_read_cs (w : world) :
  smbus_master_read_cs w = (cs_at w 0, snd (smbus_master_read_cs w)) /\
  run w (snd (smbus_master_read_cs w)) [EvReadCs (cs_at w 0)].
Proof.
  unfold smbus_master_read_cs, cs_at. rewrite Nat.add_0_r. split; [reflexivity|].
  apply run_quiet_step; auto. repeat split.
Qed.

Lemma run_store (i v : Z) (w : world) :
  run w (snd (store i v w)) [EvStore i (u8 v)].
Proof.
  unfold store. constructor; cbn; auto; try lia.
Qed.

Lemma run_write_req (v : Z) (w : world) :
  run w (snd (smbus_master_write_req v w)) [EvWriteReq v].
Proof.
  unfold smbus_master_write_req, emit. constructor; cbn; auto; try lia.
Qed.

Lemma run_reset (w : world) :
  run w (snd (smbus_master_reset w)) (reset_trace (cs_at w 0)) /\
  quiet (reset_trace (cs_at w 0)).
Proof.
  split; [|repeat split].
  unfold smbus_master_reset, bind, smbus_master_read_cs, smbus_master_write_cs,
    mdelay, emit, reset_trace, cs_at. cbn [snd cs_in cs_n resp_in resp_n data trace].
  rewrite Nat.add_0_r.
  apply run_quiet_step; cbn [cs_in cs_n resp_in resp_n data trace]; auto.
  - repeat split.
  - rewrite <- !app_assoc. reflexivity.
Qed.

Lemma quiet_poll_trace (cs : nat -> Z) (m : nat) : quiet (poll_trace cs m).
Proof.
  unfold poll_trace. apply quiet_app; [|repeat split].
  induction (seq 0 m) as [|a l IH]; [apply quiet_nil|].
  cbn [flat_map]. apply quiet_app; [repeat split|exact IH].
Qed.

(** Reading a response: some quiet polling, then the read itself. *)
Lemma run_read_resp (w : world) :
  exists pre : list event,
    quiet pre /\
    fst (smbus_master_read_resp w) = resp_at w 0 /\
    run w (snd (smbus_master_read_resp w)) (pre ++ [EvReadResp (resp_at w 0)]).
Proof.
  destruct (read_resp_spec w) as (m & _ & _ & _ & Heq).
  rewrite Heq. cbn [fst snd].
  exists (poll_trace (cs_at w) m ++
          (if (cs_at w m).[Cs.fs] =? 0
           then [EvErr "fifo still empty after retries"] else [])).
  split; [|split; [reflexivity|]].
  - apply quiet_app; [apply quiet_poll_trace|].
    destruct (_ =? 0); [repeat split|apply quiet_nil].
  - assert (Hq : quiet (poll_trace (cs_at w) m ++
       (if (cs_at w m).[Cs.fs] =? 0
        then [EvErr "fifo still empty after retries"] else []))).
    { apply quiet_app; [apply quiet_poll_trace|].
      destruct (_ =? 0); [repeat split|apply quiet_nil]. }
    destruct Hq as (Hq1 & Hq2 & Hq3).
    constructor; cbn [cs_in cs_n resp_in resp_n data trace]; auto.
    + rewrite <- !app_assoc. reflexivity.
    + rewrite resps_app, Hq2. cbn. lia.
    + rewrite resps_app, Hq2. cbn. reflexivity.
    + intros j. rewrite stores_app, Hq3. reflexivity.
Qed.

End Run.

(* ================================================================== *)
(** ** The request loop *)

Section Issue.

Lemma set_da_other (f : field) (req : Z) :
  wf f -> disjoint Req.da f -> (set_da req).[f] = req.[f].
Proof.
  intros Hf Hd. unfold set_da. apply get_set_other; auto.
  unfold wf; simpl; lia.
Qed.

Lemma phase_req_ti i params addr rw command ss off d req :
  (phase_req i params addr rw command ss off d req).[Req.ti] = req.[Req.ti].
Proof.
  unfold phase_req.
  rewrite set_da_other by (unfold wf, disjoint; simpl; lia).
  repeat match goal with
         | |- context [if ?b then _ else _] => destruct b
         end; fields; reflexivity.
Qed.

Lemma phase_req_t i params addr rw command ss off d req :
  (phase_req i params addr rw command ss off d req).[Req.t] = req.[Req.t].
Proof.
  unfold phase_req.
  rewrite set_da_other by (unfold wf, disjoint; simpl; lia).
  repeat match goal with
         | |- context [if ?b then _ else _] => destruct b
         end; fields; reflexivity.
Qed.

Lemma phase_req_last i params addr rw command ss off d req :
  i = ss - 1 ->
  let v := phase_req i params addr rw command ss off d req in
  v.[Req.dat] = dat_of params rw mod 4 /\
  v.[Req.ed] = bp_ed params mod 2 /\
  v.[Req.sp] = 1.
Proof.
  intros Hi v. subst v. unfold phase_req, dat_of.
  rewrite !set_da_other by (unfold wf, disjoint; simpl; lia).
  replace (i =? ss - 1) with true by (symmetry; apply Z.eqb_eq; exact Hi).
  repeat match goal with
         | |- context [if ?b then _ else _] => destruct b
         end; fields; repeat split; reflexivity.
Qed.

Lemma phase_req_not_last i params addr rw command ss off d req :
  i <> ss - 1 ->
  let v := phase_req i params addr rw command ss off d req in
  v.[Req.dat] = req.[Req.dat] /\
  v.[Req.ed] = req.[Req.ed] /\
  v.[Req.sp] = req.[Req.sp].
Proof.
  intros Hi v. subst v. unfold phase_req.
  rewrite !set_da_other by (unfold wf, disjoint; simpl; lia).
  replace (i =? ss - 1) with false by (symmetry; apply Z.eqb_neq; exact Hi).
  repeat match goal with
         | |- context [if ?b then _ else _] => destruct b
         end; fields; repeat split; reflexivity.
Qed.

(** One turn of the loop. *)
Lemma issue_phases_step n i params addr rw command ss off req w :
  issue_phases (S n) i params addr rw command ss off req w =
  let v := phase_req i params addr rw command ss off (data w) req in
  issue_phases n (i + 1) params addr rw command ss off
    (inc_ti v).[Req.st := 0]
    (snd (smbus_master_write_req v w)).
Proof.
  cbn [issue_phases]. unfold phase_req, bind, load, ret.
  destruct ((2 <=? i) && (rw =? I2C_SMBUS_WRITE)); reflexivity.
Qed.

Lemma next_req_ti (v : Z) :
  ((inc_ti v).[Req.st := 0]).[Req.ti] = (v.[Req.ti] + 1) mod 16.
Proof. unfold inc_ti. fields. reflexivity. Qed.

Lemma next_req_keeps (f : field) (v : Z) :
  wf f -> disjoint Req.ti f -> disjoint Req.st f ->
  ((inc_ti v).[Req.st := 0]).[f] = v.[f].
Proof.
  intros Hf H1 H2. unfold inc_ti.
  rewrite !get_set_other; auto; unfold wf; simpl; lia.
Qed.

Lemma issue_phases_spec (n : nat) :
  forall i params addr rw command ss off req w,
  exists vs : list Z,
    run w (snd (issue_phases n i params addr rw command ss off req w))
        (map EvWriteReq vs) /\
    List.length vs = n /\
    (forall k, (k < n)%nat ->
       (nth k vs 0).[Req.ti] = (req.[Req.ti] + Z.of_nat k) mod 16) /\
    Forall (fun v => v.[Req.t] = req.[Req.t]) vs /\
    (i + Z.of_nat n = ss -> req.[Req.dat] = 0 -> req.[Req.ed] = 0 ->
     forall k, (k < n)%nat ->
       if (S k =? n)%nat
       then (nth k vs 0).[Req.dat] = dat_of params rw mod 4 /\
            (nth k vs 0).[Req.ed] = bp_ed params mod 2
       else (nth k vs 0).[Req.dat] = 0 /\ (nth k vs 0).[Req.ed] = 0).
Proof.
  induction n as [|n IH]; intros i params addr rw command ss off req w.
  - exists []. cbn [issue_phases ret snd map]. split; [apply run_refl|].
    split; [reflexivity|]. split; [intros; lia|]. split; [constructor|].
    intros; lia.
  - rewrite issue_phases_step. cbv zeta.
    set (v := phase_req i params addr rw command ss off (data w) req).
    destruct (IH (i + 1) params addr rw command ss off
                 (inc_ti v).[Req.st := 0]
                 (snd (smbus_master_write_req v w)))
      as (vs & Hrun & Hlen & Hti & Ht & Hlast).
    exists (v :: vs). split; [|split; [|split; [|split]]].
    + change (map EvWriteReq (v :: vs)) with ([EvWriteReq v] ++ map EvWriteReq vs).
      eapply run_trans; [apply run_write_req|exact Hrun].
    + cbn [List.length]. rewrite Hlen. reflexivity.
    + intros [|k] Hk; cbn [nth].
      * subst v. rewrite phase_req_ti, Z.add_0_r.
        symmetry. apply Z.mod_small.
        apply (get_range Req.ti). unfold wf; simpl; lia.
      * rewrite Hti by lia. rewrite next_req_ti.
        subst v. rewrite phase_req_ti.
        rewrite Zplus_mod_idemp_l. f_equal. lia.
    + constructor.
      * subst v. apply phase_req_t.
      * eapply Forall_impl; [|exact Ht]. intros a Ha. cbv beta in Ha.
        rewrite Ha, next_req_keeps by (unfold wf, disjoint; simpl; lia).
        subst v. apply phase_req_t.
    + intros Hss Hdat Hed [|k] Hk; cbn [nth].
      * destruct n as [|n].
        -- cbn [Nat.eqb].
           destruct (phase_req_last i params addr rw command ss off (data w) req)
             as (A & B & _); [lia|]. fold v in A, B. auto.
        -- cbn [Nat.eqb].
           destruct (phase_req_not_last i params addr rw command ss off (data w) req)
             as (A & B & _); [lia|]. fold v in A, B. rewrite A, B. auto.
      * assert (Hnl : i <> ss - 1) by lia.
        destruct (phase_req_not_last i params addr rw command ss off (data w) req
                    Hnl) as (A & B & _). fold v in A, B.
        specialize (Hlast ltac:(lia)).
        rewrite !next_req_keeps in Hlast by (unfold wf, disjoint; simpl; lia).
        specialize (Hlast ltac:(congruence) ltac:(congruence) k ltac:(lia)).
        change (S (S k) =? S n)%nat with (S k =? n)%nat. exact Hlast.
Qed.

End Issue.

(* ================================================================== *)
(** ** The response loop *)

Section ReadPhases.

Lemma resp_ok_status (resp tid : Z) (fr : option string) :
  fst (smbus_check_resp resp tid fr) =
  if resp_ok resp tid then 0 else - EIO.
Proof.
  unfold resp_ok. rewrite (check_resp_status_indep resp tid fr None).
  destruct (check_resp_status resp tid None) as [H|H]; rewrite H; reflexivity.
Qed.

Lemma check_ok_reason (resp tid : Z) (fr : string) :
  resp_ok resp tid = true ->
  snd (smbus_check_resp resp tid (Some fr)) = Some fr.
Proof.
  unfold resp_ok, smbus_check_resp. cbv zeta.
  repeat match goal with
         | |- context [negb (?a =? ?b)] =>
             destruct (a =? b); cbn [negb fst snd]
         end; try reflexivity; cbv; discriminate.
Qed.

Lemma run_do_stores (l : list (Z * Z)) :
  forall w, run w (do_stores l w) (store_events l).
Proof.
  induction l as [|[i v] l IH]; intros w; [apply run_refl|].
  cbn [do_stores store_events map fst snd].
  change (EvStore i (u8 v) :: map _ l) with ([EvStore i (u8 v)] ++ store_events l).
  eapply run_trans; [apply run_store|apply IH].
Qed.

Lemma tid_at_0 (req : Z) : tid_at req 0 = req.[Req.ti].
Proof.
  unfold tid_at. rewrite Z.add_0_r. apply Z.mod_small.
  apply (get_range Req.ti). unfold wf; simpl; lia.
Qed.

Lemma tid_at_S (req : Z) (j : nat) : tid_at (inc_ti req) j = tid_at req (S j).
Proof.
  unfold tid_at, inc_ti. fields. cbn [f_width Req.ti].
  change (2 ^ 4) with 16. rewrite Zplus_mod_idemp_l. f_equal. lia.
Qed.

(** One turn of the loop. *)
Lemma read_phases_step n i rw size ss data_size req fr w :
  let w1 := snd (smbus_master_read_resp w) in
  let resp := resp_at w 0 in
  read_phases (S n) i rw size ss data_size req fr w =
  if resp_ok resp req.[Req.ti] then
    if overflows rw size data_size i
    then ((- EINVAL, SET_FAIL_REASON "buffer too short"), w1)
    else read_phases n (i + 1) rw size ss data_size (inc_ti req) fr
           (do_stores (phase_stores rw size ss i resp (data w1)) w1)
  else ((- EIO,
         match snd (smbus_check_resp resp req.[Req.ti] (Some fr)) with
         | Some s => s
         | None => fr
         end), w1).
Proof.
  intros w1 resp. cbn [read_phases]. unfold bind at 1.
  destruct (run_read_resp w) as (pre & _ & Hv & _).
  destruct (smbus_master_read_resp w) as [v w1'] eqn:E.
  cbn [fst snd] in Hv. subst v. subst w1. cbn [snd]. fold resp.
  rewrite resp_ok_status.
  destruct (resp_ok resp req.[Req.ti]) eqn:Hok.
  - rewrite (check_ok_reason _ _ fr Hok). cbn [negb Z.eqb].
    unfold overflows, phase_stores.
    destruct (rw =? I2C_SMBUS_READ); cbn [andb]; [|reflexivity].
    destruct ((size =? I2C_SMBUS_BYTE) || (size =? I2C_SMBUS_BYTE_DATA));
      cbn [andb negb].
    { unfold bind, store_byte, ret.
      destruct (i =? ss - 1); cbn [do_stores]; reflexivity. }
    destruct (size =? I2C_SMBUS_WORD_DATA); cbn [andb negb].
    { unfold bind, store_word, load_word, load, ret, bind.
      destruct (i =? ss - 2); cbn [do_stores]; [reflexivity|].
      destruct (i =? ss - 1); cbn [do_stores]; reflexivity. }
    destruct (3 <=? i); cbn [andb]; [|reflexivity].
    destruct (size =? I2C_SMBUS_I2C_BLOCK_DATA).
    + destruct (data_size <=? i - 2); [reflexivity|].
      unfold bind. cbn [do_stores]. reflexivity.
    + destruct (data_size <=? i - 3); [reflexivity|].
      unfold bind. cbn [do_stores]. reflexivity.
  - reflexivity.
Qed.

Lemma stores_store_events (l : list (Z * Z)) :
  stores (store_events l) = map stored l /\
  reqs (store_events l) = [] /\ resps (store_events l) = [].
Proof.
  induction l as [|[i v] l (IH1 & IH2 & IH3)]; [repeat split|].
  change (store_events ((i, v) :: l))
    with ([EvStore i (u8 v)] ++ store_events l).
  rewrite stores_app, reqs_app, resps_app, IH1, IH2, IH3. repeat split.
Qed.

Lemma phase_stores_indep rw size ss i resp (d d' : Z -> Z) :
  size <> I2C_SMBUS_WORD_DATA ->
  phase_stores rw size ss i resp d = phase_stores rw size ss i resp d'.
Proof.
  intros H. unfold phase_stores.
  destruct (Z.eqb_spec size I2C_SMBUS_WORD_DATA); [contradiction|reflexivity].
Qed.

(** The response loop stops at the first phase [k] whose response fails
    validation ([-EIO]) or trips the capacity check ([-EINVAL]); the
    phases before it are validated and stored; with no such phase all
    [n] are processed and the result is [0]. *)
Lemma read_phases_spec (n : nat) :
  forall i rw size ss data_size req fr w,
  exists (k : nat) (l : list event),
    let res := read_phases n i rw size ss data_size req fr w in
    run w (snd res) l /\
    reqs l = [] /\
    (k <= n)%nat /\
    (forall j, (j < k)%nat ->
       resp_ok (resp_at w j) (tid_at req j) = true /\
       overflows rw size data_size (i + Z.of_nat j) = false) /\
    (size <> I2C_SMBUS_WORD_DATA ->
     stores l =
     flat_map (fun j => map stored
                 (phase_stores rw size ss (i + Z.of_nat j) (resp_at w j)
                               (fun _ => 0)))
              (seq 0 k)) /\
    ((k = n /\ fst res = (0, fr) /\ List.length (resps l) = n) \/
     ((k < n)%nat /\
      resp_ok (resp_at w k) (tid_at req k) = false /\
      fst (fst res) = - EIO /\
      List.length (resps l) = S k /\
      exists pre, l = pre ++ [EvReadResp (resp_at w k)]) \/
     ((k < n)%nat /\
      resp_ok (resp_at w k) (tid_at req k) = true /\
      overflows rw size data_size (i + Z.of_nat k) = true /\
      fst res = (- EINVAL, SET_FAIL_REASON "buffer too short") /\
      List.length (resps l) = S k /\
      exists pre, l = pre ++ [EvReadResp (resp_at w k)])).
Proof.
  induction n as [|n IH]; intros i rw size ss data_size req fr w.
  - exists O, []. cbn [read_phases ret fst snd seq flat_map].
    split; [apply run_refl|]. split; [reflexivity|]. split; [lia|].
    split; [intros; lia|]. split; [reflexivity|]. left. auto.
  - cbv zeta. rewrite read_phases_step. cbv zeta.
    destruct (run_read_resp w) as (pre0 & (Hq1 & Hq2 & Hq3) & _ & Hrun0).
    set (w1 := snd (smbus_master_read_resp w)) in *.
    set (r0 := resp_at w 0) in *.
    assert (Hl0 : reqs (pre0 ++ [EvReadResp r0]) = [] /\
                  resps (pre0 ++ [EvReadResp r0]) = [r0] /\
                  stores (pre0 ++ [EvReadResp r0]) = []).
    { rewrite reqs_app, resps_app, stores_app, Hq1, Hq2, Hq3. repeat split. }
    destruct Hl0 as (Hr0 & Hp0 & Hs0).
    rewrite <- tid_at_0.
    destruct (resp_ok r0 (tid_at req 0)) eqn:Hok.
    + destruct (overflows rw size data_size i) eqn:Hov.
      * (* capacity check trips at this phase *)
        exists O, (pre0 ++ [EvReadResp r0]). cbn [fst snd seq flat_map].
        split; [exact Hrun0|]. split; [exact Hr0|]. split; [lia|].
        split; [intros; lia|]. split; [intros; exact Hs0|].
        right; right. rewrite Z.add_0_r, Hp0.
        repeat split; try lia; auto. exists pre0. reflexivity.
      * (* the phase is processed *)
        set (sts := phase_stores rw size ss i r0 (data w1)).
        set (w2 := do_stores sts w1).
        assert (Hrun2 : run w w2 ((pre0 ++ [EvReadResp r0]) ++ store_events sts)).
        { eapply run_trans; [exact Hrun0|apply run_do_stores]. }
        destruct (stores_store_events sts) as (Hss1 & Hss2 & Hss3).
        assert (Hlen2 : List.length
                  (resps ((pre0 ++ [EvReadResp r0]) ++ store_events sts)) = 1%nat).
        { rewrite resps_app, Hp0, Hss3. reflexivity. }
        assert (Hat : forall j, resp_at w2 j = resp_at w (S j)).
        { intros j. rewrite (resp_at_run _ _ _ j Hrun2), Hlen2. reflexivity. }
        destruct (IH (i + 1) rw size ss data_size (inc_ti req) fr w2)
          as (k & l & Hrun & Hreq & Hk & Hall & Hst & Hout).
        cbv zeta in *.
        exists (S k), (((pre0 ++ [EvReadResp r0]) ++ store_events sts) ++ l).
        split; [eapply run_trans; eassumption|].
        split; [rewrite 2 reqs_app, Hr0, Hss2, Hreq; reflexivity|].
        split; [lia|]. split; [|split].
        -- intros [|j] Hj.
           ++ rewrite Z.add_0_r. fold r0. auto.
           ++ destruct (Hall j ltac:(lia)) as (A & B).
              rewrite Hat, tid_at_S in A.
              replace (i + 1 + Z.of_nat j) with (i + Z.of_nat (S j)) in B by lia.
              auto.
        -- intros Hsz. rewrite 2 stores_app, Hs0, Hss1, (Hst Hsz).
           change (seq 0 (S k)) with (0%nat :: seq 1 k).
           cbn [flat_map app]. rewrite Z.add_0_r. fold r0. f_equal.
           ++ subst sts. f_equal. apply phase_stores_indep. exact Hsz.
           ++ rewrite flat_map_seq_shift. apply flat_map_ext. intros j.
              rewrite Hat. do 2 f_equal. lia.
        -- rewrite 2 resps_app, Hp0, Hss3, !length_app.
           cbn [List.length app Nat.add].
           destruct Hout as [(A & B & C) | [(A & B & C & D & pre & E) |
                                             (A & B & C & D & E & pre & F)]].
           ++ left. repeat split; try lia; auto.
           ++ right; left. rewrite Hat, tid_at_S in B.
              repeat split; try lia; auto.
              exists (((pre0 ++ [EvReadResp r0]) ++ store_events sts) ++ pre).
              rewrite E, Hat, <- !app_assoc. reflexivity.
           ++ right; right. rewrite Hat, tid_at_S in B.
              replace (i + 1 + Z.of_nat k) with (i + Z.of_nat (S k)) in C by lia.
              repeat split; try lia; auto.
              exists (((pre0 ++ [EvReadResp r0]) ++ store_events sts) ++ pre).
              rewrite F, Hat, <- !app_assoc. reflexivity.
    + (* validation fails at this phase *)
      exists O, (pre0 ++ [EvReadResp r0]). cbn [fst snd seq flat_map].
      split; [exact Hrun0|]. split; [exact Hr0|]. split; [lia|].
      split; [intros; lia|]. split; [intros; exact Hs0|].
      right; left. rewrite Hp0.
      repeat split; try lia; auto. exists pre0. reflexivity.
Qed.

End ReadPhases.

(* ================================================================== *)
(** ** The hardware-assisted block read *)

Section BlockRead.

Lemma br_issue_spec (n : nat) :
  forall i addr command req w,
  exists vs : list Z,
    run w (snd (br_issue n i addr command req w)) (map EvWriteReq vs) /\
    List.length vs = n /\
    Forall (fun v => v.[Req.t] = req.[Req.t] /\
                     v.[Req.dat] = req.[Req.dat] /\
                     v.[Req.ed] = req.[Req.ed]) vs.
Proof.
  induction n as [|n IH]; intros i addr command req w.
  - exists []. cbn [br_issue ret snd map]. split; [apply run_refl|].
    split; [reflexivity|constructor].
  - cbn [br_issue]. unfold bind.
    match goal with |- context [smbus_master_write_req ?v w] => set (v0 := v) end.
    assert (Hv0 : v0.[Req.t] = req.[Req.t] /\ v0.[Req.dat] = req.[Req.dat] /\
                  v0.[Req.ed] = req.[Req.ed]).
    { subst v0. unfold set_da.
      destruct (i =? 1); destruct (i =? 2); fields; auto. }
    destruct (smbus_master_write_req v0 w) as [[] w1] eqn:E.
    assert (Hrun1 : run w w1 [EvWriteReq v0]).
    { pose proof (run_write_req v0 w) as H. rewrite E in H. exact H. }
    destruct (IH (i + 1) addr command (inc_ti v0) w1) as (vs & Hrun & Hlen & Hall).
    exists (v0 :: vs). split; [|split].
    + change (map EvWriteReq (v0 :: vs)) with ([EvWriteReq v0] ++ map EvWriteReq vs).
      eapply run_trans; eassumption.
    + cbn [List.length]. rewrite Hlen. reflexivity.
    + constructor; [exact Hv0|].
      eapply Forall_impl; [|exact Hall]. intros a (A & B & C).
      unfold inc_ti in A, B, C. revert A B C. fields. intros A B C.
      destruct Hv0 as (A' & B' & C'). repeat split; congruence.
Qed.

Lemma brb_wait_spec (fuel : nat) :
  forall t ct cs w,
  exists l : list event,
    quiet l /\ run w (snd (brb_wait fuel t ct cs w)) l /\
    (t - ct <= Z.of_nat fuel ->
     let '(ct', cs') := fst (brb_wait fuel t ct cs w) in
     (cs'.[Cs.brb] = 0 \/ t <= ct') /\ ct <= ct').
Proof.
  induction fuel as [|fuel IH]; intros t ct cs w.
  - exists []. split; [apply quiet_nil|].
    cbn [brb_wait].
    destruct (Z.eqb_spec (cs.[Cs.brb]) 0) as [Hb|Hb]; cbn [negb andb];
      [|destruct (Z.ltb_spec ct t)]; cbn [ret fst snd];
      (split; [apply run_refl|]); intros; split; auto; try lia.
  - cbn [brb_wait].
    destruct (Z.eqb_spec (cs.[Cs.brb]) 0) as [Hb|Hb]; cbn [negb andb].
    { exists []. split; [apply quiet_nil|]. cbn [ret fst snd].
      split; [apply run_refl|]. intros; split; auto; lia. }
    destruct (Z.ltb_spec ct t).
    2:{ exists []. split; [apply quiet_nil|]. cbn [ret fst snd].
        split; [apply run_refl|]. intros; split; auto; lia. }
    unfold bind, msleep.
    destruct (emit (EvMsleep SMBUS_BLOCK_READ_TIMEOUT_STEP) w) as [[] w1] eqn:E1.
    assert (Hrun1 : run w w1 [EvMsleep SMBUS_BLOCK_READ_TIMEOUT_STEP]).
    { pose proof (run_emit (EvMsleep SMBUS_BLOCK_READ_TIMEOUT_STEP) w) as Hr.
      rewrite E1 in Hr. apply Hr. repeat split. }
    destruct (run_read_cs w1) as (E2 & Hrun2). rewrite E2.
    set (w2 := snd (smbus_master_read_cs w1)) in *.
    destruct (IH t (ct + SMBUS_BLOCK_READ_TIMEOUT_STEP) (cs_at w1 0) w2)
      as (l & Hq & Hrun & Hexit).
    exists (([EvMsleep SMBUS_BLOCK_READ_TIMEOUT_STEP] ++ [EvReadCs (cs_at w1 0)]) ++ l).
    split; [|split].
    + apply quiet_app; [repeat split|exact Hq].
    + eapply run_trans; [eapply run_trans; eassumption|exact Hrun].
    + intros Hf. unfold SMBUS_BLOCK_READ_TIMEOUT_STEP in *.
      specialize (Hexit ltac:(lia)).
      destruct (fst (brb_wait fuel t (ct + 1) (cs_at w1 0) w2)) as [ct' cs'].
      destruct Hexit as (A & B). split; [exact A|lia].
Qed.

(** One turn of the read loop. *)
Lemma br_read_step fuel i ss req data_size w :
  let w1 := snd (smbus_master_read_resp w) in
  let resp := resp_at w 0 in
  br_read (S fuel) i ss req data_size w =
  if i <? ss then
    if resp_ok resp req.[Req.ti] then
      let ss' := if i =? 3 then u32 (ss + resp.[Rsp.d]) else ss in
      if (3 <=? i) && (data_size <=? i - 3) then
        (- EINVAL,
         snd (emit (EvWarn "smbus read failed (output too big)") w1))
      else br_read fuel (i + 1) ss' (inc_ti req) data_size
             (do_stores (br_stores i resp) w1)
    else (- EIO, w1)
  else (0, w).
Proof.
  intros w1 resp. cbn [br_read]. destruct (i <? ss); [|reflexivity].
  unfold bind at 1.
  destruct (run_read_resp w) as (pre & _ & Hv & _).
  destruct (smbus_master_read_resp w) as [v w1'] eqn:E.
  cbn [fst snd] in Hv. subst v. subst w1. cbn [snd]. fold resp.
  rewrite resp_ok_status.
  destruct (resp_ok resp req.[Req.ti]); [|reflexivity].
  cbn [negb Z.eqb]. cbv zeta. unfold br_stores.
  destruct (3 <=? i); cbn [andb]; [|reflexivity].
  destruct (data_size <=? i - 3).
  - unfold bind, ret. destruct (emit _ w1'). reflexivity.
  - unfold bind. cbn [do_stores]. unfold store at 2. cbn [snd].
    unfold store, u8. rewrite Zmod_mod. reflexivity.
Qed.

Lemma br_read_0 i ss req data_size w :
  ss <= i -> forall fuel, br_read fuel i ss req data_size w = (0, w).
Proof.
  intros H [|fuel]; cbn [br_read];
    replace (i <? ss) with false by (symmetry; apply Z.ltb_ge; exact H);
    reflexivity.
Qed.

Lemma rsp_d_range (resp : Z) : 0 <= resp.[Rsp.d] < 256.
Proof. apply (get_range Rsp.d). unfold wf; simpl; lia. Qed.

Lemma final_ss_ge (i ss : Z) (w : world) :
  (i <= 3 -> ss = 4) -> ss <= final_ss i ss w.
Proof.
  intros H. unfold final_ss. destruct (Z.leb_spec i 3); [|lia].
  rewrite (H ltac:(lia)).
  pose proof (rsp_d_range (resp_at w (Z.to_nat (3 - i)))).
  unfold u32. rewrite Z.mod_small; lia.
Qed.

Lemma final_ss_next (i ss : Z) (w w2 : world) :
  0 <= i ->
  (forall j, resp_at w2 j = resp_at w (S j)) ->
  final_ss (i + 1) (if i =? 3 then u32 (ss + (resp_at w 0).[Rsp.d]) else ss) w2
  = final_ss i ss w.
Proof.
  intros Hi Hat. unfold final_ss.
  destruct (Z.eqb_spec i 3) as [->|Hne].
  - reflexivity.
  - destruct (Z.leb_spec (i + 1) 3); destruct (Z.leb_spec i 3); try lia.
    rewrite Hat. do 4 f_equal. lia.
Qed.

(** The read loop stops at the first phase [k] whose response fails
    validation ([-EIO]) or does not fit the buffer ([-EINVAL]); otherwise
    it runs up to the bound that the length byte sets. *)
Lemma br_read_spec (fuel : nat) :
  forall i ss req data_size w,
  0 <= i <= ss -> (i <= 3 -> ss = 4) ->
  final_ss i ss w - i <= Z.of_nat fuel ->
  exists (k : nat) (l : list event),
    let res := br_read fuel i ss req data_size w in
    run w (snd res) l /\
    reqs l = [] /\
    (forall j, (j < k)%nat ->
       resp_ok (resp_at w j) (tid_at req j) = true /\
       (3 <= i + Z.of_nat j -> i + Z.of_nat j - 3 < data_size)) /\
    stores l =
      flat_map (fun j => map stored (br_stores (i + Z.of_nat j) (resp_at w j)))
               (seq 0 k) /\
    ((fst res = 0 /\ List.length (resps l) = k /\
      i + Z.of_nat k = final_ss i ss w) \/
     (fst res = - EIO /\
      resp_ok (resp_at w k) (tid_at req k) = false /\
      List.length (resps l) = S k /\
      exists pre, l = pre ++ [EvReadResp (resp_at w k)]) \/
     (fst res = - EINVAL /\
      resp_ok (resp_at w k) (tid_at req k) = true /\
      3 <= i + Z.of_nat k /\ data_size <= i + Z.of_nat k - 3 /\
      List.length (resps l) = S k /\
      exists pre, l = pre ++ [EvReadResp (resp_at w k);
                              EvWarn "smbus read failed (output too big)"])).
Proof.
  induction fuel as [|fuel IH]; intros i ss req data_size w Hi Hss Hfuel.
  - pose proof (final_ss_ge i ss w Hss) as Hge.
    assert (Hend : ss <= i) by lia.
    exists O, []. cbv zeta. rewrite br_read_0 by exact Hend.
    cbn [fst snd seq flat_map List.length resps].
    split; [apply run_refl|]. split; [reflexivity|].
    split; [intros; lia|]. split; [reflexivity|]. left.
    repeat split; auto. lia.
  - pose proof (final_ss_ge i ss w Hss) as Hge.
    cbv zeta. rewrite br_read_step. cbv zeta.
    destruct (Z.ltb_spec i ss) as [Hlt|Hend].
    2:{ exists O, []. cbn [fst snd seq flat_map List.length resps].
        split; [apply run_refl|]. split; [reflexivity|].
        split; [intros; lia|]. split; [reflexivity|]. left.
        repeat split; auto.
        unfold final_ss. destruct (Z.leb_spec i 3); lia. }
    destruct (run_read_resp w) as (pre0 & (Hq1 & Hq2 & Hq3) & _ & Hrun0).
    set (w1 := snd (smbus_master_read_resp w)) in *.
    set (r0 := resp_at w 0) in *.
    assert (Hl0 : reqs (pre0 ++ [EvReadResp r0]) = [] /\
                  resps (pre0 ++ [EvReadResp r0]) = [r0] /\
                  stores (pre0 ++ [EvReadResp r0]) = []).
    { rewrite reqs_app, resps_app, stores_app, Hq1, Hq2, Hq3. repeat split. }
    destruct Hl0 as (Hr0 & Hp0 & Hs0).
    rewrite <- tid_at_0.
    destruct (resp_ok r0 (tid_at req 0)) eqn:Hok.
    + destruct ((3 <=? i) && (data_size <=? i - 3)) eqn:Hov.
      * (* the byte does not fit *)
        apply andb_prop in Hov. destruct Hov as (Hov1 & Hov2).
        apply Z.leb_le in Hov1, Hov2.
        exists O, ((pre0 ++ [EvReadResp r0]) ++
                   [EvWarn "smbus read failed (output too big)"]).
        cbn [fst snd seq flat_map].
        split; [eapply run_trans; [exact Hrun0|apply run_emit; repeat split]|].
        split; [rewrite reqs_app, Hr0; reflexivity|].
        split; [intros; lia|].
        split; [rewrite stores_app, Hs0; reflexivity|].
        right; right. rewrite resps_app, Hp0, Z.add_0_r.
        repeat split; try lia; auto.
        exists pre0. rewrite <- app_assoc. reflexivity.
      * (* the phase is processed *)
        set (sts := br_stores i r0).
        set (w2 := do_stores sts w1).
        assert (Hrun2 : run w w2 ((pre0 ++ [EvReadResp r0]) ++ store_events sts)).
        { eapply run_trans; [exact Hrun0|apply run_do_stores]. }
        destruct (stores_store_events sts) as (Hss1 & Hss2 & Hss3).
        assert (Hlen2 : List.length
                  (resps ((pre0 ++ [EvReadResp r0]) ++ store_events sts)) = 1%nat).
        { rewrite resps_app, Hp0, Hss3. reflexivity. }
        assert (Hat : forall j, resp_at w2 j = resp_at w (S j)).
        { intros j. rewrite (resp_at_run _ _ _ j Hrun2), Hlen2. reflexivity. }
        pose proof (final_ss_next i ss w w2 ltac:(lia) Hat) as Hfin.
        fold r0 in Hfin.
        set (ss' := if i =? 3 then u32 (ss + r0.[Rsp.d]) else ss) in *.
        assert (Hss' : ss <= ss').
        { subst ss'. destruct (Z.eqb_spec i 3); [|lia].
          pose proof (rsp_d_range r0). rewrite (Hss ltac:(lia)).
          unfold u32. rewrite Z.mod_small; lia. }
        destruct (IH (i + 1) ss' (inc_ti req) data_size w2)
          as (k & l & Hrun & Hreq & Hall & Hst & Hout).
        { lia. }
        { intros H3. subst ss'. destruct (Z.eqb_spec i 3); [lia|]. apply Hss. lia. }
        { rewrite Hfin. lia. }
        cbv zeta in *. rewrite Hfin in Hout.
        exists (S k), (((pre0 ++ [EvReadResp r0]) ++ store_events sts) ++ l).
        split; [eapply run_trans; eassumption|].
        split; [rewrite 2 reqs_app, Hr0, Hss2, Hreq; reflexivity|].
        split; [|split].
        -- intros [|j] Hj.
           ++ rewrite Z.add_0_r. fold r0. split; [exact Hok|].
              intros H3. apply andb_false_iff in Hov.
              destruct Hov as [Hov|Hov];
                [apply Z.leb_gt in Hov|apply Z.leb_gt in Hov]; lia.
           ++ destruct (Hall j ltac:(lia)) as (A & B).
              rewrite Hat, tid_at_S in A.
              replace (i + 1 + Z.of_nat j) with (i + Z.of_nat (S j)) in B by lia.
              auto.
        -- rewrite 2 stores_app, Hs0, Hss1, Hst.
           change (seq 0 (S k)) with (0%nat :: seq 1 k).
           cbn [flat_map app]. rewrite Z.add_0_r. fold r0. f_equal.
           rewrite flat_map_seq_shift. apply flat_map_ext. intros j.
           rewrite Hat. do 2 f_equal. lia.
        -- rewrite 2 resps_app, Hp0, Hss3, !length_app.
           cbn [List.length app Nat.add].
           destruct Hout as [(A & B & C) | [(A & B & C & pre & E) |
                                             (A & B & C & D & E & pre & F)]].
           ++ left. repeat split; try lia; auto.
           ++ right; left. rewrite Hat, tid_at_S in B.
              repeat split; try lia; auto.
              exists (((pre0 ++ [EvReadResp r0]) ++ store_events sts) ++ pre).
              rewrite E, Hat, <- !app_assoc. reflexivity.
           ++ right; right. rewrite Hat, tid_at_S in B.
              repeat split; try lia; auto.
              exists (((pre0 ++ [EvReadResp r0]) ++ store_events sts) ++ pre).
              rewrite F, Hat, <- !app_assoc. reflexivity.
    + (* validation fails at this phase *)
      exists O, (pre0 ++ [EvReadResp r0]). cbn [fst snd seq flat_map].
      split; [exact Hrun0|]. split; [exact Hr0|].
      split; [intros; lia|]. split; [exact Hs0|].
      right; left. rewrite Hp0.
      repeat split; try lia; auto. exists pre0. reflexivity.
Qed.

End BlockRead.

(* ================================================================== *)
(** ** One exchange, and the two ways of a block read *)

Section Exchange.

Lemma tid_at_ti0 (req : Z) (j : nat) :
  tid_at req.[Req.ti := 0] j = Z.of_nat j mod 16.
Proof. unfold tid_at. fields. reflexivity. Qed.

Lemma run_reset_after (w : world) :
  exists cs, run w (snd (smbus_master_reset w)) (reset_trace cs).
Proof. exists (cs_at w 0). apply run_reset. Qed.

(** An exchange writes its [ss] requests, then reads responses up to the
    first phase [k] that fails, and resets the master if one did. *)
Lemma exchange_spec params addr rw command size data_size ss off req0 fr w :
  req0.[Req.ti] = 0 -> req0.[Req.dat] = 0 -> req0.[Req.ed] = 0 -> 0 <= ss ->
  exists (vs : list Z) (k : nat) (lr tail : list event),
    let res := exchange params addr rw command size data_size ss off req0 fr w in
    run w (snd res) (map EvWriteReq vs ++ lr ++ tail) /\
    List.length vs = Z.to_nat ss /\
    (forall j, (j < Z.to_nat ss)%nat -> (nth j vs 0).[Req.ti] = Z.of_nat j mod 16) /\
    Forall (fun v => v.[Req.t] = req0.[Req.t]) vs /\
    (forall j, (j < Z.to_nat ss)%nat ->
       if (S j =? Z.to_nat ss)%nat
       then (nth j vs 0).[Req.dat] = dat_of params rw mod 4 /\
            (nth j vs 0).[Req.ed] = bp_ed params mod 2
       else (nth j vs 0).[Req.dat] = 0 /\ (nth j vs 0).[Req.ed] = 0) /\
    reqs lr = [] /\
    (k <= Z.to_nat ss)%nat /\
    (forall j, (j < k)%nat ->
       resp_ok (resp_at w j) (Z.of_nat j mod 16) = true /\
       overflows rw size data_size (Z.of_nat j) = false) /\
    (size <> I2C_SMBUS_WORD_DATA ->
     stores lr =
     flat_map (fun j => map stored
                 (phase_stores rw size ss (Z.of_nat j) (resp_at w j)
                               (fun _ => 0)))
              (seq 0 k)) /\
    ((k = Z.to_nat ss /\ fst res = (0, fr) /\
      List.length (resps lr) = k /\ tail = []) \/
     ((k < Z.to_nat ss)%nat /\
      resp_ok (resp_at w k) (Z.of_nat k mod 16) = false /\
      fst (fst res) = - EIO /\
      List.length (resps lr) = S k /\
      exists pre cs, lr = pre ++ [EvReadResp (resp_at w k)] /\
                     tail = reset_trace cs) \/
     ((k < Z.to_nat ss)%nat /\
      resp_ok (resp_at w k) (Z.of_nat k mod 16) = true /\
      overflows rw size data_size (Z.of_nat k) = true /\
      fst res = (- EINVAL, SET_FAIL_REASON "buffer too short") /\
      List.length (resps lr) = S k /\
      exists pre cs, lr = pre ++ [EvReadResp (resp_at w k)] /\
                     tail = reset_trace cs)).
Proof.
  intros Hti Hdat Hed Hss. unfold exchange. cbv zeta. unfold bind.
  set (req1 := (((req0.[Req.st := 1]).[Req.ss := ss]).[Req.d := _]).[Req.dod := 1]).
  assert (H1 : req1.[Req.ti] = 0 /\ req1.[Req.dat] = 0 /\ req1.[Req.ed] = 0 /\
               req1.[Req.t] = req0.[Req.t]).
  { subst req1. fields. auto. }
  destruct H1 as (H1ti & H1dat & H1ed & H1t).
  destruct (issue_phases_spec (Z.to_nat ss) 0 params addr rw command ss off req1 w)
    as (vs & Hrun1 & Hlen & Hvti & Hvt & Hvlast).
  destruct (issue_phases (Z.to_nat ss) 0 params addr rw command ss off req1 w)
    as [req2 w1] eqn:E1. cbn [snd] in Hrun1.
  assert (Hat1 : forall j, resp_at w1 j = resp_at w j).
  { intros j. rewrite (resp_at_run _ _ _ j Hrun1).
    replace (resps (map EvWriteReq vs)) with (@nil Z); [reflexivity|].
    clear. induction vs; [reflexivity|]. cbn. exact IHvs. }
  destruct (read_phases_spec (Z.to_nat ss) 0 rw size ss data_size
              req2.[Req.ti := 0] fr w1)
    as (k & lr & Hrun2 & Hreq2 & Hk & Hall & Hst & Hout).
  cbv zeta in *.
  destruct (read_phases (Z.to_nat ss) 0 rw size ss data_size
              req2.[Req.ti := 0] fr w1) as [[r fr'] w2] eqn:E2.
  cbn [fst snd] in *.
  assert (Hall' : forall j, (j < k)%nat ->
            resp_ok (resp_at w j) (Z.of_nat j mod 16) = true /\
            overflows rw size data_size (Z.of_nat j) = false).
  { intros j Hj. destruct (Hall j Hj) as (A & B).
    rewrite Hat1, tid_at_ti0 in A. rewrite Z.add_0_l in B. auto. }
  assert (Hst' : size <> I2C_SMBUS_WORD_DATA ->
            stores lr =
            flat_map (fun j => map stored
                 (phase_stores rw size ss (Z.of_nat j) (resp_at w j)
                               (fun _ => 0))) (seq 0 k)).
  { intros Hsz. rewrite (Hst Hsz). apply flat_map_ext. intros j.
    rewrite Hat1, Z.add_0_l. reflexivity. }
  assert (Hvlast' : forall j, (j < Z.to_nat ss)%nat ->
       if (S j =? Z.to_nat ss)%nat
       then (nth j vs 0).[Req.dat] = dat_of params rw mod 4 /\
            (nth j vs 0).[Req.ed] = bp_ed params mod 2
       else (nth j vs 0).[Req.dat] = 0 /\ (nth j vs 0).[Req.ed] = 0).
  { apply Hvlast; auto. lia. }
  assert (Hvti' : forall j, (j < Z.to_nat ss)%nat ->
            (nth j vs 0).[Req.ti] = Z.of_nat j mod 16).
  { intros j Hj. rewrite (Hvti j Hj), H1ti. reflexivity. }
  assert (Hvt' : Forall (fun v => v.[Req.t] = req0.[Req.t]) vs).
  { eapply Forall_impl; [|exact Hvt]. intros a Ha. cbv beta in Ha. congruence. }
  destruct Hout as [(A & B & C) | [(A & B & C & D & pre & F) |
                                    (A & B & C & D & F & pre & G)]].
  - (* all phases pass *)
    inversion B; subst r fr'. cbn [negb Z.eqb ret fst snd].
    exists vs, k, lr, []. rewrite app_nil_r.
    split; [eapply run_trans; eassumption|].
    repeat (split; [assumption|]). left. repeat split; auto; congruence.
  - (* a response fails validation *)
    subst r. change (negb (- EIO =? 0)) with true. cbv beta iota. unfold ret.
    destruct (run_reset_after w2) as (cs & Hrun3).
    destruct (smbus_master_reset w2) as [[] w3]. cbn [fst snd] in *.
    exists vs, k, lr, (reset_trace cs).
    split; [eapply run_trans; [eassumption|eapply run_trans; eassumption]|].
    repeat (split; [assumption|]). right; left.
    rewrite Hat1, tid_at_ti0 in B. rewrite Hat1 in F.
    repeat split; auto. exists pre, cs. auto.
  - (* the capacity check trips *)
    assert (Hr : r = - EINVAL) by congruence.
    assert (Hfr : fr' = SET_FAIL_REASON "buffer too short") by congruence.
    subst r fr'.
    change (negb (- EINVAL =? 0)) with true. cbv beta iota. unfold ret.
    destruct (run_reset_after w2) as (cs & Hrun3).
    destruct (smbus_master_reset w2) as [[] w3]. cbn [fst snd] in *.
    exists vs, k, lr, (reset_trace cs).
    split; [eapply run_trans; [eassumption|eapply run_trans; eassumption]|].
    repeat (split; [assumption|]). right; right.
    rewrite Hat1, tid_at_ti0 in B. rewrite Hat1 in G. rewrite Z.add_0_l in C.
    repeat split; auto. exists pre, cs. auto.
Qed.

Lemma reqs_map_write (vs : list Z) :
  reqs (map EvWriteReq vs) = vs /\ resps (map EvWriteReq vs) = [] /\
  stores (map EvWriteReq vs) = [].
Proof.
  induction vs as [|v vs (A & B & C)]; [repeat split|].
  cbn [map]. change (EvWriteReq v :: map EvWriteReq vs)
    with ([EvWriteReq v] ++ map EvWriteReq vs).
  rewrite reqs_app, resps_app, stores_app, A, B, C. repeat split.
Qed.

(** The hardware-assisted block read writes three requests, waits, and
    either times out or reads responses up to the first phase [k] that
    fails. *)
Lemma block_read_spec bus addr command data_size w :
  exists (vs : list Z) (lq : list event) (k : nat) (lr : list event),
    let res := scd_smbus_block_read bus addr command data_size w in
    let p := get_smbus_params bus addr in
    run w (snd res) (map EvWriteReq vs ++ lq ++ lr) /\
    List.length vs = 3%nat /\
    Forall (fun v => v.[Req.t] = bp_t p mod 4 /\
                     v.[Req.dat] = 0 /\ v.[Req.ed] = 0) vs /\
    quiet lq /\
    reqs lr = [] /\
    (forall j, (j < k)%nat ->
       resp_ok (resp_at w j) (Z.of_nat j mod 16) = true /\
       (3 <= Z.of_nat j -> Z.of_nat j - 3 < data_size)) /\
    stores lr =
      flat_map (fun j => map stored (br_stores (Z.of_nat j) (resp_at w j)))
               (seq 0 k) /\
    ((fst res = - EINVAL /\ k = O /\ lr = [EvWarn "smbus response timeout"]) \/
     (fst res = 0 /\ List.length (resps lr) = k /\
      Z.of_nat k = 4 + (resp_at w 3).[Rsp.d]) \/
     (fst res = - EIO /\
      resp_ok (resp_at w k) (Z.of_nat k mod 16) = false /\
      List.length (resps lr) = S k /\
      exists pre, lr = pre ++ [EvReadResp (resp_at w k)]) \/
     (fst res = - EINVAL /\
      resp_ok (resp_at w k) (Z.of_nat k mod 16) = true /\
      3 <= Z.of_nat k /\ data_size <= Z.of_nat k - 3 /\
      List.length (resps lr) = S k /\
      exists pre, lr = pre ++ [EvReadResp (resp_at w k);
                               EvWarn "smbus read failed (output too big)"])).
Proof.
  unfold scd_smbus_block_read. cbv zeta. unfold bind.
  set (p := get_smbus_params bus addr).
  match goal with |- context [br_issue _ 0 addr command ?r w] => set (req1 := r) end.
  assert (H1 : req1.[Req.t] = bp_t p mod 4 /\ req1.[Req.dat] = 0 /\
               req1.[Req.ed] = 0).
  { subst req1. fields. auto. }
  destruct (br_issue_spec (Z.to_nat 3) 0 addr command req1 w)
    as (vs & Hrun1 & Hlen & Hvs).
  destruct (br_issue (Z.to_nat 3) 0 addr command req1 w) as [req2 w1] eqn:E1.
  cbn [snd] in Hrun1.
  destruct (reqs_map_write vs) as (Hm1 & Hm2 & Hm3).
  assert (Hvs' : Forall (fun v => v.[Req.t] = bp_t p mod 4 /\
                                  v.[Req.dat] = 0 /\ v.[Req.ed] = 0) vs).
  { eapply Forall_impl; [|exact Hvs]. intros a (A & B & C).
    destruct H1 as (A1 & B1 & C1). repeat split; congruence. }
  destruct (run_read_cs w1) as (E2 & Hrun2). rewrite E2.
  set (w2 := snd (smbus_master_read_cs w1)) in *.
  set (t := block_read_timeout (bp_t p)).
  destruct (brb_wait_spec (Z.to_nat t) t 0 (cs_at w1 0) w2)
    as (lw & Hqw & Hrun3 & _).
  destruct (brb_wait (Z.to_nat t) t 0 (cs_at w1 0) w2) as [[ct cs] w3] eqn:E3.
  cbn [snd] in Hrun3. cbv beta iota.
  assert (Hq : quiet ([EvReadCs (cs_at w1 0)] ++ lw)).
  { apply quiet_app; [repeat split|exact Hqw]. }
  assert (Hrunq : run w1 w3 ([EvReadCs (cs_at w1 0)] ++ lw)).
  { eapply run_trans; eassumption. }
  assert (Hrun13 : run w w3 (map EvWriteReq vs ++ [EvReadCs (cs_at w1 0)] ++ lw)).
  { eapply run_trans; eassumption. }
  assert (Hat : forall j, resp_at w3 j = resp_at w j).
  { intros j. rewrite (resp_at_run _ _ _ j Hrun13).
    destruct Hq as (_ & Hq2 & _). rewrite resps_app, Hm2, Hq2. reflexivity. }
  destruct (Z.eqb_spec ct t) as [Hto|Hnto].
  - (* timeout *)
    exists vs, ([EvReadCs (cs_at w1 0)] ++ lw), O,
      [EvWarn "smbus response timeout"].
    unfold ret. cbn [fst snd seq flat_map].
    split.
    { replace (map EvWriteReq vs ++ ([EvReadCs (cs_at w1 0)] ++ lw) ++
               [EvWarn "smbus response timeout"])
        with ((map EvWriteReq vs ++ [EvReadCs (cs_at w1 0)] ++ lw) ++
              [EvWarn "smbus response timeout"])
        by (rewrite <- !app_assoc; reflexivity).
      eapply run_trans; [exact Hrun13|]. apply run_emit. repeat split. }
    repeat (split; [assumption || reflexivity || (intros; lia)|]).
    left. auto.
  - destruct (br_read_spec br_read_fuel 0 (3 + 1) req2.[Req.ti := 0] data_size w3)
      as (k & lr & Hrun4 & Hreq4 & Hall & Hst & Hout).
    { lia. } { reflexivity. }
    { unfold final_ss. cbn [Z.leb Z.compare].
      pose proof (rsp_d_range (resp_at w3 (Z.to_nat (3 - 0)))).
      unfold u32. rewrite Z.mod_small by lia. unfold br_read_fuel. lia. }
    cbv zeta in *.
    assert (Hfin : final_ss 0 (3 + 1) w3 = 4 + (resp_at w 3).[Rsp.d]).
    { unfold final_ss. cbn [Z.leb Z.compare]. change (Z.to_nat (3 - 0)) with 3%nat.
      rewrite Hat. pose proof (rsp_d_range (resp_at w 3)).
      unfold u32. rewrite Z.mod_small by lia. reflexivity. }
    exists vs, ([EvReadCs (cs_at w1 0)] ++ lw), k, lr.
    split.
    { replace (map EvWriteReq vs ++ ([EvReadCs (cs_at w1 0)] ++ lw) ++ lr)
        with ((map EvWriteReq vs ++ [EvReadCs (cs_at w1 0)] ++ lw) ++ lr)
        by (rewrite <- !app_assoc; reflexivity).
      eapply run_trans; [exact Hrun13|exact Hrun4]. }
    split; [exact Hlen|]. split; [exact Hvs'|]. split; [exact Hq|].
    split; [exact Hreq4|]. split; [|split].
    + intros j Hj. destruct (Hall j Hj) as (A & B).
      rewrite Hat, tid_at_ti0 in A. rewrite Z.add_0_l in B. auto.
    + rewrite Hst. apply flat_map_ext. intros j. rewrite Hat, Z.add_0_l.
      reflexivity.
    + right.
      destruct Hout as [(A & B & C) | [(A & B & C & pre & F) |
                                        (A & B & C & D & F & pre & G)]].
      * left. rewrite Hfin in C. repeat split; auto; lia.
      * right; left. rewrite Hat, tid_at_ti0 in B. rewrite Hat in F.
        repeat split; auto. exists pre. exact F.
      * right; right. rewrite Hat, tid_at_ti0 in B. rewrite Hat in G.
        repeat split; auto; try lia. exists pre. exact G.
Qed.

End Exchange.

(* ================================================================== *)
(** ** The ways through [scd_smbus_do_impl] *)

Section Paths.

Lemma do_impl_body_single (self : do_impl_t) master bus addr flags rw command
    size data_size fr w :
  single_exchange size rw = true ->
  do_impl_body self master bus addr flags rw command size data_size fr w =
  let p := get_smbus_params bus addr in
  let '(ss, off) := plan size rw data_size (u8 (data w 0)) in
  exchange p addr rw command size data_size ss off (req_init bus p) fr w.
Proof.
  unfold single_exchange, do_impl_body, plan, req_init. cbv zeta.
  intros H. unfold bind at 1.
  repeat match goal with
         | |- context [if ?a =? ?b then _ else _] =>
             destruct (a =? b) eqn:?; try reflexivity
         end; try discriminate H.
Qed.

Lemma do_impl_body_hw (self : do_impl_t) master bus addr flags rw command
    size data_size fr w :
  size = I2C_SMBUS_BLOCK_DATA -> rw <> I2C_SMBUS_WRITE ->
  m_br_supported master = true ->
  do_impl_body self master bus addr flags rw command size data_size fr w =
  hw_path bus addr command data_size fr w.
Proof.
  intros -> Hrw Hbr. unfold do_impl_body, hw_path, fail_with. cbv zeta.
  change (I2C_SMBUS_BLOCK_DATA =? I2C_SMBUS_QUICK) with false.
  change (I2C_SMBUS_BLOCK_DATA =? I2C_SMBUS_BYTE) with false.
  change (I2C_SMBUS_BLOCK_DATA =? I2C_SMBUS_BYTE_DATA) with false.
  change (I2C_SMBUS_BLOCK_DATA =? I2C_SMBUS_WORD_DATA) with false.
  change (I2C_SMBUS_BLOCK_DATA =? I2C_SMBUS_I2C_BLOCK_DATA_MSG) with false.
  change (I2C_SMBUS_BLOCK_DATA =? I2C_SMBUS_I2C_BLOCK_DATA) with false.
  change (I2C_SMBUS_BLOCK_DATA =? I2C_SMBUS_BLOCK_DATA) with true.
  cbv iota.
  replace (rw =? I2C_SMBUS_WRITE) with false
    by (symmetry; apply Z.eqb_neq; exact Hrw).
  rewrite Hbr. unfold bind.
  destruct (scd_smbus_block_read bus addr command data_size w) as [r w1].
  destruct (negb (r =? 0)); reflexivity.
Qed.

Lemma do_impl_body_nested (self : do_impl_t) master bus addr flags rw command
    size data_size fr w :
  size = I2C_SMBUS_BLOCK_DATA -> rw <> I2C_SMBUS_WRITE ->
  m_br_supported master = false ->
  (forall fr' w',
     self master bus addr flags I2C_SMBUS_READ command I2C_SMBUS_BYTE_DATA
          data_size fr' w' =
     exchange (get_smbus_params bus addr) addr I2C_SMBUS_READ command
              I2C_SMBUS_BYTE_DATA data_size 4 0
              (req_init bus (get_smbus_params bus addr)) fr' w') ->
  do_impl_body self master bus addr flags rw command size data_size fr w =
  nested_path bus addr rw command size data_size fr w.
Proof.
  intros -> Hrw Hbr Hself. unfold do_impl_body, nested_path, fail_with.
  cbv zeta.
  change (I2C_SMBUS_BLOCK_DATA =? I2C_SMBUS_QUICK) with false.
  change (I2C_SMBUS_BLOCK_DATA =? I2C_SMBUS_BYTE) with false.
  change (I2C_SMBUS_BLOCK_DATA =? I2C_SMBUS_BYTE_DATA) with false.
  change (I2C_SMBUS_BLOCK_DATA =? I2C_SMBUS_WORD_DATA) with false.
  change (I2C_SMBUS_BLOCK_DATA =? I2C_SMBUS_I2C_BLOCK_DATA_MSG) with false.
  change (I2C_SMBUS_BLOCK_DATA =? I2C_SMBUS_I2C_BLOCK_DATA) with false.
  change (I2C_SMBUS_BLOCK_DATA =? I2C_SMBUS_BLOCK_DATA) with true.
  cbv iota.
  replace (rw =? I2C_SMBUS_WRITE) with false
    by (symmetry; apply Z.eqb_neq; exact Hrw).
  rewrite Hbr. unfold bind. rewrite Hself.
  destruct (exchange _ _ _ _ _ _ _ _ _ _ w) as [[r fr1] w1].
  destruct (negb (r =? 0)); reflexivity.
Qed.

Lemma probe_is_exchange (self : do_impl_t) master bus addr flags command
    data_size fr w :
  do_impl_body self master bus addr flags I2C_SMBUS_READ command
               I2C_SMBUS_BYTE_DATA data_size fr w =
  exchange (get_smbus_params bus addr) addr I2C_SMBUS_READ command
           I2C_SMBUS_BYTE_DATA data_size 4 0
           (req_init bus (get_smbus_params bus addr)) fr w.
Proof. rewrite do_impl_body_single; reflexivity. Qed.

(** The three ways. *)
Lemma do_impl_paths master bus addr flags rw command size data_size fr w :
  let res := scd_smbus_do_impl master bus addr flags rw command size
                               data_size fr w in
  let p := get_smbus_params bus addr in
  (single_exchange size rw = true /\
   res = exchange p addr rw command size data_size
           (fst (plan size rw data_size (u8 (data w 0))))
           (snd (plan size rw data_size (u8 (data w 0))))
           (req_init bus p) fr w) \/
  (size = I2C_SMBUS_BLOCK_DATA /\ rw <> I2C_SMBUS_WRITE /\
   m_br_supported master = true /\
   res = hw_path bus addr command data_size fr w) \/
  (size = I2C_SMBUS_BLOCK_DATA /\ rw <> I2C_SMBUS_WRITE /\
   m_br_supported master = false /\
   res = nested_path bus addr rw command size data_size fr w).
Proof.
  cbv zeta. unfold scd_smbus_do_impl.
  destruct (single_exchange size rw) eqn:Hs.
  - left. split; [reflexivity|]. rewrite do_impl_body_single by exact Hs.
    cbv zeta. destruct (plan size rw data_size (u8 (data w 0))). reflexivity.
  - right. unfold single_exchange in Hs. apply negb_false_iff in Hs.
    apply andb_prop in Hs. destruct Hs as (H1 & H2).
    apply Z.eqb_eq in H1. apply negb_true_iff, Z.eqb_neq in H2.
    destruct (m_br_supported master) eqn:Hbr.
    + left. repeat split; auto. apply do_impl_body_hw; auto.
    + right. repeat split; auto. apply do_impl_body_nested; auto.
Qed.

(** [scd_smbus_do_impl] is the function that calls itself for the probe. *)
Lemma scd_smbus_do_impl_unfold master bus addr flags rw command size
    data_size fr w :
  scd_smbus_do_impl master bus addr flags rw command size data_size fr w =
  do_impl_body scd_smbus_do_impl master bus addr flags rw command size
               data_size fr w.
Proof.
  destruct (do_impl_paths master bus addr flags rw command size data_size fr w)
    as [(Hs & E) | [(H1 & H2 & H3 & E) | (H1 & H2 & H3 & E)]]; rewrite E.
  - rewrite do_impl_body_single by exact Hs. cbv zeta.
    destruct (plan size rw data_size (u8 (data w 0))). reflexivity.
  - symmetry. apply do_impl_body_hw; auto.
  - symmetry. apply do_impl_body_nested; auto.

Qed.

End Paths.

(* ================================================================== *)
(** ** Validation and reset, whatever the way through *)

Section Outcome.

Lemma quiet_reset (cs : Z) : quiet (reset_trace cs).
Proof. repeat split. Qed.

Lemma exchange_outcome params addr rw command size data_size ss off req0 fr w :
  req0.[Req.ti] = 0 -> req0.[Req.dat] = 0 -> req0.[Req.ed] = 0 -> 0 <= ss ->
  let res := exchange params addr rw command size data_size ss off req0 fr w in
  exists l, run w (snd res) l /\
            validation_outcome (fun j => Z.of_nat j mod 16) w (fst (fst res)) l.
Proof.
  intros Hti Hdat Hed Hss res.
  destruct (exchange_spec params addr rw command size data_size ss off req0 fr w
              Hti Hdat Hed Hss)
    as (vs & k & lr & tail & Hrun & _ & _ & _ & _ & Hreq & Hk & Hall & _ & Hout).
  fold res in Hrun, Hout.
  exists (map EvWriteReq vs ++ lr ++ tail). split; [exact Hrun|].
  destruct (reqs_map_write vs) as (_ & Hm & _).
  unfold validation_outcome. cbv zeta.
  assert (Hres : forall l' t', resps t' = [] ->
            resps (map EvWriteReq vs ++ l' ++ t') = resps l').
  { intros l' t' Ht. rewrite !resps_app, Hm, Ht, app_nil_r. reflexivity. }
  destruct Hout as [(A & B & C & D) | [(A & B & C & D & pre & cs & F & G) |
                                        (A & B & C & D & F & pre & cs & G & H)]].
  - rewrite B. cbn [fst]. subst tail.
    rewrite Hres by reflexivity. rewrite C.
    split; [auto|]. split; [intros j Hj; apply Hall; lia|].
    split; [intros _ j Hj; apply Hall; lia|].
    split; [intros E; discriminate E|intros E; discriminate E].
  - rewrite C. subst tail.
    assert (Hn : List.length (resps (map EvWriteReq vs ++ lr ++ reset_trace cs))
                 = S k).
    { rewrite Hres by reflexivity. exact D. }
    rewrite Hn.
    split; [auto|]. split; [intros j Hj; apply Hall; lia|].
    split; [intros E; contradiction E; reflexivity|].
    split; [|intros E; discriminate E].
    intros _. exists k, (map EvWriteReq vs ++ pre), [], cs.
    repeat split; auto. rewrite F, <- !app_assoc. reflexivity.
  - rewrite D. cbn [fst]. subst tail.
    assert (Hn : List.length (resps (map EvWriteReq vs ++ lr ++ reset_trace cs))
                 = S k).
    { rewrite Hres by reflexivity. exact F. }
    rewrite Hn.
    split; [auto|]. split; [intros j Hj; apply Hall; lia|].
    split.
    { intros _ j Hj. destruct (Nat.eq_dec j k) as [->|Hne]; [exact B|].
      apply Hall. lia. }
    split; [intros E; discriminate E|].
    intros _. exists (map EvWriteReq vs ++ lr), cs.
    rewrite <- app_assoc. reflexivity.
Qed.

Lemma req_init_fields bus p :
  (req_init bus p).[Req.ti] = 0 /\ (req_init bus p).[Req.dat] = 0 /\
  (req_init bus p).[Req.ed] = 0 /\ (req_init bus p).[Req.t] = bp_t p mod 4.
Proof. unfold req_init. fields. auto. Qed.

Lemma plan_nonneg size rw data_size b0 :
  0 <= b0 -> 0 <= fst (plan size rw data_size b0).
Proof.
  intros Hb. unfold plan, u32.
  pose proof (Z.mod_pos_bound (2 + data_size) (2 ^ 32) ltac:(lia)).
  pose proof (Z.mod_pos_bound (3 + data_size) (2 ^ 32) ltac:(lia)).
  repeat match goal with
         | |- context [if ?b then _ else _] => destruct b
         end; cbn [fst]; lia.
Qed.

Lemma u8_range (x : Z) : 0 <= u8 x < 256.
Proof. unfold u8. apply Z.mod_pos_bound. lia. Qed.

Lemma run_fail_with (r : Z) (fr : string) (w : world) :
  fst (fail_with r fr w) = (r, fr) /\
  exists cs, run w (snd (fail_with r fr w)) (reset_trace cs).
Proof.
  unfold fail_with, bind, ret.
  destruct (run_reset_after w) as (cs & H).
  destruct (smbus_master_reset w) as [[] w']. split; [reflexivity|].
  exists cs. exact H.
Qed.

Lemma hw_outcome bus addr command data_size fr w :
  let res := hw_path bus addr command data_size fr w in
  exists l, run w (snd res) l /\
            validation_outcome (fun j => Z.of_nat j mod 16) w (fst (fst res)) l.
Proof.
  intros res. subst res. unfold hw_path, bind.
  destruct (block_read_spec bus addr command data_size w)
    as (vs & lq & k & lr & Hrun & _ & _ & (_ & Hq & _) & Hreq & Hall & _ & Hout).
  cbv zeta in Hrun, Hout.
  destruct (scd_smbus_block_read bus addr command data_size w) as [r w1].
  cbn [fst snd] in *.
  destruct (reqs_map_write vs) as (_ & Hm & _).
  assert (Hres : forall l', resps (map EvWriteReq vs ++ lq ++ l') = resps l').
  { intros l'. rewrite !resps_app, Hm, Hq. reflexivity. }
  destruct Hout as [(A & B & C) | [(A & B & C) | [(A & B & C & pre & D) |
                                     (A & B & C & D & F & pre & G)]]].
  - (* timeout *)
    subst r k lr. change (negb (- EINVAL =? 0)) with true. cbv iota.
    destruct (run_fail_with (- EINVAL) (SET_FAIL_REASON "block read failed") w1)
      as (E & cs & Hrun2). rewrite E. cbn [fst].
    exists ((map EvWriteReq vs ++ lq ++ [EvWarn "smbus response timeout"]) ++
            reset_trace cs).
    split; [eapply run_trans; eassumption|].
    unfold validation_outcome. cbv zeta.
    destruct (quiet_reset cs) as (_ & Hqr & _).
    rewrite resps_app, Hres, Hqr. cbn [resps flat_map app List.length].
    split; [auto|]. split; [intros; lia|]. split; [intros; lia|].
    split; [intros H; discriminate H|].
    intros _. eexists _, cs. reflexivity.
  - (* success *)
    subst r. cbn [negb Z.eqb ret fst snd].
    exists (map EvWriteReq vs ++ lq ++ lr). split; [exact Hrun|].
    unfold validation_outcome. cbv zeta. rewrite Hres, B.
    split; [auto|]. split; [intros j Hj; apply Hall; lia|].
    split; [intros _ j Hj; apply Hall; lia|].
    split; intros H; discriminate H.
  - (* a response fails validation *)
    subst r. change (negb (- EIO =? 0)) with true. cbv iota.
    destruct (run_fail_with (- EIO) (SET_FAIL_REASON "block read failed") w1)
      as (E & cs & Hrun2). rewrite E. cbn [fst].
    exists ((map EvWriteReq vs ++ lq ++ lr) ++ reset_trace cs).
    split; [eapply run_trans; eassumption|].
    unfold validation_outcome. cbv zeta.
    destruct (quiet_reset cs) as (_ & Hqr & _).
    rewrite resps_app, Hres, Hqr, app_nil_r, C.
    split; [auto|]. split; [intros j Hj; apply Hall; lia|].
    split; [intros H; contradiction H; reflexivity|].
    split; [|intros H; discriminate H].
    intros _. exists k, (map EvWriteReq vs ++ lq ++ pre), [], cs.
    repeat split; auto. rewrite D, <- !app_assoc. reflexivity.
  - (* the byte does not fit *)
    subst r. change (negb (- EINVAL =? 0)) with true. cbv iota.
    destruct (run_fail_with (- EINVAL) (SET_FAIL_REASON "block read failed") w1)
      as (E & cs & Hrun2). rewrite E. cbn [fst].
    exists ((map EvWriteReq vs ++ lq ++ lr) ++ reset_trace cs).
    split; [eapply run_trans; eassumption|].
    unfold validation_outcome. cbv zeta.
    destruct (quiet_reset cs) as (_ & Hqr & _).
    rewrite resps_app, Hres, Hqr, app_nil_r, F.
    split; [auto|]. split; [intros j Hj; apply Hall; lia|].
    split.
    { intros _ j Hj. destruct (Nat.eq_dec j k) as [->|Hne]; [exact B|].
      apply Hall. lia. }
    split; [intros H; discriminate H|].
    intros _. eexists _, cs. reflexivity.
Qed.

Lemma exp_tid_probe (j : nat) : (j < 4)%nat -> exp_tid true j = Z.of_nat j mod 16.
Proof.
  intros H. unfold exp_tid.
  replace (j <? 4)%nat with true by (symmetry; apply Nat.ltb_lt; exact H).
  rewrite Z.mod_small; lia.
Qed.

Lemma exp_tid_main (j : nat) : exp_tid true (4 + j) = Z.of_nat j mod 16.
Proof.
  unfold exp_tid.
  replace (4 + j <? 4)%nat with false by (symmetry; apply Nat.ltb_ge; lia).
  do 2 f_equal. lia.
Qed.

Lemma nested_outcome bus addr rw command size data_size fr w :
  let res := nested_path bus addr rw command size data_size fr w in
  exists l, run w (snd res) l /\
            validation_outcome (exp_tid true) w (fst (fst res)) l.
Proof.
  intros res. subst res. unfold nested_path. cbv zeta. unfold bind.
  set (p := get_smbus_params bus addr).
  destruct (req_init_fields bus p) as (Hti & Hdat & Hed & _).
  destruct (exchange_spec p addr I2C_SMBUS_READ command I2C_SMBUS_BYTE_DATA
              data_size 4 0 (req_init bus p) EmptyString w Hti Hdat Hed
              ltac:(lia))
    as (vs & k & lr & tail & Hrun & _ & _ & _ & _ & Hreq & Hk & Hall & _ & Hout).
  cbv zeta in Hrun, Hout.
  destruct (exchange p addr I2C_SMBUS_READ command I2C_SMBUS_BYTE_DATA
              data_size 4 0 (req_init bus p) EmptyString w) as [[r fr1] w1].
  cbn [fst snd] in *.
  destruct (reqs_map_write vs) as (_ & Hm & _).
  assert (Hres : forall l' t', resps t' = [] ->
            resps (map EvWriteReq vs ++ l' ++ t') = resps l').
  { intros l' t' Ht. rewrite !resps_app, Hm, Ht, app_nil_r. reflexivity. }
  destruct Hout as [(A & B & C & D) | [(A & B & C & D & pre & cs & F & G) |
                                        (A & B & C & D & F & pre & cs & G & H)]].
  - (* the probe succeeds *)
    assert (r = 0) by congruence. subst r tail. cbn [negb Z.eqb].
    unfold load. cbv beta iota.
    change (Z.to_nat 4) with 4%nat in *. subst k.
    pose proof (u8_range (data w1 0)) as Hb0.
    destruct (exchange_outcome p addr rw command size data_size
                (4 + u8 (data w1 0)) 0 (req_init bus p) fr w1 Hti Hdat Hed
                ltac:(lia)) as (l2 & Hrun2 & Hv2).
    cbv zeta in Hrun2, Hv2.
    destruct (exchange p addr rw command size data_size (4 + u8 (data w1 0)) 0
                (req_init bus p) fr w1) as [[r2 fr2] w2].
    cbn [fst snd] in *.
    set (l1 := map EvWriteReq vs ++ lr ++ []) in *.
    assert (Hl1 : List.length (resps l1) = 4%nat).
    { subst l1. rewrite Hres by reflexivity. exact C. }
    assert (Hat : forall j, resp_at w1 j = resp_at w (4 + j)).
    { intros j. rewrite (resp_at_run _ _ _ j Hrun), Hl1. reflexivity. }
    exists (l1 ++ l2). split; [eapply run_trans; eassumption|].
    destruct Hv2 as (V1 & V2 & V3 & V4 & V5).
    unfold validation_outcome. cbv zeta.
    rewrite resps_app, length_app, Hl1.
    assert (Hconv : forall j, (j < 4 + List.length (resps l2))%nat ->
              ((j < 4)%nat -> resp_ok (resp_at w j) (exp_tid true j) = true) /\
              ((4 <= j)%nat ->
               resp_ok (resp_at w1 (j - 4)) (Z.of_nat (j - 4) mod 16) = true ->
               resp_ok (resp_at w j) (exp_tid true j) = true)).
    { intros j Hj. split.
      - intros H4. rewrite exp_tid_probe by exact H4. apply Hall. exact H4.
      - intros H4 Hok. replace j with (4 + (j - 4))%nat at 1 2 by lia.
        rewrite exp_tid_main, <- Hat. exact Hok. }
    split; [exact V1|]. split; [|split; [|split]].
    + intros j Hj. destruct (Hconv j ltac:(lia)) as (P1 & P2).
      destruct (Nat.lt_ge_cases j 4) as [H4|H4]; [apply P1; exact H4|].
      apply P2; [exact H4|]. apply V2. lia.
    + intros Hne j Hj. destruct (Hconv j ltac:(lia)) as (P1 & P2).
      destruct (Nat.lt_ge_cases j 4) as [H4|H4]; [apply P1; exact H4|].
      apply P2; [exact H4|]. apply V3; [exact Hne|lia].
    + intros He. destruct (V4 He) as (k2 & pre & tl & cs & N1 & N2 & N3 & N4).
      exists (4 + k2)%nat, (l1 ++ pre), tl, cs.
      rewrite N1, N3, <- Hat, exp_tid_main, <- !app_assoc.
      repeat split; auto.
    + intros He. destruct (V5 He) as (pre & cs & N).
      exists (l1 ++ pre), cs. rewrite N, <- app_assoc. reflexivity.
  - (* a response of the probe fails validation *)
    subst r tail. change (negb (- EIO =? 0)) with true. cbv iota.
    change (Z.to_nat 4) with 4%nat in *.
    match goal with |- context [fail_with ?a ?b w1] =>
      destruct (run_fail_with a b w1) as (E & cs2 & Hrun2); rewrite E
    end.
    cbn [fst].
    exists ((map EvWriteReq vs ++ lr ++ reset_trace cs) ++ reset_trace cs2).
    split; [eapply run_trans; eassumption|].
    unfold validation_outcome. cbv zeta.
    destruct (quiet_reset cs2) as (_ & Hq2 & _).
    rewrite resps_app, Hres, Hq2, app_nil_r, D by reflexivity.
    split; [auto|]. split; [|split; [|split]].
    + intros j Hj. rewrite exp_tid_probe by lia. apply Hall. lia.
    + intros H; contradiction H; reflexivity.
    + intros _. exists k, (map EvWriteReq vs ++ pre), (reset_trace cs), cs2.
      rewrite exp_tid_probe by lia. repeat split; auto.
      * rewrite F, <- !app_assoc. reflexivity.
      * right. exists cs. reflexivity.
    + intros H; discriminate H.
  - (* the probe has no capacity check *)
    exfalso. unfold overflows in C.
    change (I2C_SMBUS_BYTE_DATA =? I2C_SMBUS_BYTE_DATA) with true in C.
    rewrite orb_true_r in C. cbn [negb andb] in C.
    rewrite andb_false_r in C. discriminate C.
Qed.

(** Whatever the way through, [scd_smbus_do_impl] stops at the first
    response that fails validation and resets the master before it
    returns an error. *)
Lemma do_impl_outcome master bus addr flags rw command size data_size fr w :
  let res := scd_smbus_do_impl master bus addr flags rw command size
                               data_size fr w in
  exists l, run w (snd res) l /\
            validation_outcome (exp_tid (with_probe master size rw)) w
                               (fst (fst res)) l.
Proof.
  cbv zeta.
  destruct (do_impl_paths master bus addr flags rw command size data_size fr w)
    as [(Hs & E) | [(H1 & H2 & H3 & E) | (H1 & H2 & H3 & E)]]; rewrite E.
  - assert (Hp : with_probe master size rw = false).
    { unfold with_probe. unfold single_exchange in Hs.
      apply negb_true_iff in Hs. rewrite Hs. reflexivity. }
    rewrite Hp.
    destruct (req_init_fields bus (get_smbus_params bus addr))
      as (Hti & Hdat & Hed & _).
    apply exchange_outcome; auto.
    apply plan_nonneg. apply u8_range.
  - assert (Hp : with_probe master size rw = false).
    { unfold with_probe. rewrite H3, andb_false_r. reflexivity. }
    rewrite Hp. apply hw_outcome.
  - assert (Hp : with_probe master size rw = true).
    { unfold with_probe. rewrite H3, H1.
      replace (rw =? I2C_SMBUS_WRITE) with false
        by (symmetry; apply Z.eqb_neq; exact H2). reflexivity. }
    rewrite Hp. apply nested_outcome.
Qed.

End Outcome.

(* ================================================================== *)
(** ** Reset on failure *)

Section ResetOnFailure.

Lemma reset_trace_bits (cs : Z) :
  exists v1 v2,
    reset_trace cs =
      [EvReadCs cs; EvWriteCs v1; EvMdelay 50; EvWriteCs v2; EvMdelay 50] /\
    v1.[Cs.reset] = 1 /\ v1.[Cs.foe] = 1 /\
    v2.[Cs.reset] = 0 /\ v2.[Cs.foe] = 1.
Proof.
  eexists _, _. split; [reflexivity|]. fields. auto.
Qed.

(** C10.  When [scd_smbus_do_impl] returns [-EINVAL] (the status of the
    capacity errors "buffer too short" and "output too big"), the last
    thing it did is the same master reset as after a protocol error; and
    [scd_smbus_access_impl] returns that status after this one
    execution, without replaying the exchange. *)
Theorem capacity_error_resets_once master bus addr flags rw command size
    data_size w :
  let res := scd_smbus_do_impl master bus addr flags rw command size
                               data_size EmptyString w in
  fst (fst res) = - EINVAL ->
  (exists pre cs v1 v2,
     trace (snd res) =
       trace w ++ pre ++
       [EvReadCs cs; EvWriteCs v1; EvMdelay 50; EvWriteCs v2; EvMdelay 50] /\
     v1.[Cs.reset] = 1 /\ v1.[Cs.foe] = 1 /\
     v2.[Cs.reset] = 0 /\ v2.[Cs.foe] = 1) /\
  scd_smbus_access_impl master bus addr flags rw command size data_size w =
    (- EINVAL, snd res).
Proof.
  intros res Hr. subst res. split.
  - destruct (do_impl_outcome master bus addr flags rw command size data_size
                EmptyString w) as (l & Hrun & V1 & V2 & V3 & V4 & V5).
    destruct (V5 Hr) as (pre & cs & Hl).
    destruct (reset_trace_bits cs) as (v1 & v2 & Hrt & B1 & B2 & B3 & B4).
    exists pre, cs, v1, v2. rewrite <- Hrt, <- Hl.
    split; [apply (run_trace _ _ _ Hrun)|auto].
  - unfold scd_smbus_access_impl, bind. rewrite access_loop_unfold.
    unfold scd_smbus_do.
    destruct (scd_smbus_do_impl master bus addr flags rw command size data_size
                EmptyString w) as [[r fr1] w1].
    cbn [fst snd] in *. subst r. reflexivity.
Qed.

End ResetOnFailure.

(* ================================================================== *)
(** ** The phases a transaction emits *)

Section Phases.

Lemma new_events_run (w w' : world) (l : list event) :
  run w w' l -> new_events w w' = l.
Proof.
  intros H. unfold new_events. rewrite (run_trace _ _ _ H).
  rewrite skipn_app, skipn_all, Nat.sub_diag. reflexivity.
Qed.

Lemma table_is_plan size rw data_size b0 n :
  0 <= data_size < 2 ^ 31 ->
  size <> I2C_SMBUS_BLOCK_DATA ->
  table_phases size rw data_size b0 = Some n ->
  single_exchange size rw = true /\ fst (plan size rw data_size b0) = n.
Proof.
  intros Hd Hsz. unfold table_phases, plan, single_exchange. cbv zeta.
  destruct (Z.eqb_spec size I2C_SMBUS_QUICK) as [->|?];
    [intros H; inversion H; split; reflexivity|].
  destruct (Z.eqb_spec size I2C_SMBUS_BYTE) as [->|?];
    [intros H; inversion H; split; reflexivity|].
  destruct (Z.eqb_spec size I2C_SMBUS_BYTE_DATA) as [->|?];
    [intros H; inversion H; split; reflexivity|].
  destruct (Z.eqb_spec size I2C_SMBUS_WORD_DATA) as [->|?];
    [intros H; inversion H; split; reflexivity|].
  destruct (Z.eqb_spec size I2C_SMBUS_I2C_BLOCK_DATA_MSG) as [->|?].
  { intros H.
    assert (Hn : (if rw =? I2C_SMBUS_WRITE then 2 + data_size
                  else 3 + data_size) = n) by congruence.
    split; [reflexivity|]. rewrite <- Hn.
    destruct (rw =? I2C_SMBUS_WRITE); cbn [fst]; unfold u32;
      apply Z.mod_small; lia. }
  destruct (Z.eqb_spec size I2C_SMBUS_I2C_BLOCK_DATA) as [->|?].
  { intros H.
    assert (Hn : (if rw =? I2C_SMBUS_WRITE then 2 + b0 else 3 + b0) = n)
      by congruence.
    split; [reflexivity|]. rewrite <- Hn. reflexivity. }
  destruct (Z.eqb_spec size I2C_SMBUS_BLOCK_DATA) as [?|?]; [contradiction|].
  intros H; discriminate H.
Qed.

Lemma table_none_plan size rw data_size b0 :
  table_phases size rw data_size b0 = None ->
  single_exchange size rw = true /\ fst (plan size rw data_size b0) = 0.
Proof.
  unfold table_phases, plan, single_exchange. cbv zeta.
  repeat match goal with
         | |- context [Z.eqb size ?c] =>
             destruct (Z.eqb_spec size c) as [->|?];
             [intros H; discriminate H|]
         end.
  intros _. split; reflexivity.
Qed.

End Phases.

(* ================================================================== *)
(** ** The registry of timing overrides *)

Section Overrides.

Lemma recorded_eta (p : bus_params) : recorded p = p.
Proof. destruct p; reflexivity. Qed.

Lemma update_params_some (l : list bus_params) (p : bus_params) :
  forall l', update_params l p = Some l' ->
  map bp_addr l' = map bp_addr l /\
  find (fun q => bp_addr q =? bp_addr p) l' = Some (recorded p).
Proof.
  induction l as [|q l IH]; intros l' H; cbn [update_params] in H;
    [discriminate H|].
  destruct (Z.eqb_spec (bp_addr q) (bp_addr p)) as [Heq|Hne].
  - inversion H; subst l'. cbn [map find bp_addr].
    rewrite Heq, Z.eqb_refl. split; reflexivity.
  - destruct (update_params l p) as [l0|]; [|discriminate H].
    inversion H; subst l'. destruct (IH l0 eq_refl) as (A & B).
    cbn [map find]. rewrite A.
    replace (bp_addr q =? bp_addr p) with false
      by (symmetry; apply Z.eqb_neq; exact Hne).
    split; [reflexivity|exact B].
Qed.

Lemma update_params_none (l : list bus_params) (p : bus_params) :
  update_params l p = None <->
  find (fun q => bp_addr q =? bp_addr p) l = None.
Proof.
  induction l as [|q l IH]; cbn [update_params find]; [tauto|].
  destruct (bp_addr q =? bp_addr p).
  - split; intros H; discriminate H.
  - destruct (update_params l p); cbn [option_map].
    + split; [intros H; discriminate H|].
      intros H. apply IH in H. discriminate H.
    + split; [intros _; apply IH; reflexivity|reflexivity].
Qed.

Lemma find_app_none {A} (f : A -> bool) (l1 l2 : list A) :
  find f l1 = None -> find f (l1 ++ l2) = find f l2.
Proof.
  induction l1 as [|a l1 IH]; [reflexivity|]. cbn [find app].
  destruct (f a); [intros H; discriminate H|exact IH].
Qed.

Lemma find_app_some {A} (f : A -> bool) (l1 l2 : list A) (x : A) :
  find f l1 = Some x -> find f (l1 ++ l2) = Some x.
Proof.
  induction l1 as [|a l1 IH]; [intros H; discriminate H|]. cbn [find app].
  destruct (f a); [auto|exact IH].
Qed.

(** What a successful [scd_set_smbus_params] does to the bus. *)
Lemma set_params_of_bus_ok (kz : bool) (bus bus' : scd_smbus) (p : bus_params) :
  set_params_of_bus kz bus p = (0, bus') ->
  bus_nr bus' = bus_nr bus /\ bus_id bus' = bus_id bus /\
  get_smbus_params bus' (bp_addr p) = recorded p /\
  (find (fun q => bp_addr q =? bp_addr p) (bus_params_list bus) <> None ->
   map bp_addr (bus_params_list bus') = map bp_addr (bus_params_list bus)).
Proof.
  unfold set_params_of_bus, get_smbus_params.
  destruct (update_params (bus_params_list bus) p) as [l|] eqn:E.
  - intros H. inversion H; subst bus'. cbn [bus_nr bus_id bus_params_list].
    destruct (update_params_some _ _ _ E) as (A & B). rewrite B. auto.
  - apply update_params_none in E.
    destruct kz; intros H; [|discriminate H].
    inversion H; subst bus'. cbn [bus_nr bus_id bus_params_list].
    rewrite find_app_none by exact E. cbn [find bp_addr].
    rewrite Z.eqb_refl. repeat split; auto. intros Hc. contradiction.
Qed.

Lemma set_params_of_bus_present (kz : bool) (bus : scd_smbus) (p : bus_params) :
  find (fun q => bp_addr q =? bp_addr p) (bus_params_list bus) <> None ->
  fst (set_params_of_bus kz bus p) = 0.
Proof.
  intros H. unfold set_params_of_bus.
  destruct (update_params (bus_params_list bus) p) eqn:E; [reflexivity|].
  apply update_params_none in E. contradiction.
Qed.

Lemma replace_bus_found (l : list scd_smbus) (nr : Z) (b b' : scd_smbus) :
  find (fun x => bus_nr x =? nr) l = Some b -> bus_nr b' = nr ->
  exists l', replace_bus l nr b' = Some l' /\
             forall l2, find (fun x => bus_nr x =? nr) (l' ++ l2) = Some b'.
Proof.
  intros Hf Hb. induction l as [|x l IH]; [discriminate Hf|].
  cbn [find replace_bus] in *. destruct (bus_nr x =? nr) eqn:E.
  - eexists. split; [reflexivity|]. intros l2. cbn [find app].
    rewrite Hb, Z.eqb_refl. reflexivity.
  - destruct (IH Hf) as (l' & A & B). rewrite A. cbn [option_map].
    eexists. split; [reflexivity|]. intros l2. cbn [find app]. rewrite E.
    apply B.
Qed.

Lemma replace_bus_missing (l : list scd_smbus) (nr : Z) (b' : scd_smbus) :
  find (fun x => bus_nr x =? nr) l = None -> replace_bus l nr b' = None.
Proof.
  induction l as [|x l IH]; [reflexivity|]. cbn [find replace_bus].
  destruct (bus_nr x =? nr); [intros H; discriminate H|].
  intros H. rewrite (IH H). reflexivity.
Qed.

(** The modified bus is where the original was found. *)
Lemma find_after_replace (ms : list scd_smbus_master) (nr : Z)
    (b b' : scd_smbus) :
  find (fun x => bus_nr x =? nr) (flat_map m_bus_list ms) = Some b ->
  bus_nr b' = nr ->
  find (fun x => bus_nr x =? nr)
       (flat_map m_bus_list (replace_bus_in_masters ms nr b')) = Some b'.
Proof.
  intros Hf Hb. induction ms as [|m ms IH]; [discriminate Hf|].
  cbn [flat_map replace_bus_in_masters] in *.
  destruct (find (fun x => bus_nr x =? nr) (m_bus_list m)) as [x|] eqn:E.
  - destruct (replace_bus_found _ _ _ _ E Hb) as (l' & A & B). rewrite A.
    cbn [flat_map m_bus_list]. apply B.
  - rewrite (replace_bus_missing _ _ _ E). cbn [flat_map].
    rewrite find_app_none in Hf by exact E.
    rewrite find_app_none by exact E. apply IH. exact Hf.
Qed.

Lemma scd_set_smbus_params_ok (kz : bool) (ctx ctx' : scd_context) (nr : Z)
    (p : bus_params) :
  scd_set_smbus_params kz ctx nr p = (0, ctx') ->
  exists b b',
    scd_find_smbus ctx nr = Some b /\ scd_find_smbus ctx' nr = Some b' /\
    set_params_of_bus kz b p = (0, b') /\
    initialized ctx' = initialized ctx.
Proof.
  unfold scd_set_smbus_params.
  destruct (scd_find_smbus ctx nr) as [b|] eqn:Ef; [|intros H; discriminate H].
  destruct (set_params_of_bus kz b p) as [r b'] eqn:Es.
  intros H. inversion H; subst r ctx'. exists b, b'.
  split; [reflexivity|]. split; [|split; [exact Es|reflexivity]].
  destruct (set_params_of_bus_ok _ _ _ _ Es) as (Hnr & _).
  unfold scd_find_smbus in *. cbn [smbus_master_list].
  apply find_after_replace with (b := b); [exact Ef|].
  rewrite Hnr. apply find_some in Ef. destruct Ef as (_ & Ef).
  apply Z.eqb_eq in Ef. exact Ef.
Qed.

(** Registering an override and registering one again for the same bus
    and address: the second call succeeds without allocating, the list
    of addresses of the bus is the same, and the look-up gives the values
    of the latest call. *)
Lemma set_smbus_params_twice (kz kz' : bool) (ctx ctx1 ctx2 : scd_context)
    (nr r2 : Z) (p1 p2 : bus_params) :
  bp_addr p1 = bp_addr p2 ->
  scd_set_smbus_params kz ctx nr p1 = (0, ctx1) ->
  scd_set_smbus_params kz' ctx1 nr p2 = (r2, ctx2) ->
  r2 = 0 /\
  exists b1 b2,
    scd_find_smbus ctx1 nr = Some b1 /\ scd_find_smbus ctx2 nr = Some b2 /\
    get_smbus_params b1 (bp_addr p1) = recorded p1 /\
    get_smbus_params b2 (bp_addr p2) = recorded p2 /\
    map bp_addr (bus_params_list b2) = map bp_addr (bus_params_list b1).
Proof.
  intros Ha H1 H2.
  destruct (scd_set_smbus_params_ok _ _ _ _ _ H1) as (b & b1 & F & F1 & S1 & _).
  destruct (set_params_of_bus_ok _ _ _ _ S1) as (_ & _ & G1 & _).
  assert (Hpresent : find (fun q => bp_addr q =? bp_addr p2)
                          (bus_params_list b1) <> None).
  { unfold get_smbus_params in G1. rewrite <- Ha.
    destruct (find _ (bus_params_list b1)) eqn:E; [discriminate|].
    exfalso. unfold recorded, default_smbus_params in G1.
    unfold set_params_of_bus in S1.
    destruct (update_params (bus_params_list b) p1) as [l|] eqn:Eu.
    - inversion S1; subst b1. cbn [bus_params_list] in E.
      destruct (update_params_some _ _ _ Eu) as (_ & B). congruence.
    - destruct kz; [|discriminate S1]. inversion S1; subst b1.
      cbn [bus_params_list] in E. apply update_params_none in Eu.
      rewrite find_app_none in E by exact Eu. cbn [find bp_addr] in E.
      rewrite Z.eqb_refl in E. discriminate E. }
  assert (Hr2 : r2 = 0).
  { unfold scd_set_smbus_params in H2. rewrite F1 in H2.
    pose proof (set_params_of_bus_present kz' b1 p2 Hpresent) as Hp.
    destruct (set_params_of_bus kz' b1 p2) as [r b2']. cbn [fst] in Hp.
    inversion H2. congruence. }
  subst r2. split; [reflexivity|].
  destruct (scd_set_smbus_params_ok _ _ _ _ _ H2) as (b1' & b2 & F1' & F2 & S2 & _).
  assert (b1' = b1) by congruence. subst b1'.
  destruct (set_params_of_bus_ok _ _ _ _ S2) as (_ & _ & G2 & M2).
  exists b1, b2. repeat split; auto.
Qed.

End Overrides.

(* ================================================================== *)
(** ** Block reads and the capacity of the buffer *)

Section Capacity.

Lemma apply_stores_outside (l : list (Z * Z)) (P : Z -> Prop) :
  Forall (fun iv => P (fst iv)) l ->
  forall d idx, ~ P idx -> apply_stores l d idx = d idx.
Proof.
  intros H. induction H as [|[i v] l Hi _ IH]; intros d idx Hn; [reflexivity|].
  cbn [apply_stores fold_left fst snd].
  change (fold_left _ l ?d0 idx) with (apply_stores l d0 idx).
  rewrite IH by exact Hn. cbn [fst] in Hi.
  destruct (Z.eqb_spec idx i); [subst; contradiction|reflexivity].
Qed.

Lemma block_like_sizes (size : Z) :
  block_like size ->
  (size =? I2C_SMBUS_BYTE) || (size =? I2C_SMBUS_BYTE_DATA) = false /\
  (size =? I2C_SMBUS_WORD_DATA) = false /\
  size <> I2C_SMBUS_WORD_DATA.
Proof.
  intros [-> | [-> | ->]]; repeat split; try reflexivity; discriminate.
Qed.

Lemma phase_stores_in_buffer size ss j resp d data_size :
  block_like size ->
  overflows I2C_SMBUS_READ size data_size j = false ->
  Forall (in_buffer data_size)
         (map stored (phase_stores I2C_SMBUS_READ size ss j resp d)).
Proof.
  intros Hb Ho. destruct (block_like_sizes size Hb) as (H1 & H2 & _).
  unfold overflows in Ho. unfold phase_stores.
  change (I2C_SMBUS_READ =? I2C_SMBUS_READ) with true in *.
  rewrite H1, H2 in *. cbn [negb andb] in Ho.
  destruct (Z.leb_spec 3 j) as [H3|H3]; [|constructor].
  cbn [andb] in Ho.
  destruct (size =? I2C_SMBUS_I2C_BLOCK_DATA); apply Z.leb_gt in Ho;
    repeat constructor; unfold in_buffer; cbn [stored fst map]; lia.
Qed.

Lemma flat_map_Forall {A B} (P : B -> Prop) (f : A -> list B) (l : list A) :
  (forall a, In a l -> Forall P (f a)) -> Forall P (flat_map f l).
Proof.
  intros H. induction l as [|a l IH]; [constructor|]. cbn [flat_map].
  apply Forall_app. split; [apply H; left; reflexivity|].
  apply IH. intros b Hb. apply H. right. exact Hb.
Qed.

(** One exchange of a block shape: the stores stay inside the buffer,
    and success means that no capacity check tripped. *)
Lemma exchange_stores p addr command size data_size ss off req0 fr w :
  req0.[Req.ti] = 0 -> req0.[Req.dat] = 0 -> req0.[Req.ed] = 0 -> 0 <= ss ->
  block_like size ->
  let res := exchange p addr I2C_SMBUS_READ command size data_size ss off
                      req0 fr w in
  exists l, run w (snd res) l /\
    Forall (in_buffer data_size) (stores l) /\
    (fst (fst res) = 0 ->
     forall j, 0 <= j < ss ->
       overflows I2C_SMBUS_READ size data_size j = false).
Proof.
  intros Hti Hdat Hed Hss Hb res.
  destruct (block_like_sizes size Hb) as (_ & _ & Hw).
  destruct (exchange_spec p addr I2C_SMBUS_READ command size data_size ss off
              req0 fr w Hti Hdat Hed Hss)
    as (vs & k & lr & tail & Hrun & _ & _ & _ & _ & _ & Hk & Hall & Hst & Hout).
  fold res in Hrun, Hout. specialize (Hst Hw).
  exists (map EvWriteReq vs ++ lr ++ tail). split; [exact Hrun|].
  assert (Htail : stores tail = []).
  { destruct Hout as [(_ & _ & _ & ->) | [(_ & _ & _ & _ & ? & ? & _ & ->) |
                       (_ & _ & _ & _ & _ & ? & ? & _ & ->)]]; reflexivity. }
  destruct (reqs_map_write vs) as (_ & _ & Hm).
  rewrite !stores_app, Hm, Htail, app_nil_r. cbn [app]. split.
  - rewrite Hst. apply flat_map_Forall. intros j Hj.
    apply in_seq in Hj. apply phase_stores_in_buffer; [exact Hb|].
    apply Hall. lia.
  - intros Hr j Hj.
    destruct Hout as [(A & _) | [(_ & _ & C & _) | (_ & _ & _ & D & _)]].
    + replace j with (Z.of_nat (Z.to_nat j)) by lia. apply Hall. lia.
    + rewrite C in Hr. discriminate Hr.
    + rewrite D in Hr. discriminate Hr.
Qed.

Lemma stores_reset (cs : Z) : stores (reset_trace cs) = [].
Proof. reflexivity. Qed.

Lemma hw_stores bus addr command data_size fr w :
  let res := hw_path bus addr command data_size fr w in
  exists l, run w (snd res) l /\
    Forall (in_buffer data_size) (stores l) /\
    (fst (fst res) = 0 -> (resp_at w 3).[Rsp.d] < data_size).
Proof.
  intros res. subst res. unfold hw_path, bind.
  destruct (block_read_spec bus addr command data_size w)
    as (vs & lq & k & lr & Hrun & _ & _ & (_ & _ & Hq) & _ & Hall & Hst & Hout).
  cbv zeta in Hrun, Hout.
  destruct (scd_smbus_block_read bus addr command data_size w) as [r w1].
  cbn [fst snd] in *.
  destruct (reqs_map_write vs) as (_ & _ & Hm).
  assert (Hsts : stores (map EvWriteReq vs ++ lq ++ lr) = stores lr).
  { rewrite !stores_app, Hm, Hq. reflexivity. }
  assert (Hin : Forall (in_buffer data_size) (stores lr)).
  { rewrite Hst. apply flat_map_Forall. intros j Hj. apply in_seq in Hj.
    destruct (Hall j ltac:(lia)) as (_ & B). unfold br_stores.
    destruct (Z.leb_spec 3 (Z.of_nat j)); [|constructor].
    repeat constructor; unfold in_buffer; cbn [stored fst]; lia. }
  destruct (Z.eqb_spec r 0) as [->|Hne]; cbn [negb].
  - exists (map EvWriteReq vs ++ lq ++ lr). split; [exact Hrun|].
    rewrite Hsts. split; [exact Hin|]. intros _. unfold ret. cbn [fst].
    destruct Hout as [(A & _) | [(_ & B & C) | [(A & _) | (A & _)]]];
      try discriminate A.
    destruct (Hall (Z.to_nat (3 + (resp_at w 3).[Rsp.d]))) as (_ & D).
    { pose proof (rsp_d_range (resp_at w 3)). lia. }
    pose proof (rsp_d_range (resp_at w 3)). lia.
  - match goal with |- context [fail_with ?a ?b w1] =>
      destruct (run_fail_with a b w1) as (E & cs & Hrun2); rewrite E
    end.
    exists ((map EvWriteReq vs ++ lq ++ lr) ++ reset_trace cs).
    split; [eapply run_trans; eassumption|].
    rewrite stores_app, Hsts, stores_reset, app_nil_r.
    split; [exact Hin|]. cbn [fst]. intros H; contradiction.
Qed.

Lemma nested_stores bus addr command data_size fr w :
  0 < data_size ->
  let res := nested_path bus addr I2C_SMBUS_READ command I2C_SMBUS_BLOCK_DATA
                         data_size fr w in
  exists l, run w (snd res) l /\
    Forall (in_buffer data_size) (stores l) /\
    (fst (fst res) = 0 -> (resp_at w 3).[Rsp.d] < data_size).
Proof.
  intros Hd res. subst res. unfold nested_path. cbv zeta. unfold bind.
  set (p := get_smbus_params bus addr).
  destruct (req_init_fields bus p) as (Hti & Hdat & Hed & _).
  destruct (exchange_spec p addr I2C_SMBUS_READ command I2C_SMBUS_BYTE_DATA
              data_size 4 0 (req_init bus p) EmptyString w Hti Hdat Hed
              ltac:(lia))
    as (vs & k & lr & tail & Hrun & _ & _ & _ & _ & _ & Hk & _ & Hst & Hout).
  cbv zeta in Hrun, Hout. specialize (Hst ltac:(discriminate)).
  destruct (exchange p addr I2C_SMBUS_READ command I2C_SMBUS_BYTE_DATA
              data_size 4 0 (req_init bus p) EmptyString w) as [[r fr1] w1].
  cbn [fst snd] in *.
  destruct (reqs_map_write vs) as (_ & _ & Hm).
  assert (Htail : stores tail = []).
  { destruct Hout as [(_ & _ & _ & ->) | [(_ & _ & _ & _ & ? & ? & _ & ->) |
                       (_ & _ & _ & _ & _ & ? & ? & _ & ->)]]; reflexivity. }
  assert (Hsts : stores (map EvWriteReq vs ++ lr ++ tail) = stores lr).
  { rewrite !stores_app, Hm, Htail, app_nil_r. reflexivity. }
  assert (Hin : Forall (in_buffer data_size) (stores lr)).
  { rewrite Hst. apply flat_map_Forall. intros j _. unfold phase_stores.
    change (I2C_SMBUS_READ =? I2C_SMBUS_READ) with true.
    change (I2C_SMBUS_BYTE_DATA =? I2C_SMBUS_BYTE) with false.
    change (I2C_SMBUS_BYTE_DATA =? I2C_SMBUS_BYTE_DATA) with true.
    cbn [orb]. destruct (Z.of_nat j =? 4 - 1); [|constructor].
    repeat constructor; unfold in_buffer; cbn [stored fst]; lia. }
  destruct (Z.eqb_spec r 0) as [->|Hne]; cbn [negb].
  - (* the probe gives the length *)
    unfold load. cbv beta iota.
    assert (Hk4 : k = 4%nat).
    { destruct Hout as [(A & _) | [(_ & _ & C & _) | (_ & _ & _ & D & _)]];
        [exact A|discriminate C|discriminate D]. }
    subst k.
    assert (Hb0 : u8 (data w1 0) = (resp_at w 3).[Rsp.d]).
    { rewrite (run_data _ _ _ Hrun), Hsts, Hst.
      pose proof (rsp_d_range (resp_at w 3)) as Hr.
      cbn. unfold u8. rewrite Zmod_mod. apply Z.mod_small. exact Hr. }
    rewrite Hb0.
    pose proof (rsp_d_range (resp_at w 3)) as Hr.
    destruct (exchange_stores p addr command I2C_SMBUS_BLOCK_DATA data_size
                (4 + (resp_at w 3).[Rsp.d]) 0 (req_init bus p) fr w1
                Hti Hdat Hed ltac:(lia) ltac:(right; left; reflexivity))
      as (l2 & Hrun2 & Hin2 & Hfit).
    cbv zeta in Hrun2, Hfit.
    exists ((map EvWriteReq vs ++ lr ++ tail) ++ l2).
    split; [eapply run_trans; eassumption|].
    rewrite stores_app, Hsts. split; [apply Forall_app; auto|].
    intros H0. specialize (Hfit H0 (3 + (resp_at w 3).[Rsp.d]) ltac:(lia)).
    unfold overflows in Hfit.
    change (I2C_SMBUS_READ =? I2C_SMBUS_READ) with true in Hfit.
    change (I2C_SMBUS_BLOCK_DATA =? I2C_SMBUS_BYTE) with false in Hfit.
    change (I2C_SMBUS_BLOCK_DATA =? I2C_SMBUS_BYTE_DATA) with false in Hfit.
    change (I2C_SMBUS_BLOCK_DATA =? I2C_SMBUS_WORD_DATA) with false in Hfit.
    change (I2C_SMBUS_BLOCK_DATA =? I2C_SMBUS_I2C_BLOCK_DATA) with false in Hfit.
    cbn [orb negb andb] in Hfit.
    replace (3 <=? 3 + (resp_at w 3).[Rsp.d]) with true in Hfit
      by (symmetry; apply Z.leb_le; lia).
    cbn [andb] in Hfit. apply Z.leb_gt in Hfit. lia.
  - match goal with |- context [fail_with ?a ?b w1] =>
      destruct (run_fail_with a b w1) as (E & cs & Hrun2); rewrite E
    end.
    exists ((map EvWriteReq vs ++ lr ++ tail) ++ reset_trace cs).
    split; [eapply run_trans; eassumption|].
    rewrite stores_app, Hsts, stores_reset, app_nil_r.
    split; [exact Hin|]. cbn [fst]. intros H; contradiction.
Qed.

(** Whatever the way through, a block read keeps its stores inside the
    buffer and succeeds only when the block fits. *)
Lemma do_impl_stores master bus addr flags command size data_size fr w :
  block_like size -> 0 < data_size ->
  let res := scd_smbus_do_impl master bus addr flags I2C_SMBUS_READ command
                               size data_size fr w in
  exists l, run w (snd res) l /\
    Forall (in_buffer data_size) (stores l) /\
    (fst (fst res) = 0 -> block_fits size data_size w).
Proof.
  intros Hb Hd. cbv zeta.
  destruct (do_impl_paths master bus addr flags I2C_SMBUS_READ command size
              data_size fr w)
    as [(Hs & E) | [(H1 & H2 & H3 & E) | (H1 & H2 & H3 & E)]]; rewrite E.
  - set (p := get_smbus_params bus addr).
    destruct (req_init_fields bus p) as (Hti & Hdat & Hed & _).
    destruct (exchange_stores p addr command size data_size
                (fst (plan size I2C_SMBUS_READ data_size (u8 (data w 0))))
                (snd (plan size I2C_SMBUS_READ data_size (u8 (data w 0))))
                (req_init bus p) fr w Hti Hdat Hed
                (plan_nonneg _ _ _ _ (proj1 (u8_range (data w 0)))) Hb)
      as (l & Hrun & Hin & Hfit).
    cbv zeta in Hrun, Hfit.
    exists l. split; [exact Hrun|]. split; [exact Hin|].
    intros H0. specialize (Hfit H0). unfold block_fits.
    destruct Hb as [-> | [-> | ->]].
    + change (I2C_SMBUS_I2C_BLOCK_DATA =? I2C_SMBUS_I2C_BLOCK_DATA) with true.
      cbv iota. intros H1.
      pose proof (u8_range (data w 0)) as Hr.
      specialize (Hfit (2 + u8 (data w 0))).
      unfold plan in Hfit.
      change (I2C_SMBUS_I2C_BLOCK_DATA =? I2C_SMBUS_QUICK) with false in Hfit.
      change (I2C_SMBUS_I2C_BLOCK_DATA =? I2C_SMBUS_BYTE) with false in Hfit.
      change (I2C_SMBUS_I2C_BLOCK_DATA =? I2C_SMBUS_BYTE_DATA) with false in Hfit.
      change (I2C_SMBUS_I2C_BLOCK_DATA =? I2C_SMBUS_WORD_DATA) with false in Hfit.
      change (I2C_SMBUS_I2C_BLOCK_DATA =? I2C_SMBUS_I2C_BLOCK_DATA_MSG)
        with false in Hfit.
      change (I2C_SMBUS_I2C_BLOCK_DATA =? I2C_SMBUS_I2C_BLOCK_DATA)
        with true in Hfit.
      change (I2C_SMBUS_READ =? I2C_SMBUS_WRITE) with false in Hfit.
      cbn [fst] in Hfit. specialize (Hfit ltac:(lia)).
      unfold overflows in Hfit.
      change (I2C_SMBUS_READ =? I2C_SMBUS_READ) with true in Hfit.
      change (I2C_SMBUS_I2C_BLOCK_DATA =? I2C_SMBUS_BYTE) with false in Hfit.
      change (I2C_SMBUS_I2C_BLOCK_DATA =? I2C_SMBUS_BYTE_DATA) with false in Hfit.
      change (I2C_SMBUS_I2C_BLOCK_DATA =? I2C_SMBUS_WORD_DATA) with false in Hfit.
      change (I2C_SMBUS_I2C_BLOCK_DATA =? I2C_SMBUS_I2C_BLOCK_DATA)
        with true in Hfit.
      cbn [orb negb andb] in Hfit.
      replace (3 <=? 2 + u8 (data w 0)) with true in Hfit
        by (symmetry; apply Z.leb_le; lia).
      cbn [andb] in Hfit. apply Z.leb_gt in Hfit. lia.
    + discriminate Hs.
    + exact I.
  - subst size. destruct (hw_stores bus addr command data_size fr w)
      as (l & Hrun & Hin & Hfit).
    exists l. split; [exact Hrun|]. split; [exact Hin|]. exact Hfit.
  - subst size. destruct (nested_stores bus addr command data_size fr w Hd)
      as (l & Hrun & Hin & Hfit).
    exists l. split; [exact Hrun|]. split; [exact Hin|]. exact Hfit.
Qed.

Lemma run_unique (w w' : world) (l l' : list event) :
  run w w' l -> run w w' l' -> l = l'.
Proof.
  intros H H'. pose proof (run_trace _ _ _ H) as E.
  rewrite (run_trace _ _ _ H') in E. apply app_inv_head in E. auto.
Qed.

(** C7.  A block, i2c-block or message read into a buffer of
    [data_size > 0] bytes stores only at indices from 0 to
    [data_size - 1]; what the buffer holds when the call returns is what
    it held before with those stores applied, and nothing outside the
    capacity has changed; and when the block the hardware returns does not
    fit, the call fails: its status is [-EINVAL], the capacity error,
    unless a response failed validation first ([-EIO]); it is never 0. *)
Theorem block_read_capacity master bus addr flags command size data_size fr w :
  block_like size -> 0 < data_size ->
  let res := scd_smbus_do_impl master bus addr flags I2C_SMBUS_READ command
                               size data_size fr w in
  let l := new_events w (snd res) in
  let tid := exp_tid (with_probe master size I2C_SMBUS_READ) in
  Forall (in_buffer data_size) (stores l) /\
  (forall idx, data (snd res) idx = apply_stores (stores l) (data w) idx) /\
  (forall idx, ~ 0 <= idx < data_size -> data (snd res) idx = data w idx) /\
  (~ block_fits size data_size w ->
   fst (fst res) <> 0 /\
   (fst (fst res) = - EINVAL \/ fst (fst res) = - EIO) /\
   ((forall j, resp_ok (resp_at w j) (tid j) = true) ->
    fst (fst res) = - EINVAL)).
Proof.
  intros Hb Hd res l tid. subst res l tid.
  destruct (do_impl_stores master bus addr flags command size data_size fr w
              Hb Hd) as (l & Hrun & Hin & Hfit).
  cbv zeta in Hrun, Hfit. rewrite (new_events_run _ _ _ Hrun).
  split; [exact Hin|]. split; [apply (run_data _ _ _ Hrun)|]. split.
  - intros idx Hidx. rewrite (run_data _ _ _ Hrun).
    apply (apply_stores_outside _ (fun i => 0 <= i < data_size)); assumption.
  - intros Hnf.
    destruct (do_impl_outcome master bus addr flags I2C_SMBUS_READ command size
                data_size fr w) as (l' & Hrun' & V1 & V2 & V3 & V4 & V5).
    cbv zeta in Hrun', V1, V4.
    assert (Hne : fst (fst (scd_smbus_do_impl master bus addr flags
                    I2C_SMBUS_READ command size data_size fr w)) <> 0).
    { intros H0. apply Hnf. apply Hfit. exact H0. }
    split; [exact Hne|]. split; [tauto|].
    intros Hok. destruct V1 as [H0 | [He | Hi]]; [contradiction| |exact Hi].
    destruct (V4 He) as (k & _ & _ & _ & _ & Hbad & _).
    rewrite Hok in Hbad. discriminate Hbad.
Qed.

End Capacity.

(* ================================================================== *)
(** ** Configuration after initialisation *)

Section Params.

Lemma parse_smbus_tweak_flag (kz b : bool) (ctx : scd_context) (buf : string)
    (n : nat) :
  parse_smbus_tweak kz (with_initialized b ctx) buf n =
  (fst (parse_smbus_tweak kz ctx buf n),
   with_initialized b (snd (parse_smbus_tweak kz ctx buf n))).
Proof.
  unfold parse_smbus_tweak.
  destruct (MAX_CONFIG_LINE_SIZE <=? Z.of_nat n); [reflexivity|].
  repeat match goal with
         | |- context [PARSE_INT_OR_RETURN ?k ?p] =>
             destruct (PARSE_INT_OR_RETURN k p) as [[? ?]|?]; [|reflexivity]
         end.
  unfold scd_set_smbus_params, scd_find_smbus.
  cbn [with_initialized smbus_master_list].
  destruct (find _ _); [|reflexivity].
  destruct (set_params_of_bus kz s _) as [r b'].
  cbn [res_size initialized smbus_master_list].
  destruct (r =? 0); reflexivity.
Qed.

Lemma parse_lines_loop_flag (kz b : bool) (fuel : nat) :
  forall (ctx : scd_context) (buf : string) (left_ count : nat),
  parse_lines_loop fuel (parse_smbus_tweak kz) (with_initialized b ctx) buf
                   left_ count =
  (fst (parse_lines_loop fuel (parse_smbus_tweak kz) ctx buf left_ count),
   with_initialized b
     (snd (parse_lines_loop fuel (parse_smbus_tweak kz) ctx buf left_ count))).
Proof.
  induction fuel as [|fuel IH]; intros ctx buf left_ count; [reflexivity|].
  cbn [parse_lines_loop]. rewrite parse_smbus_tweak_flag.
  destruct (parse_smbus_tweak kz ctx buf _) as [res ctx1]. cbn [fst snd].
  destruct (res <? 0); [reflexivity|].
  destruct (skip_newlines _ _) as [buf' left']. 
  destruct (Nat.eqb left' 0); [reflexivity|]. apply IH.
Qed.

(** C9 (amended).  Once the device is initialised, a write to
    [new_object] is rejected with [-EBUSY] whatever it submits and the
    registry is left as it was.  A write to [smbus_tweaks] is parsed all
    the same: it does what it does on the uninitialised device, status
    and overrides alike, and only the flag differs. *)
Theorem configuration_after_init (func : string -> new_object_parse_func)
    (kz : bool) (ctx : scd_context) (buf : string) (count : nat) :
  initialized ctx = true ->
  new_object func (Some ctx) buf count = (- EBUSY, Some ctx) /\
  smbus_tweaks kz (Some ctx) buf count =
    (fst (smbus_tweaks kz (Some (with_initialized false ctx)) buf count),
     option_map (with_initialized true)
       (snd (smbus_tweaks kz (Some (with_initialized false ctx)) buf count))).
Proof.
  intros Hi. split.
  - unfold new_object. rewrite Hi. reflexivity.
  - assert (Hctx : ctx = with_initialized true (with_initialized false ctx)).
    { destruct ctx as [rs i ms]. cbn in Hi. subst i. reflexivity. }
    rewrite Hctx at 1. unfold smbus_tweaks, parse_lines.
    destruct (Nat.eqb count 0); [reflexivity|].
    rewrite parse_lines_loop_flag.
    destruct (parse_lines_loop _ _ _ _ _ _) as [res c]. reflexivity.
Qed.

End Params.

(* ================================================================== *)
(** ** The MDIO request *)

Section MdioRequest.

Variable h : Mdio.scd_mdio_h.
Variable speed : Z.

Lemma mdio_cs_at_shift (w w' : Mdio.world) (j : nat) :
  Mdio.cs_in w' = Mdio.cs_in w -> Mdio.cs_n w' = S (Mdio.cs_n w) ->
  Mdio.cs_at w' j = Mdio.cs_at w (S j).
Proof.
  intros H1 H2. unfold Mdio.cs_at. rewrite H1, H2. do 2 f_equal. lia.
Qed.

Lemma wait_loop_step (fuel : nat) (d : Z) (w : Mdio.world) :
  Mdio.MDIO_WAIT_END h d = false ->
  (Mdio.cs_at w 0).[Mdio.cs_res_count h] = 0 ->
  Mdio.wait_loop h (S fuel) d w =
  Mdio.wait_loop h fuel (Mdio.MDIO_WAIT_NEXT h d)
    (Mdio.World (Mdio.cs_in w) (Mdio.resp_in w) (S (Mdio.cs_n w))
                (Mdio.resp_n w) (Mdio.req_id w)
                (Mdio.trace w ++ [Mdio.EvReadCs (Mdio.cs_at w 0);
                                  Mdio.backoff h d])).
Proof.
  intros He Hc. cbn [Mdio.wait_loop]. rewrite He. cbn [negb].
  unfold bind at 1. unfold Mdio.mdio_master_read_cs.
  assert (Hc0 : u32 (Mdio.cs_in w (Mdio.cs_n w)) = Mdio.cs_at w 0).
  { unfold Mdio.cs_at. rewrite Nat.add_0_r. reflexivity. }
  rewrite Hc0, Hc. cbn [Z.eqb]. unfold bind, Mdio.backoff.
  destruct (d <? Mdio.MDIO_WAIT_MAX_UDELAY h); unfold Mdio.emit;
    cbn [Mdio.cs_in Mdio.cs_n Mdio.resp_in Mdio.resp_n Mdio.req_id Mdio.trace];
    rewrite <- app_assoc; reflexivity.
Qed.

(** The polling loop from delay [d] on: [k] polls find the result count
    at zero while the wait is not over, and then the wait is over, or the
    result is ready, or the count is neither 0 nor 1. *)
Lemma wait_loop_spec (k : nat) :
  forall (fuel : nat) (d : Z) (w : Mdio.world),
  (k < fuel)%nat ->
  (forall j, (j < k)%nat ->
     Mdio.MDIO_WAIT_END h (Nat.iter j (Mdio.MDIO_WAIT_NEXT h) d) = false /\
     (Mdio.cs_at w j).[Mdio.cs_res_count h] = 0) ->
  (Mdio.MDIO_WAIT_END h (Nat.iter k (Mdio.MDIO_WAIT_NEXT h) d) = false ->
   (Mdio.cs_at w k).[Mdio.cs_res_count h] <> 0) ->
  let ps := flat_map (fun j => [Mdio.EvReadCs (Mdio.cs_at w j);
                                Mdio.backoff h
                                  (Nat.iter j (Mdio.MDIO_WAIT_NEXT h) d)])
                     (seq 0 k) in
  let c := Mdio.cs_at w k in
  let W := fun n l => Mdio.World (Mdio.cs_in w) (Mdio.resp_in w)
                        (Mdio.cs_n w + n) (Mdio.resp_n w) (Mdio.req_id w)
                        (Mdio.trace w ++ ps ++ l) in
  Mdio.wait_loop h fuel d w =
  if Mdio.MDIO_WAIT_END h (Nat.iter k (Mdio.MDIO_WAIT_NEXT h) d)
  then (Some (- EAGAIN), W k [Mdio.EvWarn "mdio wait_resp timeout"])
  else if c.[Mdio.cs_res_count h] =? 1
  then (Some 0, W (S k) [Mdio.EvReadCs c])
  else (Some (- EOPNOTSUPP),
        W (S k) [Mdio.EvReadCs c; Mdio.EvWarn "mdio wait_resp failed"]).
Proof.
  induction k as [|k IH]; intros fuel d w Hf Hz Hk; cbv zeta.
  - cbn [Nat.iter nat_rect seq flat_map app] in *. rewrite Nat.add_0_r.
    destruct fuel as [|fuel]; [lia|]. cbn [Mdio.wait_loop].
    destruct (Mdio.MDIO_WAIT_END h d) eqn:Ee; cbn [negb].
    + unfold bind, Mdio.emit, ret. reflexivity.
    + specialize (Hk eq_refl).
      unfold bind at 1. unfold Mdio.mdio_master_read_cs at 1.
      change (u32 (Mdio.cs_in w (Mdio.cs_n w))) with
        (u32 (Mdio.cs_in w (Mdio.cs_n w))).
      assert (Hc : u32 (Mdio.cs_in w (Mdio.cs_n w)) = Mdio.cs_at w 0).
      { unfold Mdio.cs_at. rewrite Nat.add_0_r. reflexivity. }
      rewrite Hc.
      destruct (Z.eqb_spec ((Mdio.cs_at w 0).[Mdio.cs_res_count h]) 1).
      * unfold ret. do 2 f_equal. lia.
      * destruct (Z.eqb_spec ((Mdio.cs_at w 0).[Mdio.cs_res_count h]) 0);
          [contradiction|].
        unfold bind, Mdio.emit, ret. cbn [Mdio.cs_in Mdio.cs_n Mdio.resp_in
          Mdio.resp_n Mdio.req_id Mdio.trace].
        rewrite <- app_assoc. do 2 f_equal. lia.
  - destruct fuel as [|fuel]; [lia|].
    destruct (Hz O ltac:(lia)) as (He0 & Hc0). cbn [Nat.iter nat_rect] in He0.
    rewrite (wait_loop_step fuel d w He0 Hc0).
    assert (Hit : forall j, Nat.iter j (Mdio.MDIO_WAIT_NEXT h)
                              (Mdio.MDIO_WAIT_NEXT h d) =
                            Nat.iter (S j) (Mdio.MDIO_WAIT_NEXT h) d).
    { intros j. symmetry. apply Nat.iter_succ_r. }
    assert (Hsh2 : forall j,
      Mdio.cs_at (Mdio.World (Mdio.cs_in w) (Mdio.resp_in w)
                    (S (Mdio.cs_n w)) (Mdio.resp_n w) (Mdio.req_id w)
                    (Mdio.trace w ++ [Mdio.EvReadCs (Mdio.cs_at w 0);
                                      Mdio.backoff h d])) j =
      Mdio.cs_at w (S j)).
    { intros j. apply mdio_cs_at_shift; reflexivity. }
    rewrite (IH fuel (Mdio.MDIO_WAIT_NEXT h d)); try lia.
    + cbv zeta. rewrite Hit, Hsh2.
      cbn [Mdio.cs_in Mdio.cs_n Mdio.resp_in Mdio.resp_n Mdio.req_id Mdio.trace].
      assert (Hps : forall l,
        (Mdio.trace w ++ [Mdio.EvReadCs (Mdio.cs_at w 0); Mdio.backoff h d]) ++
        flat_map (fun j => [Mdio.EvReadCs
            (Mdio.cs_at (Mdio.World (Mdio.cs_in w) (Mdio.resp_in w)
                    (S (Mdio.cs_n w)) (Mdio.resp_n w) (Mdio.req_id w)
                    (Mdio.trace w ++ [Mdio.EvReadCs (Mdio.cs_at w 0);
                                      Mdio.backoff h d])) j);
            Mdio.backoff h (Nat.iter j (Mdio.MDIO_WAIT_NEXT h)
                              (Mdio.MDIO_WAIT_NEXT h d))]) (seq 0 k) ++ l =
        Mdio.trace w ++
        flat_map (fun j => [Mdio.EvReadCs (Mdio.cs_at w j);
                            Mdio.backoff h
                              (Nat.iter j (Mdio.MDIO_WAIT_NEXT h) d)])
                 (seq 0 (S k)) ++ l).
      { intros l. change (seq 0 (S k)) with (0%nat :: seq 1 k).
        cbn [flat_map Nat.iter nat_rect]. rewrite <- !app_assoc. cbn [app].
        do 3 f_equal. rewrite flat_map_seq_shift.
        f_equal. apply flat_map_ext. intros j. rewrite Hsh2, Hit. reflexivity. }
      rewrite !Hps.
      replace (S (Mdio.cs_n w) + k)%nat with (Mdio.cs_n w + S k)%nat by lia.
      replace (S (Mdio.cs_n w) + S k)%nat with (Mdio.cs_n w + S (S k))%nat by lia.
      reflexivity.
    + intros j Hj. destruct (Hz (S j) ltac:(lia)) as (A & B).
      rewrite Hit, Hsh2. auto.
    + rewrite Hit, Hsh2. exact Hk.
Qed.

(** C5.  One MDIO request: the engine clears the interrupt latch, writes
    the request and polls the result count.  After [k] polls that found
    0, each followed by its back-off (the delays being
    [MDIO_WAIT_INITIAL], [MDIO_WAIT_NEXT] of it, and so on), either the
    wait is over ([MDIO_WAIT_END]) and the request fails with [-EAGAIN];
    or the count is 1, the latch is cleared again, the response register
    is read, and the request fails with [-EIO] when the
    transaction-started bit is not 1 or the framing-error bit is 1,
    returns the data field for a read, and returns 0 for any other
    operation; or the count is neither 0 nor 1 and the request fails at
    once with [-EOPNOTSUPP], without a back-off and without reading the
    response. *)
Theorem mdio_request_outcome (fuel : nat) (bus_id op clause prtad devad data : Z)
    (w : Mdio.world) (k : nat) :
  (k < fuel)%nat ->
  (forall j, (j < k)%nat ->
     Mdio.MDIO_WAIT_END h (Mdio.delay_at h j) = false /\
     (Mdio.cs_at w j).[Mdio.cs_res_count h] = 0) ->
  (Mdio.MDIO_WAIT_END h (Mdio.delay_at h k) = false ->
   (Mdio.cs_at w k).[Mdio.cs_res_count h] <> 0) ->
  let pre := Mdio.issued h speed w bus_id op clause prtad devad data ++
             Mdio.polls h w k in
  let c := Mdio.cs_at w k in
  let r := Mdio.resp_at w 0 in
  Mdio.scd_mdio_bus_request h speed fuel bus_id op clause prtad devad data w =
  if Mdio.MDIO_WAIT_END h (Mdio.delay_at h k) then
    (Some (- EAGAIN),
     Mdio.after w k 0 (pre ++ [Mdio.EvWarn "mdio wait_resp timeout"]))
  else if c.[Mdio.cs_res_count h] =? 1 then
    if Mdio.bad_response h r then
      (Some (- EIO),
       Mdio.after w (S k) 1
         (pre ++ [Mdio.EvReadCs c; Mdio.EvWriteCs (Mdio.irq_clear h speed);
                  Mdio.EvReadResp r;
                  Mdio.EvWarn "mdio bus request failed in reading resp"]))
    else
      (Some (if op =? Mdio.SCD_MDIO_READ h then r.[Mdio.resp_d h] else 0),
       Mdio.after w (S k) 1
         (pre ++ [Mdio.EvReadCs c; Mdio.EvWriteCs (Mdio.irq_clear h speed);
                  Mdio.EvReadResp r]))
  else
    (Some (- EOPNOTSUPP),
     Mdio.after w (S k) 0
       (pre ++ [Mdio.EvReadCs c; Mdio.EvWarn "mdio wait_resp failed"])).
Proof.
  intros Hf Hz Hk pre c r.
  unfold Mdio.scd_mdio_bus_request, Mdio.mdio_master_reset_interrupt,
    Mdio.mdio_master_write_cs, Mdio.mdio_master_get_req_id,
    Mdio.mdio_master_wait_response, Mdio.get_default_mdio_cs.
  cbv zeta. unfold bind at 1 2 3 4. unfold Mdio.emit at 1 2 3.
  cbn [Mdio.cs_in Mdio.cs_n Mdio.resp_in Mdio.resp_n Mdio.req_id Mdio.trace].
  set (w0 := Mdio.World (Mdio.cs_in w) (Mdio.resp_in w) (Mdio.cs_n w)
               (Mdio.resp_n w) (Mdio.req_id w + 1) _).
  assert (Hw0 : w0 = Mdio.World (Mdio.cs_in w) (Mdio.resp_in w) (Mdio.cs_n w)
                       (Mdio.resp_n w) (Mdio.req_id w + 1)
                       (Mdio.trace w ++
                        Mdio.issued h speed w bus_id op clause prtad devad data)).
  { subst w0. unfold Mdio.issued, Mdio.irq_clear. rewrite <- !app_assoc.
    reflexivity. }
  assert (Hcs : forall j, Mdio.cs_at w0 j = Mdio.cs_at w j).
  { intros j. rewrite Hw0. reflexivity. }
  unfold bind at 1.
  rewrite (wait_loop_spec k fuel (Mdio.MDIO_WAIT_INITIAL h) w0 Hf).
  2:{ intros j Hj. rewrite Hcs. apply Hz. exact Hj. }
  2:{ rewrite Hcs. exact Hk. }
  cbv zeta. rewrite !Hcs. fold c.
  fold (Mdio.delay_at h k).
  assert (Hps : flat_map (fun j => [Mdio.EvReadCs (Mdio.cs_at w0 j);
                  Mdio.backoff h (Nat.iter j (Mdio.MDIO_WAIT_NEXT h)
                                    (Mdio.MDIO_WAIT_INITIAL h))]) (seq 0 k) =
                Mdio.polls h w k).
  { unfold Mdio.polls. apply flat_map_ext. intros j. rewrite Hcs. reflexivity. }
  rewrite Hps, Hw0.
  cbn [Mdio.cs_in Mdio.cs_n Mdio.resp_in Mdio.resp_n Mdio.req_id Mdio.trace].
  unfold Mdio.after. subst pre.
  destruct (Mdio.MDIO_WAIT_END h (Mdio.delay_at h k)).
  - change (negb (- EAGAIN =? 0)) with true. cbv iota. unfold ret.
    rewrite Nat.add_0_r, <- !app_assoc. reflexivity.
  - destruct (c.[Mdio.cs_res_count h] =? 1).
    + cbn [negb Z.eqb]. unfold bind, Mdio.emit, Mdio.mdio_read_resp.
      cbn [Mdio.cs_in Mdio.cs_n Mdio.resp_in Mdio.resp_n Mdio.req_id Mdio.trace].
      assert (Hr : u32 (Mdio.resp_in w (Mdio.resp_n w)) = r).
      { subst r. unfold Mdio.resp_at. rewrite Nat.add_0_r. reflexivity. }
      rewrite Hr. fold (Mdio.irq_clear h speed).
      unfold Mdio.bad_response.
      destruct (negb (r.[Mdio.resp_ts h] =? 1) || (r.[Mdio.resp_fe h] =? 1)).
      * unfold ret.
        cbn [Mdio.cs_in Mdio.cs_n Mdio.resp_in Mdio.resp_n Mdio.req_id Mdio.trace].
        rewrite <- !app_assoc. cbn [app]. do 2 f_equal. lia.
      * destruct (op =? Mdio.SCD_MDIO_READ h); unfold ret;
          rewrite <- !app_assoc; cbn [app]; do 2 f_equal; lia.
    + change (negb (- EOPNOTSUPP =? 0)) with true. cbv iota. unfold ret.
      rewrite Nat.add_0_r, <- !app_assoc. reflexivity.
Qed.

End MdioRequest.

(* ================================================================== *)
(** ** The theorems at concrete inputs *)

Section Instances.

(** C1, as stated, fails.  An i2c-block write of 15 bytes issues the 17
    phases of the table, and the id of the 17th is 0 again.  The write
    of an SMBus block of 2 bytes issues 5 phases, one more than the row
    of the length-prefixed buffer gives.  The read of an SMBus block on
    a master without the hardware-assisted path issues the four phases
    of the length probe and then, the length byte being 2, six more
    whose ids start again at 0. *)
Lemma do_impl_ids_wrap :
  (let res := scd_smbus_do_impl Ex.master Ex.bus 80 0 I2C_SMBUS_WRITE 17
                I2C_SMBUS_I2C_BLOCK_DATA 34 EmptyString (Ex.good 15) in
   let ids := map (get Req.ti) (reqs (new_events (Ex.good 15) (snd res))) in
   table_phases I2C_SMBUS_I2C_BLOCK_DATA I2C_SMBUS_WRITE 34 15 = Some 17 /\
   List.length ids = 17%nat /\
   nth 15 ids 0 = 15 /\ nth 16 ids 0 = 0 /\
   ~ counts_from_0 ids) /\
  (let res := scd_smbus_do_impl Ex.master Ex.bus 80 0 I2C_SMBUS_WRITE 17
                I2C_SMBUS_BLOCK_DATA 34 EmptyString (Ex.good 2) in
   let ids := map (get Req.ti) (reqs (new_events (Ex.good 2) (snd res))) in
   table_phases I2C_SMBUS_BLOCK_DATA I2C_SMBUS_WRITE 34 2 = Some 4 /\
   ids = [0; 1; 2; 3; 4]) /\
  (let res := scd_smbus_do_impl Ex.master Ex.bus 80 0 I2C_SMBUS_READ 17
                I2C_SMBUS_BLOCK_DATA 34 EmptyString Ex2.probed in
   let ids := map (get Req.ti) (reqs (new_events Ex2.probed (snd res))) in
   fst (fst res) = 0 /\
   ids = [0; 1; 2; 3; 0; 1; 2; 3; 4; 5] /\
   ~ counts_from_0 ids).
Proof.
  cbv zeta. split; [|split].
  - split; [reflexivity|]. split; [vm_compute; reflexivity|].
    split; [vm_compute; reflexivity|]. split; [vm_compute; reflexivity|].
    intros H. specialize (H 16%nat).
    assert (Hlen : Nat.lt 16 (List.length
       (map (get Req.ti)
          (reqs (new_events (Ex.good 15)
             (snd (scd_smbus_do_impl Ex.master Ex.bus 80 0 I2C_SMBUS_WRITE 17
                     I2C_SMBUS_I2C_BLOCK_DATA 34 EmptyString (Ex.good 15)))))))).
    { vm_compute. unfold Nat.lt. lia. }
    specialize (H Hlen). vm_compute in H. discriminate H.
  - split; [reflexivity|]. vm_compute. reflexivity.
  - split; [vm_compute; reflexivity|].
    assert (E : map (get Req.ti)
       (reqs (new_events Ex2.probed
          (snd (scd_smbus_do_impl Ex.master Ex.bus 80 0 I2C_SMBUS_READ 17
                  I2C_SMBUS_BLOCK_DATA 34 EmptyString Ex2.probed)))) =
       [0; 1; 2; 3; 0; 1; 2; 3; 4; 5]) by (vm_compute; reflexivity).
    rewrite E. split; [reflexivity|].
    intros H. specialize (H 4%nat ltac:(cbn; lia)). discriminate H.
Qed.

(** Six executions against a permanent ack error, then [-EIO]. *)
Lemma scd_smbus_access_impl_retries_witness :
  scd_smbus_access_impl Ex.master Ex.bus 80 0 I2C_SMBUS_READ 17
                        I2C_SMBUS_BYTE_DATA 34 Ex.nack =
  if (6 =? max_attempts Ex.master)%nat
  then let '(fr, w') := after_attempts (max_attempts Ex.master) Ex.master Ex.bus
                          80 0 I2C_SMBUS_READ 17 I2C_SMBUS_BYTE_DATA 34
                          EmptyString Ex.nack in
       (- EIO, gave_up fr w')
  else (attempt_status 6 Ex.master Ex.bus 80 0 I2C_SMBUS_READ 17
                       I2C_SMBUS_BYTE_DATA 34 EmptyString Ex.nack,
        snd (after_attempts 7 Ex.master Ex.bus 80 0 I2C_SMBUS_READ 17
                            I2C_SMBUS_BYTE_DATA 34 EmptyString Ex.nack)).
Proof.
  apply (scd_smbus_access_impl_retries Ex.master Ex.bus 80 0 I2C_SMBUS_READ 17
           I2C_SMBUS_BYTE_DATA 34 Ex.nack 6).
  - vm_compute. lia.
  - intros i Hi.
    do 6 (destruct i as [|i]; [vm_compute; reflexivity|]). lia.
  - vm_compute. lia.
Defined.

(** C3, as stated, fails: with [max_retries = 0] the exchange is
    executed once all the same (its four requests are in the trace). *)
Lemma access_impl_zero_retries :
  let res := scd_smbus_access_impl Ex.master_0 Ex.bus 80 0 I2C_SMBUS_READ 17
               I2C_SMBUS_BYTE_DATA 34 Ex.nack in
  m_max_retries Ex.master_0 = 0 /\
  fst res = - EIO /\
  List.length (reqs (new_events Ex.nack (snd res))) = 4%nat /\
  List.length (resps (new_events Ex.nack (snd res))) = 1%nat.
Proof.
  cbv zeta. split; [reflexivity|].
  split; [vm_compute; reflexivity|].
  split; vm_compute; reflexivity.
Qed.

(** Two polls that find 0, ready at the third, a read that returns the
    data field. *)
Lemma mdio_request_outcome_witness :
  Mdio.scd_mdio_bus_request Ex.mdio_h 3 10 1 (Mdio.SCD_MDIO_READ Ex.mdio_h)
                            1 2 3 0 Ex.mdio_w =
  (Some 4660,
   Mdio.after Ex.mdio_w 3 1
     ((Mdio.issued Ex.mdio_h 3 Ex.mdio_w 1 (Mdio.SCD_MDIO_READ Ex.mdio_h)
                   1 2 3 0 ++ Mdio.polls Ex.mdio_h Ex.mdio_w 2) ++
      [Mdio.EvReadCs (Mdio.cs_at Ex.mdio_w 2);
       Mdio.EvWriteCs (Mdio.irq_clear Ex.mdio_h 3);
       Mdio.EvReadResp (Mdio.resp_at Ex.mdio_w 0)])).
Proof.
  rewrite (mdio_request_outcome Ex.mdio_h 3 10 1 (Mdio.SCD_MDIO_READ Ex.mdio_h)
             1 2 3 0 Ex.mdio_w 2).
  - reflexivity.
  - lia.
  - intros j Hj. do 2 (destruct j as [|j]; [vm_compute; auto|]). lia.
  - intros _. vm_compute. discriminate.
Defined.

(** C6, as stated, fails: the override of address 80 has read width 2 and
    early data, and none of the three phases of the hardware-assisted
    block read carries them; of the four phases of a byte-data read on
    the generic path, only the last carries them. *)
Lemma hw_block_read_phases_carry_no_width :
  (let res := scd_smbus_do_impl Ex.master_hw Ex.bus 80 0 I2C_SMBUS_READ 17
                I2C_SMBUS_BLOCK_DATA 34 EmptyString Ex.nack in
   get_smbus_params Ex.bus 80 = BusParams 80 2 1 2 1 /\
   map (fun v => (v.[Req.t], v.[Req.dat], v.[Req.ed]))
       (reqs (new_events Ex.nack (snd res))) =
   [(2, 0, 0); (2, 0, 0); (2, 0, 0)]) /\
  (let res := scd_smbus_do_impl Ex.master Ex.bus 80 0 I2C_SMBUS_READ 17
                I2C_SMBUS_BYTE_DATA 34 EmptyString (Ex.good 0) in
   fst (fst res) = 0 /\
   map (fun v => (v.[Req.t], v.[Req.dat], v.[Req.ed]))
       (reqs (new_events (Ex.good 0) (snd res))) =
   [(2, 0, 0); (2, 0, 0); (2, 0, 0); (2, 2, 1)]).
Proof.
  cbv zeta. split.
  - split; [reflexivity|]. vm_compute. reflexivity.
  - split; vm_compute; reflexivity.
Qed.

(** An i2c-block read of 40 bytes into the 34 bytes of the adapter. *)
Lemma block_read_capacity_witness :
  let w := Ex.good 40 in
  let res := scd_smbus_do_impl Ex.master Ex.bus 80 0 I2C_SMBUS_READ 17
               I2C_SMBUS_I2C_BLOCK_DATA 34 EmptyString w in
  let l := new_events w (snd res) in
  let tid := exp_tid (with_probe Ex.master I2C_SMBUS_I2C_BLOCK_DATA
                                 I2C_SMBUS_READ) in
  Forall (in_buffer 34) (stores l) /\
  (forall idx, data (snd res) idx = apply_stores (stores l) (data w) idx) /\
  (forall idx, ~ 0 <= idx < 34 -> data (snd res) idx = data w idx) /\
  (~ block_fits I2C_SMBUS_I2C_BLOCK_DATA 34 w ->
   fst (fst res) <> 0 /\
   (fst (fst res) = - EINVAL \/ fst (fst res) = - EIO) /\
   ((forall j, resp_ok (resp_at w j) (tid j) = true) ->
    fst (fst res) = - EINVAL)).
Proof.
  apply (block_read_capacity Ex.master Ex.bus 80 0 17 I2C_SMBUS_I2C_BLOCK_DATA
           34 EmptyString (Ex.good 40)).
  - left. reflexivity.
  - lia.
Defined.

(** C9, as stated, fails: on the initialised device a line written to
    [smbus_tweaks] is accepted and adds an override to bus 7. *)
Lemma smbus_tweaks_after_init :
  initialized Ex.ctx = true /\
  smbus_tweaks true (Some Ex.ctx) "7 81 3 1 2 0" 12 =
    (12,
     Some (ScdContext 4096 true
             [ScdSmbusMaster 0 false 6
                [ScdSmbus 2 7 [BusParams 80 2 1 2 1; BusParams 81 3 2 1 0]]])).
Proof. split; [reflexivity|]. vm_compute. reflexivity. Qed.

(** The same line on the initialised device, through both entry points. *)
Lemma configuration_after_init_witness :
  new_object (fun _ c _ _ => (0, c)) (Some Ex.ctx) "7 81 3 1 2 0" 12 =
    (- EBUSY, Some Ex.ctx) /\
  smbus_tweaks true (Some Ex.ctx) "7 81 3 1 2 0" 12 =
    (fst (smbus_tweaks true (Some (with_initialized false Ex.ctx))
                       "7 81 3 1 2 0" 12),
     option_map (with_initialized true)
       (snd (smbus_tweaks true (Some (with_initialized false Ex.ctx))
                          "7 81 3 1 2 0" 12))).
Proof.
  apply (configuration_after_init (fun _ c _ _ => (0, c)) true Ex.ctx).
  reflexivity.
Defined.

(** The same read of 40 bytes: [-EINVAL], a reset, no replay. *)
Lemma capacity_error_resets_once_witness :
  let res := scd_smbus_do_impl Ex.master Ex.bus 80 0 I2C_SMBUS_READ 17
               I2C_SMBUS_I2C_BLOCK_DATA 34 EmptyString (Ex.good 40) in
  (exists pre cs v1 v2,
     trace (snd res) =
       trace (Ex.good 40) ++ pre ++
       [EvReadCs cs; EvWriteCs v1; EvMdelay 50; EvWriteCs v2; EvMdelay 50] /\
     v1.[Cs.reset] = 1 /\ v1.[Cs.foe] = 1 /\
     v2.[Cs.reset] = 0 /\ v2.[Cs.foe] = 1) /\
  scd_smbus_access_impl Ex.master Ex.bus 80 0 I2C_SMBUS_READ 17
                        I2C_SMBUS_I2C_BLOCK_DATA 34 (Ex.good 40) =
    (- EINVAL, snd res).
Proof.
  apply (capacity_error_resets_once Ex.master Ex.bus 80 0 I2C_SMBUS_READ 17
           I2C_SMBUS_I2C_BLOCK_DATA 34 (Ex.good 40)).
  vm_compute. reflexivity.
Defined.

End Instances.

(* ================================================================== *)
(** ** What a transaction reads into the buffer and writes on the wire *)

Section Delivery.

Lemma apply_stores_cons (iv : Z * Z) (l : list (Z * Z)) (d : Z -> Z) (idx : Z) :
  apply_stores (iv :: l) d idx =
  apply_stores l (fun j => if j =? fst iv then snd iv else d j) idx.
Proof. reflexivity. Qed.

(** Stores at consecutive indices. *)
Lemma apply_stores_seq (g : nat -> Z) (c : Z) (n : nat) :
  forall (a : nat) (d : Z -> Z) (idx : Z),
  apply_stores (map (fun j => (Z.of_nat j + c, g j)) (seq a n)) d idx =
  if (Z.of_nat a + c <=? idx) && (idx <? Z.of_nat (a + n) + c)
  then g (Z.to_nat (idx - c)) else d idx.
Proof.
  induction n as [|n IH]; intros a d idx.
  - cbn [seq map apply_stores fold_left].
    destruct (Z.leb_spec (Z.of_nat a + c) idx);
      destruct (Z.ltb_spec idx (Z.of_nat (a + 0) + c)); cbn [andb];
      try reflexivity; lia.
  - cbn [seq map]. rewrite apply_stores_cons, IH. cbn [fst snd].
    destruct (Z.leb_spec (Z.of_nat (S a) + c) idx);
      destruct (Z.ltb_spec idx (Z.of_nat (S a + n) + c));
      destruct (Z.leb_spec (Z.of_nat a + c) idx);
      destruct (Z.ltb_spec idx (Z.of_nat (a + S n) + c));
      cbn [andb]; try reflexivity; try lia;
      destruct (Z.eqb_spec idx (Z.of_nat a + c));
      try reflexivity; try lia; f_equal; lia.
Qed.

Lemma flat_map_seq_nil {A} (f : nat -> list A) (n : nat) :
  forall a, (forall j, (a <= j < a + n)%nat -> f j = []) ->
  flat_map f (seq a n) = [].
Proof.
  induction n as [|n IH]; intros a H; [reflexivity|].
  cbn [seq flat_map]. rewrite (H a) by lia. rewrite IH; [reflexivity|].
  intros j Hj. apply H. lia.
Qed.

Lemma flat_map_seq_single {A} (f : nat -> list A) (g : nat -> A) (n : nat) :
  forall a, (forall j, (a <= j < a + n)%nat -> f j = [g j]) ->
  flat_map f (seq a n) = map g (seq a n).
Proof.
  induction n as [|n IH]; intros a H; [reflexivity|].
  cbn [seq flat_map map]. rewrite (H a) by lia. rewrite IH; [reflexivity|].
  intros j Hj. apply H. lia.
Qed.

(** An exchange all of whose responses pass: status 0, the reason buffer
    untouched, [ss] responses consumed, the stores of every phase done. *)
Lemma exchange_read_ok params addr rw command size data_size ss off req0 fr w :
  req0.[Req.ti] = 0 -> req0.[Req.dat] = 0 -> req0.[Req.ed] = 0 -> 0 <= ss ->
  size <> I2C_SMBUS_WORD_DATA ->
  (forall j, (j < Z.to_nat ss)%nat ->
     resp_ok (resp_at w j) (Z.of_nat j mod 16) = true /\
     overflows rw size data_size (Z.of_nat j) = false) ->
  let res := exchange params addr rw command size data_size ss off req0 fr w in
  fst res = (0, fr) /\
  resp_n (snd res) = (resp_n w + Z.to_nat ss)%nat /\
  forall idx,
    data (snd res) idx =
    apply_stores
      (flat_map (fun j => map stored
                   (phase_stores rw size ss (Z.of_nat j) (resp_at w j)
                                 (fun _ => 0)))
                (seq 0 (Z.to_nat ss)))
      (data w) idx.
Proof.
  intros Hti Hdat Hed Hss Hsz Hall res.
  destruct (exchange_spec params addr rw command size data_size ss off req0 fr w
              Hti Hdat Hed Hss)
    as (vs & k & lr & tail & Hrun & Hlen & _ & _ & _ & Hreq & Hk & _ & Hst & Hout).
  fold res in Hrun, Hout.
  destruct (reqs_map_write vs) as (_ & Hm2 & Hm3).
  destruct Hout as [(A & B & C & D) | [(A & B & _) | (A & _ & B & _)]].
  - subst tail k. split; [exact B|]. split.
    + rewrite (run_resp_n _ _ _ Hrun), !resps_app, Hm2.
      cbn [app resps flat_map]. rewrite app_nil_r, C. reflexivity.
    + intros idx. rewrite (run_data _ _ _ Hrun idx), !stores_app, Hm3.
      rewrite (Hst Hsz). cbn [app]. rewrite app_nil_r. reflexivity.
  - destruct (Hall k A) as (Hok & _). congruence.
  - destruct (Hall k A) as (_ & Hov). congruence.
Qed.

Lemma rsp_d_u8 (resp : Z) : u8 resp.[Rsp.d] = resp.[Rsp.d].
Proof. unfold u8. apply Z.mod_small. apply rsp_d_range. Qed.

(** X1.  A byte or byte-data read whose responses all pass validation
    returns 0, leaves the reason buffer alone, consumes one response per
    phase (2 or 4) and puts the data field of the last response in byte 0
    of the buffer; no other byte of the buffer changes. *)
Theorem byte_read_delivers master bus addr flags command size data_size fr w :
  size = I2C_SMBUS_BYTE \/ size = I2C_SMBUS_BYTE_DATA ->
  let last := if size =? I2C_SMBUS_BYTE then 1%nat else 3%nat in
  (forall j, (j <= last)%nat -> resp_ok (resp_at w j) (Z.of_nat j) = true) ->
  let res := scd_smbus_do_impl master bus addr flags I2C_SMBUS_READ command
                               size data_size fr w in
  fst res = (0, fr) /\
  resp_n (snd res) = (resp_n w + S last)%nat /\
  forall idx, data (snd res) idx =
              if idx =? 0 then (resp_at w last).[Rsp.d] else data w idx.
Proof.
  intros Hsize last Hok res. subst res.
  destruct (do_impl_paths master bus addr flags I2C_SMBUS_READ command size
              data_size fr w) as [(_ & E) | [(H1 & _) | (H1 & _)]].
  2,3: (destruct Hsize; subst size; discriminate H1).
  rewrite E. clear E.
  set (p := get_smbus_params bus addr).
  destruct (req_init_fields bus p) as (Hti & Hdat & Hed & _).
  assert (Hplan : plan size I2C_SMBUS_READ data_size (u8 (data w 0)) =
                  (Z.of_nat (S last), 0)).
  { destruct Hsize; subst size last; reflexivity. }
  rewrite Hplan. cbn [fst snd].
  destruct (exchange_read_ok p addr I2C_SMBUS_READ command size data_size
              (Z.of_nat (S last)) 0 (req_init bus p) fr w Hti Hdat Hed)
    as (R1 & R2 & R3).
  { lia. }
  { destruct Hsize; subst size; discriminate. }
  { rewrite Nat2Z.id. intros j Hj. split.
    - rewrite Z.mod_small; [apply Hok; lia|].
      split; [lia|]. destruct Hsize; subst size last; cbn in Hj; lia.
    - unfold overflows. destruct Hsize; subst size; reflexivity. }
  rewrite Nat2Z.id in R2, R3.
  split; [exact R1|]. split; [exact R2|].
  intros idx. rewrite R3.
  destruct Hsize; subst size last; cbn [seq flat_map];
    unfold phase_stores; cbn [Z.of_nat Pos.of_succ_nat Pos.succ];
    cbn; rewrite rsp_d_u8; reflexivity.
Qed.

(** Block reads on the generic path that succeed. *)
Lemma block_read_ok master bus addr flags command size data_size fr w :
  size = I2C_SMBUS_I2C_BLOCK_DATA \/ size = I2C_SMBUS_I2C_BLOCK_DATA_MSG ->
  0 <= data_size < 2 ^ 31 ->
  let n := if size =? I2C_SMBUS_I2C_BLOCK_DATA then u8 (data w 0)
           else data_size in
  let first := if size =? I2C_SMBUS_I2C_BLOCK_DATA then 1 else 0 in
  first + n <= data_size ->
  (forall j, (j < Z.to_nat (3 + n))%nat ->
     resp_ok (resp_at w j) (Z.of_nat j mod 16) = true) ->
  let res := scd_smbus_do_impl master bus addr flags I2C_SMBUS_READ command
                               size data_size fr w in
  fst res = (0, fr) /\
  resp_n (snd res) = (resp_n w + Z.to_nat (3 + n))%nat /\
  forall idx, data (snd res) idx =
              if (first <=? idx) && (idx <? first + n)
              then (resp_at w (Z.to_nat (idx - first + 3))).[Rsp.d]
              else data w idx.
Proof.
  intros Hsize Hd n first Hfit Hok res. subst res.
  assert (Hcase : (size = I2C_SMBUS_I2C_BLOCK_DATA /\ n = u8 (data w 0) /\
                   first = 1) \/
                  (size = I2C_SMBUS_I2C_BLOCK_DATA_MSG /\ n = data_size /\
                   first = 0)).
  { destruct Hsize; subst size; [left|right]; repeat split; reflexivity. }
  clearbody n first. clear Hsize.
  assert (Hn : 0 <= n).
  { destruct Hcase as [(_ & -> & _)|(_ & -> & _)]; [apply u8_range | lia]. }
  destruct (do_impl_paths master bus addr flags I2C_SMBUS_READ command size
              data_size fr w) as [(_ & E) | [(H1 & _) | (H1 & _)]].
  2,3: (destruct Hcase as [(-> & _)|(-> & _)]; discriminate H1).
  rewrite E. clear E.
  set (p := get_smbus_params bus addr).
  destruct (req_init_fields bus p) as (Hti & Hdat & Hed & _).
  assert (Hplan : plan size I2C_SMBUS_READ data_size (u8 (data w 0)) =
                  (3 + n, first)).
  { destruct Hcase as [(-> & -> & ->)|(-> & -> & ->)]; [reflexivity|].
    unfold plan.
    change (I2C_SMBUS_I2C_BLOCK_DATA_MSG =? I2C_SMBUS_QUICK) with false.
    change (I2C_SMBUS_I2C_BLOCK_DATA_MSG =? I2C_SMBUS_BYTE) with false.
    change (I2C_SMBUS_I2C_BLOCK_DATA_MSG =? I2C_SMBUS_BYTE_DATA) with false.
    change (I2C_SMBUS_I2C_BLOCK_DATA_MSG =? I2C_SMBUS_WORD_DATA) with false.
    change (I2C_SMBUS_I2C_BLOCK_DATA_MSG =? I2C_SMBUS_I2C_BLOCK_DATA_MSG)
      with true.
    change (I2C_SMBUS_READ =? I2C_SMBUS_WRITE) with false. cbv iota.
    unfold u32. rewrite Z.mod_small; [reflexivity|]. lia. }
  rewrite Hplan. cbn [fst snd].
  assert (Hbl : (size =? I2C_SMBUS_BYTE) || (size =? I2C_SMBUS_BYTE_DATA) = false
                /\ (size =? I2C_SMBUS_WORD_DATA) = false
                /\ size <> I2C_SMBUS_WORD_DATA).
  { destruct Hcase as [(-> & _)|(-> & _)]; repeat split; try reflexivity;
      discriminate. }
  destruct Hbl as (Hb1 & Hb2 & Hb3).
  assert (Hsel : (size =? I2C_SMBUS_I2C_BLOCK_DATA) = (first =? 1)).
  { destruct Hcase as [(-> & _ & ->)|(-> & _ & ->)]; reflexivity. }
  assert (Hfirst : first = 0 \/ first = 1).
  { destruct Hcase as [(_ & _ & ->)|(_ & _ & ->)]; auto. }
  destruct (exchange_read_ok p addr I2C_SMBUS_READ command size data_size
              (3 + n) first (req_init bus p) fr w Hti Hdat Hed)
    as (R1 & R2 & R3).
  { lia. }
  { exact Hb3. }
  { intros j Hj. split; [apply Hok; exact Hj|].
    unfold overflows. rewrite Hb1, Hb2, Hsel. cbn [negb andb].
    change (I2C_SMBUS_READ =? I2C_SMBUS_READ) with true. cbn [andb].
    destruct (Z.leb_spec 3 (Z.of_nat j)); [|reflexivity]. cbn [andb].
    destruct Hfirst as [-> | ->]; cbn [Z.eqb Pos.eqb]; apply Z.leb_gt; lia. }
  split; [exact R1|]. split; [exact R2|].
  intros idx. rewrite R3. clear R1 R2 R3.
  replace (Z.to_nat (3 + n)) with (3 + Z.to_nat n)%nat by lia.
  rewrite seq_app, flat_map_app.
  rewrite (flat_map_seq_nil _ 3 0).
  2:{ intros j Hj. unfold phase_stores.
      change (I2C_SMBUS_READ =? I2C_SMBUS_READ) with true. cbv iota.
      rewrite Hb1, Hb2.
      destruct (Z.leb_spec 3 (Z.of_nat j)); [lia|reflexivity]. }
  cbn [app Nat.add].
  rewrite (flat_map_seq_single _
             (fun j => (Z.of_nat j + (first - 3), (resp_at w j).[Rsp.d]))).
  2:{ intros j Hj. unfold phase_stores.
      change (I2C_SMBUS_READ =? I2C_SMBUS_READ) with true. cbv iota.
      rewrite Hb1, Hb2, Hsel.
      destruct (Z.leb_spec 3 (Z.of_nat j)); [|lia].
      destruct Hfirst as [-> | ->]; cbn [Z.eqb Pos.eqb map]; unfold stored;
        cbn [fst snd]; rewrite rsp_d_u8; do 2 f_equal; lia. }
  rewrite (apply_stores_seq (fun j => (resp_at w j).[Rsp.d]) (first - 3)).
  replace (Z.of_nat 3 + (first - 3)) with first by lia.
  replace (Z.of_nat (3 + Z.to_nat n) + (first - 3)) with (first + n) by lia.
  replace (idx - (first - 3)) with (idx - first + 3) by lia.
  reflexivity.
Qed.

(** X2.  An i2c-block read of [n = block[0]] bytes, or a message read of
    [n = data_size] bytes, whose [3 + n] responses all pass validation and
    whose bytes fit the buffer returns 0 and stores the data fields of
    the responses of phases 3, 4, ... in order, from index 1 (i2c-block:
    [block[0]] keeps the length) or from index 0 (message); no other byte
    of the buffer changes. *)
Theorem block_read_delivers master bus addr flags command size data_size fr w :
  size = I2C_SMBUS_I2C_BLOCK_DATA \/ size = I2C_SMBUS_I2C_BLOCK_DATA_MSG ->
  0 <= data_size < 2 ^ 31 ->
  let n := if size =? I2C_SMBUS_I2C_BLOCK_DATA then u8 (data w 0)
           else data_size in
  let first := if size =? I2C_SMBUS_I2C_BLOCK_DATA then 1 else 0 in
  first + n <= data_size ->
  (forall j, (j < Z.to_nat (3 + n))%nat ->
     resp_ok (resp_at w j) (Z.of_nat j mod 16) = true) ->
  let res := scd_smbus_do_impl master bus addr flags I2C_SMBUS_READ command
                               size data_size fr w in
  fst res = (0, fr) /\
  resp_n (snd res) = (resp_n w + Z.to_nat (3 + n))%nat /\
  forall idx, data (snd res) idx =
              if (first <=? idx) && (idx <? first + n)
              then (resp_at w (Z.to_nat (idx - first + 3))).[Rsp.d]
              else data w idx.
Proof.
  exact (block_read_ok master bus addr flags command size data_size fr w).
Qed.

Lemma read_phases_write (n : nat) :
  forall i size size' ss data_size req fr w,
  read_phases n i I2C_SMBUS_WRITE size ss data_size req fr w =
  read_phases n i I2C_SMBUS_WRITE size' ss data_size req fr w.
Proof.
  induction n as [|n IH]; intros i size size' ss data_size req fr w;
    [reflexivity|].
  rewrite !read_phases_step. cbv zeta.
  unfold overflows, phase_stores.
  change (I2C_SMBUS_WRITE =? I2C_SMBUS_READ) with false. cbn [andb].
  cbv iota. rewrite (IH _ size size'). reflexivity.
Qed.

Lemma exchange_write_size params addr command size size' data_size ss off req fr w :
  exchange params addr I2C_SMBUS_WRITE command size data_size ss off req fr w =
  exchange params addr I2C_SMBUS_WRITE command size' data_size ss off req fr w.
Proof.
  unfold exchange. cbv zeta. unfold bind.
  destruct (issue_phases _ _ _ _ _ _ _ _ _ _) as [req2 w1].
  rewrite (read_phases_write _ _ size size'). reflexivity.
Qed.

(** The stores of a write. *)
Lemma write_keeps_stores master bus addr flags command size data_size fr w :
  let res := scd_smbus_do_impl master bus addr flags I2C_SMBUS_WRITE command
                               size data_size fr w in
  stores (new_events w (snd res)) = [] /\
  forall idx, data (snd res) idx = data w idx.
Proof.
  intros res. subst res.
  destruct (do_impl_paths master bus addr flags I2C_SMBUS_WRITE command size
              data_size fr w) as [(_ & E) | [(_ & H2 & _) | (_ & H2 & _)]].
  2,3: (exfalso; apply H2; reflexivity).
  rewrite E. clear E.
  set (p := get_smbus_params bus addr).
  destruct (req_init_fields bus p) as (Hti & Hdat & Hed & _).
  rewrite (exchange_write_size p addr command size I2C_SMBUS_QUICK).
  destruct (exchange_spec p addr I2C_SMBUS_WRITE command I2C_SMBUS_QUICK
              data_size
              (fst (plan size I2C_SMBUS_WRITE data_size (u8 (data w 0))))
              (snd (plan size I2C_SMBUS_WRITE data_size (u8 (data w 0))))
              (req_init bus p) fr w Hti Hdat Hed
              (plan_nonneg _ _ _ _ (proj1 (u8_range (data w 0)))))
    as (vs & k & lr & tail & Hrun & _ & _ & _ & _ & _ & _ & _ & Hst & Hout).
  cbv zeta in Hrun, Hout.
  assert (Hlr : stores lr = []).
  { rewrite Hst by discriminate. apply flat_map_seq_nil. reflexivity. }
  assert (Htail : stores tail = []).
  { destruct Hout as [(_ & _ & _ & ->) | [(_ & _ & _ & _ & ? & ? & _ & ->) |
                       (_ & _ & _ & _ & _ & ? & ? & _ & ->)]]; reflexivity. }
  destruct (reqs_map_write vs) as (_ & _ & Hm3).
  assert (Hs : stores (map EvWriteReq vs ++ lr ++ tail) = []).
  { rewrite !stores_app, Hm3, Hlr, Htail. reflexivity. }
  rewrite (new_events_run _ _ _ Hrun). split; [exact Hs|].
  intros idx. rewrite (run_data _ _ _ Hrun idx), Hs. reflexivity.
Qed.

(** X3.  A write never stores into the caller's buffer, whatever the
    shape and whatever the hardware answers: the buffer is the same after
    the call, succeeded or failed. *)
Theorem write_keeps_buffer master bus addr flags command size data_size fr w :
  let res := scd_smbus_do_impl master bus addr flags I2C_SMBUS_WRITE command
                               size data_size fr w in
  stores (new_events w (snd res)) = [] /\
  forall idx, data (snd res) idx = data w idx.
Proof.
  exact (write_keeps_stores master bus addr flags command size data_size fr w).
Qed.

(** *** Word reads *)

Lemma read_data_ext (n : nat) :
  forall i rw size ss (resp resp' : nat -> Z) (d d' : Z -> Z),
  (forall j, resp j = resp' j) -> (forall j, d j = d' j) ->
  forall idx, read_data n i rw size ss resp d idx =
              read_data n i rw size ss resp' d' idx.
Proof.
  induction n as [|n IH]; intros i rw size ss resp resp' d d' Hr Hd idx.
  - apply Hd.
  - cbn [read_data]. apply IH; [intros j; apply Hr|].
    intros j. rewrite <- (Hr O).
    assert (E : phase_stores rw size ss i (resp O) d =
                phase_stores rw size ss i (resp O) d').
    { unfold phase_stores. rewrite !Hd. reflexivity. }
    rewrite E. apply apply_stores_ext. exact Hd.
Qed.

Lemma data_do_stores (l : list (Z * Z)) (w : world) (idx : Z) :
  data (do_stores l w) idx = apply_stores (map stored l) (data w) idx.
Proof.
  rewrite (run_data _ _ _ (run_do_stores l w) idx).
  destruct (stores_store_events l) as (E & _). rewrite E. reflexivity.
Qed.

(** The response loop when every phase passes validation and fits. *)
Lemma read_phases_ok (n : nat) :
  forall i rw size ss data_size req fr w,
  (forall j, (j < n)%nat ->
     resp_ok (resp_at w j) (tid_at req j) = true /\
     overflows rw size data_size (i + Z.of_nat j) = false) ->
  let res := read_phases n i rw size ss data_size req fr w in
  fst res = (0, fr) /\
  resp_n (snd res) = (resp_n w + n)%nat /\
  forall idx, data (snd res) idx =
              read_data n i rw size ss (resp_at w) (data w) idx.
Proof.
  induction n as [|n IH]; intros i rw size ss data_size req fr w Hok.
  - cbn [read_phases read_data ret fst snd]. rewrite Nat.add_0_r. auto.
  - cbv zeta. rewrite read_phases_step. cbv zeta.
    destruct (Hok O ltac:(lia)) as (A & B).
    rewrite tid_at_0 in A. rewrite Z.add_0_r in B. rewrite A, B.
    destruct (read_resp_spec w) as (m & _ & _ & _ & E).
    assert (Hw1 : data (snd (smbus_master_read_resp w)) = data w /\
                  resp_n (snd (smbus_master_read_resp w)) = S (resp_n w) /\
                  resp_in (snd (smbus_master_read_resp w)) = resp_in w).
    { rewrite E. repeat split. }
    destruct Hw1 as (Hd1 & Hn1 & Hi1). rewrite Hd1.
    set (w1 := snd (smbus_master_read_resp w)) in *.
    set (sts := phase_stores rw size ss i (resp_at w 0) (data w)).
    set (w2 := do_stores sts w1).
    pose proof (run_do_stores sts w1) as Hrun2. fold w2 in Hrun2.
    destruct (stores_store_events sts) as (_ & _ & Hr2).
    assert (Hat : forall j, resp_at w2 j = resp_at w (S j)).
    { intros j. rewrite (resp_at_run _ _ _ j Hrun2), Hr2. cbn [List.length Nat.add].
      unfold resp_at. rewrite Hi1, Hn1. do 2 f_equal. lia. }
    destruct (IH (i + 1) rw size ss data_size (inc_ti req) fr w2)
      as (R1 & R2 & R3).
    { intros j Hj. destruct (Hok (S j) ltac:(lia)) as (A' & B').
      rewrite Hat, tid_at_S.
      replace (i + 1 + Z.of_nat j) with (i + Z.of_nat (S j)) by lia. auto. }
    cbv zeta in R1, R2, R3.
    split; [exact R1|]. split.
    + rewrite R2, (run_resp_n _ _ _ Hrun2), Hr2, Hn1. cbn [List.length]. lia.
    + intros idx. rewrite R3. cbn [read_data]. fold sts.
      apply read_data_ext; [exact Hat|].
      intros j. subst w2. rewrite data_do_stores, Hd1. reflexivity.
Qed.

Lemma lor_low_high (a b : Z) :
  0 <= a < 256 -> 0 <= b < 256 ->
  u8 (Z.lor a (Z.shiftl b 8)) = a /\
  u8 (Z.shiftr (Z.lor a (Z.shiftl b 8)) 8) = b.
Proof.
  intros Ha Hb.
  assert (Hl : Z.land a (Z.shiftl b 8) = 0).
  { apply Z.bits_inj'. intros n Hn. rewrite Z.land_spec, Z.bits_0.
    destruct (Z.ltb_spec n 8).
    - rewrite Z.shiftl_spec_low by lia. apply andb_false_r.
    - rewrite (Z.bits_above_log2 a n); [reflexivity|lia|].
      destruct (Z.eq_dec a 0) as [->|Hne]; [cbn; lia|].
      apply Z.log2_lt_pow2; [lia|].
      apply Z.lt_le_trans with (2 ^ 8); [change (2 ^ 8) with 256; lia|].
      apply Z.pow_le_mono_r; lia. }
  assert (E : Z.lor a (Z.shiftl b 8) = a + 256 * b).
  { rewrite <- (Z.lxor_lor _ _ Hl), <- (Z.add_nocarry_lxor _ _ Hl).
    rewrite Z.shiftl_mul_pow2 by lia. change (2 ^ 8) with 256. lia. }
  rewrite E. unfold u8. rewrite Z.shiftr_div_pow2 by lia.
  change (2 ^ 8) with 256.
  assert (Hq : (a + 256 * b) / 256 = b).
  { symmetry. apply Z.div_unique with a; lia. }
  assert (Hr : (a + 256 * b) mod 256 = a).
  { symmetry. apply Z.mod_unique with b; lia. }
  rewrite Hq, Hr. split; [reflexivity|apply Z.mod_small; lia].
Qed.

End Delivery.

(* ================================================================== *)
(** ** The phases on the wire *)

Section Wire.

Lemma issue_phases_reqs (n : nat) :
  forall i params addr rw command ss off req w,
  run w (snd (issue_phases n i params addr rw command ss off req w))
      (map EvWriteReq
         (phase_reqs n i params addr rw command ss off (data w) req)).
Proof.
  induction n as [|n IH]; intros i params addr rw command ss off req w.
  - apply run_refl.
  - rewrite issue_phases_step. cbv zeta. cbn [phase_reqs map].
    set (v := phase_req i params addr rw command ss off (data w) req).
    change (EvWriteReq v :: ?l) with ([EvWriteReq v] ++ l).
    eapply run_trans; [apply run_write_req|].
    apply (IH (i + 1) params addr rw command ss off
              (inc_ti v).[Req.st := 0] (snd (smbus_master_write_req v w))).
Qed.

Lemma phase_reqs_length (n : nat) :
  forall i params addr rw command ss off d req,
  List.length (phase_reqs n i params addr rw command ss off d req) = n.
Proof.
  induction n as [|n IH]; intros; [reflexivity|].
  cbn [phase_reqs List.length]. rewrite IH. reflexivity.
Qed.

(** The requests of an exchange are those of its request loop. *)
Lemma exchange_phase_reqs params addr rw command size data_size ss off req0 fr w :
  let res := exchange params addr rw command size data_size ss off req0 fr w in
  reqs (new_events w (snd res)) =
  phase_reqs (Z.to_nat ss) 0 params addr rw command ss off (data w)
    (req0.[Req.st := 1].[Req.ss := ss]
       .[Req.d := addr_byte addr (if ss <=? 2 then rw else 0)].[Req.dod := 1]).
Proof.
  unfold exchange. cbv zeta. unfold bind.
  match goal with |- context [issue_phases _ 0 _ _ _ _ _ _ ?r w] =>
    set (req1 := r) end.
  pose proof (issue_phases_reqs (Z.to_nat ss) 0 params addr rw command ss off
                req1 w) as Hrun1.
  set (vs := phase_reqs (Z.to_nat ss) 0 params addr rw command ss off (data w)
               req1) in *.
  destruct (issue_phases (Z.to_nat ss) 0 params addr rw command ss off req1 w)
    as [req2 w1]. cbn [snd] in Hrun1.
  destruct (read_phases_spec (Z.to_nat ss) 0 rw size ss data_size
              req2.[Req.ti := 0] fr w1)
    as (k & lr & Hrun2 & Hreq2 & _).
  cbv zeta in Hrun2.
  destruct (read_phases (Z.to_nat ss) 0 rw size ss data_size
              req2.[Req.ti := 0] fr w1) as [[r fr'] w2].
  cbn [fst snd] in *.
  destruct (reqs_map_write vs) as (Hm & _ & _).
  destruct (negb (r =? 0)).
  - destruct (run_reset_after w2) as (cs & Hrun3).
    destruct (smbus_master_reset w2) as [[] w3]. cbn [fst snd] in *.
    unfold ret. cbn [snd].
    rewrite (new_events_run w w3 (map EvWriteReq vs ++ lr ++ reset_trace cs)).
    + rewrite !reqs_app, Hm, Hreq2. cbn [reset_trace reqs flat_map app].
      rewrite app_nil_r. reflexivity.
    + eapply run_trans; [exact Hrun1|eapply run_trans; eassumption].
  - unfold ret. cbn [snd].
    rewrite (new_events_run w w2 (map EvWriteReq vs ++ lr)).
    + rewrite !reqs_app, Hm, Hreq2, app_nil_r. reflexivity.
    + eapply run_trans; eassumption.
Qed.

(** The requests of a transaction that is one exchange. *)
Lemma single_exchange_reqs master bus addr flags rw command size data_size fr w :
  single_exchange size rw = true ->
  let res := scd_smbus_do_impl master bus addr flags rw command size
                               data_size fr w in
  let p := get_smbus_params bus addr in
  let ss := fst (plan size rw data_size (u8 (data w 0))) in
  let off := snd (plan size rw data_size (u8 (data w 0))) in
  reqs (new_events w (snd res)) =
  phase_reqs (Z.to_nat ss) 0 p addr rw command ss off (data w)
             (req_start bus p addr rw ss).
Proof.
  intros Hs res p ss off. subst res.
  destruct (do_impl_paths master bus addr flags rw command size data_size fr w)
    as [(_ & E) | [(H1 & H2 & _) | (H1 & H2 & _)]].
  2,3: (unfold single_exchange in Hs; rewrite H1 in Hs;
        apply Z.eqb_neq in H2; rewrite H2 in Hs; discriminate Hs).
  rewrite E. apply exchange_phase_reqs.
Qed.

(** *** The members of one request *)

Ltac split_ifs :=
  repeat match goal with
         | |- context [if ?b then _ else _] => destruct b
         end.

Lemma phase_req_bs i params addr rw command ss off d req :
  (phase_req i params addr rw command ss off d req).[Req.bs] = req.[Req.bs] /\
  (phase_req i params addr rw command ss off d req).[Req.br] = req.[Req.br].
Proof.
  unfold phase_req.
  rewrite !set_da_other by (unfold wf, disjoint; simpl; lia).
  split_ifs; fields; split; reflexivity.
Qed.

Lemma phase_req_ss i params addr rw command ss off d req :
  (phase_req i params addr rw command ss off d req).[Req.ss] =
  if i =? 1 then 0 else req.[Req.ss].
Proof.
  unfold phase_req.
  rewrite !set_da_other by (unfold wf, disjoint; simpl; lia).
  destruct (i =? 1); split_ifs; fields; reflexivity.
Qed.

Lemma phase_req_st i params addr rw command ss off d req :
  (phase_req i params addr rw command ss off d req).[Req.st] =
  if (i =? 2) && (rw =? I2C_SMBUS_READ) then 1
  else if i =? 1 then 0 else req.[Req.st].
Proof.
  unfold phase_req.
  rewrite !set_da_other by (unfold wf, disjoint; simpl; lia).
  destruct (Z.eqb_spec i 1) as [->|H1].
  - change (1 =? 2) with false. cbn [andb]. split_ifs; fields; reflexivity.
  - destruct ((i =? 2) && (rw =? I2C_SMBUS_READ));
      split_ifs; fields; reflexivity.
Qed.

Lemma phase_req_dod i params addr rw command ss off d req :
  (phase_req i params addr rw command ss off d req).[Req.dod] =
  if (i =? 3) && (rw =? I2C_SMBUS_READ) then 0
  else if i =? 1
       then (if ss =? 2 then (if rw =? I2C_SMBUS_WRITE then 1 else 0) else 1)
       else req.[Req.dod].
Proof.
  unfold phase_req.
  rewrite !set_da_other by (unfold wf, disjoint; simpl; lia).
  destruct (Z.eqb_spec i 1) as [->|H1].
  - change (1 =? 3) with false. cbn [andb].
    destruct (ss =? 2); destruct (rw =? I2C_SMBUS_WRITE);
      split_ifs; fields; reflexivity.
  - destruct ((i =? 3) && (rw =? I2C_SMBUS_READ));
      split_ifs; fields; reflexivity.
Qed.

Lemma phase_req_sp i params addr rw command ss off d req :
  (phase_req i params addr rw command ss off d req).[Req.sp] =
  if i =? ss - 1 then 1 else req.[Req.sp].
Proof.
  destruct (Z.eqb_spec i (ss - 1)) as [H|H].
  - apply (phase_req_last i params addr rw command ss off d req H).
  - apply (phase_req_not_last i params addr rw command ss off d req H).
Qed.

Lemma phase_req_da i params addr rw command ss off d req :
  let v := phase_req i params addr rw command ss off d req in
  v.[Req.da] = if (v.[Req.dod] =? 0) && (v.[Req.sp] =? 0) then 1 else 0.
Proof.
  intros v. subst v. unfold phase_req.
  rewrite (set_da_other Req.dod), (set_da_other Req.sp)
    by (unfold wf, disjoint; simpl; lia).
  unfold set_da. rewrite get_set_same by (unfold wf; simpl; lia).
  match goal with
  | |- (if negb (?a =? 0) || negb (?b =? 0) then _ else _) mod _ = _ =>
      destruct (a =? 0); destruct (b =? 0); reflexivity
  end.
Qed.

Lemma phase_req_d i params addr rw command ss off d req :
  (phase_req i params addr rw command ss off d req).[Req.d] =
  if (2 <=? i) && (rw =? I2C_SMBUS_WRITE) then u8 (d (u32 (off + i - 2)))
  else if (i =? 2) && (rw =? I2C_SMBUS_READ) then addr_byte addr 1 mod 256
  else if i =? 1 then command mod 256
  else req.[Req.d].
Proof.
  unfold phase_req.
  rewrite !set_da_other by (unfold wf, disjoint; simpl; lia).
  assert (Hu : forall x, u8 x mod 2 ^ 8 = u8 x).
  { intros x. apply Z.mod_small. apply u8_range. }
  destruct (Z.eqb_spec i 1) as [->|H1].
  - change (2 <=? 1) with false. change (1 =? 2) with false. cbn [andb].
    split_ifs; fields; reflexivity.
  - destruct ((2 <=? i) && (rw =? I2C_SMBUS_WRITE));
      destruct ((i =? 2) && (rw =? I2C_SMBUS_READ));
      split_ifs; fields; rewrite ?Hu; reflexivity.
Qed.

(** *** Along the request loop *)

Ltac zcases :=
  repeat match goal with
         | |- context [?a =? ?b] =>
             lazymatch a with
             | context [if _ then _ else _] => fail
             | _ => destruct (Z.eqb_spec a b)
             end
         | |- context [?a <=? ?b] => destruct (Z.leb_spec a b)
         | |- context [?a <? ?b] => destruct (Z.ltb_spec a b)
         end;
  cbn [andb orb negb]; try reflexivity; try lia;
  try (unfold I2C_SMBUS_READ, I2C_SMBUS_WRITE in *; lia).

Lemma next_req_st (v : Z) : ((inc_ti v).[Req.st := 0]).[Req.st] = 0.
Proof. fields. reflexivity. Qed.

Lemma phase_reqs_const params addr rw command ss off d (n : nat) :
  forall i req, 0 <= i ->
  forall k, (k < n)%nat ->
    let v := nth k (phase_reqs n i params addr rw command ss off d req) 0 in
    v.[Req.bs] = req.[Req.bs] /\ v.[Req.br] = req.[Req.br] /\
    v.[Req.ss] = if (i <=? 1) && (1 <=? i + Z.of_nat k) then 0 else req.[Req.ss].
Proof.
  induction n as [|n IH]; intros i req Hi k Hk; [lia|].
  cbn [phase_reqs]. destruct k as [|k]; cbn [nth].
  - destruct (phase_req_bs i params addr rw command ss off d req) as (A & B).
    rewrite A, B, phase_req_ss. repeat split. zcases.
  - cbv zeta.
    destruct (IH (i + 1)
                (inc_ti (phase_req i params addr rw command ss off d req))
                  .[Req.st := 0] ltac:(lia) k ltac:(lia)) as (A & B & C).
    cbv zeta in A, B, C. rewrite A, B, C.
    rewrite !next_req_keeps by (unfold wf, disjoint; simpl; lia).
    destruct (phase_req_bs i params addr rw command ss off d req) as (A1 & B1).
    rewrite A1, B1, phase_req_ss. repeat split. zcases.
Qed.

Lemma phase_reqs_flags params addr rw command ss off d (n : nat) :
  forall i req, 0 <= i -> i + Z.of_nat n <= ss ->
  req.[Req.st] = (if i =? 0 then 1 else 0) ->
  req.[Req.sp] = 0 ->
  (i < ss ->
   req.[Req.dod] = if (rw =? I2C_SMBUS_READ) && (4 <=? i) then 0 else 1) ->
  forall k, (k < n)%nat ->
    let v := nth k (phase_reqs n i params addr rw command ss off d req) 0 in
    let j := i + Z.of_nat k in
    v.[Req.st] =
      (if (j =? 0) || ((j =? 2) && (rw =? I2C_SMBUS_READ)) then 1 else 0) /\
    v.[Req.sp] = (if j =? ss - 1 then 1 else 0) /\
    v.[Req.da] =
      (if (rw =? I2C_SMBUS_READ) && (3 <=? j) && negb (j =? ss - 1)
       then 1 else 0).
Proof.
  induction n as [|n IH]; intros i req Hi Hn Hst Hsp Hdod k Hk; [lia|].
  cbn [phase_reqs]. destruct k as [|k]; cbn [nth].
  - cbv zeta. rewrite Z.add_0_r.
    rewrite phase_req_da, phase_req_dod, phase_req_st, phase_req_sp.
    rewrite Hst, Hsp, Hdod by lia.
    repeat split; zcases.
  - cbv zeta.
    set (v := phase_req i params addr rw command ss off d req).
    destruct (IH (i + 1) (inc_ti v).[Req.st := 0]) with (k := k)
      as (A & B & C); try lia.
    + rewrite next_req_st. zcases.
    + rewrite next_req_keeps by (unfold wf, disjoint; simpl; lia).
      subst v. rewrite phase_req_sp, Hsp. zcases.
    + intros Hlt. rewrite next_req_keeps by (unfold wf, disjoint; simpl; lia).
      subst v. rewrite phase_req_dod, Hdod by lia. zcases.
    + cbv zeta in A, B, C.
      replace (i + 1 + Z.of_nat k) with (i + Z.of_nat (S k)) in A, B, C by lia.
      auto.
Qed.

Lemma phase_reqs_d params addr rw command ss off d (n : nat) :
  rw = I2C_SMBUS_READ \/ rw = I2C_SMBUS_WRITE ->
  forall i req, 0 <= i ->
  (3 <= i -> rw = I2C_SMBUS_READ -> req.[Req.d] = addr_byte addr 1 mod 256) ->
  forall k, (k < n)%nat ->
    let v := nth k (phase_reqs n i params addr rw command ss off d req) 0 in
    let j := i + Z.of_nat k in
    v.[Req.d] =
      if j =? 0 then req.[Req.d]
      else if j =? 1 then command mod 256
      else if rw =? I2C_SMBUS_WRITE then u8 (d (u32 (off + j - 2)))
      else addr_byte addr 1 mod 256.
Proof.
  intros Hrw.
  induction n as [|n IH]; intros i req Hi Hinv k Hk; [lia|].
  cbn [phase_reqs]. destruct k as [|k]; cbn [nth].
  - cbv zeta. rewrite Z.add_0_r, phase_req_d.
    destruct Hrw; subst rw; zcases.
  - cbv zeta.
    set (v := phase_req i params addr rw command ss off d req).
    rewrite (IH (i + 1) (inc_ti v).[Req.st := 0]); try lia.
    + replace (i + 1 + Z.of_nat k) with (i + Z.of_nat (S k)) by lia.
      zcases.
    + intros H3 Hr. rewrite next_req_keeps by (unfold wf, disjoint; simpl; lia).
      subst v. rewrite phase_req_d. subst rw. zcases.
Qed.

Lemma plan_bound size rw data_size b0 :
  0 <= b0 < 256 ->
  0 <= fst (plan size rw data_size b0) < 2 ^ 32 /\
  0 <= snd (plan size rw data_size b0) <= 1.
Proof.
  intros Hb. unfold plan, u32.
  pose proof (Z.mod_pos_bound (2 + data_size) (2 ^ 32) ltac:(lia)).
  pose proof (Z.mod_pos_bound (3 + data_size) (2 ^ 32) ltac:(lia)).
  repeat match goal with
         | |- context [if ?b then _ else _] => destruct b
         end; cbn [fst snd]; lia.
Qed.

Lemma req_start_fields bus p addr rw ss :
  let r := req_start bus p addr rw ss in
  r.[Req.st] = 1 /\ r.[Req.sp] = 0 /\ r.[Req.dod] = 1 /\
  r.[Req.bs] = bus_id bus mod 16 /\ r.[Req.br] = 0 /\
  r.[Req.ss] = ss mod 64 /\
  r.[Req.d] = addr_byte addr (if ss <=? 2 then rw else 0) mod 256.
Proof.
  unfold req_start, req_init. cbv zeta. fields. repeat split; reflexivity.
Qed.

(** The data fields of the requests of a write. *)
Lemma write_reqs_d master bus addr flags command size data_size fr w :
  let res := scd_smbus_do_impl master bus addr flags I2C_SMBUS_WRITE command
                               size data_size fr w in
  let ss := fst (plan size I2C_SMBUS_WRITE data_size (u8 (data w 0))) in
  let off := snd (plan size I2C_SMBUS_WRITE data_size (u8 (data w 0))) in
  let rq := reqs (new_events w (snd res)) in
  List.length rq = Z.to_nat ss /\
  forall k, (k < Z.to_nat ss)%nat ->
    (nth k rq 0).[Req.d] =
    match k with
    | O => addr_byte addr 0 mod 256
    | S O => command mod 256
    | S (S m) => u8 (data w (off + Z.of_nat m))
    end.
Proof.
  intros res ss off rq. subst rq res.
  rewrite (single_exchange_reqs master bus addr flags I2C_SMBUS_WRITE command
             size data_size fr w).
  2:{ unfold single_exchange.
      change (I2C_SMBUS_WRITE =? I2C_SMBUS_WRITE) with true.
      cbn [negb]. rewrite andb_false_r. reflexivity. }
  cbv zeta. fold ss off.
  set (p := get_smbus_params bus addr).
  split; [apply phase_reqs_length|].
  intros k Hk.
  destruct (plan_bound size I2C_SMBUS_WRITE data_size (u8 (data w 0))
              (u8_range _)) as (Hss & Hoff).
  fold ss in Hss. fold off in Hoff.
  destruct (req_start_fields bus p addr I2C_SMBUS_WRITE ss)
    as (_ & _ & _ & _ & _ & _ & Hd).
  cbv zeta in Hd.
  rewrite (phase_reqs_d p addr I2C_SMBUS_WRITE command ss off (data w)
             (Z.to_nat ss) (or_intror eq_refl) 0 _ ltac:(lia)) by
    (try exact Hk; intros; discriminate).
  rewrite Hd. rewrite Z.add_0_l.
  change (I2C_SMBUS_WRITE =? I2C_SMBUS_WRITE) with true. cbv iota.
  destruct k as [|[|m]].
  - change (Z.of_nat 0 =? 0) with true. cbv iota.
    destruct (ss <=? 2); reflexivity.
  - reflexivity.
  - destruct (Z.eqb_spec (Z.of_nat (S (S m))) 0); [lia|].
    destruct (Z.eqb_spec (Z.of_nat (S (S m))) 1); [lia|].
    do 2 f_equal. unfold u32. rewrite Z.mod_small by lia. lia.
Qed.

(** X4.  A write sends the buffer in order: in every shape that is a
    write, the data field of the first request is the address byte
    [(addr & 0xff) << 1] (truncated to the 8 bits of the field, direction
    bit 0), that of the second the command, and that of request [2 + m]
    the buffer byte at [data_offset + m], where [data_offset] is 1 for an
    i2c-block (whose [block[0]] is the length, not sent) and 0 otherwise
    (an SMBus block sends [block[0]], the length, first). *)
Theorem write_payload master bus addr flags command size data_size fr w :
  let res := scd_smbus_do_impl master bus addr flags I2C_SMBUS_WRITE command
                               size data_size fr w in
  let ss := fst (plan size I2C_SMBUS_WRITE data_size (u8 (data w 0))) in
  let off := snd (plan size I2C_SMBUS_WRITE data_size (u8 (data w 0))) in
  let rq := reqs (new_events w (snd res)) in
  List.length rq = Z.to_nat ss /\
  forall k, (k < Z.to_nat ss)%nat ->
    (nth k rq 0).[Req.d] =
    match k with
    | O => addr_byte addr 0 mod 256
    | S O => command mod 256
    | S (S m) => u8 (data w (off + Z.of_nat m))
    end.
Proof.
  exact (write_reqs_d master bus addr flags command size data_size fr w).
Qed.

(** X5.  The framing of an exchange.  Every request carries the bus
    number; the start marker is on the first request and, for a read, on
    the third (the restart with the read address); the stop marker is on
    the last request only; the phase count [ss] (6 bits) is in the first
    request only; the block-read marker is never set; and for a read the
    master acknowledges ([da]) every data byte (requests 3 and later) but
    the last.  For a read the data fields are the address byte (with the
    read bit only when the exchange has at most two phases), the command,
    then the address byte with the read bit. *)
Theorem exchange_framing master bus addr flags rw command size data_size fr w :
  single_exchange size rw = true ->
  let res := scd_smbus_do_impl master bus addr flags rw command size
                               data_size fr w in
  let ss := fst (plan size rw data_size (u8 (data w 0))) in
  let rq := reqs (new_events w (snd res)) in
  List.length rq = Z.to_nat ss /\
  forall k, (k < Z.to_nat ss)%nat ->
    let v := nth k rq 0 in
    let j := Z.of_nat k in
    v.[Req.bs] = bus_id bus mod 16 /\
    v.[Req.st] =
      (if (j =? 0) || ((j =? 2) && (rw =? I2C_SMBUS_READ)) then 1 else 0) /\
    v.[Req.sp] = (if j =? ss - 1 then 1 else 0) /\
    v.[Req.ss] = (if j =? 0 then ss mod 64 else 0) /\
    v.[Req.br] = 0 /\
    v.[Req.da] =
      (if (rw =? I2C_SMBUS_READ) && (3 <=? j) && negb (j =? ss - 1)
       then 1 else 0) /\
    (rw = I2C_SMBUS_READ ->
     v.[Req.d] =
       if j =? 0 then addr_byte addr (if ss <=? 2 then 1 else 0) mod 256
       else if j =? 1 then command mod 256
       else addr_byte addr 1 mod 256).
Proof.
  intros Hs res ss rq. subst rq res.
  rewrite (single_exchange_reqs master bus addr flags rw command size
             data_size fr w Hs).
  cbv zeta. fold ss.
  set (p := get_smbus_params bus addr).
  set (off := snd (plan size rw data_size (u8 (data w 0)))).
  split; [apply phase_reqs_length|].
  intros k Hk.
  destruct (req_start_fields bus p addr rw ss)
    as (Hst & Hsp & Hdod & Hbs & Hbr & Hss & Hd).
  cbv zeta in Hst, Hsp, Hdod, Hbs, Hbr, Hss, Hd.
  destruct (phase_reqs_const p addr rw command ss off (data w) (Z.to_nat ss)
              0 (req_start bus p addr rw ss) ltac:(lia) k Hk) as (A & B & C).
  destruct (phase_reqs_flags p addr rw command ss off (data w) (Z.to_nat ss)
              0 (req_start bus p addr rw ss)) with (k := k) as (D & E & F);
    try lia; try assumption.
  { intros _. rewrite Hdod. rewrite andb_false_r. reflexivity. }
  cbv zeta in A, B, C, D, E, F. rewrite Z.add_0_l in C, D, E, F.
  rewrite A, B, C, D, E, F, Hbs, Hbr, Hss.
  repeat (split; [reflexivity || zcases|]).
  intros Hr.
  rewrite (phase_reqs_d p addr rw command ss off (data w)
             (Z.to_nat ss) (or_introl Hr) 0 _ ltac:(lia)) by
    (try exact Hk; intros; lia).
  rewrite Hd, Z.add_0_l. subst rw.
  change (I2C_SMBUS_READ =? I2C_SMBUS_WRITE) with false. cbv iota.
  reflexivity.
Qed.

End Wire.


(* ================================================================== *)
(** ** Word reads *)

Section WordRead.

(** An exchange all of whose responses pass and fit, whatever the shape. *)
Lemma exchange_all_ok params addr rw command size data_size ss off req0 fr w :
  (forall j, (j < Z.to_nat ss)%nat ->
     resp_ok (resp_at w j) (Z.of_nat j mod 16) = true /\
     overflows rw size data_size (Z.of_nat j) = false) ->
  let res := exchange params addr rw command size data_size ss off req0 fr w in
  fst res = (0, fr) /\
  resp_n (snd res) = (resp_n w + Z.to_nat ss)%nat /\
  forall idx, data (snd res) idx =
              read_data (Z.to_nat ss) 0 rw size ss (resp_at w) (data w) idx.
Proof.
  intros Hok. unfold exchange. cbv zeta. unfold bind.
  match goal with |- context [issue_phases _ 0 _ _ _ _ _ _ ?r w] =>
    set (req1 := r) end.
  pose proof (issue_phases_reqs (Z.to_nat ss) 0 params addr rw command ss off
                req1 w) as Hrun1.
  set (vs := phase_reqs (Z.to_nat ss) 0 params addr rw command ss off (data w)
               req1) in *.
  destruct (issue_phases (Z.to_nat ss) 0 params addr rw command ss off req1 w)
    as [req2 w1]. cbn [snd] in Hrun1.
  destruct (reqs_map_write vs) as (_ & Hm2 & Hm3).
  assert (Hat : forall j, resp_at w1 j = resp_at w j).
  { intros j. rewrite (resp_at_run _ _ _ j Hrun1), Hm2. reflexivity. }
  assert (Hd : forall j, data w1 j = data w j).
  { intros j. rewrite (run_data _ _ _ Hrun1 j), Hm3. reflexivity. }
  destruct (read_phases_ok (Z.to_nat ss) 0 rw size ss data_size
              req2.[Req.ti := 0] fr w1) as (R1 & R2 & R3).
  { intros j Hj. rewrite Hat, tid_at_ti0, Z.add_0_l. apply Hok. exact Hj. }
  cbv zeta in R1, R2, R3.
  destruct (read_phases (Z.to_nat ss) 0 rw size ss data_size
              req2.[Req.ti := 0] fr w1) as [[r fr'] w2].
  cbn [fst snd] in *. inversion R1; subst r fr'.
  cbn [negb Z.eqb ret fst snd].
  split; [reflexivity|]. split.
  - rewrite R2, (run_resp_n _ _ _ Hrun1), Hm2. cbn [List.length]. lia.
  - intros idx. rewrite R3. apply read_data_ext; assumption.
Qed.

(** X8.  A word read whose five responses pass validation returns 0 and
    assembles the word low byte first: byte 0 of the buffer is the data
    of the fourth response, byte 1 the data of the fifth; no other byte
    of the buffer changes. *)
Theorem word_read_delivers master bus addr flags command data_size fr w :
  (forall j, (j < 5)%nat -> resp_ok (resp_at w j) (Z.of_nat j) = true) ->
  let res := scd_smbus_do_impl master bus addr flags I2C_SMBUS_READ command
                               I2C_SMBUS_WORD_DATA data_size fr w in
  fst res = (0, fr) /\
  resp_n (snd res) = (resp_n w + 5)%nat /\
  forall idx, data (snd res) idx =
              if idx =? 0 then (resp_at w 3).[Rsp.d]
              else if idx =? 1 then (resp_at w 4).[Rsp.d]
              else data w idx.
Proof.
  intros Hok res. subst res.
  destruct (do_impl_paths master bus addr flags I2C_SMBUS_READ command
              I2C_SMBUS_WORD_DATA data_size fr w)
    as [(_ & E) | [(H1 & _) | (H1 & _)]]; try discriminate H1.
  rewrite E. clear E.
  set (p := get_smbus_params bus addr).
  change (plan I2C_SMBUS_WORD_DATA I2C_SMBUS_READ data_size (u8 (data w 0)))
    with (5, 0). cbn [fst snd].
  destruct (exchange_all_ok p addr I2C_SMBUS_READ command I2C_SMBUS_WORD_DATA
              data_size 5 0 (req_init bus p) fr w) as (R1 & R2 & R3).
  { intros j Hj. change (Z.to_nat 5) with 5%nat in Hj.
    rewrite Z.mod_small by lia. split; [apply Hok; exact Hj|reflexivity]. }
  change (Z.to_nat 5) with 5%nat in R2, R3.
  split; [exact R1|]. split; [exact R2|].
  intros idx. rewrite R3. clear R1 R2 R3.
  pose proof (rsp_d_range (resp_at w 3)) as H3.
  pose proof (rsp_d_range (resp_at w 4)) as H4.
  cbn [read_data].
  change (0 + 1 + 1 + 1 + 1) with 4. change (0 + 1 + 1 + 1) with 3.
  change (0 + 1 + 1) with 2. change (0 + 1) with 1.
  change (phase_stores I2C_SMBUS_READ I2C_SMBUS_WORD_DATA 5 0 (resp_at w 0)
            (data w)) with (@nil (Z * Z)).
  cbn [map apply_stores fold_left].
  change (phase_stores I2C_SMBUS_READ I2C_SMBUS_WORD_DATA 5 1 (resp_at w 1)
            (data w)) with (@nil (Z * Z)).
  cbn [map apply_stores fold_left].
  change (phase_stores I2C_SMBUS_READ I2C_SMBUS_WORD_DATA 5 2 (resp_at w 2)
            (data w)) with (@nil (Z * Z)).
  cbn [map apply_stores fold_left].
  change (phase_stores I2C_SMBUS_READ I2C_SMBUS_WORD_DATA 5 3 (resp_at w 3)
            (data w))
    with [(0, (resp_at w 3).[Rsp.d]); (1, Z.shiftr (resp_at w 3).[Rsp.d] 8)].
  set (d3 := apply_stores
               (map stored [(0, (resp_at w 3).[Rsp.d]);
                            (1, Z.shiftr (resp_at w 3).[Rsp.d] 8)]) (data w)).
  assert (Hs8 : Z.shiftr (resp_at w 3).[Rsp.d] 8 = 0).
  { rewrite Z.shiftr_div_pow2 by lia. apply Z.div_small.
    change (2 ^ 8) with 256. lia. }
  assert (Hd3 : forall j, d3 j = if j =? 0 then (resp_at w 3).[Rsp.d]
                                 else if j =? 1 then 0 else data w j).
  { intros j. subst d3. cbn [map apply_stores fold_left]. unfold stored.
    cbn [fst snd]. rewrite Hs8, rsp_d_u8.
    destruct (Z.eqb_spec j 1) as [->|]; [reflexivity|]. reflexivity. }
  change (phase_stores I2C_SMBUS_READ I2C_SMBUS_WORD_DATA 5 4 (resp_at w 4) d3)
    with (let v := Z.lor (u8 (d3 0) + 256 * u8 (d3 1))
                         (Z.shiftl (resp_at w 4).[Rsp.d] 8) in
          [(0, v); (1, Z.shiftr v 8)]).
  cbv zeta. rewrite !Hd3. cbn [Z.eqb]. rewrite rsp_d_u8.
  change (u8 0) with 0. rewrite Z.mul_0_r, Z.add_0_r.
  destruct (lor_low_high _ _ H3 H4) as (L1 & L2).
  cbn [map apply_stores fold_left]. unfold stored. cbn [fst snd].
  rewrite L1, L2, Hd3.
  destruct (Z.eqb_spec idx 1) as [->|]; [reflexivity|].
  destruct (Z.eqb_spec idx 0); reflexivity.
Qed.

End WordRead.

(* ================================================================== *)
(** ** The hardware-assisted block read, poll by poll *)

Section HwBlockRead.

Lemma br_issue_world (n : nat) :
  forall i addr command req w,
  exists vs : list Z,
    List.length vs = n /\
    snd (br_issue n i addr command req w) =
    World (cs_in w) (resp_in w) (cs_n w) (resp_n w) (data w)
          (trace w ++ map EvWriteReq vs).
Proof.
  induction n as [|n IH]; intros i addr command req w.
  - exists []. split; [reflexivity|]. cbn [br_issue ret snd map].
    rewrite app_nil_r. symmetry. apply world_eta.
  - cbn [br_issue]. unfold bind.
    match goal with |- context [smbus_master_write_req ?v w] => set (v0 := v) end.
    unfold smbus_master_write_req, emit.
    match goal with |- context [br_issue n ?i' addr command ?r ?w'] =>
      destruct (IH i' addr command r w') as (vs & Hlen & E)
    end.
    exists (v0 :: vs). split; [cbn [List.length]; rewrite Hlen; reflexivity|].
    rewrite E. cbn [cs_in resp_in cs_n resp_n data trace map].
    rewrite <- app_assoc. reflexivity.
Qed.

(** The wait for the busy bit to clear: [cs] is the value just read, the
    next reads give [cs_at w 0], [cs_at w 1], ...; the loop sleeps [m]
    times when the first [m] values show the bit set and either the next
    one does not or the time is up. *)
Lemma brb_wait_exact (t : Z) (m : nat) :
  forall (fuel : nat) (ct cs : Z) (w : world),
  let c := fun j => match j with O => cs | S j' => cs_at w j' end in
  (forall j, (j < m)%nat -> (c j).[Cs.brb] <> 0) ->
  ct + Z.of_nat m <= t ->
  (ct + Z.of_nat m < t -> (c m).[Cs.brb] = 0) ->
  (m <= fuel)%nat ->
  brb_wait fuel t ct cs w =
  ((ct + Z.of_nat m, c m),
   World (cs_in w) (resp_in w) (cs_n w + m) (resp_n w) (data w)
         (trace w ++
          flat_map (fun j => [EvMsleep 1; EvReadCs (cs_at w j)]) (seq 0 m))).
Proof.
  induction m as [|m IH]; intros fuel ct cs w c Hbusy Hle Hidle Hfuel.
  - assert (Hc : negb (cs.[Cs.brb] =? 0) && (ct <? t) = false).
    { destruct (Z.ltb_spec ct t) as [H|H]; [|apply andb_false_r].
      subst c. cbn beta iota in Hidle. rewrite Hidle by lia. reflexivity. }
    destruct fuel; cbn [brb_wait]; rewrite Hc; unfold ret;
      cbn [seq flat_map]; rewrite app_nil_r, Nat.add_0_r, Z.add_0_r, world_eta;
      reflexivity.
  - destruct fuel as [|fuel]; [lia|].
    cbn [brb_wait].
    assert (Hc : negb (cs.[Cs.brb] =? 0) && (ct <? t) = true).
    { pose proof (Hbusy O ltac:(lia)) as H0. subst c. cbn beta iota in H0.
      apply Z.eqb_neq in H0. rewrite H0.
      destruct (Z.ltb_spec ct t); [reflexivity|lia]. }
    rewrite Hc. unfold bind, msleep, emit, smbus_master_read_cs.
    cbn [cs_in resp_in cs_n resp_n data trace].
    set (w2 := World (cs_in w) (resp_in w) (S (cs_n w)) (resp_n w) (data w)
                 ((trace w ++ [EvMsleep SMBUS_BLOCK_READ_TIMEOUT_STEP]) ++
                  [EvReadCs (u32 (cs_in w (cs_n w)))])).
    assert (Hsh : forall j, cs_at w2 j = cs_at w (S j)).
    { intros j. apply cs_at_shift; reflexivity. }
    assert (H0 : u32 (cs_in w (cs_n w)) = cs_at w 0).
    { unfold cs_at. rewrite Nat.add_0_r. reflexivity. }
    rewrite (IH fuel (ct + SMBUS_BLOCK_READ_TIMEOUT_STEP)
               (u32 (cs_in w (cs_n w))) w2).
    + unfold SMBUS_BLOCK_READ_TIMEOUT_STEP. subst c. cbv beta.
      f_equal.
      * f_equal; [lia|]. destruct m; [exact H0|apply Hsh].
      * subst w2. cbn [cs_in resp_in cs_n resp_n data trace].
        f_equal; [lia|].
        cbn [seq flat_map]. rewrite flat_map_seq_shift.
        rewrite <- !app_assoc. cbn [app]. rewrite H0. do 3 f_equal.
        apply flat_map_ext. intros j. do 3 f_equal.
        apply cs_at_shift; reflexivity.
    + intros j Hj. pose proof (Hbusy (S j) ltac:(lia)) as Hb.
      subst c. cbv beta iota in Hb.
      destruct j; [rewrite H0; exact Hb|rewrite Hsh; exact Hb].
    + unfold SMBUS_BLOCK_READ_TIMEOUT_STEP. lia.
    + unfold SMBUS_BLOCK_READ_TIMEOUT_STEP. intros Hlt.
      assert (Hi := Hidle ltac:(lia)). subst c. cbv beta iota in Hi.
      destruct m; [rewrite H0; exact Hi|rewrite Hsh; exact Hi].
    + lia.
Qed.

(** The events of the wait. *)
Lemma quiet_wait (w : world) (m : nat) :
  quiet (flat_map (fun j => [EvMsleep 1; EvReadCs (cs_at w (S j))]) (seq 0 m)).
Proof.
  induction (seq 0 m) as [|a l IH]; [apply quiet_nil|].
  cbn [flat_map]. apply quiet_app; [repeat split|exact IH].
Qed.

Lemma block_read_timeout_nonneg (t : Z) : 0 <= block_read_timeout t.
Proof.
  unfold block_read_timeout. destruct (3 <? t); [lia|].
  destruct (Z.to_nat t) as [|[|[|[|k]]]]; cbn [nth]; try lia.
  destruct k; cbn; lia.
Qed.

(** [scd_smbus_block_read] up to the end of the wait: three requests,
    [m + 1] reads of the control/status register with [m] sleeps of 1 ms
    between them, then the timeout or the response loop. *)
Lemma block_read_wait bus addr command data_size w (m : nat) :
  let t := block_read_timeout (bp_t (get_smbus_params bus addr)) in
  (forall j, (j < m)%nat -> (cs_at w j).[Cs.brb] <> 0) ->
  Z.of_nat m <= t ->
  (Z.of_nat m < t -> (cs_at w m).[Cs.brb] = 0) ->
  exists (vs : list Z) (req2 : Z),
    List.length vs = 3%nat /\
    let l := map EvWriteReq vs ++ [EvReadCs (cs_at w 0)] ++
             flat_map (fun j => [EvMsleep 1; EvReadCs (cs_at w (S j))])
                      (seq 0 m) in
    let w3 := World (cs_in w) (resp_in w) (cs_n w + S m) (resp_n w) (data w)
                    (trace w ++ l) in
    run w w3 l /\ resps l = [] /\ stores l = [] /\ reqs l = vs /\
    scd_smbus_block_read bus addr command data_size w =
    if Z.of_nat m =? t
    then (- EINVAL, snd (emit (EvWarn "smbus response timeout") w3))
    else br_read br_read_fuel 0 4 req2.[Req.ti := 0] data_size w3.
Proof.
  intros t Hbusy Hle Hidle.
  unfold scd_smbus_block_read. cbv zeta. unfold bind.
  match goal with |- context [br_issue _ 0 addr command ?r w] => set (req1 := r) end.
  destruct (br_issue_world (Z.to_nat 3) 0 addr command req1 w)
    as (vs & Hlen & E1).
  destruct (br_issue (Z.to_nat 3) 0 addr command req1 w) as [req2 w1].
  cbn [snd] in E1. subst w1.
  exists vs, req2. split; [exact Hlen|]. cbv zeta.
  unfold smbus_master_read_cs at 1.
  cbn [cs_in resp_in cs_n resp_n data trace].
  fold t.
  set (w2 := World (cs_in w) (resp_in w) (S (cs_n w)) (resp_n w) (data w)
               ((trace w ++ map EvWriteReq vs) ++
                [EvReadCs (u32 (cs_in w (cs_n w)))])).
  assert (Hsh : forall j, cs_at w2 j = cs_at w (S j)).
  { intros j. apply cs_at_shift; reflexivity. }
  assert (H0 : u32 (cs_in w (cs_n w)) = cs_at w 0).
  { unfold cs_at. rewrite Nat.add_0_r. reflexivity. }
  rewrite (brb_wait_exact t m (Z.to_nat t) 0 (u32 (cs_in w (cs_n w))) w2).
  2:{ intros j Hj. destruct j; [rewrite H0|rewrite Hsh]; apply Hbusy; lia. }
  2:{ lia. }
  2:{ intros Hlt. assert (Hi := Hidle ltac:(lia)).
      destruct m; [rewrite H0|rewrite Hsh]; exact Hi. }
  2:{ lia. }
  subst w2. cbn [cs_in resp_in cs_n resp_n data trace].
  rewrite Z.add_0_l.
  assert (Etr : ((trace w ++ map EvWriteReq vs) ++
                 [EvReadCs (u32 (cs_in w (cs_n w)))]) ++
                flat_map (fun j => [EvMsleep 1; EvReadCs
                   (cs_at (World (cs_in w) (resp_in w) (S (cs_n w)) (resp_n w)
                      (data w) ((trace w ++ map EvWriteReq vs) ++
                                [EvReadCs (u32 (cs_in w (cs_n w)))])) j)])
                  (seq 0 m) =
                trace w ++ map EvWriteReq vs ++ [EvReadCs (cs_at w 0)] ++
                flat_map (fun j => [EvMsleep 1; EvReadCs (cs_at w (S j))])
                         (seq 0 m)).
  { rewrite <- !app_assoc, H0. do 3 f_equal.
    apply flat_map_ext. intros j. do 3 f_equal.
    apply cs_at_shift; reflexivity. }
  rewrite Etr. replace (S (cs_n w) + m)%nat with (cs_n w + S m)%nat by lia.
  destruct (reqs_map_write vs) as (Hm1 & Hm2 & Hm3).
  destruct (quiet_wait w m) as (Hq1 & Hq2 & Hq3).
  assert (Hr : resps (map EvWriteReq vs ++ [EvReadCs (cs_at w 0)] ++
                flat_map (fun j => [EvMsleep 1; EvReadCs (cs_at w (S j))])
                         (seq 0 m)) = []).
  { rewrite !resps_app, Hm2, Hq2. reflexivity. }
  assert (Hs : stores (map EvWriteReq vs ++ [EvReadCs (cs_at w 0)] ++
                flat_map (fun j => [EvMsleep 1; EvReadCs (cs_at w (S j))])
                         (seq 0 m)) = []).
  { rewrite !stores_app, Hm3, Hq3. reflexivity. }
  split; [|split; [exact Hr|split; [exact Hs|split]]].
  - constructor; cbn [cs_in resp_in cs_n resp_n data trace]; auto.
    + rewrite Hr. cbn. lia.
    + rewrite Hr. reflexivity.
    + intros j. rewrite Hs. reflexivity.
  - rewrite !reqs_app, Hm1, Hq1. cbn. apply app_nil_r.
  - destruct (Z.of_nat m =? t); reflexivity.
Qed.

(** X6.  The hardware-assisted block read gives up when the busy bit is
    still set after [t] sleeps of 1 ms, [t] being 5, 40, 505 or 1005 for
    the timing classes 0 to 3 and 100 above: it has then written its
    three requests, read the control/status register [t + 1] times (the
    value of the last read is not looked at), logs a timeout, reads no
    response, leaves the buffer alone, resets the master and returns
    [-EINVAL]; this status is not [-EIO], so the adapter layer returns it
    after this one attempt. *)
Theorem hw_block_read_timeout master bus addr flags command data_size w :
  m_br_supported master = true ->
  let t := Z.to_nat (block_read_timeout (bp_t (get_smbus_params bus addr))) in
  (forall j, (j < t)%nat -> (cs_at w j).[Cs.brb] <> 0) ->
  let res := scd_smbus_do_impl master bus addr flags I2C_SMBUS_READ command
                               I2C_SMBUS_BLOCK_DATA data_size EmptyString w in
  fst res = (- EINVAL, SET_FAIL_REASON "block read failed") /\
  (exists vs : list Z,
     List.length vs = 3%nat /\
     new_events w (snd res) =
     map EvWriteReq vs ++ [EvReadCs (cs_at w 0)] ++
     flat_map (fun j => [EvMsleep 1; EvReadCs (cs_at w (S j))]) (seq 0 t) ++
     [EvWarn "smbus response timeout"] ++ reset_trace (cs_at w (S t))) /\
  (forall idx, data (snd res) idx = data w idx) /\
  scd_smbus_access_impl master bus addr flags I2C_SMBUS_READ command
                        I2C_SMBUS_BLOCK_DATA data_size w =
    (- EINVAL, snd res).
Proof.
  intros Hbr t Hbusy res.
  assert (Hres : fst res = (- EINVAL, SET_FAIL_REASON "block read failed") /\
    (exists vs : list Z,
       List.length vs = 3%nat /\
       trace (snd res) = trace w ++
       map EvWriteReq vs ++ [EvReadCs (cs_at w 0)] ++
       flat_map (fun j => [EvMsleep 1; EvReadCs (cs_at w (S j))]) (seq 0 t) ++
       [EvWarn "smbus response timeout"] ++ reset_trace (cs_at w (S t))) /\
    (forall idx, data (snd res) idx = data w idx)).
  { subst res.
    destruct (do_impl_paths master bus addr flags I2C_SMBUS_READ command
                I2C_SMBUS_BLOCK_DATA data_size EmptyString w)
      as [(Hs & _) | [(_ & _ & _ & E) | (_ & _ & H3 & _)]];
      [discriminate Hs| |congruence].
    rewrite E. clear E. unfold hw_path, bind.
    pose proof (block_read_timeout_nonneg (bp_t (get_smbus_params bus addr)))
      as Ht.
    destruct (block_read_wait bus addr command data_size w t)
      as (vs & req2 & Hlen & _ & _ & _ & _ & E); try (subst t; lia).
    { exact Hbusy. }
    cbv zeta in E. rewrite E. clear E.
    replace (Z.of_nat t =? block_read_timeout (bp_t (get_smbus_params bus addr)))
      with true by (symmetry; apply Z.eqb_eq; subst t; lia).
    change (negb (- EINVAL =? 0)) with true. cbv iota.
    unfold fail_with, bind, smbus_master_reset, bind, smbus_master_read_cs,
      smbus_master_write_cs, mdelay, emit, ret.
    cbn [fst snd cs_in resp_in cs_n resp_n data trace].
    split; [reflexivity|]. split; [|reflexivity].
    exists vs. split; [exact Hlen|].
    unfold reset_trace, cs_at. rewrite <- !app_assoc. reflexivity. }
  destruct Hres as (R1 & (vs & Hlen & R2) & R3).
  split; [exact R1|]. split; [|split; [exact R3|]].
  - exists vs. split; [exact Hlen|]. unfold new_events. rewrite R2.
    rewrite skipn_app, skipn_all, Nat.sub_diag. reflexivity.
  - unfold scd_smbus_access_impl, bind. rewrite access_loop_unfold.
    unfold scd_smbus_do. fold res.
    destruct res as [[r fr1] w1]. cbn [fst snd] in *.
    assert (r = - EINVAL) by congruence. subst r. reflexivity.
Qed.

(** The response loop when every phase up to the bound set by the length
    byte passes validation and fits: it reads them all and returns 0. *)
Lemma br_read_ok (fuel : nat) :
  forall i ss req data_size w,
  0 <= i <= ss -> (i <= 3 -> ss = 4) ->
  final_ss i ss w - i <= Z.of_nat fuel ->
  (forall j, (j < Z.to_nat (final_ss i ss w - i))%nat ->
     resp_ok (resp_at w j) (tid_at req j) = true /\
     (3 <= i + Z.of_nat j -> i + Z.of_nat j - 3 < data_size)) ->
  exists l : list event,
    let res := br_read fuel i ss req data_size w in
    let n := Z.to_nat (final_ss i ss w - i) in
    run w (snd res) l /\ fst res = 0 /\ List.length (resps l) = n /\
    stores l =
      flat_map (fun j => map stored (br_stores (i + Z.of_nat j) (resp_at w j)))
               (seq 0 n).
Proof.
  induction fuel as [|fuel IH]; intros i ss req data_size w Hi Hss Hfuel Hok.
  - pose proof (final_ss_ge i ss w Hss) as Hge.
    assert (Hend : ss <= i) by lia.
    exists []. cbv zeta. rewrite br_read_0 by exact Hend.
    replace (Z.to_nat (final_ss i ss w - i)) with O by lia.
    cbn [fst snd seq flat_map List.length resps].
    split; [apply run_refl|]. auto.
  - pose proof (final_ss_ge i ss w Hss) as Hge.
    cbv zeta. rewrite br_read_step. cbv zeta.
    destruct (Z.ltb_spec i ss) as [Hlt|Hend].
    2:{ exists [].
        assert (Hf : final_ss i ss w = i).
        { unfold final_ss. destruct (Z.leb_spec i 3); lia. }
        rewrite Hf, Z.sub_diag.
        cbn [fst snd seq flat_map List.length resps Z.to_nat].
        split; [apply run_refl|]. auto. }
    destruct (run_read_resp w) as (pre0 & (Hq1 & Hq2 & Hq3) & _ & Hrun0).
    set (w1 := snd (smbus_master_read_resp w)) in *.
    set (r0 := resp_at w 0) in *.
    assert (Hl0 : resps (pre0 ++ [EvReadResp r0]) = [r0] /\
                  stores (pre0 ++ [EvReadResp r0]) = []).
    { rewrite resps_app, stores_app, Hq2, Hq3. repeat split. }
    destruct Hl0 as (Hp0 & Hs0).
    destruct (Hok O ltac:(lia)) as (Hok0 & Hfit0).
    rewrite tid_at_0 in Hok0. fold r0 in Hok0. rewrite Hok0.
    rewrite Z.add_0_r in Hfit0.
    replace ((3 <=? i) && (data_size <=? i - 3)) with false.
    2:{ symmetry. apply andb_false_iff.
        destruct (Z.leb_spec 3 i); [right|left; reflexivity].
        apply Z.leb_gt. lia. }
    set (sts := br_stores i r0).
    set (w2 := do_stores sts w1).
    assert (Hrun2 : run w w2 ((pre0 ++ [EvReadResp r0]) ++ store_events sts)).
    { eapply run_trans; [exact Hrun0|apply run_do_stores]. }
    destruct (stores_store_events sts) as (Hss1 & Hss2 & Hss3).
    assert (Hlen2 : List.length
              (resps ((pre0 ++ [EvReadResp r0]) ++ store_events sts)) = 1%nat).
    { rewrite resps_app, Hp0, Hss3. reflexivity. }
    assert (Hat : forall j, resp_at w2 j = resp_at w (S j)).
    { intros j. rewrite (resp_at_run _ _ _ j Hrun2), Hlen2. reflexivity. }
    pose proof (final_ss_next i ss w w2 ltac:(lia) Hat) as Hfin.
    fold r0 in Hfin.
    set (ss' := if i =? 3 then u32 (ss + r0.[Rsp.d]) else ss) in *.
    assert (Hss' : ss <= ss').
    { subst ss'. destruct (Z.eqb_spec i 3); [|lia].
      pose proof (rsp_d_range r0). rewrite (Hss ltac:(lia)).
      unfold u32. rewrite Z.mod_small; lia. }
    destruct (IH (i + 1) ss' (inc_ti req) data_size w2) as (l & Hrun & Hr & Hn & Hst).
    { lia. }
    { intros H3. subst ss'. destruct (Z.eqb_spec i 3); [lia|]. apply Hss. lia. }
    { rewrite Hfin. lia. }
    { rewrite Hfin. intros j Hj.
      destruct (Hok (S j) ltac:(lia)) as (A & B).
      rewrite Hat, tid_at_S.
      replace (i + 1 + Z.of_nat j) with (i + Z.of_nat (S j)) by lia. auto. }
    cbv zeta in Hrun, Hr, Hn, Hst. rewrite Hfin in Hn, Hst.
    exists (((pre0 ++ [EvReadResp r0]) ++ store_events sts) ++ l).
    replace (Z.to_nat (final_ss i ss w - i))
      with (S (Z.to_nat (final_ss i ss w - (i + 1)))) by lia.
    split; [eapply run_trans; eassumption|]. split; [exact Hr|]. split.
    + rewrite 2 resps_app, Hp0, Hss3, !length_app, Hn. reflexivity.
    + rewrite 2 stores_app, Hs0, Hss1, Hst.
      cbn [seq flat_map app]. rewrite Z.add_0_r. fold r0. f_equal.
      rewrite flat_map_seq_shift. apply flat_map_ext. intros j.
      rewrite Hat. do 2 f_equal. lia.
Qed.

(** X7.  A hardware-assisted block read whose busy bit clears in time
    (after [m < t] sleeps), whose length byte [len] (the data of the
    response of phase 3) is below the capacity and whose [4 + len]
    responses all pass validation returns 0 and fills the buffer with the
    length byte at index 0 followed by the [len] data bytes, in order; no
    other byte of the buffer changes. *)
Theorem hw_block_read_delivers master bus addr flags command data_size fr w
    (m : nat) :
  m_br_supported master = true ->
  Z.of_nat m < block_read_timeout (bp_t (get_smbus_params bus addr)) ->
  (forall j, (j < m)%nat -> (cs_at w j).[Cs.brb] <> 0) ->
  (cs_at w m).[Cs.brb] = 0 ->
  let len := (resp_at w 3).[Rsp.d] in
  len < data_size ->
  (forall j, (j < Z.to_nat (4 + len))%nat ->
     resp_ok (resp_at w j) (Z.of_nat j mod 16) = true) ->
  let res := scd_smbus_do_impl master bus addr flags I2C_SMBUS_READ command
                               I2C_SMBUS_BLOCK_DATA data_size fr w in
  fst res = (0, fr) /\
  resp_n (snd res) = (resp_n w + Z.to_nat (4 + len))%nat /\
  forall idx, data (snd res) idx =
              if (0 <=? idx) && (idx <=? len)
              then (resp_at w (Z.to_nat (idx + 3))).[Rsp.d]
              else data w idx.
Proof.
  intros Hbr Hm Hbusy Hidle len Hfit Hok res. subst res.
  pose proof (rsp_d_range (resp_at w 3)) as Hlen. fold len in Hlen.
  destruct (do_impl_paths master bus addr flags I2C_SMBUS_READ command
              I2C_SMBUS_BLOCK_DATA data_size fr w)
    as [(Hs & _) | [(_ & _ & _ & E) | (_ & _ & H3 & _)]];
    [discriminate Hs| |congruence].
  rewrite E. clear E. unfold hw_path, bind.
  destruct (block_read_wait bus addr command data_size w m)
    as (vs & req2 & _ & Hrun & Hr & Hs & _ & E); try lia.
  { exact Hbusy. }
  cbv zeta in Hrun, Hr, Hs, E. rewrite E. clear E.
  replace (Z.of_nat m =? block_read_timeout (bp_t (get_smbus_params bus addr)))
    with false by (symmetry; apply Z.eqb_neq; lia).
  match type of Hrun with run w ?w' ?l' =>
    set (w3 := w') in *; set (l := l') in * end.
  assert (Hat : forall j, resp_at w3 j = resp_at w j).
  { intros j. rewrite (resp_at_run _ _ _ j Hrun), Hr. reflexivity. }
  assert (Hfin : final_ss 0 4 w3 = 4 + len).
  { unfold final_ss. cbn [Z.leb Z.compare]. change (Z.to_nat (3 - 0)) with 3%nat.
    rewrite Hat. fold len. unfold u32. rewrite Z.mod_small by lia. reflexivity. }
  destruct (br_read_ok br_read_fuel 0 4 req2.[Req.ti := 0] data_size w3)
    as (lr & Hrun4 & R & Hn & Hst).
  { lia. } { reflexivity. }
  { rewrite Hfin. unfold br_read_fuel. lia. }
  { rewrite Hfin, Z.sub_0_r. intros j Hj. rewrite Hat, tid_at_ti0.
    split; [apply Hok; exact Hj|]. lia. }
  cbv zeta in Hrun4, R, Hn, Hst. rewrite Hfin, Z.sub_0_r in Hn, Hst.
  destruct (br_read br_read_fuel 0 4 req2.[Req.ti := 0] data_size w3)
    as [r w4]. cbn [fst snd] in *. subst r.
  cbn [negb Z.eqb]. unfold ret. cbn [fst snd].
  split; [reflexivity|]. split.
  - rewrite (run_resp_n _ _ _ Hrun4), Hn.
    rewrite (run_resp_n _ _ _ Hrun), Hr. cbn [List.length]. lia.
  - intros idx. rewrite (run_data _ _ _ Hrun4 idx), Hst.
    rewrite (apply_stores_ext _ (data w3) (data w))
      by (intros j; rewrite (run_data _ _ _ Hrun j), Hs; reflexivity).
    replace (Z.to_nat (4 + len)) with (3 + Z.to_nat (1 + len))%nat by lia.
    rewrite seq_app, flat_map_app.
    rewrite (flat_map_seq_nil _ 3 0).
    2:{ intros j Hj. unfold br_stores. rewrite Z.add_0_l.
        destruct (Z.leb_spec 3 (Z.of_nat j)); [lia|reflexivity]. }
    cbn [app Nat.add].
    rewrite (flat_map_seq_single _
               (fun j => (Z.of_nat j + (- 3), (resp_at w j).[Rsp.d]))).
    2:{ intros j Hj. unfold br_stores. rewrite Z.add_0_l.
        destruct (Z.leb_spec 3 (Z.of_nat j)); [|lia].
        cbn [map]. unfold stored. cbn [fst snd].
        rewrite Hat, !rsp_d_u8. reflexivity. }
    rewrite (apply_stores_seq (fun j => (resp_at w j).[Rsp.d]) (- 3)).
    replace (idx - - 3) with (idx + 3) by lia.
    destruct (Z.leb_spec 0 idx); destruct (Z.leb_spec idx len);
      destruct (Z.leb_spec (Z.of_nat 3 + - 3) idx);
      destruct (Z.ltb_spec idx (Z.of_nat (3 + Z.to_nat (1 + len)) + - 3));
      cbn [andb]; try reflexivity; lia.
Qed.

End HwBlockRead.

(* ================================================================== *)
(** ** The block read through the length probe *)

Section ProbedBlockRead.

Lemma exchange_resp_in params addr rw command size data_size ss off req0 fr w :
  req0.[Req.ti] = 0 -> req0.[Req.dat] = 0 -> req0.[Req.ed] = 0 -> 0 <= ss ->
  resp_in (snd (exchange params addr rw command size data_size ss off req0 fr w))
  = resp_in w.
Proof.
  intros Hti Hdat Hed Hss.
  destruct (exchange_spec params addr rw command size data_size ss off req0 fr w
              Hti Hdat Hed Hss) as (vs & k & lr & tail & Hrun & _).
  cbv zeta in Hrun. apply (run_resp_in _ _ _ Hrun).
Qed.

(** X9.  On a master without the hardware-assisted block read, an SMBus
    block read is two exchanges: a byte-data read of four phases that
    puts the length byte [len] in [block[0]], then an exchange of
    [4 + len] phases.  When the responses of both pass validation (the
    transaction-ids start again at 0 for the second exchange) and
    [len] is below the capacity, the call returns 0 having read
    [8 + len] responses, and the buffer holds at indices 0 to [len] the
    data of the responses of phases 3 to [3 + len] of the second
    exchange: the length byte as the second exchange read it, then the
    data bytes. *)
Theorem probed_block_read_delivers master bus addr flags command data_size fr w :
  m_br_supported master = false ->
  (forall j, (j < 4)%nat -> resp_ok (resp_at w j) (Z.of_nat j) = true) ->
  let len := (resp_at w 3).[Rsp.d] in
  len < data_size ->
  (forall j, (j < Z.to_nat (4 + len))%nat ->
     resp_ok (resp_at w (4 + j)) (Z.of_nat j mod 16) = true) ->
  let res := scd_smbus_do_impl master bus addr flags I2C_SMBUS_READ command
                               I2C_SMBUS_BLOCK_DATA data_size fr w in
  fst res = (0, fr) /\
  resp_n (snd res) = (resp_n w + 4 + Z.to_nat (4 + len))%nat /\
  forall idx, data (snd res) idx =
              if (0 <=? idx) && (idx <=? len)
              then (resp_at w (Z.to_nat (idx + 7))).[Rsp.d]
              else data w idx.
Proof.
  intros Hbr Hok1 len Hfit Hok2 res. subst res.
  pose proof (rsp_d_range (resp_at w 3)) as Hlen. fold len in Hlen.
  destruct (do_impl_paths master bus addr flags I2C_SMBUS_READ command
              I2C_SMBUS_BLOCK_DATA data_size fr w)
    as [(Hs & _) | [(_ & _ & H3 & _) | (_ & _ & _ & E)]];
    [discriminate Hs|congruence|].
  rewrite E. clear E. unfold nested_path. cbv zeta.
  set (p := get_smbus_params bus addr). unfold bind.
  destruct (req_init_fields bus p) as (Hti & Hdat & Hed & _).
  (* the probe *)
  destruct (exchange_read_ok p addr I2C_SMBUS_READ command I2C_SMBUS_BYTE_DATA
              data_size 4 0 (req_init bus p) EmptyString w Hti Hdat Hed)
    as (P1 & P2 & P3).
  { lia. } { discriminate. }
  { intros j Hj. change (Z.to_nat 4) with 4%nat in Hj.
    rewrite Z.mod_small by lia. split; [apply Hok1; exact Hj|reflexivity]. }
  pose proof (exchange_resp_in p addr I2C_SMBUS_READ command I2C_SMBUS_BYTE_DATA
                data_size 4 0 (req_init bus p) EmptyString w Hti Hdat Hed
                ltac:(lia)) as P4.
  change (Z.to_nat 4) with 4%nat in P2, P3.
  destruct (exchange p addr I2C_SMBUS_READ command I2C_SMBUS_BYTE_DATA
              data_size 4 0 (req_init bus p) EmptyString w) as [[r fr1] w1].
  cbn [fst snd] in *. inversion P1; subst r fr1.
  cbn [negb Z.eqb]. unfold load. cbv beta iota.
  assert (Hd1 : forall idx, data w1 idx = if idx =? 0 then len else data w idx).
  { intros idx. rewrite P3. cbn [seq flat_map]. unfold phase_stores.
    cbn. rewrite rsp_d_u8. reflexivity. }
  assert (Hb0 : u8 (data w1 0) = len).
  { rewrite Hd1. cbn [Z.eqb]. unfold u8. apply Z.mod_small. exact Hlen. }
  rewrite Hb0.
  assert (Hat : forall j, resp_at w1 j = resp_at w (4 + j)).
  { intros j. unfold resp_at. rewrite P4, P2. do 2 f_equal. lia. }
  (* the block *)
  destruct (exchange_read_ok p addr I2C_SMBUS_READ command I2C_SMBUS_BLOCK_DATA
              data_size (4 + len) 0 (req_init bus p) fr w1 Hti Hdat Hed)
    as (R1 & R2 & R3).
  { lia. } { discriminate. }
  { intros j Hj. rewrite Hat. split; [apply Hok2; exact Hj|].
    unfold overflows.
    change (I2C_SMBUS_READ =? I2C_SMBUS_READ) with true.
    change ((I2C_SMBUS_BLOCK_DATA =? I2C_SMBUS_BYTE) ||
            (I2C_SMBUS_BLOCK_DATA =? I2C_SMBUS_BYTE_DATA)) with false.
    change (I2C_SMBUS_BLOCK_DATA =? I2C_SMBUS_WORD_DATA) with false.
    change (I2C_SMBUS_BLOCK_DATA =? I2C_SMBUS_I2C_BLOCK_DATA) with false.
    cbn [negb andb].
    destruct (Z.leb_spec 3 (Z.of_nat j)); [|reflexivity].
    apply Z.leb_gt. lia. }
  split; [exact R1|]. split; [rewrite R2, P2; reflexivity|].
  intros idx. rewrite R3. clear R1 R2 R3.
  replace (Z.to_nat (4 + len)) with (3 + Z.to_nat (1 + len))%nat by lia.
  rewrite seq_app, flat_map_app.
  rewrite (flat_map_seq_nil _ 3 0).
  2:{ intros j Hj. unfold phase_stores.
      change (I2C_SMBUS_READ =? I2C_SMBUS_READ) with true.
      change ((I2C_SMBUS_BLOCK_DATA =? I2C_SMBUS_BYTE) ||
              (I2C_SMBUS_BLOCK_DATA =? I2C_SMBUS_BYTE_DATA)) with false.
      change (I2C_SMBUS_BLOCK_DATA =? I2C_SMBUS_WORD_DATA) with false.
      cbv iota.
      destruct (Z.leb_spec 3 (Z.of_nat j)); [lia|reflexivity]. }
  cbn [app Nat.add].
  rewrite (flat_map_seq_single _
             (fun j => (Z.of_nat j + (- 3), (resp_at w1 j).[Rsp.d]))).
  2:{ intros j Hj. unfold phase_stores.
      change (I2C_SMBUS_READ =? I2C_SMBUS_READ) with true.
      change ((I2C_SMBUS_BLOCK_DATA =? I2C_SMBUS_BYTE) ||
              (I2C_SMBUS_BLOCK_DATA =? I2C_SMBUS_BYTE_DATA)) with false.
      change (I2C_SMBUS_BLOCK_DATA =? I2C_SMBUS_WORD_DATA) with false.
      change (I2C_SMBUS_BLOCK_DATA =? I2C_SMBUS_I2C_BLOCK_DATA) with false.
      cbv iota.
      destruct (Z.leb_spec 3 (Z.of_nat j)); [|lia].
      cbn [map]. unfold stored. cbn [fst snd]. rewrite rsp_d_u8.
      reflexivity. }
  rewrite (apply_stores_seq (fun j => (resp_at w1 j).[Rsp.d]) (- 3)).
  replace (idx - - 3) with (idx + 3) by lia.
  rewrite Hat, Hd1.
  destruct (Z.leb_spec 0 idx); destruct (Z.leb_spec idx len);
    destruct (Z.leb_spec (Z.of_nat 3 + - 3) idx);
    destruct (Z.ltb_spec idx (Z.of_nat (3 + Z.to_nat (1 + len)) + - 3));
    cbn [andb]; try lia.
  - do 3 f_equal. lia.
  - destruct (Z.eqb_spec idx 0); [lia|reflexivity].
  - destruct (Z.eqb_spec idx 0); [lia|reflexivity].
Qed.

End ProbedBlockRead.

(* ================================================================== *)
(** ** Transfers of i2c messages *)

Section Xfer.

Lemma access_impl_first_ok master bus addr flags rw command size data_size w :
  let res := scd_smbus_do_impl master bus addr flags rw command size data_size
                               EmptyString w in
  fst (fst res) = 0 ->
  scd_smbus_access_impl master bus addr flags rw command size data_size w =
  (0, snd res).
Proof.
  intros res Hr. unfold scd_smbus_access_impl, bind.
  rewrite access_loop_unfold. unfold scd_smbus_do. fold res.
  destruct res as [[r fr1] w1]. cbn [fst snd] in *. subst r. reflexivity.
Qed.

(** X10.  A transfer of two messages, the first a write of one byte (the
    command) and the second a read of [len] bytes, is one message
    exchange addressed to the target of the second message: when its
    [3 + len] responses pass validation it returns 2 (the number of
    messages) and the buffer of the second message holds the data of the
    responses of phases 3, 4, ... in order. *)
Theorem xfer_write_then_read master bus (msg0 msg1 : i2c_msg) w :
  Z.land (msg_flags msg0) I2C_M_RD = 0 ->
  msg_len msg0 = 1 ->
  Z.land (msg_flags msg1) I2C_M_RD <> 0 ->
  0 <= msg_len msg1 < 2 ^ 16 ->
  (forall j, (j < Z.to_nat (3 + msg_len msg1))%nat ->
     resp_ok (resp_at w j) (Z.of_nat j mod 16) = true) ->
  let res := scd_smbus_master_xfer master bus msg0 msg1 2 w in
  res = (2, snd (scd_smbus_do_impl master bus (msg_addr msg1) 0 I2C_SMBUS_READ
                   (u8 (msg_buf0 msg0)) I2C_SMBUS_I2C_BLOCK_DATA_MSG
                   (msg_len msg1) EmptyString w)) /\
  resp_n (snd res) = (resp_n w + Z.to_nat (3 + msg_len msg1))%nat /\
  forall idx, data (snd res) idx =
              if (0 <=? idx) && (idx <? msg_len msg1)
              then (resp_at w (Z.to_nat (idx + 3))).[Rsp.d]
              else data w idx.
Proof.
  intros Hw Hl Hr Hlen Hok res.
  destruct (block_read_ok master bus (msg_addr msg1) 0 (u8 (msg_buf0 msg0))
              I2C_SMBUS_I2C_BLOCK_DATA_MSG (msg_len msg1) EmptyString w)
    as (R1 & R2 & R3).
  { right. reflexivity. }
  { change (2 ^ 31) with 2147483648. change (2 ^ 16) with 65536 in Hlen. lia. }
  { change (I2C_SMBUS_I2C_BLOCK_DATA_MSG =? I2C_SMBUS_I2C_BLOCK_DATA) with false.
    cbv iota. lia. }
  { exact Hok. }
  change (I2C_SMBUS_I2C_BLOCK_DATA_MSG =? I2C_SMBUS_I2C_BLOCK_DATA) with false
    in R2, R3. cbv iota in R2, R3.
  assert (E : res =
    (2, snd (scd_smbus_do_impl master bus (msg_addr msg1) 0 I2C_SMBUS_READ
               (u8 (msg_buf0 msg0)) I2C_SMBUS_I2C_BLOCK_DATA_MSG
               (msg_len msg1) EmptyString w))).
  { subst res. unfold scd_smbus_master_xfer.
    change (2 <? 2) with false. change (2 =? 2) with true. cbv iota.
    unfold scd_smbus_master_xfer_get_command.
    rewrite Hw, Hl. change ((0 =? 0)) with true. change (1 =? 1) with true.
    cbn [negb orb].
    destruct (Z.ltb_spec (u8 (msg_buf0 msg0)) 0) as [Hneg|_].
    { pose proof (u8_range (msg_buf0 msg0)). lia. }
    apply Z.eqb_neq in Hr. rewrite Hr. cbn [negb]. unfold bind.
    rewrite access_impl_first_ok by (rewrite R1; reflexivity).
    reflexivity. }
  rewrite E. cbn [snd]. split; [reflexivity|]. split; [exact R2|].
  intros idx. rewrite R3. rewrite Z.add_0_l, Z.sub_0_r. reflexivity.
Qed.

(** A transaction that is one exchange succeeds when all its responses
    pass validation and fit. *)
Lemma single_exchange_ok master bus addr flags rw command size data_size fr w :
  single_exchange size rw = true ->
  let ss := fst (plan size rw data_size (u8 (data w 0))) in
  (forall j, (j < Z.to_nat ss)%nat ->
     resp_ok (resp_at w j) (Z.of_nat j mod 16) = true /\
     overflows rw size data_size (Z.of_nat j) = false) ->
  let res := scd_smbus_do_impl master bus addr flags rw command size
                               data_size fr w in
  fst res = (0, fr) /\ resp_n (snd res) = (resp_n w + Z.to_nat ss)%nat.
Proof.
  intros Hs ss Hok res. subst res.
  destruct (do_impl_paths master bus addr flags rw command size data_size fr w)
    as [(_ & E) | [(H1 & H2 & _) | (H1 & H2 & _)]].
  2,3: (unfold single_exchange in Hs; rewrite H1 in Hs;
        apply Z.eqb_neq in H2; rewrite H2 in Hs; discriminate Hs).
  rewrite E. fold ss.
  destruct (exchange_all_ok (get_smbus_params bus addr) addr rw command size
              data_size ss
              (snd (plan size rw data_size (u8 (data w 0))))
              (req_init bus (get_smbus_params bus addr)) fr w Hok)
    as (R1 & R2 & _).
  auto.
Qed.

(** X11.  A transfer of one write message of [len >= 1] bytes puts the
    message on the wire as it is: an exchange of [1 + len] requests whose
    data fields are the address byte and then the [len] bytes of the
    message in order (the first is sent in the place of the command);
    when the responses pass validation it returns 1, the number of
    messages, after this one exchange. *)
Theorem xfer_single_write master bus (msg0 msg1 : i2c_msg) w :
  Z.land (msg_flags msg0) I2C_M_RD = 0 ->
  1 <= msg_len msg0 < 2 ^ 16 ->
  (forall j, (j < Z.to_nat (1 + msg_len msg0))%nat ->
     resp_ok (resp_at w j) (Z.of_nat j mod 16) = true) ->
  let res := scd_smbus_master_xfer master bus msg0 msg1 1 w in
  fst res = 1 /\
  map (get Req.d) (reqs (new_events w (snd res))) =
    addr_byte (msg_addr msg0) 0 mod 256 ::
    u8 (msg_buf0 msg0) ::
    map (fun j => u8 (data w (Z.of_nat j)))
        (seq 0 (Z.to_nat (msg_len msg0 - 1))) /\
  forall idx, data (snd res) idx = data w idx.
Proof.
  intros Hw Hlen Hok res.
  change (2 ^ 16) with 65536 in Hlen.
  set (len := msg_len msg0) in *.
  set (first := scd_smbus_do_impl master bus (msg_addr msg0) 0 I2C_SMBUS_WRITE
                  (u8 (msg_buf0 msg0)) I2C_SMBUS_I2C_BLOCK_DATA_MSG (len - 1)
                  EmptyString w).
  assert (Hplan : plan I2C_SMBUS_I2C_BLOCK_DATA_MSG I2C_SMBUS_WRITE (len - 1)
                       (u8 (data w 0)) = (1 + len, 0)).
  { unfold plan.
    change (I2C_SMBUS_I2C_BLOCK_DATA_MSG =? I2C_SMBUS_QUICK) with false.
    change (I2C_SMBUS_I2C_BLOCK_DATA_MSG =? I2C_SMBUS_BYTE) with false.
    change (I2C_SMBUS_I2C_BLOCK_DATA_MSG =? I2C_SMBUS_BYTE_DATA) with false.
    change (I2C_SMBUS_I2C_BLOCK_DATA_MSG =? I2C_SMBUS_WORD_DATA) with false.
    change (I2C_SMBUS_I2C_BLOCK_DATA_MSG =? I2C_SMBUS_I2C_BLOCK_DATA_MSG)
      with true.
    change (I2C_SMBUS_WRITE =? I2C_SMBUS_WRITE) with true. cbv iota.
    unfold u32. rewrite Z.mod_small; [f_equal; lia|].
    change (2 ^ 32) with 4294967296. lia. }
  destruct (single_exchange_ok master bus (msg_addr msg0) 0 I2C_SMBUS_WRITE
              (u8 (msg_buf0 msg0)) I2C_SMBUS_I2C_BLOCK_DATA_MSG (len - 1)
              EmptyString w eq_refl) as (R1 & _).
  { rewrite Hplan. cbn [fst]. intros j Hj. split; [apply Hok; exact Hj|].
    reflexivity. }
  fold first in R1.
  assert (E : res = (1, snd first)).
  { subst res. unfold scd_smbus_master_xfer.
    change (2 <? 1) with false. change (1 =? 2) with false. cbv iota.
    rewrite Hw. change (0 =? 0) with true. cbn [negb]. unfold bind.
    fold len.
    rewrite access_impl_first_ok
      by (change (fst (fst first) = 0); rewrite R1; reflexivity).
    reflexivity. }
  rewrite E. cbn [fst snd]. split; [reflexivity|].
  destruct (write_reqs_d master bus (msg_addr msg0) 0 (u8 (msg_buf0 msg0))
              I2C_SMBUS_I2C_BLOCK_DATA_MSG (len - 1) EmptyString w)
    as (Hl & Hnth).
  fold first in Hl, Hnth. rewrite Hplan in Hl, Hnth. cbn [fst snd] in Hl, Hnth.
  destruct (write_keeps_stores master bus (msg_addr msg0) 0 (u8 (msg_buf0 msg0))
              I2C_SMBUS_I2C_BLOCK_DATA_MSG (len - 1) EmptyString w)
    as (_ & Hdata).
  fold first in Hdata. split; [|exact Hdata].
  apply (nth_ext _ _ 0 0).
  - rewrite length_map, Hl. cbn [List.length]. rewrite length_map, length_seq.
    lia.
  - rewrite length_map, Hl. intros k Hk.
    change 0 with (get Req.d 0) at 1. rewrite map_nth.
    rewrite (Hnth k Hk).
    destruct k as [|[|m]]; cbn [nth].
    + reflexivity.
    + apply Z.mod_small. apply u8_range.
    + rewrite (nth_indep _ 0 (u8 (data w (Z.of_nat 0))))
        by (rewrite length_map, length_seq; lia).
      rewrite (map_nth (fun j => u8 (data w (Z.of_nat j)))).
      rewrite seq_nth by lia. rewrite Z.add_0_l. reflexivity.
Qed.

End Xfer.

(* ================================================================== *)
(** ** Line splitting *)

Section Lines.

Local Open Scope string_scope.

Lemma length_append (s1 s2 : string) :
  String.length (s1 ++ s2) = (String.length s1 + String.length s2)%nat.
Proof. induction s1 as [|a s1 IH]; cbn; [reflexivity|]. rewrite IH. reflexivity. Qed.

Lemma advance_append (s1 s2 : string) :
  advance (String.length s1) (s1 ++ s2) = s2.
Proof. induction s1 as [|a s1 IH]; cbn; [destruct s2; reflexivity|exact IH]. Qed.

Lemma substring_append (s1 s2 : string) :
  substring 0 (String.length s1) (s1 ++ s2) = s1.
Proof.
  induction s1 as [|a s1 IH]; cbn; [destruct s2; reflexivity|].
  rewrite IH. reflexivity.
Qed.

Lemma substring_all (s : string) : substring 0 (String.length s) s = s.
Proof. induction s as [|a s IH]; cbn; [reflexivity|]. rewrite IH. reflexivity. Qed.

Lemma substring_idem (n : nat) (s : string) :
  substring 0 n (substring 0 n s) = substring 0 n s.
Proof.
  revert s. induction n as [|n IH]; intros [|a s]; cbn; try reflexivity.
  rewrite IH. reflexivity.
Qed.

(** The newline that ends a line is found where the line ends. *)
Lemma strnchr_line (l rest : string) (n : nat) :
  all_chars line_char l = true ->
  (String.length l < n)%nat ->
  strnchr (l ++ String NL rest) n NL = Some (String.length l).
Proof.
  revert n. induction l as [|a l IH]; intros n Hl Hn.
  - destruct n; [cbn in Hn; lia|]. cbn. reflexivity.
  - cbn in Hl. apply andb_prop in Hl. destruct Hl as (Ha & Hl).
    unfold line_char in Ha. apply andb_prop in Ha. destruct Ha as (Ha1 & Ha2).
    apply negb_true_iff in Ha1, Ha2.
    destruct n; [cbn in Hn; lia|]. cbn [append strnchr String.length].
    rewrite Ha1, Ha2. rewrite IH; [reflexivity|exact Hl|cbn in Hn; lia].
Qed.

(** No newline in the last line: the search stops at the count. *)
Lemma strnchr_last (l : string) :
  all_chars line_char l = true ->
  strnchr l (String.length l) NL = None.
Proof.
  induction l as [|a l IH]; intros Hl; [reflexivity|].
  cbn in Hl. apply andb_prop in Hl. destruct Hl as (Ha & Hl).
  unfold line_char in Ha. apply andb_prop in Ha. destruct Ha as (Ha1 & Ha2).
  apply negb_true_iff in Ha1, Ha2.
  cbn [strnchr String.length]. rewrite Ha1, Ha2, IH by exact Hl. reflexivity.
Qed.

Lemma skip_newlines_end (k : nat) :
  skip_newlines (newlines k) k = (EmptyString, O).
Proof. induction k as [|k IH]; [reflexivity|]. cbn. exact IH. Qed.

Lemma skip_newlines_line (l rest : string) (n : nat) :
  line_ok l = true ->
  skip_newlines (String NL (l ++ rest)) (S n) = (l ++ rest, n).
Proof.
  intros Hl. unfold line_ok in Hl. apply andb_prop in Hl. destruct Hl as (Hne & Hl).
  destruct l as [|a l]; [discriminate Hne|].
  cbn in Hl. apply andb_prop in Hl. destruct Hl as (Ha & _).
  unfold line_char in Ha. apply andb_prop in Ha. destruct Ha as (Ha1 & _).
  apply negb_true_iff in Ha1.
  cbn [skip_newlines]. change (Ascii.eqb NL NL) with true. cbv iota.
  destruct n; cbn [skip_newlines append]; [reflexivity|].
  rewrite Ha1. reflexivity.
Qed.

Lemma append_nil (s : string) : s ++ EmptyString = s.
Proof. induction s as [|a s IH]; cbn; [reflexivity|]. rewrite IH. reflexivity. Qed.

Lemma append_assoc (s1 s2 s3 : string) : (s1 ++ s2) ++ s3 = s1 ++ (s2 ++ s3).
Proof. induction s1 as [|a s1 IH]; cbn; [reflexivity|]. rewrite IH. reflexivity. Qed.

Lemma line_ok_length (l : string) : line_ok l = true -> (0 < String.length l)%nat.
Proof. destruct l; [discriminate|cbn; lia]. Qed.

Lemma line_ok_chars (l : string) : line_ok l = true -> all_chars line_char l = true.
Proof. unfold line_ok. intros H. apply andb_prop in H. tauto. Qed.

Lemma newlines_length (k : nat) : String.length (newlines k) = k.
Proof. induction k as [|k IH]; cbn; [reflexivity|]. rewrite IH. reflexivity. Qed.

(** One turn of the loop of [parse_lines] on a buffer whose first line is
    [l]: the parser gets the line, and the rest of the buffer is what
    the next turn starts from. *)
Section Turns.

Variable parser : line_parser_func.

(** The two things the line parsers of this file have in common: the
    result is an error or the count, and nothing behind the count is
    looked at. *)
Hypothesis parser_result : forall ctx buf n,
  fst (parser ctx buf n) < 0 \/ fst (parser ctx buf n) = Z.of_nat n.
Hypothesis parser_prefix : forall ctx buf n,
  parser ctx buf n = parser ctx (substring 0 n buf) n.

Lemma parser_line (ctx : scd_context) (l rest : string) :
  parser ctx (l ++ rest) (String.length l) = parser ctx l (String.length l).
Proof.
  rewrite parser_prefix, substring_append. reflexivity.
Qed.

Lemma parse_lines_loop_lines (ls : list string) :
  forall (l : string) (ctx : scd_context) (trail fuel count : nat),
  forallb line_ok (l :: ls) = true ->
  (List.length ls < fuel)%nat ->
  parse_lines_loop fuel parser ctx
    (join_with NL (l :: ls) ++ newlines trail)
    (String.length (join_with NL (l :: ls) ++ newlines trail)) count =
  run_lines parser ctx (l :: ls) (Z.of_nat count).
Proof.
  induction ls as [|l2 ls IH]; intros l ctx trail fuel count Hok Hfuel.
  - cbn [forallb] in Hok. apply andb_prop in Hok. destruct Hok as (Hl & _).
    pose proof (line_ok_chars _ Hl) as Hc.
    destruct fuel as [|fuel]; [cbn in Hfuel; lia|].
    cbn [join_with parse_lines_loop run_lines].
    assert (Hnl : match strnchr (l ++ newlines trail)
                          (String.length (l ++ newlines trail)) NL with
                  | Some k => k | None => String.length (l ++ newlines trail)
                  end = String.length l).
    { destruct trail as [|t].
      - cbn [newlines]. rewrite append_nil, strnchr_last by exact Hc. reflexivity.
      - cbn [newlines]. rewrite strnchr_line; [reflexivity|exact Hc|].
        rewrite length_append. cbn. lia. }
    rewrite Hnl, parser_line.
    pose proof (parser_result ctx l (String.length l)) as Hr.
    destruct (parser ctx l (String.length l)) as [res ctx1]. cbn [fst] in Hr.
    destruct (Z.ltb_spec res 0) as [Hneg|Hpos]; [reflexivity|].
    destruct Hr as [Hr|Hr]; [lia|]. subst res. rewrite Nat2Z.id.
    rewrite advance_append, length_append, newlines_length.
    replace (String.length l + trail - String.length l)%nat with trail by lia.
    rewrite skip_newlines_end. reflexivity.
  - cbn [forallb] in Hok. apply andb_prop in Hok. destruct Hok as (Hl & Hok).
    pose proof (line_ok_chars _ Hl) as Hc.
    destruct fuel as [|fuel]; [cbn in Hfuel; lia|].
    change (join_with NL (l :: l2 :: ls))
      with (l ++ String NL (join_with NL (l2 :: ls))).
    rewrite append_assoc.
    change (String NL (join_with NL (l2 :: ls)) ++ newlines trail)
      with (String NL (join_with NL (l2 :: ls) ++ newlines trail)).
    set (rest := join_with NL (l2 :: ls) ++ newlines trail) in *.
    cbn [parse_lines_loop run_lines].
    rewrite strnchr_line;
      [|exact Hc|rewrite length_append; cbn [String.length]; lia].
    rewrite parser_line.
    pose proof (parser_result ctx l (String.length l)) as Hr.
    destruct (parser ctx l (String.length l)) as [res ctx1]. cbn [fst] in Hr.
    destruct (Z.ltb_spec res 0) as [Hneg|Hpos]; [reflexivity|].
    destruct Hr as [Hr|Hr]; [lia|]. subst res. rewrite Nat2Z.id.
    rewrite advance_append, length_append. cbn [String.length].
    replace (String.length l + S (String.length rest) - String.length l)%nat
      with (S (String.length rest)) by lia.
    assert (Hl2 : line_ok l2 = true).
    { cbn [forallb] in Hok. apply andb_prop in Hok. tauto. }
    assert (Hrest : exists r, rest = l2 ++ r).
    { unfold rest. destruct ls as [|l3 ls'].
      - exists (newlines trail). reflexivity.
      - exists (String NL (join_with NL (l3 :: ls')) ++ newlines trail).
        change (join_with NL (l2 :: l3 :: ls'))
          with (l2 ++ String NL (join_with NL (l3 :: ls'))).
        apply append_assoc. }
    destruct Hrest as (r & Hrest).
    rewrite Hrest at 1. rewrite skip_newlines_line by exact Hl2.
    rewrite <- Hrest.
    assert (Hlen : (0 < String.length rest)%nat).
    { rewrite Hrest, length_append. pose proof (line_ok_length _ Hl2). lia. }
    destruct (Nat.eqb_spec (String.length rest) 0) as [E|_]; [lia|].
    unfold rest. apply IH; [exact Hok|cbn [List.length] in Hfuel; lia].
Qed.

Lemma join_length (ls : list string) (l : string) :
  forallb line_ok (l :: ls) = true ->
  (List.length ls < String.length (join_with NL (l :: ls)))%nat.
Proof.
  revert l. induction ls as [|l2 ls IH]; intros l Hok.
  - cbn [forallb] in Hok. apply andb_prop in Hok. destruct Hok as (Hl & _).
    cbn. apply line_ok_length. exact Hl.
  - cbn [forallb] in Hok. apply andb_prop in Hok. destruct Hok as (Hl & Hok).
    change (join_with NL (l :: l2 :: ls))
      with (l ++ String NL (join_with NL (l2 :: ls))).
    rewrite length_append. cbn [String.length List.length].
    specialize (IH l2 Hok). lia.
Qed.

Lemma parse_lines_of_lines (ctx : scd_context) (l : string) (ls : list string)
    (trail : nat) :
  forallb line_ok (l :: ls) = true ->
  let buf := join_with NL (l :: ls) ++ newlines trail in
  parse_lines parser ctx buf (String.length buf) =
  run_lines parser ctx (l :: ls) (Z.of_nat (String.length buf)).
Proof.
  intros Hok buf. unfold parse_lines.
  pose proof (join_length ls l Hok) as Hlen.
  assert (Hb : (List.length ls < String.length buf)%nat).
  { unfold buf. rewrite length_append. lia. }
  destruct (Nat.eqb_spec (String.length buf) 0) as [E|_]; [lia|].
  unfold buf. apply parse_lines_loop_lines; [exact Hok|].
  fold buf. lia.
Qed.

End Turns.


(** *** The two line parsers *)

Lemma kstrtou_error (bits : Z) (s : string) (e : Z) :
  kstrtou bits s = inr e -> e < 0.
Proof.
  unfold kstrtou, kstrtoull.
  destruct (fixup_radix _) as [base s'].
  destruct (parse_digits base s' 0 0) as [[v n] rest].
  destruct (Nat.eqb n 0); [intros H; inversion H; unfold EINVAL; lia|].
  destruct (2 ^ 64 <=? v)%Z; [intros H; inversion H; unfold ERANGE; lia|].
  destruct (match rest with
            | EmptyString => rest
            | String a r => if Ascii.eqb a NL then r else rest
            end).
  - destruct (v <? 2 ^ bits)%Z; intros H; inversion H; unfold ERANGE; lia.
  - intros H; inversion H; unfold EINVAL; lia.
Qed.

Lemma PARSE_INT_OR_RETURN_error (bits : Z) (p : option string) (e : Z) :
  PARSE_INT_OR_RETURN (kstrtou bits) p = inr e -> e < 0.
Proof.
  unfold PARSE_INT_OR_RETURN. destruct (strsep p SPACE) as [tmp p'].
  destruct tmp as [[|a t]|]; try (intros H; inversion H; unfold EINVAL; lia).
  destruct (kstrtou bits (String a t)) eqn:E; [intros H; discriminate H|].
  intros H. inversion H; subst. exact (kstrtou_error _ _ _ E).
Qed.

Lemma scd_set_smbus_params_result (kz : bool) (ctx : scd_context) (nr : Z)
    (p : bus_params) :
  fst (scd_set_smbus_params kz ctx nr p) = 0 \/
  fst (scd_set_smbus_params kz ctx nr p) < 0.
Proof.
  unfold scd_set_smbus_params.
  destruct (scd_find_smbus ctx nr) as [b|]; [|right; cbn; unfold EINVAL; lia].
  unfold set_params_of_bus.
  destruct (update_params (bus_params_list b) p); [left; reflexivity|].
  destruct kz; [left; reflexivity|right; cbn; unfold ENOMEM; lia].
Qed.

Lemma parse_smbus_tweak_result (kz : bool) (ctx : scd_context) (buf : string)
    (n : nat) :
  fst (parse_smbus_tweak kz ctx buf n) < 0 \/
  fst (parse_smbus_tweak kz ctx buf n) = Z.of_nat n.
Proof.
  unfold parse_smbus_tweak.
  destruct (MAX_CONFIG_LINE_SIZE <=? Z.of_nat n)%Z;
    [left; cbn; unfold EINVAL; lia|].
  unfold kstrtou16, kstrtou8.
  repeat match goal with
  | |- context [match PARSE_INT_OR_RETURN (kstrtou ?b) ?p with _ => _ end] =>
      let E := fresh "E" in
      destruct (PARSE_INT_OR_RETURN (kstrtou b) p) as [[? ?]|?] eqn:E;
      [|left; cbn [fst]; exact (PARSE_INT_OR_RETURN_error _ _ _ E)]
  end.
  match goal with
  | |- context [scd_set_smbus_params kz ctx ?nr ?p] =>
      pose proof (scd_set_smbus_params_result kz ctx nr p) as Hr;
      destruct (scd_set_smbus_params kz ctx nr p) as [err ctx']
  end.
  cbn [fst] in Hr. destruct (Z.eqb_spec err 0); cbn [fst]; [right; reflexivity|].
  left. lia.
Qed.

Lemma strncpy0_prefix (buf : string) (n : nat) :
  strncpy0 (substring 0 n buf) n = strncpy0 buf n.
Proof. unfold strncpy0. rewrite substring_idem. reflexivity. Qed.

Lemma parse_smbus_tweak_prefix (kz : bool) (ctx : scd_context) (buf : string)
    (n : nat) :
  parse_smbus_tweak kz ctx buf n = parse_smbus_tweak kz ctx (substring 0 n buf) n.
Proof. unfold parse_smbus_tweak. rewrite strncpy0_prefix. reflexivity. Qed.

Lemma parse_new_object_result (func : string -> new_object_parse_func)
    (ctx : scd_context) (buf : string) (n : nat) :
  fst (parse_new_object func ctx buf n) < 0 \/
  fst (parse_new_object func ctx buf n) = Z.of_nat n.
Proof.
  unfold parse_new_object.
  destruct (MAX_CONFIG_LINE_SIZE <=? Z.of_nat n)%Z;
    [left; cbn; unfold EINVAL; lia|].
  destruct (strsep _ SPACE) as [tok ptr].
  destruct tok as [tok|]; [|left; cbn; unfold EINVAL; lia].
  destruct (find _ funcs_names) as [name|]; [|left; cbn; unfold EINVAL; lia].
  destruct (func name ctx ptr _) as [err ctx'].
  destruct (Z.ltb_spec err 0); cbn [fst]; [left; assumption|right; reflexivity].
Qed.

Lemma parse_new_object_prefix (func : string -> new_object_parse_func)
    (ctx : scd_context) (buf : string) (n : nat) :
  parse_new_object func ctx buf n = parse_new_object func ctx (substring 0 n buf) n.
Proof. unfold parse_new_object. rewrite strncpy0_prefix. reflexivity. Qed.

(** X12 (parse_lines, smbus_tweaks, new_object).  A write made of
    non-empty lines, one newline between two of them and any number of
    newlines at the end, is handled line by line in the order written:
    each line goes to the line parser alone; the first line that fails
    ends the write and its error is the result, while what the lines
    before it changed stays; when no line fails the result is the number
    of bytes written. *)
Theorem config_lines_in_order (kz : bool) (func : string -> new_object_parse_func)
    (ctx : scd_context) (l : string) (ls : list string) (trail : nat) :
  forallb line_ok (l :: ls) = true ->
  let buf := join_with NL (l :: ls) ++ newlines trail in
  let count := String.length buf in
  smbus_tweaks kz (Some ctx) buf count =
    (let '(res, ctx') := run_lines (parse_smbus_tweak kz) ctx (l :: ls)
                           (Z.of_nat count) in (res, Some ctx')) /\
  (initialized ctx = false ->
   new_object func (Some ctx) buf count =
     (let '(res, ctx') := run_lines (parse_new_object func) ctx (l :: ls)
                            (Z.of_nat count) in (res, Some ctx'))).
Proof.
  intros Hok buf count. split.
  - unfold smbus_tweaks, count, buf.
    rewrite (parse_lines_of_lines (parse_smbus_tweak kz)
               (parse_smbus_tweak_result kz) (parse_smbus_tweak_prefix kz)
               ctx l ls trail Hok).
    reflexivity.
  - intros Hinit. unfold new_object, count, buf. rewrite Hinit.
    rewrite (parse_lines_of_lines (parse_new_object func)
               (parse_new_object_result func) (parse_new_object_prefix func)
               ctx l ls trail Hok).
    reflexivity.
Qed.

(** X13 (parse_lines, parse_smbus_tweak, parse_new_object).  A write
    that starts with a newline is refused: the line parser is called
    with an empty first line, the result is -EINVAL and the registry is
    as it was, whatever follows the newline. *)
Theorem leading_newline_refused (kz : bool)
    (func : string -> new_object_parse_func) (ctx : scd_context)
    (rest : string) (n : nat) :
  smbus_tweaks kz (Some ctx) (String NL rest) (S n) = (- EINVAL, Some ctx) /\
  (initialized ctx = false ->
   new_object func (Some ctx) (String NL rest) (S n) = (- EINVAL, Some ctx)).
Proof.
  split.
  - reflexivity.
  - intros Hinit. unfold new_object. rewrite Hinit. reflexivity.
Qed.

End Lines.

(* ================================================================== *)
(** ** The fields of a tweak line and the registry of overrides *)

Section TweakLine.

Local Open Scope string_scope.

Lemma token_chars (t : string) : token_ok t = true -> all_chars token_char t = true.
Proof. unfold token_ok. intros H. apply andb_prop in H. tauto. Qed.

Lemma token_char_inv (a : ascii) :
  token_char a = true ->
  Ascii.eqb a NUL = false /\ Ascii.eqb a SPACE = false.
Proof.
  unfold token_char, line_char. intros H.
  apply andb_prop in H. destruct H as (H1 & H2).
  apply andb_prop in H1. destruct H1 as (_ & H1).
  apply negb_true_iff in H1, H2. tauto.
Qed.

Lemma c_str_token (t s : string) :
  all_chars token_char t = true -> c_str (t ++ s) = t ++ c_str s.
Proof.
  induction t as [|a t IH]; intros H; [reflexivity|].
  cbn in H. apply andb_prop in H. destruct H as (Ha & Ht).
  apply token_char_inv in Ha. destruct Ha as (Ha & _).
  cbn [append c_str]. rewrite Ha, IH by exact Ht. reflexivity.
Qed.

Lemma c_str_token_only (t : string) :
  all_chars token_char t = true -> c_str t = t.
Proof.
  intros H. rewrite <- (append_nil t) at 1. rewrite c_str_token by exact H.
  apply append_nil.
Qed.

Lemma find_delim_token (t r : string) :
  all_chars token_char t = true ->
  find_delim (t ++ String SPACE r) SPACE = Some (String.length t).
Proof.
  induction t as [|a t IH]; intros H; [reflexivity|].
  cbn in H. apply andb_prop in H. destruct H as (Ha & Ht).
  apply token_char_inv in Ha. destruct Ha as (_ & Ha).
  cbn [append find_delim String.length]. rewrite Ha, IH by exact Ht. reflexivity.
Qed.

Lemma find_delim_none (t : string) :
  all_chars token_char t = true -> find_delim t SPACE = None.
Proof.
  induction t as [|a t IH]; intros H; [reflexivity|].
  cbn in H. apply andb_prop in H. destruct H as (Ha & Ht).
  apply token_char_inv in Ha. destruct Ha as (_ & Ha).
  cbn [find_delim]. rewrite Ha, IH by exact Ht. reflexivity.
Qed.

(** The macro on a buffer that starts with a token the conversion takes:
    the value, and the buffer behind the space, or NULL after the last
    token. *)
Lemma PARSE_INT_OR_RETURN_token (kstrto : string -> Z + Z) (t r : string) (v : Z) :
  token_ok t = true -> kstrto t = inl v ->
  PARSE_INT_OR_RETURN kstrto (Some (t ++ String SPACE r)) = inl (v, Some r).
Proof.
  intros Ht Hv. pose proof (token_chars _ Ht) as Hc.
  unfold PARSE_INT_OR_RETURN, strsep. rewrite find_delim_token by exact Hc.
  rewrite substring_append.
  replace (advance (S (String.length t)) (t ++ String SPACE r)) with r.
  - destruct t as [|a t]; [discriminate Ht|]. rewrite Hv. reflexivity.
  - clear. induction t as [|a t IH]; [destruct r; reflexivity|].
    cbn [String.length append]. exact IH.
Qed.

Lemma PARSE_INT_OR_RETURN_last (kstrto : string -> Z + Z) (t : string) (v : Z) :
  token_ok t = true -> kstrto t = inl v ->
  PARSE_INT_OR_RETURN kstrto (Some t) = inl (v, None).
Proof.
  intros Ht Hv. pose proof (token_chars _ Ht) as Hc.
  unfold PARSE_INT_OR_RETURN, strsep. rewrite find_delim_none by exact Hc.
  destruct t as [|a t]; [discriminate Ht|]. rewrite Hv. reflexivity.
Qed.

Lemma c_str_space (s : string) : c_str (String SPACE s) = String SPACE (c_str s).
Proof. reflexivity. Qed.

(** X14 (parse_smbus_tweak, PARSE_INT_OR_RETURN).  A tweak line is six
    numbers separated by one space, in the order bus, address, t, datr,
    datw, ed; whatever follows a sixth number and a space is ignored.
    The line registers these values for the address on the bus with
    scd_set_smbus_params, and the result is the length of the line, or
    the error of the registration. *)
Theorem tweak_line_fields (kz : bool) (ctx : scd_context)
    (t1 t2 t3 t4 t5 t6 : string) (rest : list string)
    (nr addr t datr datw ed : Z) :
  forallb token_ok [t1; t2; t3; t4; t5; t6] = true ->
  kstrtou16 t1 = inl nr -> kstrtou16 t2 = inl addr ->
  kstrtou8 t3 = inl t -> kstrtou8 t4 = inl datr ->
  kstrtou8 t5 = inl datw -> kstrtou8 t6 = inl ed ->
  let line := join_with SPACE (t1 :: t2 :: t3 :: t4 :: t5 :: t6 :: rest) in
  (String.length line < 100)%nat ->
  parse_smbus_tweak kz ctx line (String.length line) =
  (let '(err, ctx') :=
     scd_set_smbus_params kz ctx nr
       {| bp_addr := addr; bp_t := t; bp_datw := datw; bp_datr := datr;
          bp_ed := ed |} in
   (if (err =? 0)%Z then Z.of_nat (String.length line) else err, ctx')).
Proof.
  intros Hok H1 H2 H3 H4 H5 H6 line Hlen.
  cbn [forallb] in Hok.
  repeat (apply andb_prop in Hok; let H := fresh "T" in destruct Hok as (H & Hok)).
  unfold parse_smbus_tweak.
  destruct (Z.leb_spec MAX_CONFIG_LINE_SIZE (Z.of_nat (String.length line)))
    as [Hbig|_]; [unfold MAX_CONFIG_LINE_SIZE in Hbig; lia|].
  unfold strncpy0. rewrite substring_all.
  assert (Hline : exists tail,
            c_str line = t1 ++ String SPACE (t2 ++ String SPACE (t3 ++
              String SPACE (t4 ++ String SPACE (t5 ++ String SPACE tail)))) /\
            (tail = t6 \/ exists r, tail = t6 ++ String SPACE r)).
  { unfold line. destruct rest as [|r rest'].
    - exists t6. split; [|left; reflexivity].
      change (join_with SPACE [t1; t2; t3; t4; t5; t6])
        with (t1 ++ String SPACE (t2 ++ String SPACE (t3 ++ String SPACE (t4 ++
                String SPACE (t5 ++ String SPACE t6))))).
      repeat (rewrite c_str_token by (apply token_chars; assumption);
              rewrite c_str_space).
      rewrite c_str_token_only by (apply token_chars; assumption).
      reflexivity.
    - exists (t6 ++ String SPACE (c_str (join_with SPACE (r :: rest')))).
      split; [|right; eexists; reflexivity].
      change (join_with SPACE (t1 :: t2 :: t3 :: t4 :: t5 :: t6 :: r :: rest'))
        with (t1 ++ String SPACE (t2 ++ String SPACE (t3 ++ String SPACE (t4 ++
                String SPACE (t5 ++ String SPACE (t6 ++ String SPACE
                  (join_with SPACE (r :: rest')))))))).
      repeat (rewrite c_str_token by (apply token_chars; assumption);
              rewrite c_str_space).
      reflexivity. }
  destruct Hline as (tail & Hline & Htail). rewrite Hline.
  rewrite (PARSE_INT_OR_RETURN_token kstrtou16 t1 _ nr) by assumption.
  rewrite (PARSE_INT_OR_RETURN_token kstrtou16 t2 _ addr) by assumption.
  rewrite (PARSE_INT_OR_RETURN_token kstrtou8 t3 _ t) by assumption.
  rewrite (PARSE_INT_OR_RETURN_token kstrtou8 t4 _ datr) by assumption.
  rewrite (PARSE_INT_OR_RETURN_token kstrtou8 t5 _ datw) by assumption.
  destruct Htail as [->|(r & ->)].
  - rewrite (PARSE_INT_OR_RETURN_last kstrtou8 t6 ed) by assumption.
    destruct (scd_set_smbus_params kz ctx nr _) as [err ctx'].
    destruct (err =? 0)%Z; reflexivity.
  - rewrite (PARSE_INT_OR_RETURN_token kstrtou8 t6 _ ed) by assumption.
    destruct (scd_set_smbus_params kz ctx nr _) as [err ctx'].
    destruct (err =? 0)%Z; reflexivity.
Qed.

End TweakLine.

Section Registry.

Lemma find_app_last {A} (f : A -> bool) (l : list A) (x : A) :
  f x = false -> find f (l ++ [x]) = find f l.
Proof.
  intros Hx. induction l as [|a l IH]; cbn [find app]; [rewrite Hx; reflexivity|].
  destruct (f a); [reflexivity|exact IH].
Qed.

Lemma update_params_other (l l' : list bus_params) (p : bus_params) (addr : Z) :
  update_params l p = Some l' -> addr <> bp_addr p ->
  find (fun q => bp_addr q =? addr) l' = find (fun q => bp_addr q =? addr) l.
Proof.
  revert l'. induction l as [|q l IH]; intros l' H Hne; cbn [update_params] in H;
    [discriminate H|].
  destruct (Z.eqb_spec (bp_addr q) (bp_addr p)) as [Heq|Hq].
  - inversion H; subst l'. cbn [find bp_addr].
    destruct (Z.eqb_spec (bp_addr q) addr); [congruence|reflexivity].
  - destruct (update_params l p) as [l0|]; [|discriminate H].
    inversion H; subst l'. cbn [find]. rewrite (IH l0 eq_refl Hne). reflexivity.
Qed.

(** The look-ups of the other addresses of the bus are as before. *)
Lemma set_params_of_bus_other (kz : bool) (bus bus' : scd_smbus)
    (p : bus_params) (r addr : Z) :
  set_params_of_bus kz bus p = (r, bus') -> addr <> bp_addr p ->
  get_smbus_params bus' addr = get_smbus_params bus addr.
Proof.
  unfold set_params_of_bus, get_smbus_params. intros H Hne.
  destruct (update_params (bus_params_list bus) p) as [l|] eqn:E.
  - inversion H; subst bus'. cbn [bus_params_list].
    rewrite (update_params_other _ _ _ _ E Hne). reflexivity.
  - destruct kz; inversion H; subst bus'; [|reflexivity].
    cbn [bus_params_list]. rewrite find_app_last; [reflexivity|].
    cbn [bp_addr]. apply Z.eqb_neq. congruence.
Qed.

Lemma replace_bus_other (l l' : list scd_smbus) (nr nr' : Z) (b' : scd_smbus) :
  replace_bus l nr b' = Some l' -> bus_nr b' = nr -> nr' <> nr ->
  forall l2, find (fun x => bus_nr x =? nr') (l' ++ l2) =
             find (fun x => bus_nr x =? nr') (l ++ l2).
Proof.
  revert l'. induction l as [|x l IH]; intros l' H Hb Hne l2;
    cbn [replace_bus] in H; [discriminate H|].
  destruct (Z.eqb_spec (bus_nr x) nr) as [Hx|Hx].
  - inversion H; subst l'. cbn [find app]. rewrite Hb, Hx.
    destruct (Z.eqb_spec nr nr'); [congruence|reflexivity].
  - destruct (replace_bus l nr b') as [l0|]; [|discriminate H].
    inversion H; subst l'. cbn [find app].
    rewrite (IH l0 eq_refl Hb Hne). reflexivity.
Qed.

Lemma find_other_after_replace (ms : list scd_smbus_master) (nr nr' : Z)
    (b' : scd_smbus) :
  bus_nr b' = nr -> nr' <> nr ->
  find (fun x => bus_nr x =? nr')
       (flat_map m_bus_list (replace_bus_in_masters ms nr b')) =
  find (fun x => bus_nr x =? nr') (flat_map m_bus_list ms).
Proof.
  intros Hb Hne. induction ms as [|m ms IH]; [reflexivity|].
  cbn [replace_bus_in_masters flat_map].
  destruct (replace_bus (m_bus_list m) nr b') as [l|] eqn:E.
  - cbn [flat_map m_bus_list]. apply (replace_bus_other _ _ _ _ _ E Hb Hne).
  - cbn [flat_map].
    destruct (find (fun x => bus_nr x =? nr') (m_bus_list m)) as [x|] eqn:F.
    + rewrite !(find_app_some _ _ _ _ F). reflexivity.
    + rewrite !find_app_none by exact F. exact IH.
Qed.

Lemma replace_bus_same (l : list scd_smbus) (nr : Z) (b : scd_smbus) :
  find (fun x => bus_nr x =? nr) l = Some b -> replace_bus l nr b = Some l.
Proof.
  induction l as [|x l IH]; intros H; [discriminate H|].
  cbn [find replace_bus] in *. destruct (bus_nr x =? nr).
  - inversion H. reflexivity.
  - rewrite (IH H). reflexivity.
Qed.

Lemma replace_in_masters_same (ms : list scd_smbus_master) (nr : Z)
    (b : scd_smbus) :
  find (fun x => bus_nr x =? nr) (flat_map m_bus_list ms) = Some b ->
  replace_bus_in_masters ms nr b = ms.
Proof.
  induction ms as [|m ms IH]; intros H; [reflexivity|].
  cbn [flat_map replace_bus_in_masters] in *.
  destruct (find (fun x => bus_nr x =? nr) (m_bus_list m)) as [x|] eqn:F.
  - rewrite (find_app_some _ _ _ _ F) in H. inversion H; subst x.
    rewrite (replace_bus_same _ _ _ F). destruct m; reflexivity.
  - rewrite (replace_bus_missing _ _ _ F).
    rewrite find_app_none in H by exact F. rewrite (IH H). reflexivity.
Qed.

(** X15 (scd_set_smbus_params, scd_find_smbus, get_smbus_params).  A
    successful registration changes one look-up only: afterwards the
    same bus numbers are found, every bus keeps its id, the look-up of
    the registered address on the registered bus gives the new values,
    and the look-up of any other address or on any other bus gives what
    it gave before. *)
Theorem set_smbus_params_frame (kz : bool) (ctx ctx' : scd_context) (nr : Z)
    (p : bus_params) :
  scd_set_smbus_params kz ctx nr p = (0, ctx') ->
  forall nr' addr,
    match scd_find_smbus ctx nr', scd_find_smbus ctx' nr' with
    | Some b, Some b' =>
        bus_id b' = bus_id b /\
        get_smbus_params b' addr =
          if (nr' =? nr) && (addr =? bp_addr p) then
            {| bp_addr := bp_addr p; bp_t := bp_t p; bp_datw := bp_datw p;
               bp_datr := bp_datr p; bp_ed := bp_ed p |}
          else get_smbus_params b addr
    | None, None => True
    | _, _ => False
    end.
Proof.
  intros H nr' addr.
  destruct (scd_set_smbus_params_ok _ _ _ _ _ H) as (b & b' & F & F' & S & _).
  destruct (set_params_of_bus_ok _ _ _ _ S) as (Hnr & Hid & G & _).
  assert (Hb : bus_nr b = nr).
  { unfold scd_find_smbus in F. apply find_some in F. destruct F as (_ & F).
    apply Z.eqb_eq in F. exact F. }
  destruct (Z.eqb_spec nr' nr) as [->|Hne].
  - rewrite F, F'. split; [exact Hid|].
    destruct (Z.eqb_spec addr (bp_addr p)) as [->|Ha]; cbn [andb].
    + exact G.
    + apply (set_params_of_bus_other _ _ _ _ _ _ S Ha).
  - cbn [andb].
    assert (E : scd_find_smbus ctx' nr' = scd_find_smbus ctx nr').
    { unfold scd_set_smbus_params in H. rewrite F, S in H.
      inversion H. unfold scd_find_smbus. cbn [smbus_master_list].
      apply find_other_after_replace; [congruence|exact Hne]. }
    rewrite E. destruct (scd_find_smbus ctx nr'); [|exact I].
    split; reflexivity.
Qed.

(** X16 (scd_set_smbus_params).  The registration fails in two cases
    and then leaves the registry as it was: -EINVAL when no bus has the
    number, -ENOMEM when the bus has no entry for the address and the
    allocation of one fails.  In every other case it succeeds. *)
Theorem set_smbus_params_failures (kz : bool) (ctx : scd_context) (nr : Z)
    (p : bus_params) :
  match scd_find_smbus ctx nr with
  | None => scd_set_smbus_params kz ctx nr p = (- EINVAL, ctx)
  | Some b =>
      match find (fun q => bp_addr q =? bp_addr p) (bus_params_list b) with
      | None =>
          if kz then fst (scd_set_smbus_params kz ctx nr p) = 0
          else scd_set_smbus_params kz ctx nr p = (- ENOMEM, ctx)
      | Some _ => fst (scd_set_smbus_params kz ctx nr p) = 0
      end
  end.
Proof.
  unfold scd_set_smbus_params.
  destruct (scd_find_smbus ctx nr) as [b|] eqn:F; [|reflexivity].
  unfold set_params_of_bus.
  destruct (find _ (bus_params_list b)) as [q|] eqn:E.
  - destruct (update_params (bus_params_list b) p) eqn:U; [reflexivity|].
    apply update_params_none in U. congruence.
  - apply update_params_none in E. rewrite E.
    destruct kz; [reflexivity|].
    unfold scd_find_smbus in F. rewrite (replace_in_masters_same _ _ _ F).
    destruct ctx; reflexivity.
Qed.

End Registry.

(* ================================================================== *)
(** ** The [smbus_master] line *)

Section MasterLine.

Local Open Scope string_scope.

Variable add : scd_context -> Z -> Z -> Z -> Z * scd_context.
Variable func : string -> new_object_parse_func.
Hypothesis func_smbus_master :
  func "smbus_master" = parse_new_object_smbus_master add.

Lemma smbus_master_args (ctx : scd_context) (ta ti : string)
    (rest : list string) (addr id count : Z) :
  token_ok ta = true -> token_ok ti = true ->
  forallb (all_chars token_char) (firstn 1 rest) = true ->
  kstrtou32 ta = inl addr -> kstrtou32 ti = inl id ->
  (0 <= count)%Z ->
  parse_new_object_smbus_master add ctx
    (Some (c_str (join_with SPACE (ta :: ti :: rest)))) count =
  if (res_size ctx <? addr)%Z then (- EINVAL, ctx)%Z
  else
    let finish n :=
      let '(res, ctx') := add ctx addr id n in
      if (res =? 0)%Z then (count, ctx') else (res, ctx') in
    match rest with
    | [] => finish MASTER_DEFAULT_BUS_COUNT
    | EmptyString :: _ => finish MASTER_DEFAULT_BUS_COUNT
    | [tn] =>
        match kstrtou32 tn with
        | inl n => finish n
        | inr e => (e, ctx)
        end
    | tn :: _ :: _ =>
        match kstrtou32 tn with
        | inl n => (- EINVAL, ctx)%Z
        | inr e => (e, ctx)
        end
    end.
Proof.
  intros Ta Ti Tn Ha Hi Hc.
  unfold parse_new_object_smbus_master, PARSE_ADDR_OR_RETURN.
  change (join_with SPACE (ta :: ti :: rest))
    with (ta ++ String SPACE (join_with SPACE (ti :: rest))).
  rewrite c_str_token, c_str_space by (apply token_chars; exact Ta).
  rewrite (PARSE_INT_OR_RETURN_token kstrtou32 ta _ addr) by assumption.
  destruct (res_size ctx <? addr)%Z; [reflexivity|].
  destruct rest as [|tn rest'].
  - cbn [join_with]. rewrite c_str_token_only by (apply token_chars; exact Ti).
    rewrite (PARSE_INT_OR_RETURN_last kstrtou32 ti id) by assumption.
    cbn [strsep]. reflexivity.
  - change (join_with SPACE (ti :: tn :: rest'))
      with (ti ++ String SPACE (join_with SPACE (tn :: rest'))).
    rewrite c_str_token, c_str_space by (apply token_chars; exact Ti).
    rewrite (PARSE_INT_OR_RETURN_token kstrtou32 ti _ id) by assumption.
    cbn [firstn forallb] in Tn. apply andb_prop in Tn. destruct Tn as (Tn & _).
    destruct rest' as [|tm rest''].
    + cbn [join_with]. rewrite c_str_token_only by exact Tn.
      unfold strsep. rewrite find_delim_none by exact Tn.
      destruct tn as [|a tn]; [reflexivity|].
      destruct (kstrtou32 (String a tn)); reflexivity.
    + change (join_with SPACE (tn :: tm :: rest''))
        with (tn ++ String SPACE (join_with SPACE (tm :: rest''))).
      rewrite c_str_token, c_str_space by exact Tn.
      unfold strsep at 1. rewrite find_delim_token by exact Tn.
      rewrite substring_append.
      destruct tn as [|a tn]; [reflexivity|].
      destruct (kstrtou32 (String a tn)); [|reflexivity].
      unfold PARSE_END_OR_RETURN, strsep.
      destruct (find_delim _ SPACE); reflexivity.
Qed.

(** X17 (parse_new_object, parse_new_object_smbus_master,
    PARSE_ADDR_OR_RETURN, PARSE_END_OR_RETURN).  The line
    [smbus_master <addr> <id> [<bus_count>]]: an address above the size
    of the resource is refused with -EINVAL (the size itself is
    accepted); without a third number, or with an empty one (two spaces
    after the id, whatever follows), the master is added with 8 buses;
    with a third number and nothing behind it, with that many; a token
    after the third number is refused with -EINVAL and nothing is
    added.  When the master is added the result is the length of the
    line, or the error of scd_smbus_master_add. *)
Theorem smbus_master_line (ctx : scd_context) (ta ti : string)
    (rest : list string) (addr id : Z) :
  token_ok ta = true -> token_ok ti = true ->
  forallb (all_chars token_char) (firstn 1 rest) = true ->
  kstrtou32 ta = inl addr -> kstrtou32 ti = inl id ->
  let line := join_with SPACE ("smbus_master" :: ta :: ti :: rest) in
  (String.length line < 100)%nat ->
  parse_new_object func ctx line (String.length line) =
  if (res_size ctx <? addr)%Z then (- EINVAL, ctx)%Z
  else
    let added (n : Z) :=
      let '(res, ctx') := add ctx addr id n in
      (if (res <? 0)%Z then res else Z.of_nat (String.length line), ctx') in
    match rest with
    | [] => added 8%Z
    | EmptyString :: _ => added 8%Z
    | [tn] =>
        match kstrtou32 tn with
        | inl n => added n
        | inr e => (e, ctx)
        end
    | tn :: _ :: _ =>
        match kstrtou32 tn with
        | inl n => (- EINVAL, ctx)%Z
        | inr e => (e, ctx)
        end
    end.
Proof.
  intros Ta Ti Tn Ha Hi line Hlen.
  unfold parse_new_object.
  destruct (Z.leb_spec MAX_CONFIG_LINE_SIZE (Z.of_nat (String.length line)))
    as [Hbig|_]; [unfold MAX_CONFIG_LINE_SIZE in Hbig; lia|].
  unfold strncpy0. rewrite substring_all.
  assert (Hline : c_str line =
            "smbus_master" ++ String SPACE (c_str (join_with SPACE (ta :: ti :: rest)))).
  { unfold line.
    change (join_with SPACE ("smbus_master" :: ta :: ti :: rest))
      with ("smbus_master" ++ String SPACE (join_with SPACE (ta :: ti :: rest))).
    rewrite c_str_token by reflexivity. reflexivity. }
  rewrite Hline. unfold strsep at 1.
  rewrite find_delim_token by reflexivity. rewrite substring_append.
  change (find (String.eqb "smbus_master") funcs_names) with (Some "smbus_master").
  cbv iota. rewrite func_smbus_master.
  set (tail := c_str (join_with SPACE (ta :: ti :: rest))).
  replace (advance (S (String.length "smbus_master"))
             ("smbus_master" ++ String SPACE tail)) with tail by reflexivity.
  set (count := (Z.of_nat (String.length line) -
                 Z.of_nat (String.length ("smbus_master" ++ String SPACE tail) -
                           String.length tail))%Z).
  assert (Hcount : (0 <= count)%Z).
  { assert (Hle : (String.length ("smbus_master" ++ String SPACE tail)
                   <= String.length line)%nat); [|unfold count; lia].
    unfold tail. rewrite <- Hline. clear.
    induction line as [|a l IH]; cbn [c_str String.length]; [lia|].
    destruct (Ascii.eqb a NUL); cbn [String.length]; lia. }
  unfold tail.
  rewrite (smbus_master_args ctx ta ti rest addr id count Ta Ti Tn Ha Hi Hcount).
  destruct (res_size ctx <? addr)%Z; [reflexivity|].
  assert (Hfin : forall n,
            (let '(err, ctx0) :=
               (let '(res, ctx') := add ctx addr id n in
                if (res =? 0)%Z then (count, ctx') else (res, ctx')) in
             if (err <? 0)%Z then (err, ctx0)
             else (Z.of_nat (String.length line), ctx0)) =
            (let '(res, ctx') := add ctx addr id n in
             (if (res <? 0)%Z then res else Z.of_nat (String.length line), ctx'))).
  { intros n. destruct (add ctx addr id n) as [res ctx'].
    destruct (Z.eqb_spec res 0) as [->|Hne].
    - destruct (Z.ltb_spec count 0); [lia|]. reflexivity.
    - destruct (Z.ltb_spec res 0); reflexivity. }
  cbv zeta.
  destruct rest as [|[|a tn] [|tm rest'']]; try apply Hfin.
  - change (kstrtou32 (String a tn)) with (kstrtou 32 (String a tn)).
    destruct (kstrtou 32 (String a tn)) as [n|e] eqn:E; [apply Hfin|].
    pose proof (kstrtou_error _ _ _ E).
    destruct (Z.ltb_spec e 0); [reflexivity|lia].
  - change (kstrtou32 (String a tn)) with (kstrtou 32 (String a tn)).
    destruct (kstrtou 32 (String a tn)) as [n|e] eqn:E; [reflexivity|].
    pose proof (kstrtou_error _ _ _ E).
    destruct (Z.ltb_spec e 0); [reflexivity|lia].
Qed.

End MasterLine.

(* ================================================================== *)
(** ** GPIO attributes *)

Section GpioBits.

Import Gpio.

Lemma bit_mask_pow2 (bit : Z) : bit_mask bit = 2 ^ (bit mod 32).
Proof.
  pose proof (Z.mod_pos_bound bit 32 ltac:(lia)) as H.
  unfold bit_mask, u32. rewrite Z.shiftl_1_l.
  apply Z.mod_small. split; [apply Z.pow_nonneg; lia|].
  apply Z.pow_lt_mono_r; lia.
Qed.

Lemma bit_mask_bits (bit i : Z) :
  Z.testbit (bit_mask bit) i = (i =? bit mod 32).
Proof.
  pose proof (Z.mod_pos_bound bit 32 ltac:(lia)) as H.
  rewrite bit_mask_pow2.
  rewrite Z.pow2_bits_eqb by lia. apply Z.eqb_sym.
Qed.

Lemma bit_unmask_bits (bit i : Z) :
  0 <= i < 32 ->
  Z.testbit (bit_unmask bit) i = negb (i =? bit mod 32).
Proof.
  pose proof (Z.mod_pos_bound bit 32 ltac:(lia)) as H.
  intros Hi. unfold bit_unmask, u32.
  rewrite Z.mod_pow2_bits_low by lia. rewrite Z.lnot_spec by lia.
  rewrite Z.shiftl_1_l, Z.pow2_bits_eqb by lia. rewrite Z.eqb_sym. reflexivity.
Qed.

Lemma bit_of_testbit (reg bit : Z) :
  bit_of reg bit = if Z.testbit reg (bit mod 32) then 1 else 0.
Proof.
  pose proof (Z.mod_pos_bound bit 32 ltac:(lia)) as H.
  unfold bit_of. rewrite bit_mask_pow2.
  set (b := bit mod 32) in *.
  assert (E : Z.land reg (2 ^ b) = if Z.testbit reg b then 2 ^ b else 0).
  { apply Z.bits_inj'. intros n Hn. rewrite Z.land_spec.
    rewrite Z.pow2_bits_eqb by lia.
    destruct (Z.eqb_spec b n) as [->|Hne].
    - destruct (Z.testbit reg n) eqn:T; cbn.
      + rewrite Z.pow2_bits_eqb, Z.eqb_refl by lia. reflexivity.
      + rewrite Z.bits_0. reflexivity.
    - rewrite andb_false_r. destruct (Z.testbit reg b).
      + rewrite Z.pow2_bits_eqb by lia. symmetry. apply Z.eqb_neq. exact Hne.
      + rewrite Z.bits_0. reflexivity. }
  rewrite E. destruct (Z.testbit reg b); [|reflexivity].
  destruct (Z.eqb_spec (2 ^ b) 0) as [E0|_]; [|reflexivity].
  pose proof (Z.pow_pos_nonneg 2 b). lia.
Qed.

(** The bits of the value that a store function writes, from the bits
    of the value it read. *)
Lemma set_bit_bits (active_low value bit reg i : Z) :
  0 <= i < 32 ->
  Z.testbit (set_bit active_low value bit reg) i =
  if i =? bit mod 32 then
    if negb (active_low =? 0)
    then (if negb (value =? 0) then false else Z.testbit reg (bit mod 32))
    else negb (value =? 0)
  else
    if negb (active_low =? 0) && (value =? 0) then true
    else Z.testbit reg i.
Proof.
  intros Hi. unfold set_bit.
  destruct (negb (active_low =? 0)), (value =? 0); cbn [negb andb];
    rewrite ?Z.land_spec, ?Z.lor_spec, ?bit_unmask_bits, ?bit_mask_bits by lia;
    destruct (Z.eqb_spec i (bit mod 32)) as [->|Hne]; cbn [negb];
    rewrite ?andb_false_r, ?andb_true_r, ?orb_false_r, ?orb_true_r;
    reflexivity.
Qed.

Lemma _kstrtoull10_error (s : string) (e : Z) : _kstrtoull10 s = inr e -> e < 0.
Proof.
  unfold _kstrtoull10. destruct (parse_digits 10 s 0 0) as [[v n] rest].
  destruct (2 ^ 64 <=? v); [intros H; inversion H; unfold ERANGE; lia|].
  destruct (Nat.eqb n 0); [intros H; inversion H; unfold EINVAL; lia|].
  destruct (match rest with
            | EmptyString => rest
            | String a r => if Ascii.eqb a NL then r else rest
            end); intros H; inversion H; unfold EINVAL; lia.
Qed.

Lemma kstrtol10_error (s : string) (e : Z) : kstrtol10 s = inr e -> e < 0.
Proof.
  unfold kstrtol10.
  assert (A : forall t, match _kstrtoull10 t with
                        | inl tmp => if 2 ^ 63 <? tmp then inr (- ERANGE)
                                     else inl (- tmp)
                        | inr e0 => inr e0
                        end = inr e -> e < 0).
  { intros t. destruct (_kstrtoull10 t) as [tmp|e0] eqn:E.
    - destruct (2 ^ 63 <? tmp); intros H; inversion H. unfold ERANGE; lia.
    - intros H; inversion H; subst. exact (_kstrtoull10_error _ _ E). }
  assert (B : forall t, match _kstrtoull10 t with
                        | inl tmp => if 2 ^ 63 <=? tmp then inr (- ERANGE)
                                     else inl tmp
                        | inr e0 => inr e0
                        end = inr e -> e < 0).
  { intros t. destruct (_kstrtoull10 t) as [tmp|e0] eqn:E.
    - destruct (2 ^ 63 <=? tmp); intros H; inversion H. unfold ERANGE; lia.
    - intros H; inversion H; subst. exact (_kstrtoull10_error _ _ E). }
  destruct s as [|a s]; [apply B|].
  destruct a as [[] [] [] [] [] [] [] []]; try apply B; apply A.
Qed.

(** X18 (attribute_gpio_set).  A store of 0 or 1 to a GPIO reads the
    register once and writes it once, whatever bit position the GPIO was
    given: the bit it acts on is the position modulo 32, as the shift
    takes it.  In the value written: for an active-high GPIO that bit is
    the value stored and the other bits are as read; for an active-low
    GPIO a 1 clears that bit and leaves the other bits as read, while a 0
    leaves that bit as read and sets every other bit of the register. *)
Theorem gpio_set_bits (gpio : scd_gpio_attribute) (buf : string)
    (count value : Z) (w : world) :
  kstrtol10 (c_str buf) = inl value ->
  value = 0 \/ value = 1 ->
  let r := u32 (reg_in w (reg_n w)) in
  exists v,
    attribute_gpio_set gpio buf count w =
      (count, World (reg_in w) (S (reg_n w))
                (trace w ++ [EvRead (g_addr gpio) r; EvWrite (g_addr gpio) v])) /\
    forall i, 0 <= i < 32 ->
      Z.testbit v i =
      if i =? g_bit gpio mod 32 then
        if g_active_low gpio =? 0 then value =? 1
        else if value =? 1 then false else Z.testbit r i
      else
        if (g_active_low gpio =? 0) || (value =? 1) then Z.testbit r i
        else true.
Proof.
  intros Hk Hv r.
  exists (set_bit (g_active_low gpio) value (g_bit gpio) r). split.
  - unfold attribute_gpio_set. rewrite Hk.
    replace (negb (value =? 0) && negb (value =? 1)) with false
      by (destruct Hv; subst value; reflexivity).
    unfold bind, scd_read_register, scd_write_register, ret.
    cbn [reg_in reg_n trace]. rewrite <- app_assoc. reflexivity.
  - intros i Hi. rewrite set_bit_bits by lia.
    destruct (Z.eqb_spec i (g_bit gpio mod 32)) as [->|Hne];
      destruct (g_active_low gpio =? 0); destruct Hv; subst value; reflexivity.
Qed.

(** X19 (attribute_gpio_set, attribute_gpio_get).  A store of 0 or 1
    followed by a show, when the register reads back the value that was
    written, whatever bit position the GPIO was given: the show gives
    the value stored, except for a 0 stored to an active-low GPIO, where
    it gives what the GPIO showed for the value read before the store. *)
Theorem gpio_set_then_get (gpio : scd_gpio_attribute) (buf : string)
    (count value : Z) (w : world) :
  kstrtol10 (c_str buf) = inl value ->
  value = 0 \/ value = 1 ->
  let r := u32 (reg_in w (reg_n w)) in
  u32 (reg_in w (S (reg_n w))) = set_bit (g_active_low gpio) value (g_bit gpio) r ->
  let shown :=
    if negb (g_active_low gpio =? 0) && (value =? 0)
    then lnot01 (bit_of r (g_bit gpio)) else value in
  fst (attribute_gpio_get gpio (snd (attribute_gpio_set gpio buf count w))) =
  (2, if shown =? 0 then String "0" (String NL EmptyString)
      else String "1" (String NL EmptyString)).
Proof.
  intros Hk Hv r Hback shown.
  pose proof (Z.mod_pos_bound (g_bit gpio) 32 ltac:(lia)) as Hb.
  unfold attribute_gpio_set. rewrite Hk.
  replace (negb (value =? 0) && negb (value =? 1)) with false
    by (destruct Hv; subst value; reflexivity).
  unfold attribute_gpio_get, bind, scd_read_register, scd_write_register, ret.
  cbn [reg_in reg_n trace fst snd]. fold r. rewrite Hback.
  rewrite !bit_of_testbit.
  rewrite set_bit_bits by lia. rewrite Z.eqb_refl.
  unfold shown. rewrite bit_of_testbit.
  destruct (g_active_low gpio =? 0); destruct Hv; subst value; cbn [negb andb];
    try reflexivity; destruct (Z.testbit r (g_bit gpio mod 32)); reflexivity.
Qed.

(** X20 (attribute_gpio_set, attribute_xcvr_set, attribute_reset_set).
    A store of a text that kstrtol does not read as 0 or as 1 touches no
    register: the three store functions return a negative error, the
    device sees no read and no write, and a transceiver latches
    nothing. *)
Theorem store_rejects (gpio : scd_gpio_attribute) (xcvr : scd_xcvr) (i : nat)
    (reset : scd_reset_attribute) (buf : string) (count : Z) (w : world) :
  (forall value, kstrtol10 (c_str buf) = inl value -> value <> 0 /\ value <> 1) ->
  (exists e, e < 0 /\ attribute_gpio_set gpio buf count w = (e, w)) /\
  (exists e, e < 0 /\ attribute_xcvr_set xcvr i buf count w = ((e, xcvr), w)) /\
  (exists e, e < 0 /\ attribute_reset_set reset buf count w = (e, w)).
Proof.
  intros H. unfold attribute_gpio_set, attribute_xcvr_set, attribute_reset_set.
  destruct (kstrtol10 (c_str buf)) as [value|e] eqn:E.
  - destruct (H value eq_refl) as (H0 & H1).
    replace (negb (value =? 0) && negb (value =? 1)) with true
      by (symmetry; apply andb_true_intro; split; apply negb_true_iff;
          apply Z.eqb_neq; assumption).
    repeat split; exists (- EINVAL); (split; [unfold EINVAL; lia|reflexivity]).
  - pose proof (kstrtol10_error _ _ E) as He.
    repeat split; exists e; (split; [exact He|reflexivity]).
Qed.

End GpioBits.


Section XcvrLatch.

Import Gpio.

Lemma latch_from_length (reg k : Z) (attrs : list scd_xcvr_attribute) :
  List.length (latch_from reg k attrs) = List.length attrs.
Proof.
  revert k. induction attrs as [|a attrs IH]; intros k; cbn; [reflexivity|].
  rewrite IH. reflexivity.
Qed.

Lemma latch_from_nth (reg : Z) (attrs : list scd_xcvr_attribute) :
  forall (k : Z) (i : nat), (i < List.length attrs)%nat ->
  nth i (latch_from reg k attrs) no_attr =
  latch reg (k + Z.of_nat i) (nth i attrs no_attr).
Proof.
  induction attrs as [|a attrs IH]; intros k i Hi; [cbn in Hi; lia|].
  destruct i as [|i]; cbn [latch_from nth].
  - rewrite Z.add_0_r. reflexivity.
  - rewrite IH by (cbn in Hi; lia). f_equal. lia.
Qed.

Lemma assign_length (j : nat) (a : scd_xcvr_attribute)
    (attrs : list scd_xcvr_attribute) :
  List.length (assign j a attrs) = List.length attrs.
Proof.
  revert j. induction attrs as [|b attrs IH]; intros [|j]; cbn; try reflexivity.
  rewrite IH. reflexivity.
Qed.

Lemma assign_nth_other (j i : nat) (a : scd_xcvr_attribute)
    (attrs : list scd_xcvr_attribute) :
  i <> j -> nth i (assign j a attrs) no_attr = nth i attrs no_attr.
Proof.
  revert j i. induction attrs as [|b attrs IH]; intros [|j] [|i] H; cbn;
    try reflexivity; try lia.
  apply IH. lia.
Qed.

Lemma assign_nth_same (i : nat) (a : scd_xcvr_attribute)
    (attrs : list scd_xcvr_attribute) :
  (i < List.length attrs)%nat -> nth i (assign i a attrs) no_attr = a.
Proof.
  revert i. induction attrs as [|b attrs IH]; intros [|i] H; cbn in *;
    try reflexivity; try lia.
  apply IH. lia.
Qed.

(** What a show of attribute [j] does to the latch of another
    attribute. *)
Lemma xcvr_get_other (xcvr : scd_xcvr) (j i : nat) (w : world) :
  (i < List.length (x_attr xcvr))%nat -> i <> j ->
  let res := attribute_xcvr_get xcvr j w in
  let xcvr' := snd (fst res) in
  let w' := snd res in
  x_addr xcvr' = x_addr xcvr /\
  List.length (x_attr xcvr') = List.length (x_attr xcvr) /\
  nth i (x_attr xcvr') no_attr =
    latch (reg_at w 0) (Z.of_nat i) (nth i (x_attr xcvr) no_attr) /\
  reg_in w' = reg_in w /\ reg_n w' = S (reg_n w).
Proof.
  intros Hi Hne. unfold attribute_xcvr_get, scd_xcvr_read_register, bind,
    scd_read_register, ret. cbn [fst snd x_attr x_addr].
  assert (R : u32 (reg_in w (reg_n w)) = reg_at w 0)
    by (unfold reg_at; rewrite Nat.add_0_r; reflexivity).
  rewrite R.
  destruct (negb (x_clear_on_read
                    (nth j (latch_from (reg_at w 0) 0 (x_attr xcvr)) no_attr) =? 0));
    cbn [fst snd x_attr x_addr reg_in reg_n];
    rewrite ?assign_length, ?latch_from_length, ?assign_nth_other by exact Hne;
    rewrite latch_from_nth by exact Hi; repeat split; reflexivity.
Qed.

Lemma latch_fields (reg i : Z) (a : scd_xcvr_attribute) :
  x_bit (latch reg i a) = x_bit a /\
  x_active_low (latch reg i a) = x_active_low a /\
  x_clear_on_read (latch reg i a) = x_clear_on_read a /\
  (x_clear_on_read a <> 0 ->
   x_clear_on_read_value (latch reg i a) =
   Z.lor (x_clear_on_read_value a) (bit_of reg i)).
Proof.
  unfold latch. destruct (Z.eqb_spec (x_clear_on_read a) 0) as [E|E]; cbn;
    repeat split; try reflexivity. intros H. contradiction.
Qed.

Lemma seen_shift (w w' : world) (n : nat) (i : Z) :
  reg_in w' = reg_in w -> reg_n w' = S (reg_n w) ->
  Z.lor (bit_of (reg_at w 0) i) (seen w' n i) = seen w (S n) i.
Proof.
  intros H1 H2. induction n as [|n IH].
  - cbn [seen]. rewrite Z.lor_0_r, Z.lor_0_l. reflexivity.
  - cbn [seen] in *. rewrite Z.lor_assoc, IH.
    replace (reg_at w' n) with (reg_at w (S n)); [reflexivity|].
    unfold reg_at. rewrite H1, H2. do 2 f_equal. lia.
Qed.

Lemma xcvr_gets_latch (js : list nat) :
  forall (xcvr : scd_xcvr) (i : nat) (w : world),
  (i < List.length (x_attr xcvr))%nat -> ~ In i js ->
  x_clear_on_read (nth i (x_attr xcvr) no_attr) <> 0 ->
  let a := nth i (x_attr xcvr) no_attr in
  let res := xcvr_gets xcvr js w in
  let a' := nth i (x_attr (fst res)) no_attr in
  x_addr (fst res) = x_addr xcvr /\
  List.length (x_attr (fst res)) = List.length (x_attr xcvr) /\
  x_bit a' = x_bit a /\ x_active_low a' = x_active_low a /\
  x_clear_on_read a' = x_clear_on_read a /\
  x_clear_on_read_value a' =
    Z.lor (x_clear_on_read_value a) (seen w (List.length js) (Z.of_nat i)) /\
  reg_in (snd res) = reg_in w /\
  reg_n (snd res) = (reg_n w + List.length js)%nat.
Proof.
  induction js as [|j js IH]; intros xcvr i w Hi Hnot Hc a res a'.
  - cbn in *. rewrite Z.lor_0_r, Nat.add_0_r. repeat split; reflexivity.
  - assert (Hne : i <> j) by (intros ->; apply Hnot; left; reflexivity).
    assert (Hnot' : ~ In i js) by (intros H; apply Hnot; right; exact H).
    destruct (xcvr_get_other xcvr j i w Hi Hne) as (A1 & A2 & A3 & A4 & A5).
    destruct (latch_fields (reg_at w 0) (Z.of_nat i) a) as (F1 & F2 & F3 & F4).
    specialize (F4 Hc).
    destruct (attribute_xcvr_get xcvr j w) as [[o xcvr1] w1] eqn:G.
    cbn [fst snd] in A1, A2, A3, A4, A5.
    assert (E : res = xcvr_gets xcvr1 js w1).
    { unfold res. cbn [xcvr_gets]. unfold bind. rewrite G. reflexivity. }
    unfold a'. rewrite E. clear E res a'.
    assert (Hi1 : (i < List.length (x_attr xcvr1))%nat) by lia.
    assert (Hc1 : x_clear_on_read (nth i (x_attr xcvr1) no_attr) <> 0)
      by (rewrite A3; fold a; rewrite F3; exact Hc).
    destruct (IH xcvr1 i w1 Hi1 Hnot' Hc1)
      as (B1 & B2 & B3 & B4 & B5 & B6 & B7 & B8).
    rewrite B1, B2, B3, B4, B5, B6, B7, B8, A1, A2, A3, A4, A5.
    fold a. rewrite F1, F2, F3, F4.
    rewrite <- Z.lor_assoc, (seen_shift w w1) by assumption.
    cbn [List.length]. repeat split; try reflexivity. lia.
Qed.

(** X21 (scd_xcvr_read_register, attribute_xcvr_get).  A clear-on-read
    attribute of a transceiver misses nothing: after shows of other
    attributes of the transceiver, its own show gives the OR of its
    latch, of its bit in every register value read by those shows, and
    of its bit as the show itself reads it; and the show clears the
    latch. *)
Theorem xcvr_latch_sticky (xcvr : scd_xcvr) (js : list nat) (i : nat)
    (w : world) :
  (i < List.length (x_attr xcvr))%nat ->
  ~ In i js ->
  let a := nth i (x_attr xcvr) no_attr in
  x_clear_on_read a <> 0 ->
  let n := List.length js in
  let before := xcvr_gets xcvr js w in
  let res := attribute_xcvr_get (fst before) i (snd before) in
  let now := bit_of (reg_at w n) (x_bit a) in
  fst (fst res) =
    show (sprintf_u_nl
            (Z.lor (Z.lor (x_clear_on_read_value a) (seen w (S n) (Z.of_nat i)))
                   (if negb (x_active_low a =? 0) then lnot01 now else now))) /\
  x_clear_on_read_value (nth i (x_attr (snd (fst res))) no_attr) = 0 /\
  reg_n (snd res) = (reg_n w + S n)%nat.
Proof.
  intros Hi Hnot a Hc n before res now.
  destruct (xcvr_gets_latch js xcvr i w Hi Hnot Hc)
    as (B1 & B2 & B3 & B4 & B5 & B6 & B7 & B8).
  fold before a in B1, B2, B3, B4, B5, B6, B7, B8.
  unfold res, attribute_xcvr_get, scd_xcvr_read_register, bind,
    scd_read_register, ret. cbn [fst snd x_attr x_addr].
  assert (R : u32 (reg_in (snd before) (reg_n (snd before))) = reg_at w n).
  { unfold reg_at. rewrite B7, B8. reflexivity. }
  rewrite R.
  assert (Hi' : (i < List.length (x_attr (fst before)))%nat) by lia.
  rewrite latch_from_nth by exact Hi'. cbn [Z.add].
  destruct (latch_fields (reg_at w n) (Z.of_nat i)
              (nth i (x_attr (fst before)) no_attr)) as (F1 & F2 & F3 & F4).
  rewrite B5 in F3, F4. specialize (F4 Hc).
  rewrite F1, F2, F3, F4, B3, B4, B6.
  destruct (Z.eqb_spec (x_clear_on_read a) 0) as [E|_]; [contradiction|].
  cbn [negb fst snd x_attr reg_n].
  rewrite assign_nth_same by (rewrite latch_from_length; exact Hi').
  cbn [x_clear_on_read_value seen]. fold n. fold now.
  repeat split; try reflexivity; try lia.
  rewrite <- !Z.lor_assoc. reflexivity.
Qed.

End XcvrLatch.

(* ================================================================== *)
(** ** The MII bus functions *)

Section MiiAddress.

Import Mii.

Lemma small_bits (d k n : Z) :
  0 <= d < 2 ^ k -> 0 <= k <= n -> Z.testbit d n = false.
Proof.
  intros Hd Hn. destruct (Z.eq_dec d 0) as [->|Hd0]; [apply Z.bits_0|].
  apply Z.bits_above_log2; [lia|].
  apply Z.lt_le_trans with k; [|lia]. apply Z.log2_lt_pow2; lia.
Qed.

Lemma mii_id_bits (p d mode n : Z) :
  0 <= n ->
  Z.testbit (scd_mdio_mii_id p d mode) n =
  (Z.testbit (Z.shiftl p 5) n || Z.testbit d n)
  || (negb (Z.land mode MDIO_SUPPORTS_C45 =? 0) && (n =? 15)).
Proof.
  intros Hn. unfold scd_mdio_mii_id.
  destruct (negb (Z.land mode MDIO_SUPPORTS_C45 =? 0)); cbn [andb].
  - rewrite !Z.lor_spec. f_equal.
    change MDIO_PHY_ID_C45 with (2 ^ 15). rewrite Z.pow2_bits_eqb by lia.
    apply Z.eqb_sym.
  - rewrite !Z.lor_spec, orb_false_r. reflexivity.
Qed.

(** X22 (scd_mdio_mii_id, scd_mii_bus_do).  The address that
    scd_mdio_mii_id builds from a port address below 1024 and a device
    address below 32, as scd_mii_bus_do takes it apart: the device
    address comes back, the clause is 1 exactly when the mode supports
    clause 45, and the port address comes back with 1024 added to it in
    that case; a register member of at most 10 bits gets the port
    address itself. *)
Theorem mii_address_round_trip (prtad devad mode : Z) (f : field) (reg : Z) :
  0 <= prtad < 1024 -> 0 <= devad < 32 -> 0 <= f_width f <= 10 ->
  let c45 := negb (Z.land mode MDIO_SUPPORTS_C45 =? 0) in
  let addr := scd_mdio_mii_id prtad devad mode in
  mii_devad addr = devad /\
  mii_clause addr = (if c45 then 1 else 0) /\
  mii_prtad addr = prtad + (if c45 then 1024 else 0) /\
  reg.[f := mii_prtad addr] = reg.[f := prtad].
Proof.
  intros Hp Hd Hf c45 addr.
  assert (Hdev : mii_devad addr = devad).
  { unfold mii_devad. apply Z.bits_inj'. intros n Hn.
    rewrite Z.land_spec. unfold addr. rewrite mii_id_bits by exact Hn.
    change 31 with (Z.ones 5). rewrite Z.testbit_ones_nonneg by lia.
    destruct (Z.ltb_spec n 5).
    - rewrite Z.shiftl_spec_low by lia.
      replace (n =? 15) with false by (symmetry; apply Z.eqb_neq; lia).
      rewrite andb_false_r, orb_false_r, andb_true_r. reflexivity.
    - rewrite andb_false_r. symmetry. apply (small_bits devad 5); lia. }
  assert (Hprt : mii_prtad addr = prtad + (if c45 then 1024 else 0)).
  { unfold mii_prtad.
    assert (E : prtad + (if c45 then 1024 else 0) =
                Z.lor prtad (if c45 then 2 ^ 10 else 0)).
    { destruct c45; [|rewrite Z.lor_0_r; lia].
      assert (L : Z.land prtad (2 ^ 10) = 0).
      { apply Z.bits_inj'. intros n Hn. rewrite Z.land_spec, Z.bits_0.
        rewrite Z.pow2_bits_eqb by lia.
        destruct (Z.eqb_spec 10 n) as [<-|_]; [|apply andb_false_r].
        rewrite (small_bits prtad 10) by lia. reflexivity. }
      rewrite <- (Z.lxor_lor _ _ L), <- (Z.add_nocarry_lxor _ _ L).
      reflexivity. }
    rewrite E. apply Z.bits_inj'. intros n Hn.
    rewrite Z.shiftr_spec by exact Hn. unfold addr.
    rewrite mii_id_bits by lia. rewrite Z.shiftl_spec by lia.
    replace (n + 5 - 5) with n by lia.
    rewrite (small_bits devad 5 (n + 5)) by lia. rewrite orb_false_r.
    rewrite Z.lor_spec. fold c45. f_equal.
    destruct c45; cbn [andb].
    - rewrite Z.pow2_bits_eqb by lia.
      destruct (Z.eqb_spec (n + 5) 15); destruct (Z.eqb_spec 10 n);
        try reflexivity; lia.
    - rewrite Z.bits_0. reflexivity. }
  assert (Hcl : mii_clause addr = if c45 then 1 else 0).
  { unfold mii_clause.
    assert (E : Z.land addr MDIO_PHY_ID_C45 = if c45 then 2 ^ 15 else 0).
    { apply Z.bits_inj'. intros n Hn. rewrite Z.land_spec. unfold addr.
      rewrite mii_id_bits by exact Hn. fold c45.
      change MDIO_PHY_ID_C45 with (2 ^ 15). rewrite Z.pow2_bits_eqb by lia.
      destruct (Z.eqb_spec 15 n) as [<-|Hne].
      - rewrite Z.shiftl_spec by lia. change (15 - 5) with 10.
        rewrite (small_bits prtad 10 10), (small_bits devad 5 15) by lia.
        cbn [orb]. rewrite Z.eqb_refl, andb_true_r.
        destruct c45; [|rewrite Z.bits_0; reflexivity].
        rewrite Z.pow2_bits_eqb by lia. reflexivity.
      - rewrite andb_false_r. destruct c45; [|rewrite Z.bits_0; reflexivity].
        rewrite Z.pow2_bits_eqb by lia. symmetry. apply Z.eqb_neq. exact Hne. }
    rewrite E. destruct c45; reflexivity. }
  repeat split; try assumption.
  rewrite Hprt. unfold set. do 2 f_equal.
  destruct c45; [|rewrite Z.add_0_r; reflexivity].
  rewrite !Z.land_ones by lia.
  replace 1024 with (2 ^ (10 - f_width f) * 2 ^ f_width f).
  - apply Z.mod_add. apply Z.pow_nonzero; lia.
  - rewrite <- Z.pow_add_r by lia. replace (10 - f_width f + f_width f) with 10 by lia.
    reflexivity.
Qed.

End MiiAddress.

Section MiiTransfer.

Import Mii.

Variable h : Mdio.scd_mdio_h.
Variable speed : Z.

(** The outcomes of one request, after [k] polls that found nothing. *)
Lemma mdio_request_cases (fuel : nat) (bus_id op clause prtad devad data : Z)
    (w : Mdio.world) (k : nat) :
  (k < fuel)%nat ->
  (forall j, (j < k)%nat ->
     Mdio.MDIO_WAIT_END h (Mdio.delay_at h j) = false /\
     (Mdio.cs_at w j).[Mdio.cs_res_count h] = 0) ->
  (Mdio.MDIO_WAIT_END h (Mdio.delay_at h k) = false ->
   (Mdio.cs_at w k).[Mdio.cs_res_count h] <> 0) ->
  let pre := Mdio.issued h speed w bus_id op clause prtad devad data ++
             Mdio.polls h w k in
  let c := Mdio.cs_at w k in
  let r := Mdio.resp_at w 0 in
  Mdio.scd_mdio_bus_request h speed fuel bus_id op clause prtad devad data w =
  if Mdio.MDIO_WAIT_END h (Mdio.delay_at h k) then
    (Some (- EAGAIN),
     Mdio.after w k 0 (pre ++ [Mdio.EvWarn "mdio wait_resp timeout"]))
  else if c.[Mdio.cs_res_count h] =? 1 then
    if Mdio.bad_response h r then
      (Some (- EIO),
       Mdio.after w (S k) 1
         (pre ++ [Mdio.EvReadCs c; Mdio.EvWriteCs (Mdio.irq_clear h speed);
                  Mdio.EvReadResp r;
                  Mdio.EvWarn "mdio bus request failed in reading resp"]))
    else
      (Some (if op =? Mdio.SCD_MDIO_READ h then r.[Mdio.resp_d h] else 0),
       Mdio.after w (S k) 1
         (pre ++ [Mdio.EvReadCs c; Mdio.EvWriteCs (Mdio.irq_clear h speed);
                  Mdio.EvReadResp r]))
  else
    (Some (- EOPNOTSUPP),
     Mdio.after w (S k) 0
       (pre ++ [Mdio.EvReadCs c; Mdio.EvWarn "mdio wait_resp failed"])).
Proof.
  intros Hf Hz Hk pre c r.
  unfold Mdio.scd_mdio_bus_request, Mdio.mdio_master_reset_interrupt,
    Mdio.mdio_master_write_cs, Mdio.mdio_master_get_req_id,
    Mdio.mdio_master_wait_response, Mdio.get_default_mdio_cs.
  cbv zeta. unfold bind at 1 2 3 4. unfold Mdio.emit at 1 2 3.
  cbn [Mdio.cs_in Mdio.cs_n Mdio.resp_in Mdio.resp_n Mdio.req_id Mdio.trace].
  set (w0 := Mdio.World (Mdio.cs_in w) (Mdio.resp_in w) (Mdio.cs_n w)
               (Mdio.resp_n w) (Mdio.req_id w + 1) _).
  assert (Hw0 : w0 = Mdio.World (Mdio.cs_in w) (Mdio.resp_in w) (Mdio.cs_n w)
                       (Mdio.resp_n w) (Mdio.req_id w + 1)
                       (Mdio.trace w ++
                        Mdio.issued h speed w bus_id op clause prtad devad data)).
  { subst w0. unfold Mdio.issued, Mdio.irq_clear. rewrite <- !app_assoc.
    reflexivity. }
  assert (Hcs : forall j, Mdio.cs_at w0 j = Mdio.cs_at w j).
  { intros j. rewrite Hw0. reflexivity. }
  unfold bind at 1.
  rewrite (wait_loop_spec h k fuel (Mdio.MDIO_WAIT_INITIAL h) w0 Hf).
  2:{ intros j Hj. rewrite Hcs. apply Hz. exact Hj. }
  2:{ rewrite Hcs. exact Hk. }
  cbv zeta. rewrite !Hcs. fold c.
  fold (Mdio.delay_at h k).
  assert (Hps : flat_map (fun j => [Mdio.EvReadCs (Mdio.cs_at w0 j);
                  Mdio.backoff h (Nat.iter j (Mdio.MDIO_WAIT_NEXT h)
                                    (Mdio.MDIO_WAIT_INITIAL h))]) (seq 0 k) =
                Mdio.polls h w k).
  { unfold Mdio.polls. apply flat_map_ext. intros j. rewrite Hcs. reflexivity. }
  rewrite Hps, Hw0.
  cbn [Mdio.cs_in Mdio.cs_n Mdio.resp_in Mdio.resp_n Mdio.req_id Mdio.trace].
  unfold Mdio.after. subst pre.
  destruct (Mdio.MDIO_WAIT_END h (Mdio.delay_at h k)).
  - change (negb (- EAGAIN =? 0)) with true. cbv iota. unfold ret.
    rewrite Nat.add_0_r, <- !app_assoc. reflexivity.
  - destruct (c.[Mdio.cs_res_count h] =? 1).
    + cbn [negb Z.eqb]. unfold bind, Mdio.emit, Mdio.mdio_read_resp.
      cbn [Mdio.cs_in Mdio.cs_n Mdio.resp_in Mdio.resp_n Mdio.req_id Mdio.trace].
      assert (Hr : u32 (Mdio.resp_in w (Mdio.resp_n w)) = r).
      { subst r. unfold Mdio.resp_at. rewrite Nat.add_0_r. reflexivity. }
      rewrite Hr. fold (Mdio.irq_clear h speed).
      unfold Mdio.bad_response.
      destruct (negb (r.[Mdio.resp_ts h] =? 1) || (r.[Mdio.resp_fe h] =? 1)).
      * unfold ret.
        cbn [Mdio.cs_in Mdio.cs_n Mdio.resp_in Mdio.resp_n Mdio.req_id Mdio.trace].
        rewrite <- !app_assoc. cbn [app]. do 2 f_equal. lia.
      * destruct (op =? Mdio.SCD_MDIO_READ h); unfold ret;
          rewrite <- !app_assoc; cbn [app]; do 2 f_equal; lia.
    + change (negb (- EOPNOTSUPP =? 0)) with true. cbv iota. unfold ret.
      rewrite Nat.add_0_r, <- !app_assoc. reflexivity.
Qed.


Lemma mdio_after_cs_at (w : Mdio.world) (n r : nat) (l : list Mdio.event) (j : nat) :
  Mdio.cs_at (Mdio.after w n r l) j = Mdio.cs_at w (n + j).
Proof.
  unfold Mdio.cs_at, Mdio.after. cbn [Mdio.cs_in Mdio.cs_n].
  do 2 f_equal. lia.
Qed.

Lemma mdio_after_resp_at (w : Mdio.world) (n r : nat) (l : list Mdio.event) (j : nat) :
  Mdio.resp_at (Mdio.after w n r l) j = Mdio.resp_at w (r + j).
Proof.
  unfold Mdio.resp_at, Mdio.after. cbn [Mdio.resp_in Mdio.resp_n].
  do 2 f_equal. lia.
Qed.

(** X23 (scd_mii_bus_do, scd_mii_bus_read, scd_mii_bus_write).  A
    transfer on the MII bus is two requests to the engine with the same
    clause, port and device address: first a SET request that carries
    the register number, then the operation itself with the value.
    When the result of the first is ready after [k1] polls and that of
    the second after [k2] more, and both responses are good, a read
    returns the data of the second response and a write returns 0; the
    second request has the next request id. *)
Theorem mii_transfer (fuel : nat) (bus_id addr op regnum val : Z)
    (w : Mdio.world) (k1 k2 : nat) :
  Mdio.SCD_MDIO_SET h <> Mdio.SCD_MDIO_READ h ->
  (k1 < fuel)%nat -> (k2 < fuel)%nat ->
  (forall j, (j <= k1)%nat ->
     Mdio.MDIO_WAIT_END h (Mdio.delay_at h j) = false /\
     (Mdio.cs_at w j).[Mdio.cs_res_count h] = if (j <? k1)%nat then 0 else 1) ->
  Mdio.bad_response h (Mdio.resp_at w 0) = false ->
  (forall j, (j <= k2)%nat ->
     Mdio.MDIO_WAIT_END h (Mdio.delay_at h j) = false /\
     (Mdio.cs_at w (S k1 + j)).[Mdio.cs_res_count h] =
       if (j <? k2)%nat then 0 else 1) ->
  Mdio.bad_response h (Mdio.resp_at w 1) = false ->
  let clause := mii_clause addr in
  let prtad := mii_prtad addr in
  let devad := mii_devad addr in
  let ready w k :=
    [Mdio.EvReadCs (Mdio.cs_at w k); Mdio.EvWriteCs (Mdio.irq_clear h speed);
     Mdio.EvReadResp (Mdio.resp_at w 0)] in
  let w1 :=
    Mdio.after w (S k1) 1
      (Mdio.issued h speed w bus_id (Mdio.SCD_MDIO_SET h) clause prtad devad
         (u16 regnum) ++ Mdio.polls h w k1 ++ ready w k1) in
  let w2 :=
    Mdio.after w1 (S k2) 1
      (Mdio.issued h speed w1 bus_id op clause prtad devad (u16 val) ++
       Mdio.polls h w1 k2 ++ ready w1 k2) in
  scd_mii_bus_do h speed fuel bus_id addr op regnum val w =
    (Some (if op =? Mdio.SCD_MDIO_READ h
           then (Mdio.resp_at w 1).[Mdio.resp_d h] else 0), w2) /\
  Mdio.req_id w1 = Mdio.req_id w + 1 /\
  Mdio.req_id w2 = Mdio.req_id w + 2.
Proof.
  intros Hset Hf1 Hf2 H1 Hr1 H2 Hr2 clause prtad devad ready w1 w2.
  split; [|split; [reflexivity|unfold w2, w1, Mdio.after; cbn [Mdio.req_id]; lia]].
  unfold scd_mii_bus_do. fold clause prtad devad. unfold bind at 1.
  rewrite (mdio_request_cases fuel bus_id (Mdio.SCD_MDIO_SET h) clause prtad
             devad (u16 regnum) w k1 Hf1).
  2:{ intros j Hj. destruct (H1 j ltac:(lia)) as (A & B).
      destruct (Nat.ltb_spec j k1); [auto|lia]. }
  2:{ intros _. destruct (H1 k1 ltac:(lia)) as (_ & B).
      rewrite Nat.ltb_irrefl in B. rewrite B. discriminate. }
  cbv zeta.
  destruct (H1 k1 ltac:(lia)) as (E1 & C1). rewrite Nat.ltb_irrefl in C1.
  rewrite E1, C1, Hr1. cbn [Z.eqb Pos.eqb].
  replace (Mdio.SCD_MDIO_SET h =? Mdio.SCD_MDIO_READ h) with false
    by (symmetry; apply Z.eqb_neq; exact Hset).
  cbn [negb Z.eqb]. cbv iota.
  rewrite <- app_assoc. fold (ready w k1). fold w1.
  rewrite (mdio_request_cases fuel bus_id op clause prtad devad (u16 val) w1 k2 Hf2).
  2:{ intros j Hj. destruct (H2 j ltac:(lia)) as (A & B).
      destruct (Nat.ltb_spec j k2); [|lia]. split; [exact A|].
      unfold w1. rewrite mdio_after_cs_at. exact B. }
  2:{ intros _. unfold w1. rewrite mdio_after_cs_at.
      destruct (H2 k2 ltac:(lia)) as (_ & B).
      rewrite Nat.ltb_irrefl in B. rewrite B. discriminate. }
  cbv zeta.
  destruct (H2 k2 ltac:(lia)) as (E2 & C2). rewrite Nat.ltb_irrefl in C2.
  assert (C2' : (Mdio.cs_at w1 k2).[Mdio.cs_res_count h] = 1).
  { unfold w1. rewrite mdio_after_cs_at. exact C2. }
  assert (R2 : Mdio.resp_at w1 0 = Mdio.resp_at w 1).
  { unfold w1. rewrite mdio_after_resp_at. reflexivity. }
  assert (Hr2' : Mdio.bad_response h (Mdio.resp_at w1 0) = false)
    by (rewrite R2; exact Hr2).
  rewrite E2, C2', Hr2'. cbn [Z.eqb Pos.eqb].
  rewrite R2 at 1. unfold w2. rewrite <- app_assoc. reflexivity.
Qed.

(** X24 (scd_mii_bus_do).  When the SET request fails, the operation
    is never issued: the transfer returns the error of the SET request
    (-EAGAIN when the wait is over, -EIO for a bad response, -EOPNOTSUPP
    for a result count that is neither 0 nor 1), one request has been
    written and one request id used. *)
Theorem mii_transfer_aborts (fuel : nat) (bus_id addr op regnum val : Z)
    (w : Mdio.world) (k : nat) :
  (k < fuel)%nat ->
  (forall j, (j < k)%nat ->
     Mdio.MDIO_WAIT_END h (Mdio.delay_at h j) = false /\
     (Mdio.cs_at w j).[Mdio.cs_res_count h] = 0) ->
  (Mdio.MDIO_WAIT_END h (Mdio.delay_at h k) = false ->
   (Mdio.cs_at w k).[Mdio.cs_res_count h] <> 0 /\
   ((Mdio.cs_at w k).[Mdio.cs_res_count h] = 1 ->
    Mdio.bad_response h (Mdio.resp_at w 0) = true)) ->
  let pre :=
    Mdio.issued h speed w bus_id (Mdio.SCD_MDIO_SET h) (mii_clause addr)
      (mii_prtad addr) (mii_devad addr) (u16 regnum) ++ Mdio.polls h w k in
  let c := Mdio.cs_at w k in
  scd_mii_bus_do h speed fuel bus_id addr op regnum val w =
  if Mdio.MDIO_WAIT_END h (Mdio.delay_at h k) then
    (Some (- EAGAIN),
     Mdio.after w k 0 (pre ++ [Mdio.EvWarn "mdio wait_resp timeout"]))
  else if c.[Mdio.cs_res_count h] =? 1 then
    (Some (- EIO),
     Mdio.after w (S k) 1
       (pre ++ [Mdio.EvReadCs c; Mdio.EvWriteCs (Mdio.irq_clear h speed);
                Mdio.EvReadResp (Mdio.resp_at w 0);
                Mdio.EvWarn "mdio bus request failed in reading resp"]))
  else
    (Some (- EOPNOTSUPP),
     Mdio.after w (S k) 0
       (pre ++ [Mdio.EvReadCs c; Mdio.EvWarn "mdio wait_resp failed"])).
Proof.
  intros Hf Hz Hk pre c.
  unfold scd_mii_bus_do. unfold bind at 1.
  rewrite (mdio_request_cases fuel bus_id (Mdio.SCD_MDIO_SET h) (mii_clause addr)
             (mii_prtad addr) (mii_devad addr) (u16 regnum) w k Hf Hz).
  2:{ intros He. apply Hk. exact He. }
  cbv zeta. fold pre c.
  destruct (Mdio.MDIO_WAIT_END h (Mdio.delay_at h k)) eqn:He; [reflexivity|].
  destruct (Hk eq_refl) as (_ & Hbad). fold c in Hbad.
  destruct (Z.eqb_spec (c.[Mdio.cs_res_count h]) 1) as [E|_]; [|reflexivity].
  rewrite (Hbad E). reflexivity.
Qed.

End MiiTransfer.

(* ================================================================== *)
(** ** Adding an SMBus master *)

Section MasterAdd.

Lemma bus_add_loop_ok (env : nat -> bus_env) (n : nat) :
  forall (i : nat) (master : scd_smbus_master),
  (forall j, (i <= j < i + n)%nat ->
     be_kzalloc (env j) = true /\ be_err (env j) = 0) ->
  bus_add_loop n i env master =
  (0, ScdSmbusMaster (m_id master) (m_br_supported master) (m_max_retries master)
        (m_bus_list master ++
         map (fun j => ScdSmbus (Z.of_nat j) (be_nr (env j)) []) (seq i n))).
Proof.
  induction n as [|n IH]; intros i master H.
  - cbn. rewrite app_nil_r. destruct master; reflexivity.
  - cbn [bus_add_loop seq map]. unfold scd_smbus_bus_add.
    destruct (H i ltac:(lia)) as (A & B). rewrite A, B. cbn [negb Z.eqb].
    rewrite IH by (intros j Hj; apply H; lia).
    cbn [m_id m_br_supported m_max_retries m_bus_list].
    rewrite <- app_assoc. reflexivity.
Qed.

Lemma bus_add_loop_fails (env : nat -> bus_env) (n : nat) :
  forall (i k : nat) (master : scd_smbus_master),
  (k < n)%nat ->
  (forall j, (i <= j < i + k)%nat ->
     be_kzalloc (env j) = true /\ be_err (env j) = 0) ->
  be_kzalloc (env (i + k)%nat) = false \/ be_err (env (i + k)%nat) <> 0 ->
  fst (bus_add_loop n i env master) =
  if be_kzalloc (env (i + k)%nat) then be_err (env (i + k)%nat) else - ENOMEM.
Proof.
  induction n as [|n IH]; intros i k master Hk H Hbad; [lia|].
  cbn [bus_add_loop]. unfold scd_smbus_bus_add.
  destruct k as [|k].
  - rewrite Nat.add_0_r in *.
    destruct (be_kzalloc (env i)); cbn [negb]; [|reflexivity].
    destruct Hbad as [Hbad|Hbad]; [discriminate|].
    destruct (Z.eqb_spec (be_err (env i)) 0); [contradiction|].
    cbn [negb]. destruct (Z.eqb_spec (be_err (env i)) 0); [contradiction|].
    reflexivity.
  - destruct (H i ltac:(lia)) as (A & B). rewrite A, B. cbn [negb Z.eqb].
    replace (i + S k)%nat with (S i + k)%nat in * by lia.
    apply IH; [lia| |exact Hbad].
    intros j Hj. apply H. lia.
Qed.

Lemma smbus_master_reset_run (w : world) :
  smbus_master_reset w =
  (tt, World (cs_in w) (resp_in w) (S (cs_n w)) (resp_n w) (data w)
         (trace w ++ reset_trace (cs_at w 0))).
Proof.
  unfold smbus_master_reset, bind, smbus_master_read_cs, smbus_master_write_cs,
    mdelay, emit, reset_trace, cs_at.
  cbn [cs_in resp_in cs_n resp_n data trace]. rewrite Nat.add_0_r.
  rewrite <- !app_assoc. reflexivity.
Qed.

Lemma bus_add_loop_id (env : nat -> bus_env) (n : nat) :
  forall (i : nat) (master : scd_smbus_master),
  m_id (snd (bus_add_loop n i env master)) = m_id master.
Proof.
  induction n as [|n IH]; intros i master; [reflexivity|].
  cbn [bus_add_loop]. unfold scd_smbus_bus_add.
  destruct (negb (be_kzalloc (env i))); [reflexivity|].
  destruct (negb (be_err (env i) =? 0)) eqn:E; [rewrite E; reflexivity|].
  cbn [negb Z.eqb]. rewrite IH. reflexivity.
Qed.

Lemma NoDup_snoc {A} (l : list A) (x : A) :
  NoDup l -> ~ In x l -> NoDup (l ++ [x]).
Proof.
  induction l as [|a l IH]; intros Hnd Hx; cbn.
  - constructor; [intros []|constructor].
  - inversion Hnd; subst. constructor.
    + rewrite in_app_iff. intros [H|[H|[]]]; [contradiction|].
      subst. apply Hx. left. reflexivity.
    + apply IH; [assumption|]. intros H. apply Hx. right. exact H.
Qed.

Lemma existsb_id (l : list scd_smbus_master) (id : Z) :
  existsb (fun master => m_id master =? id) l = true <-> In id (map m_id l).
Proof.
  rewrite existsb_exists, in_map_iff. split.
  - intros (m & Hin & E). apply Z.eqb_eq in E. exists m. auto.
  - intros (m & E & Hin). exists m. split; [exact Hin|apply Z.eqb_eq; exact E].
Qed.

(** X25 (scd_smbus_master_add, scd_smbus_bus_add).  Adding a master
    whose id is not in the registry, when every allocation and every
    i2c_add_adapter succeeds: the master is reset, then the
    control/status register is read once more and block reads in
    hardware are enabled exactly when its version field is 2 or 3; the
    master goes to the end of the registry with its buses numbered
    0 .. bus_count - 1 in order, each with the adapter number the
    kernel gave and no override; the result is 0. *)
Theorem master_add_success (env : nat -> bus_env) (max_retries : Z)
    (ctx : scd_context) (addr id bus_count : Z) (w : world) :
  ~ In id (map m_id (smbus_master_list ctx)) ->
  (forall j, (j < Z.to_nat bus_count)%nat ->
     be_kzalloc (env j) = true /\ be_err (env j) = 0) ->
  let master :=
    ScdSmbusMaster id (2 <=? (cs_at w 1).[Cs.ver]) max_retries
      (map (fun j => ScdSmbus (Z.of_nat j) (be_nr (env j)) [])
           (seq 0 (Z.to_nat bus_count))) in
  scd_smbus_master_add true env max_retries ctx addr id bus_count w =
  (Returns 0 (ScdContext (res_size ctx) (initialized ctx)
                (smbus_master_list ctx ++ [master])),
   World (cs_in w) (resp_in w) (cs_n w + 2) (resp_n w) (data w)
     (trace w ++ reset_trace (cs_at w 0) ++ [EvReadCs (cs_at w 1)])).
Proof.
  intros Hfresh Henv master. unfold scd_smbus_master_add.
  destruct (existsb _ (smbus_master_list ctx)) eqn:E;
    [apply existsb_id in E; contradiction|].
  cbn [negb]. rewrite bus_add_loop_ok by (intros j Hj; apply Henv; lia).
  cbn [negb Z.eqb m_id m_max_retries m_bus_list m_br_supported app].
  unfold bind at 1. rewrite smbus_master_reset_run.
  unfold bind, smbus_master_read_cs, ret. cbn [cs_in resp_in cs_n resp_n data trace].
  assert (C : u32 (cs_in w (S (cs_n w))) = cs_at w 1).
  { unfold cs_at. do 2 f_equal. lia. }
  rewrite C. unfold master. rewrite <- app_assoc.
  do 2 f_equal. f_equal. lia.
Qed.

(** X26 (scd_smbus_master_add).  The function keeps the ids of the
    registered masters pairwise distinct on every path that does not go
    through fail_bus: an id that is registered is refused with -EEXIST
    before anything else is done; -EEXIST and the -ENOMEM of the master
    itself leave the registry as it was and the hardware untouched; and
    success appends a master whose id is new.  The only other outcome
    is fail_bus, reached with a nonzero error: there the hardware has
    been touched, by exactly one reset of the master, before list_del
    on the master that was never linked and [return err] (what list_del
    does to the lists is kernel code, which is not modelled). *)
Theorem master_add_ids_distinct (kz : bool) (env : nat -> bus_env)
    (max_retries : Z) (ctx : scd_context) (addr id bus_count : Z) (w : world) :
  NoDup (map m_id (smbus_master_list ctx)) ->
  let res := scd_smbus_master_add kz env max_retries ctx addr id bus_count w in
  (In id (map m_id (smbus_master_list ctx)) ->
   res = (Returns (- EEXIST) ctx, w)) /\
  match fst res with
  | Returns err ctx' =>
      NoDup (map m_id (smbus_master_list ctx')) /\
      (err <> 0 ->
       (err = - EEXIST \/ err = - ENOMEM) /\ ctx' = ctx /\ snd res = w)
  | UnlinksNewMaster err =>
      err <> 0 /\
      snd res = World (cs_in w) (resp_in w) (S (cs_n w)) (resp_n w) (data w)
                  (trace w ++ reset_trace (cs_at w 0))
  end.
Proof.
  intros Hnd res. subst res. unfold scd_smbus_master_add. split.
  - intros Hin. apply existsb_id in Hin. rewrite Hin. reflexivity.
  - destruct (existsb _ (smbus_master_list ctx)) eqn:E.
    { cbn. split; [exact Hnd|]. intros _. auto. }
    destruct kz; cbn [negb]; [|cbn; split; [exact Hnd|]; intros _; auto].
    pose proof (bus_add_loop_id env (Z.to_nat bus_count) 0
                  (ScdSmbusMaster id false max_retries [])) as Hid.
    destruct (bus_add_loop (Z.to_nat bus_count) 0 env _) as [e master].
    cbn [snd m_id] in Hid.
    destruct (Z.eqb_spec e 0) as [->|Hne]; cbn [negb].
    + unfold bind at 1. rewrite smbus_master_reset_run.
      unfold bind, smbus_master_read_cs, ret. cbn [fst snd smbus_master_list].
      split; [|intros Hc; contradiction].
      rewrite map_app. cbn [map m_id].
      apply NoDup_snoc; [exact Hnd|]. intros Hin. rewrite Hid in Hin.
      apply existsb_id in Hin. congruence.
    + unfold bind. rewrite smbus_master_reset_run. cbn [fst snd ret].
      split; [exact Hne|reflexivity].
Qed.

(** X27 (scd_smbus_master_add, scd_smbus_master_remove).  When a bus
    of a new master cannot be added (no memory, or i2c_add_adapter
    fails), with the buses before it added: the function goes to
    fail_bus, where scd_smbus_master_remove resets the master and then
    unlinks it from a list it was never put in.  The error involved is
    that of the bus; the hardware has seen the reset and nothing
    else. *)
Theorem master_add_bus_failure (env : nat -> bus_env) (max_retries : Z)
    (ctx : scd_context) (addr id bus_count : Z) (w : world) (k : nat) :
  ~ In id (map m_id (smbus_master_list ctx)) ->
  (k < Z.to_nat bus_count)%nat ->
  (forall j, (j < k)%nat -> be_kzalloc (env j) = true /\ be_err (env j) = 0) ->
  be_kzalloc (env k) = false \/ be_err (env k) <> 0 ->
  scd_smbus_master_add true env max_retries ctx addr id bus_count w =
  (UnlinksNewMaster (if be_kzalloc (env k) then be_err (env k) else - ENOMEM),
   World (cs_in w) (resp_in w) (S (cs_n w)) (resp_n w) (data w)
     (trace w ++ reset_trace (cs_at w 0))).
Proof.
  intros Hfresh Hk Hok Hbad. unfold scd_smbus_master_add.
  destruct (existsb _ (smbus_master_list ctx)) eqn:E;
    [apply existsb_id in E; contradiction|].
  cbn [negb].
  pose proof (bus_add_loop_fails env (Z.to_nat bus_count) 0 k
                (ScdSmbusMaster id false max_retries []) Hk) as Hf.
  cbn [Nat.add] in Hf. specialize (Hf ltac:(intros j Hj; apply Hok; lia) Hbad).
  destruct (bus_add_loop (Z.to_nat bus_count) 0 env _) as [e master].
  cbn [fst] in Hf. subst e.
  assert (Hne : negb ((if be_kzalloc (env k) then be_err (env k) else - ENOMEM)
                      =? 0) = true).
  { apply negb_true_iff, Z.eqb_neq.
    destruct (be_kzalloc (env k)); [|unfold ENOMEM; lia].
    destruct Hbad as [Hbad|Hbad]; [discriminate|exact Hbad]. }
  rewrite Hne. unfold bind. rewrite smbus_master_reset_run. reflexivity.
Qed.

End MasterAdd.


(* ================================================================== *)
(** ** Showing the overrides *)

Section Dump.

Local Open Scope string_scope.

Lemma substring_short (n : nat) (a : string) :
  (String.length a <= n)%nat -> substring 0 n a = a.
Proof.
  revert n. induction a as [|c a IH]; intros [|n] H; cbn in *; try reflexivity;
    try lia.
  rewrite IH by lia. reflexivity.
Qed.

Lemma substring_app (n : nat) (a b : string) :
  substring 0 n (a ++ b) = substring 0 n a ++ substring 0 (n - String.length a) b.
Proof.
  revert n. induction a as [|c a IH]; intros n; cbn [append String.length].
  - rewrite Nat.sub_0_r. destruct n; [destruct b|]; reflexivity.
  - destruct n as [|n]; cbn [substring append].
    + destruct b; reflexivity.
    + rewrite IH. reflexivity.
Qed.

Lemma substring_length (n : nat) (a : string) :
  String.length (substring 0 n a) = Nat.min n (String.length a).
Proof.
  revert n. induction a as [|c a IH]; intros [|n]; cbn; try reflexivity.
  rewrite IH. reflexivity.
Qed.

Lemma dump_step (max : Z) (L t : string) :
  (1 <= max)%Z ->
  let count := snd (dumped max L) in
  let out := scnprintf (max - count) t in
  (fst (dumped max L) ++ out, (count + Z.of_nat (String.length out))%Z) =
    dumped max (L ++ t) /\
  ((count + Z.of_nat (String.length out))%Z =? max)%Z = false.
Proof.
  intros Hmax count out. unfold dumped in *. cbn [fst snd] in *.
  set (m := Z.to_nat (max - 1)).
  assert (Hm : Z.of_nat m = (max - 1)%Z) by (unfold m; lia).
  rewrite length_append, substring_app.
  destruct (Nat.le_gt_cases m (String.length L)) as [Hfull|Hroom].
  - (* the buffer is full *)
    assert (Hc : count = (max - 1)%Z) by (unfold count; lia).
    assert (Ho : out = EmptyString).
    { unfold out, scnprintf. rewrite Hc.
      replace (max - (max - 1))%Z with 1%Z by lia.
      destruct (Z.ltb_spec (Z.of_nat (String.length t)) 1).
      - destruct t; [reflexivity|cbn in *; lia].
      - cbn. destruct t; reflexivity. }
    rewrite Ho. cbn [String.length]. rewrite append_nil.
    replace (m - String.length L)%nat with 0%nat by lia.
    replace (substring 0 0 t) with EmptyString by (destruct t; reflexivity).
    rewrite append_nil. split; [f_equal; lia|]. apply Z.eqb_neq. lia.
  - (* there is room *)
    assert (Hc : count = Z.of_nat (String.length L)) by (unfold count; lia).
    rewrite (substring_short m L) by lia.
    unfold out, scnprintf. rewrite Hc.
    destruct (Z.ltb_spec (Z.of_nat (String.length t))
                (max - Z.of_nat (String.length L))) as [Hfits|Hcut].
    + rewrite (substring_short _ t) by lia.
      split; [f_equal; lia|]. apply Z.eqb_neq. lia.
    + destruct (Z.eqb_spec (max - Z.of_nat (String.length L)) 0) as [E|_];
        [lia|]. cbn [negb].
      replace (Z.to_nat (max - Z.of_nat (String.length L) - 1))
        with (m - String.length L)%nat by lia.
      rewrite substring_length.
      split; [f_equal; lia|]. apply Z.eqb_neq. lia.
Qed.

Lemma concat_app (l1 l2 : list string) :
  String.concat EmptyString (l1 ++ l2) =
  String.concat EmptyString l1 ++ String.concat EmptyString l2.
Proof.
  induction l1 as [|a l1 IH]; [reflexivity|].
  cbn [app]. destruct l1 as [|b l1].
  - cbn [app String.concat]. destruct l2 as [|c l2].
    + cbn. rewrite append_nil. reflexivity.
    + cbn [String.concat append]. reflexivity.
  - cbn [app String.concat append] in *. rewrite IH, append_assoc. reflexivity.
Qed.

Lemma concat_cons (a : string) (l : list string) :
  String.concat EmptyString (a :: l) = a ++ String.concat EmptyString l.
Proof. apply (concat_app [a] l). Qed.

Lemma dump_params_all (max : Z) (master : scd_smbus_master) (bus : scd_smbus)
    (l : list bus_params) :
  (1 <= max)%Z -> forall L,
  dump_params max master bus l (dumped max L) =
  inl (dumped max (L ++ String.concat EmptyString
                          (map (tweak_text master bus) l))).
Proof.
  intros Hmax. induction l as [|p l IH]; intros L.
  - cbn. rewrite append_nil. reflexivity.
  - cbn [dump_params map]. rewrite concat_cons, <- append_assoc.
    destruct (dump_step max L (tweak_text master bus p) Hmax) as (A & B).
    destruct (dumped max L) as [buf count] eqn:E. cbn [fst snd] in A, B.
    rewrite B, A. apply IH.
Qed.

Lemma dump_buses_all (max : Z) (master : scd_smbus_master) (l : list scd_smbus) :
  (1 <= max)%Z -> forall L,
  dump_buses max master l (dumped max L) =
  inl (dumped max (L ++ String.concat EmptyString
                     (flat_map (fun bus => map (tweak_text master bus)
                                             (bus_params_list bus)) l))).
Proof.
  intros Hmax. induction l as [|b l IH]; intros L.
  - cbn. rewrite append_nil. reflexivity.
  - cbn [dump_buses flat_map]. rewrite dump_params_all by exact Hmax.
    rewrite IH, concat_app, append_assoc. reflexivity.
Qed.

Lemma dump_masters_all (max : Z) (l : list scd_smbus_master) :
  (1 <= max)%Z -> forall L,
  dump_masters max l (dumped max L) =
  inl (dumped max (L ++ String.concat EmptyString
                     (flat_map (fun master =>
                        flat_map (fun bus => map (tweak_text master bus)
                                                (bus_params_list bus))
                                 (m_bus_list master)) l))).
Proof.
  intros Hmax. induction l as [|m l IH]; intros L.
  - cbn. rewrite append_nil. reflexivity.
  - cbn [dump_masters flat_map]. rewrite dump_buses_all by exact Hmax.
    rewrite IH, concat_app, append_assoc. reflexivity.
Qed.

(** X28 (scd_dump_smbus_tweaks, show_smbus_tweaks).  The dump of the
    overrides into a buffer of [max] bytes, [max] at least 1: the text
    is that of all overrides in the order of the registry, cut after
    [max - 1] characters, and the result is its length; so the result
    is below [max], and the return inside the loops is never taken.
    The show function does this with a page. *)
Theorem dump_is_truncated (ctx : scd_context) (max : Z) :
  (1 <= max)%Z ->
  scd_dump_smbus_tweaks ctx max =
    (Z.min (Z.of_nat (String.length (all_tweaks ctx))) (max - 1),
     substring 0 (Z.to_nat (max - 1)) (all_tweaks ctx)) /\
  dump_masters max (smbus_master_list ctx) (EmptyString, 0%Z) =
    inl (substring 0 (Z.to_nat (max - 1)) (all_tweaks ctx),
         Z.min (Z.of_nat (String.length (all_tweaks ctx))) (max - 1)) /\
  show_smbus_tweaks (Some ctx) =
    (Z.min (Z.of_nat (String.length (all_tweaks ctx))) 4095,
     substring 0 4095 (all_tweaks ctx)).
Proof.
  intros Hmax.
  assert (E0 : (EmptyString, 0%Z) = dumped max EmptyString).
  { unfold dumped. cbn [String.length]. f_equal; [|lia].
    destruct (Z.to_nat (max - 1)); reflexivity. }
  assert (E : dump_masters max (smbus_master_list ctx) (EmptyString, 0%Z) =
              inl (dumped max (all_tweaks ctx))).
  { rewrite E0, dump_masters_all by exact Hmax. reflexivity. }
  split; [unfold scd_dump_smbus_tweaks; rewrite E; reflexivity|].
  split; [rewrite E; reflexivity|].
  unfold show_smbus_tweaks, scd_dump_smbus_tweaks.
  assert (E1 : (EmptyString, 0%Z) = dumped PAGE_SIZE EmptyString) by reflexivity.
  rewrite E1, dump_masters_all by (unfold PAGE_SIZE; lia). reflexivity.
Qed.

End Dump.

(* ================================================================== *)
(** ** The exchanges of a call: requests, first failure, reset *)

Section Exchanges.

Lemma overflows_byte_data (rw data_size i : Z) :
  overflows rw I2C_SMBUS_BYTE_DATA data_size i = false.
Proof.
  unfold overflows.
  change (I2C_SMBUS_BYTE_DATA =? I2C_SMBUS_BYTE_DATA) with true.
  rewrite orb_true_r. cbn [negb]. rewrite andb_false_r. reflexivity.
Qed.

Lemma nth_map_ti (vs : list Z) (j : nat) :
  nth j (map (get Req.ti) vs) 0 = (nth j vs 0).[Req.ti].
Proof. change 0 with (get Req.ti 0) at 1. apply map_nth. Qed.

Lemma exchange_ids_intro (n : Z) (vs : list Z) :
  List.length vs = Z.to_nat n ->
  (forall j, (j < Z.to_nat n)%nat -> (nth j vs 0).[Req.ti] = Z.of_nat j mod 16) ->
  exchange_ids n (map (get Req.ti) vs).
Proof.
  intros Hlen Hti. unfold exchange_ids. rewrite length_map, Hlen.
  split; [reflexivity|].
  assert (H : forall j, (j < Z.to_nat n)%nat ->
                nth j (map (get Req.ti) vs) 0 = Z.of_nat j mod 16).
  { intros j Hj. rewrite nth_map_ti. apply Hti. exact Hj. }
  split; [exact H|].
  intros Hn j Hj. rewrite length_map, Hlen in Hj.
  rewrite (H j Hj). apply Z.mod_small. lia.
Qed.

(** One exchange: its requests, and how it ends. *)
Lemma exchange_run params addr rw command size data_size ss off req0 fr w :
  req0.[Req.ti] = 0 -> req0.[Req.dat] = 0 -> req0.[Req.ed] = 0 -> 0 <= ss ->
  let res := exchange params addr rw command size data_size ss off req0 fr w in
  exists (l : list event) (k : nat),
    run w (snd res) l /\
    exchange_ids ss (map (get Req.ti) (reqs l)) /\
    Forall (fun v => v.[Req.t] = req0.[Req.t]) (reqs l) /\
    exchange_widths params rw ss (reqs l) /\
    (forall j, (j < k)%nat ->
       resp_ok (resp_at w j) (Z.of_nat j mod 16) = true /\
       overflows rw size data_size (Z.of_nat j) = false) /\
    ((k = Z.to_nat ss /\ fst res = (0, fr) /\ List.length (resps l) = k) \/
     ((k < Z.to_nat ss)%nat /\
      resp_ok (resp_at w k) (Z.of_nat k mod 16) = false /\
      fst (fst res) = - EIO /\
      exists pre cs, l = pre ++ [EvReadResp (resp_at w k)] ++ reset_trace cs /\
                     List.length (resps pre) = k) \/
     ((k < Z.to_nat ss)%nat /\
      resp_ok (resp_at w k) (Z.of_nat k mod 16) = true /\
      overflows rw size data_size (Z.of_nat k) = true /\
      fst (fst res) = - EINVAL)).
Proof.
  intros Hti Hdat Hed Hss res.
  destruct (exchange_spec params addr rw command size data_size ss off req0 fr w
              Hti Hdat Hed Hss)
    as (vs & k & lr & tail & Hrun & Hlen & Hvti & Hvt & Hlast & Hreq & Hk &
        Hall & _ & Hout).
  fold res in Hrun, Hout.
  exists (map EvWriteReq vs ++ lr ++ tail), k.
  assert (Htail : reqs tail = [] /\ resps tail = []).
  { destruct Hout as [(_ & _ & _ & ->) | [(_ & _ & _ & _ & ? & ? & _ & ->) |
                       (_ & _ & _ & _ & _ & ? & ? & _ & ->)]]; split; reflexivity. }
  destruct Htail as (Htq & Htr).
  destruct (reqs_map_write vs) as (Hm & Hm2 & _).
  assert (Hrq : reqs (map EvWriteReq vs ++ lr ++ tail) = vs).
  { rewrite !reqs_app, Hm, Hreq, Htq, !app_nil_r. reflexivity. }
  assert (Hrs : resps (map EvWriteReq vs ++ lr ++ tail) = resps lr).
  { rewrite !resps_app, Hm2, Htr, app_nil_r. reflexivity. }
  rewrite Hrq, Hrs.
  split; [exact Hrun|]. split; [apply exchange_ids_intro; assumption|].
  split; [exact Hvt|]. split.
  { unfold exchange_widths. rewrite Hlen. split; [reflexivity|exact Hlast]. }
  split; [exact Hall|].
  destruct Hout as [(A & B & C & D) | [(A & B & C & D & pre & cs & E & F) |
                     (A & B & C & D & _)]].
  - left. auto.
  - right. left. split; [exact A|]. split; [exact B|]. split; [exact C|].
    exists (map EvWriteReq vs ++ pre), cs. split.
    + rewrite E, F, <- !app_assoc. reflexivity.
    + rewrite resps_app, Hm2. cbn [app].
      rewrite E, resps_app, length_app in D. cbn in D. lia.
  - right. right. rewrite D. auto.
Qed.

(** An exchange whose response [k] is the first one that fails
    validation, no capacity check tripping before: it reads that
    response, resets the master and returns [-EIO]. *)
Lemma exchange_fails_at params addr rw command size data_size ss off req0 fr w
    (k : nat) :
  req0.[Req.ti] = 0 -> req0.[Req.dat] = 0 -> req0.[Req.ed] = 0 ->
  Z.of_nat k < ss ->
  (forall j, (j < k)%nat ->
     resp_ok (resp_at w j) (Z.of_nat j mod 16) = true /\
     overflows rw size data_size (Z.of_nat j) = false) ->
  resp_ok (resp_at w k) (Z.of_nat k mod 16) = false ->
  let res := exchange params addr rw command size data_size ss off req0 fr w in
  fst (fst res) = - EIO /\
  exists pre cs,
    run w (snd res) (pre ++ [EvReadResp (resp_at w k)] ++ reset_trace cs) /\
    List.length (resps pre) = k.
Proof.
  intros Hti Hdat Hed Hk Hbefore Hbad res.
  destruct (exchange_run params addr rw command size data_size ss off req0 fr w
              Hti Hdat Hed ltac:(lia))
    as (l & k' & Hrun & _ & _ & _ & Hall & Hout).
  fold res in Hrun, Hout.
  assert (Hle : (k' <= k)%nat).
  { destruct (Nat.le_gt_cases k' k) as [H|H]; [exact H|].
    destruct (Hall k H) as (A & _). congruence. }
  destruct Hout as [(A & _) | [(A & B & C & pre & cs & E & F) |
                     (A & B & C & _)]].
  - lia.
  - assert (Hk' : k' = k).
    { destruct (Nat.eq_dec k' k) as [e|n]; [exact e|].
      destruct (Hbefore k' ltac:(lia)) as (G & _). congruence. }
    rewrite Hk' in *. split; [exact C|]. exists pre, cs. rewrite <- E. auto.
  - destruct (Nat.eq_dec k' k) as [e|n]; [subst k'; congruence|].
    destruct (Hbefore k' ltac:(lia)) as (_ & G). congruence.
Qed.

(** The length probe of a block read. *)
Lemma probe_run bus addr command data_size w :
  let p := get_smbus_params bus addr in
  let res := exchange p addr I2C_SMBUS_READ command I2C_SMBUS_BYTE_DATA
               data_size 4 0 (req_init bus p) EmptyString w in
  exists l : list event,
    run w (snd res) l /\
    exchange_ids 4 (map (get Req.ti) (reqs l)) /\
    Forall (fun v => v.[Req.t] = bp_t p mod 4) (reqs l) /\
    exchange_widths p I2C_SMBUS_READ 4 (reqs l) /\
    if probe_passes w
    then fst (fst res) = 0 /\ List.length (resps l) = 4%nat /\
         u8 (data (snd res) 0) = length_byte w
    else fst (fst res) <> 0.
Proof.
  intros p res.
  destruct (req_init_fields bus p) as (Hti & Hdat & Hed & Ht).
  destruct (exchange_run p addr I2C_SMBUS_READ command I2C_SMBUS_BYTE_DATA
              data_size 4 0 (req_init bus p) EmptyString w Hti Hdat Hed
              ltac:(lia))
    as (l & k & Hrun & Hids & Hft & Hw & Hall & Hout).
  fold res in Hrun, Hout.
  exists l. split; [exact Hrun|]. split; [exact Hids|].
  split; [rewrite <- Ht; exact Hft|]. split; [exact Hw|].
  change (Z.to_nat 4) with 4%nat in Hout.
  destruct Hout as [(A & B & C) | [(A & B & C & _) | (A & _ & C & _)]].
  - subst k.
    assert (Hp : probe_passes w = true).
    { unfold probe_passes. apply forallb_forall. intros j Hj.
      apply in_seq in Hj. destruct (Hall j ltac:(lia)) as (G & _).
      rewrite Z.mod_small in G by lia. exact G. }
    rewrite Hp. split; [rewrite B; reflexivity|]. split; [exact C|].
    destruct (exchange_read_ok p addr I2C_SMBUS_READ command I2C_SMBUS_BYTE_DATA
                data_size 4 0 (req_init bus p) EmptyString w Hti Hdat Hed
                ltac:(lia) ltac:(discriminate) Hall) as (_ & _ & P3).
    fold res in P3. change (Z.to_nat 4) with 4%nat in P3.
    rewrite P3. cbn [seq flat_map]. unfold phase_stores. cbn.
    rewrite rsp_d_u8. unfold length_byte, u8. apply Z.mod_small.
    apply rsp_d_range.
  - destruct (probe_passes w) eqn:Hp; [|rewrite C; unfold EIO; lia].
    exfalso. unfold probe_passes in Hp.
    rewrite forallb_forall in Hp. specialize (Hp k).
    rewrite Z.mod_small in B by lia.
    rewrite Hp in B; [discriminate B|]. apply in_seq. lia.
  - rewrite overflows_byte_data in C. discriminate C.
Qed.

(** The requests of a block read that goes through the length probe:
    those of the probe, then, when the probe passed, those of the block
    exchange, whose length is [4] plus the length byte. *)
Lemma nested_requests bus addr rw command size data_size fr w :
  let p := get_smbus_params bus addr in
  let res := nested_path bus addr rw command size data_size fr w in
  let rq := reqs (new_events w (snd res)) in
  Forall (fun v => v.[Req.t] = bp_t p mod 4) rq /\
  exists probe main,
    rq = probe ++ main /\
    exchange_ids 4 (map (get Req.ti) probe) /\
    exchange_widths p I2C_SMBUS_READ 4 probe /\
    if probe_passes w
    then exchange_ids (4 + length_byte w) (map (get Req.ti) main) /\
         exchange_widths p rw (4 + length_byte w) main
    else main = [].
Proof.
  intros p res rq. subst res rq. unfold nested_path. cbv zeta. fold p.
  unfold bind.
  destruct (req_init_fields bus p) as (Hti & Hdat & Hed & Ht).
  destruct (probe_run bus addr command data_size w)
    as (l1 & Hrun1 & Hids1 & Hft1 & Hw1 & Hp).
  cbv zeta in Hrun1, Hp. fold p in Hrun1, Hp, Hft1, Hw1.
  destruct (exchange p addr I2C_SMBUS_READ command I2C_SMBUS_BYTE_DATA
              data_size 4 0 (req_init bus p) EmptyString w) as [[r fr1] w1].
  cbn [fst snd] in *.
  destruct (probe_passes w).
  - destruct Hp as (Hr & Hn & Hb). subst r. cbn [negb Z.eqb].
    unfold load. cbv beta iota. rewrite Hb.
    pose proof (rsp_d_range (resp_at w 3)) as Hlen. fold (length_byte w) in Hlen.
    destruct (exchange_run p addr rw command size data_size
                (4 + length_byte w) 0 (req_init bus p) fr w1 Hti Hdat Hed
                ltac:(lia))
      as (l2 & k & Hrun2 & Hids2 & Hft2 & Hw2 & _).
    cbv zeta in Hrun2.
    rewrite (new_events_run _ _ _ (run_trans _ _ _ _ _ Hrun1 Hrun2)).
    rewrite reqs_app. rewrite Ht in Hft2. split; [apply Forall_app; auto|].
    exists (reqs l1), (reqs l2). auto.
  - destruct (Z.eqb_spec r 0) as [e|n]; [contradiction|]. cbn [negb].
    match goal with |- context [fail_with ?a ?b w1] =>
      destruct (run_fail_with a b w1) as (_ & cs & Hrun2)
    end.
    rewrite (new_events_run _ _ _ (run_trans _ _ _ _ _ Hrun1 Hrun2)).
    rewrite reqs_app. cbn [reset_trace reqs flat_map app]. rewrite app_nil_r.
    split; [exact Hft1|].
    exists (reqs l1), []. rewrite app_nil_r. auto.
Qed.

(** The three requests of the hardware-assisted block read. *)
Lemma hw_requests bus addr command data_size fr w :
  let p := get_smbus_params bus addr in
  let res := hw_path bus addr command data_size fr w in
  let rq := reqs (new_events w (snd res)) in
  List.length rq = 3%nat /\
  Forall (fun v => v.[Req.t] = bp_t p mod 4 /\
                   v.[Req.dat] = 0 /\ v.[Req.ed] = 0) rq.
Proof.
  intros p res rq. subst res rq. unfold hw_path, bind.
  destruct (block_read_spec bus addr command data_size w)
    as (vs & lq & k & lr & Hrun & Hlen & Hvs & (Hq & _ & _) & Hreq & _ & _ & _).
  cbv zeta in Hrun, Hvs. fold p in Hvs.
  destruct (scd_smbus_block_read bus addr command data_size w) as [r w1].
  cbn [fst snd] in *.
  destruct (reqs_map_write vs) as (Hm & _ & _).
  assert (Hrq : reqs (map EvWriteReq vs ++ lq ++ lr) = vs).
  { rewrite !reqs_app, Hm, Hq, Hreq, !app_nil_r. reflexivity. }
  destruct (negb (r =? 0)).
  - match goal with |- context [fail_with ?a ?b w1] =>
      destruct (run_fail_with a b w1) as (_ & cs & Hrun2)
    end.
    rewrite (new_events_run _ _ _ (run_trans _ _ _ _ _ Hrun Hrun2)).
    rewrite reqs_app, Hrq. cbn [reset_trace reqs flat_map app].
    rewrite app_nil_r. auto.
  - cbn [ret snd]. rewrite (new_events_run _ _ _ Hrun), Hrq. auto.
Qed.

(** The requests of a call, on each of the three ways through
    [scd_smbus_do_impl]. *)
Lemma do_impl_requests master bus addr flags rw command size data_size fr w :
  let res := scd_smbus_do_impl master bus addr flags rw command size
                               data_size fr w in
  let p := get_smbus_params bus addr in
  let rq := reqs (new_events w (snd res)) in
  Forall (fun v => v.[Req.t] = bp_t p mod 4) rq /\
  if single_exchange size rw then
    exchange_ids (fst (plan size rw data_size (u8 (data w 0))))
                 (map (get Req.ti) rq) /\
    exchange_widths p rw (fst (plan size rw data_size (u8 (data w 0)))) rq
  else if m_br_supported master then
    List.length rq = 3%nat /\
    Forall (fun v => v.[Req.dat] = 0 /\ v.[Req.ed] = 0) rq
  else
    exists probe main,
      rq = probe ++ main /\
      exchange_ids 4 (map (get Req.ti) probe) /\
      exchange_widths p I2C_SMBUS_READ 4 probe /\
      if probe_passes w
      then exchange_ids (4 + length_byte w) (map (get Req.ti) main) /\
           exchange_widths p rw (4 + length_byte w) main
      else main = [].
Proof.
  cbv zeta.
  set (p := get_smbus_params bus addr).
  destruct (req_init_fields bus p) as (Hti & Hdat & Hed & Ht).
  destruct (do_impl_paths master bus addr flags rw command size data_size fr w)
    as [(Hs & E) | [(H1 & H2 & H3 & E) | (H1 & H2 & H3 & E)]]; rewrite E.
  - rewrite Hs.
    destruct (exchange_run p addr rw command size data_size
                (fst (plan size rw data_size (u8 (data w 0))))
                (snd (plan size rw data_size (u8 (data w 0))))
                (req_init bus p) fr w Hti Hdat Hed
                (plan_nonneg _ _ _ _ (proj1 (u8_range (data w 0)))))
      as (l & k & Hrun & Hids & Hft & Hw & _).
    cbv zeta in Hrun. fold p. rewrite (new_events_run _ _ _ Hrun).
    rewrite Ht in Hft. auto.
  - assert (Hs : single_exchange size rw = false).
    { unfold single_exchange. rewrite H1. apply Z.eqb_neq in H2. rewrite H2.
      reflexivity. }
    rewrite Hs, H3.
    destruct (hw_requests bus addr command data_size fr w) as (Hlen & Hf).
    cbv zeta in Hlen, Hf. fold p in Hf.
    split; [|split; [exact Hlen|]].
    + eapply Forall_impl; [|exact Hf]. intros a (A & _). exact A.
    + eapply Forall_impl; [|exact Hf]. intros a (_ & B). exact B.
  - assert (Hs : single_exchange size rw = false).
    { unfold single_exchange. rewrite H1. apply Z.eqb_neq in H2. rewrite H2.
      reflexivity. }
    rewrite Hs, H3.
    apply (nested_requests bus addr rw command size data_size fr w).
Qed.

(** C1 (amended).  On the generic path (no hardware-assisted block
    read), with [ids] the transaction-ids of the requests that one call
    of [scd_smbus_do_impl] writes, in order.  For the shapes quick, byte,
    byte-data, word-data, address-prefixed block and i2c block, either
    direction, the call is one exchange of exactly the number of phases
    of the table, and the id of the j-th phase (from 0) is [j mod 16],
    the id being a 4-bit field: the ids go 0, 1, 2, ... without a gap as
    long as there are at most 16 phases, and start again at 0 after 15.
    The SMBus block does not follow its row of the table: its write is
    one exchange of [3 + buf[0]] phases; its read is two exchanges, the
    length probe of 4 phases and then, when the four responses of the
    probe pass validation, [4 + len] phases, [len] being the length byte
    the probe read, and the ids start again at 0 with the second
    exchange.  A shape that is not supported writes no request. *)
Theorem do_impl_phase_count master bus addr flags rw command size data_size
    fr w :
  0 <= data_size < 2 ^ 31 ->
  (single_exchange size rw = false -> m_br_supported master = false) ->
  let res := scd_smbus_do_impl master bus addr flags rw command size
                               data_size fr w in
  let ids := map (get Req.ti) (reqs (new_events w (snd res))) in
  let b0 := u8 (data w 0) in
  if size =? I2C_SMBUS_BLOCK_DATA then
    if rw =? I2C_SMBUS_WRITE then exchange_ids (3 + b0) ids
    else
      exists probe main,
        ids = probe ++ main /\
        exchange_ids 4 probe /\
        if probe_passes w then exchange_ids (4 + length_byte w) main
        else main = []
  else
    match table_phases size rw data_size b0 with
    | Some n => exchange_ids n ids
    | None => ids = []
    end.
Proof.
  intros Hd Hgen res ids b0. subst res ids b0.
  pose proof (do_impl_requests master bus addr flags rw command size data_size
                fr w) as (_ & H).
  cbv zeta in H.
  destruct (Z.eqb_spec size I2C_SMBUS_BLOCK_DATA) as [Hsz|Hsz].
  - subst size. destruct (Z.eqb_spec rw I2C_SMBUS_WRITE) as [Hrw|Hrw].
    + subst rw. destruct H as (H & _). exact H.
    + assert (Hs : single_exchange I2C_SMBUS_BLOCK_DATA rw = false).
      { unfold single_exchange. apply Z.eqb_neq in Hrw. rewrite Hrw.
        reflexivity. }
      rewrite Hs, (Hgen Hs) in H.
      destruct H as (probe & main & E & Hp & _ & Hm).
      exists (map (get Req.ti) probe), (map (get Req.ti) main).
      rewrite E, map_app. split; [reflexivity|]. split; [exact Hp|].
      destruct (probe_passes w); [exact (proj1 Hm)|]. rewrite Hm. reflexivity.
  - destruct (table_phases size rw data_size (u8 (data w 0))) as [n|] eqn:T.
    + destruct (table_is_plan _ _ _ _ _ Hd Hsz T) as (Hs & Hp).
      rewrite Hs, Hp in H. exact (proj1 H).
    + destruct (table_none_plan _ _ _ _ T) as (Hs & Hp).
      rewrite Hs, Hp in H. destruct H as ((Hlen & _) & _).
      apply length_zero_iff_nil. exact Hlen.
Qed.

(** C6 (amended).  The parameters of a transaction are those of the
    first override of the bus for the target address, the baseline
    (timing class 1, data widths 3, early-data off) when there is none.
    Every phase written carries the timing class, in its 2-bit field.
    In each exchange on the generic path (the one exchange of a
    transaction, the four phases of the length probe of a block read,
    and the [4 + len] phases of the block exchange that follows a probe
    that passed) the last phase, and only it, carries the data width of
    the direction (2-bit field) and the early-data flag (1-bit field);
    the earlier phases carry zero there.  The three phases of a
    hardware-assisted block read carry no data width and no early-data
    flag.  Registering an override again for the same bus and address
    succeeds without a new entry: the addresses recorded for the bus are
    the same and the look-up gives the latest values. *)
Theorem smbus_params_in_phases master bus addr flags rw command size data_size
    fr w :
  let res := scd_smbus_do_impl master bus addr flags rw command size
                               data_size fr w in
  let p := get_smbus_params bus addr in
  let rq := reqs (new_events w (snd res)) in
  (find (fun q => bp_addr q =? addr) (bus_params_list bus) = None ->
   p = BusParams 0 1 3 3 0) /\
  (forall q, find (fun q => bp_addr q =? addr) (bus_params_list bus) = Some q ->
   p = q) /\
  Forall (fun v => v.[Req.t] = bp_t p mod 4) rq /\
  (if single_exchange size rw then
     exchange_widths p rw (fst (plan size rw data_size (u8 (data w 0)))) rq
   else if m_br_supported master then
     List.length rq = 3%nat /\
     Forall (fun v => v.[Req.dat] = 0 /\ v.[Req.ed] = 0) rq
   else
     exists probe main,
       rq = probe ++ main /\
       exchange_widths p I2C_SMBUS_READ 4 probe /\
       if probe_passes w then exchange_widths p rw (4 + length_byte w) main
       else main = []) /\
  (forall kz kz' ctx ctx1 ctx2 nr r2 p1 p2,
     bp_addr p1 = bp_addr p2 ->
     scd_set_smbus_params kz ctx nr p1 = (0, ctx1) ->
     scd_set_smbus_params kz' ctx1 nr p2 = (r2, ctx2) ->
     r2 = 0 /\
     exists b1 b2,
       scd_find_smbus ctx1 nr = Some b1 /\ scd_find_smbus ctx2 nr = Some b2 /\
       get_smbus_params b1 (bp_addr p1) = recorded p1 /\
       get_smbus_params b2 (bp_addr p2) = recorded p2 /\
       map bp_addr (bus_params_list b2) = map bp_addr (bus_params_list b1)).
Proof.
  intros res p rq. subst res p rq.
  pose proof (do_impl_requests master bus addr flags rw command size data_size
                fr w) as (Ht & H).
  cbv zeta in Ht, H.
  split; [|split; [|split; [|split]]].
  - intros Hn. unfold get_smbus_params. rewrite Hn. reflexivity.
  - intros q Hq. unfold get_smbus_params. rewrite Hq. reflexivity.
  - exact Ht.
  - destruct (single_exchange size rw); [exact (proj2 H)|].
    destruct (m_br_supported master); [exact H|].
    destruct H as (probe & main & E & _ & Hp & Hm).
    exists probe, main. split; [exact E|]. split; [exact Hp|].
    destruct (probe_passes w); [exact (proj2 Hm)|exact Hm].
  - intros kz kz' ctx ctx1 ctx2 nr r2 p1 p2.
    apply set_smbus_params_twice.
Qed.

(** The hardware-assisted block read whose engine is done in time and
    whose response [k] is the first one that fails validation, no
    capacity check tripping before: it reads that response and returns
    [-EIO]. *)
Lemma block_read_fails_at bus addr command data_size w (k m : nat) :
  engine_done bus addr w m ->
  Z.of_nat k < 4 + length_byte w ->
  (forall j, (j < k)%nat ->
     resp_ok (resp_at w j) (Z.of_nat j mod 16) = true /\
     (3 <=? Z.of_nat j) && (data_size <=? Z.of_nat j - 3) = false) ->
  resp_ok (resp_at w k) (Z.of_nat k mod 16) = false ->
  let res := scd_smbus_block_read bus addr command data_size w in
  fst res = - EIO /\
  exists pre,
    run w (snd res) (pre ++ [EvReadResp (resp_at w k)]) /\
    List.length (resps pre) = k.
Proof.
  intros (Hm & Hbusy & Hidle) Hk Hbefore Hbad res. subst res.
  pose proof (rsp_d_range (resp_at w 3)) as Hlen. fold (length_byte w) in Hlen.
  destruct (block_read_wait bus addr command data_size w m)
    as (vs & req2 & _ & Hrun & Hr & Hs & _ & E); try lia.
  { exact Hbusy. }
  cbv zeta in Hrun, Hr, Hs, E. rewrite E. clear E.
  replace (Z.of_nat m =? block_read_timeout (bp_t (get_smbus_params bus addr)))
    with false by (symmetry; apply Z.eqb_neq; lia).
  match type of Hrun with run w ?w' ?l' =>
    set (w3 := w') in *; set (l := l') in * end.
  assert (Hat : forall j, resp_at w3 j = resp_at w j).
  { intros j. rewrite (resp_at_run _ _ _ j Hrun), Hr. reflexivity. }
  assert (Hfin : final_ss 0 4 w3 = 4 + length_byte w).
  { unfold final_ss. cbn [Z.leb Z.compare]. change (Z.to_nat (3 - 0)) with 3%nat.
    rewrite Hat. fold (length_byte w). unfold u32.
    rewrite Z.mod_small by lia. reflexivity. }
  destruct (br_read_spec br_read_fuel 0 4 req2.[Req.ti := 0] data_size w3)
    as (k' & lr & Hrun4 & _ & Hall & _ & Hout).
  { lia. } { reflexivity. }
  { rewrite Hfin. unfold br_read_fuel. lia. }
  cbv zeta in Hrun4, Hout. rewrite Hfin, Hat, tid_at_ti0 in Hout.
  assert (Hall' : forall j, (j < k')%nat ->
            resp_ok (resp_at w j) (Z.of_nat j mod 16) = true).
  { intros j Hj. destruct (Hall j Hj) as (A & _).
    rewrite Hat, tid_at_ti0 in A. exact A. }
  assert (Hle : (k' <= k)%nat).
  { destruct (Nat.le_gt_cases k' k) as [H|H]; [exact H|].
    rewrite (Hall' k H) in Hbad. discriminate Hbad. }
  destruct (br_read br_read_fuel 0 4 req2.[Req.ti := 0] data_size w3)
    as [r w4]. cbn [fst snd] in *.
  destruct Hout as [(_ & _ & A) | [(A & B & C & pre & D) |
                     (_ & B & C1 & C2 & _)]].
  - lia.
  - assert (Hk' : k' = k).
    { destruct (Nat.eq_dec k' k) as [e|n]; [exact e|].
      destruct (Hbefore k' ltac:(lia)) as (G & _). congruence. }
    rewrite Hk' in *. split; [exact A|].
    exists (l ++ pre). split.
    + rewrite <- app_assoc, <- D. eapply run_trans; eassumption.
    + rewrite resps_app, Hr. cbn [app].
      rewrite D, resps_app, length_app in C. cbn in C. lia.
  - destruct (Nat.eq_dec k' k) as [e|n]; [rewrite e in B; congruence|].
    destruct (Hbefore k' ltac:(lia)) as (_ & G).
    apply andb_false_iff in G. destruct G as [G|G].
    + apply Z.leb_gt in G. lia.
    + apply Z.leb_gt in G. lia.
Qed.

(** How a run that stops at the failing response [k] shows in the
    trace. *)
Lemma failure_trace (w w' : world) (pre tail : list event) (cs : Z) (k : nat) :
  run w w' (pre ++ [EvReadResp (resp_at w k)] ++ tail ++ reset_trace cs) ->
  List.length (resps pre) = k ->
  tail = [] \/ (exists cs', tail = reset_trace cs') ->
  let l := new_events w w' in
  trace w' = trace w ++ l /\
  resps l = map (resp_at w) (seq 0 (S k)) /\
  exists pre' tail' cs' v1 v2,
    l = pre' ++ [EvReadResp (resp_at w k)] ++ tail' ++
        [EvReadCs cs'; EvWriteCs v1; EvMdelay 50; EvWriteCs v2; EvMdelay 50] /\
    (tail' = [] \/ exists cs2, tail' = reset_trace cs2) /\
    v1.[Cs.reset] = 1 /\ v1.[Cs.foe] = 1 /\
    v2.[Cs.reset] = 0 /\ v2.[Cs.foe] = 1.
Proof.
  intros Hrun Hpre Htail l. subst l. rewrite (new_events_run _ _ _ Hrun).
  split; [apply (run_trace _ _ _ Hrun)|]. split.
  - rewrite (run_resps _ _ _ Hrun). do 2 f_equal.
    assert (Ht : resps tail = []).
    { destruct Htail as [->|(cs' & ->)]; reflexivity. }
    rewrite !resps_app, !length_app, Hpre, Ht. cbn. lia.
  - destruct (reset_trace_bits cs) as (v1 & v2 & Hr & B1 & B2 & B3 & B4).
    exists pre, tail, cs, v1, v2. rewrite <- Hr.
    split; [reflexivity|]. split; [exact Htail|]. auto.
Qed.

(** C4.  When response [k] of a call of [scd_smbus_do_impl] is the first
    one that fails validation against the transaction-id of its phase
    (the responses before it pass, no capacity check trips before it,
    and the engine of a hardware-assisted block read is done in time),
    the call reads that response and stops: no response is read after
    it, nothing follows that read in the trace but the master reset
    (once more when it is the length probe that failed and had already
    reset): read the control/status register, write it back with the
    reset and overflow-clear bits set, wait 50 ms, write it with the
    reset bit cleared, wait 50 ms; and the status returned is [-EIO]. *)
Theorem do_impl_validation_failure_resets master bus addr flags rw command
    size data_size fr w (k m : nat) :
  let tid := exp_tid (with_probe master size rw) in
  Z.of_nat k < responses_due master size rw data_size w ->
  (forall j, (j < k)%nat ->
     resp_ok (resp_at w j) (tid j) = true /\
     capacity_trips master size rw data_size j = false) ->
  resp_ok (resp_at w k) (tid k) = false ->
  (single_exchange size rw = false -> m_br_supported master = true ->
   engine_done bus addr w m) ->
  let res := scd_smbus_do_impl master bus addr flags rw command size
                               data_size fr w in
  let l := new_events w (snd res) in
  fst (fst res) = - EIO /\
  trace (snd res) = trace w ++ l /\
  resps l = map (resp_at w) (seq 0 (S k)) /\
  exists pre tail cs v1 v2,
    l = pre ++ [EvReadResp (resp_at w k)] ++ tail ++
        [EvReadCs cs; EvWriteCs v1; EvMdelay 50; EvWriteCs v2; EvMdelay 50] /\
    (tail = [] \/ exists cs', tail = reset_trace cs') /\
    v1.[Cs.reset] = 1 /\ v1.[Cs.foe] = 1 /\
    v2.[Cs.reset] = 0 /\ v2.[Cs.foe] = 1.
Proof.
  intros tid Hk Hbefore Hbad Hengine res l. subst tid res l.
  set (p := get_smbus_params bus addr).
  destruct (req_init_fields bus p) as (Hti & Hdat & Hed & _).
  unfold responses_due in Hk. unfold capacity_trips in Hbefore.
  unfold with_probe in Hbefore, Hbad.
  destruct (do_impl_paths master bus addr flags rw command size data_size fr w)
    as [(Hs & E) | [(H1 & H2 & H3 & E) | (H1 & H2 & H3 & E)]]; rewrite E;
    clear E.
  - (* one exchange *)
    rewrite Hs in Hk, Hbefore.
    assert (Hp : (size =? I2C_SMBUS_BLOCK_DATA) && negb (rw =? I2C_SMBUS_WRITE)
                 = false).
    { unfold single_exchange in Hs. apply negb_true_iff in Hs. exact Hs. }
    rewrite Hp in Hbefore, Hbad. cbn [andb exp_tid] in Hbefore, Hbad.
    destruct (exchange_fails_at p addr rw command size data_size
                (fst (plan size rw data_size (u8 (data w 0))))
                (snd (plan size rw data_size (u8 (data w 0))))
                (req_init bus p) fr w k Hti Hdat Hed Hk Hbefore Hbad)
      as (R & pre & cs & Hrun & Hpre).
    split; [exact R|].
    apply (failure_trace w _ pre [] cs k); [exact Hrun|exact Hpre|].
    left. reflexivity.
  - (* the hardware-assisted block read *)
    assert (Hs : single_exchange size rw = false).
    { unfold single_exchange. rewrite H1. apply Z.eqb_neq in H2. rewrite H2.
      reflexivity. }
    rewrite Hs, H3 in Hk, Hbefore. rewrite H3 in Hbad.
    rewrite andb_false_r in Hbefore, Hbad. cbn [exp_tid] in Hbefore, Hbad.
    unfold hw_path, bind.
    destruct (block_read_fails_at bus addr command data_size w k m
                (Hengine Hs H3) Hk Hbefore Hbad) as (R & pre & Hrun & Hpre).
    destruct (scd_smbus_block_read bus addr command data_size w) as [r w1].
    cbn [fst snd] in *. subst r.
    change (negb (- EIO =? 0)) with true. cbv iota.
    match goal with |- context [fail_with ?a ?b w1] =>
      destruct (run_fail_with a b w1) as (F & cs & Hrun2)
    end.
    split; [rewrite F; reflexivity|].
    apply (failure_trace w _ pre [] cs k); [|exact Hpre|left; reflexivity].
    pose proof (run_trans _ _ _ _ _ Hrun Hrun2) as Hrun3.
    rewrite <- app_assoc in Hrun3. exact Hrun3.
  - (* the length probe, then the block exchange *)
    assert (Hs : single_exchange size rw = false).
    { unfold single_exchange. rewrite H1. apply Z.eqb_neq in H2. rewrite H2.
      reflexivity. }
    rewrite Hs, H3 in Hk, Hbefore. rewrite H3 in Hbad.
    assert (Hp : (size =? I2C_SMBUS_BLOCK_DATA) && negb (rw =? I2C_SMBUS_WRITE)
                 && negb false = true).
    { rewrite H1. apply Z.eqb_neq in H2. rewrite H2. reflexivity. }
    rewrite Hp in Hbefore, Hbad.
    unfold nested_path. cbv zeta. fold p. unfold bind.
    destruct (Nat.lt_ge_cases k 4) as [Hk4|Hk4].
    + (* the probe fails *)
      rewrite exp_tid_probe in Hbad by exact Hk4.
      destruct (exchange_fails_at p addr I2C_SMBUS_READ command
                  I2C_SMBUS_BYTE_DATA data_size 4 0 (req_init bus p)
                  EmptyString w k Hti Hdat Hed ltac:(lia))
        as (R & pre & cs & Hrun & Hpre).
      { intros j Hj. destruct (Hbefore j Hj) as (A & _).
        rewrite exp_tid_probe in A by lia.
        split; [exact A|apply overflows_byte_data]. }
      { exact Hbad. }
      destruct (exchange p addr I2C_SMBUS_READ command I2C_SMBUS_BYTE_DATA
                  data_size 4 0 (req_init bus p) EmptyString w)
        as [[r fr1] w1].
      cbn [fst snd] in *. subst r.
      change (negb (- EIO =? 0)) with true. cbv iota.
      match goal with |- context [fail_with ?a ?b w1] =>
        destruct (run_fail_with a b w1) as (F & cs2 & Hrun2)
      end.
      split; [rewrite F; reflexivity|].
      apply (failure_trace w _ pre (reset_trace cs) cs2 k);
        [|exact Hpre|right; exists cs; reflexivity].
      pose proof (run_trans _ _ _ _ _ Hrun Hrun2) as Hrun3.
      rewrite <- !app_assoc in Hrun3. exact Hrun3.
    + (* the probe passes, the block exchange fails *)
      destruct (probe_run bus addr command data_size w)
        as (l1 & Hrun1 & _ & _ & _ & Hpp).
      cbv zeta in Hrun1, Hpp. fold p in Hrun1, Hpp.
      assert (Hpass : probe_passes w = true).
      { unfold probe_passes. apply forallb_forall. intros j Hj.
        apply in_seq in Hj. destruct (Hbefore j ltac:(lia)) as (A & _).
        rewrite exp_tid_probe in A by lia.
        rewrite Z.mod_small in A by lia. exact A. }
      rewrite Hpass in Hpp. destruct Hpp as (Hr & Hn & Hb).
      destruct (exchange p addr I2C_SMBUS_READ command I2C_SMBUS_BYTE_DATA
                  data_size 4 0 (req_init bus p) EmptyString w)
        as [[r fr1] w1].
      cbn [fst snd] in *. subst r. cbn [negb Z.eqb].
      unfold load. cbv beta iota. rewrite Hb.
      assert (Hat : forall j, resp_at w1 j = resp_at w (4 + j)).
      { intros j. rewrite (resp_at_run _ _ _ j Hrun1), Hn. reflexivity. }
      assert (Hkk : exists k4, k = (4 + k4)%nat) by (exists (k - 4)%nat; lia).
      destruct Hkk as (k4 & ->).
      destruct (exchange_fails_at p addr rw command size data_size
                  (4 + length_byte w) 0 (req_init bus p) fr w1 k4
                  Hti Hdat Hed ltac:(lia))
        as (R & pre & cs & Hrun & Hpre).
      { intros j Hj. destruct (Hbefore (4 + j)%nat ltac:(lia)) as (A & B).
        rewrite exp_tid_main in A. rewrite Hat.
        split; [exact A|].
        replace (4 <=? Z.of_nat (4 + j)) with true in B
          by (symmetry; apply Z.leb_le; lia).
        replace (Z.of_nat (4 + j) - 4) with (Z.of_nat j) in B by lia.
        exact B. }
      { rewrite Hat. rewrite exp_tid_main in Hbad. exact Hbad. }
      rewrite Hat in Hrun.
      split; [exact R|].
      apply (failure_trace w _ (l1 ++ pre) [] cs (4 + k4));
        [| |left; reflexivity].
      * pose proof (run_trans _ _ _ _ _ Hrun1 Hrun) as Hrun3.
        rewrite <- !app_assoc in *. exact Hrun3.
      * rewrite resps_app, length_app, Hn, Hpre. lia.
Qed.

End Exchanges.

(* ================================================================== *)
(** ** The further theorems at concrete inputs *)

Section MoreInstances.


(** A byte-data read: the data of the fourth response is in byte 0. *)
Lemma byte_read_delivers_witness :
  let w := Ex.good 0 in
  let res := scd_smbus_do_impl Ex.master Ex.bus 80 0 I2C_SMBUS_READ 17
               I2C_SMBUS_BYTE_DATA 34 EmptyString w in
  fst res = (0, EmptyString) /\
  resp_n (snd res) = (resp_n w + 4)%nat /\
  forall idx, data (snd res) idx =
              if idx =? 0 then (resp_at w 3).[Rsp.d] else data w idx.
Proof.
  apply (byte_read_delivers Ex.master Ex.bus 80 0 17 I2C_SMBUS_BYTE_DATA 34
           EmptyString (Ex.good 0)).
  - right. reflexivity.
  - intros j Hj. do 4 (destruct j as [|j]; [vm_compute; reflexivity|]).
    cbn in Hj. lia.
Defined.

(** An i2c-block read of four bytes. *)
Lemma block_read_delivers_witness :
  let w := Ex.good 4 in
  let res := scd_smbus_do_impl Ex.master Ex.bus 80 0 I2C_SMBUS_READ 17
               I2C_SMBUS_I2C_BLOCK_DATA 34 EmptyString w in
  fst res = (0, EmptyString) /\
  resp_n (snd res) = (resp_n w + Z.to_nat (3 + u8 (data w 0)))%nat /\
  forall idx, data (snd res) idx =
              if (1 <=? idx) && (idx <? 1 + u8 (data w 0))
              then (resp_at w (Z.to_nat (idx - 1 + 3))).[Rsp.d]
              else data w idx.
Proof.
  apply (block_read_delivers Ex.master Ex.bus 80 0 17 I2C_SMBUS_I2C_BLOCK_DATA
           34 EmptyString (Ex.good 4)).
  - left. reflexivity.
  - lia.
  - vm_compute. discriminate.
  - intros j Hj. do 7 (destruct j as [|j]; [vm_compute; reflexivity|]).
    vm_compute in Hj. lia.
Defined.

(** The six requests of a word read. *)
Lemma exchange_framing_witness :
  let w := Ex.good 0 in
  let res := scd_smbus_do_impl Ex.master Ex.bus 80 0 I2C_SMBUS_READ 17
               I2C_SMBUS_WORD_DATA 34 EmptyString w in
  let ss := fst (plan I2C_SMBUS_WORD_DATA I2C_SMBUS_READ 34 (u8 (data w 0))) in
  let rq := reqs (new_events w (snd res)) in
  List.length rq = Z.to_nat ss /\
  forall k, (k < Z.to_nat ss)%nat ->
    let v := nth k rq 0 in
    let j := Z.of_nat k in
    v.[Req.bs] = bus_id Ex.bus mod 16 /\
    v.[Req.st] =
      (if (j =? 0) || ((j =? 2) && (I2C_SMBUS_READ =? I2C_SMBUS_READ))
       then 1 else 0) /\
    v.[Req.sp] = (if j =? ss - 1 then 1 else 0) /\
    v.[Req.ss] = (if j =? 0 then ss mod 64 else 0) /\
    v.[Req.br] = 0 /\
    v.[Req.da] =
      (if (I2C_SMBUS_READ =? I2C_SMBUS_READ) && (3 <=? j) && negb (j =? ss - 1)
       then 1 else 0) /\
    (I2C_SMBUS_READ = I2C_SMBUS_READ ->
     v.[Req.d] =
       if j =? 0 then addr_byte 80 (if ss <=? 2 then 1 else 0) mod 256
       else if j =? 1 then 17 mod 256
       else addr_byte 80 1 mod 256).
Proof.
  apply (exchange_framing Ex.master Ex.bus 80 0 I2C_SMBUS_READ 17
           I2C_SMBUS_WORD_DATA 34 EmptyString (Ex.good 0)).
  reflexivity.
Defined.

(** A block read on a master whose engine stays busy: 505 polls for the
    timing class 2 of address 80. *)
Lemma hw_block_read_timeout_witness :
  let w := Ex2.busy in
  let t := Z.to_nat (block_read_timeout (bp_t (get_smbus_params Ex.bus 80))) in
  let res := scd_smbus_do_impl Ex.master_hw Ex.bus 80 0 I2C_SMBUS_READ 17
               I2C_SMBUS_BLOCK_DATA 34 EmptyString w in
  t = 505%nat /\
  fst res = (- EINVAL, SET_FAIL_REASON "block read failed") /\
  (exists vs : list Z,
     List.length vs = 3%nat /\
     new_events w (snd res) =
     map EvWriteReq vs ++ [EvReadCs (cs_at w 0)] ++
     flat_map (fun j => [EvMsleep 1; EvReadCs (cs_at w (S j))]) (seq 0 t) ++
     [EvWarn "smbus response timeout"] ++ reset_trace (cs_at w (S t))) /\
  (forall idx, data (snd res) idx = data w idx) /\
  scd_smbus_access_impl Ex.master_hw Ex.bus 80 0 I2C_SMBUS_READ 17
                        I2C_SMBUS_BLOCK_DATA 34 w =
    (- EINVAL, snd res).
Proof.
  split; [reflexivity|].
  apply (hw_block_read_timeout Ex.master_hw Ex.bus 80 0 17 34 Ex2.busy).
  - reflexivity.
  - intros j _. vm_compute. discriminate.
Defined.

(** A block read of two bytes on a master with the engine, ready at the
    second poll. *)
Lemma hw_block_read_delivers_witness :
  let w := Ex2.hw_ready in
  let len := (resp_at w 3).[Rsp.d] in
  let res := scd_smbus_do_impl Ex.master_hw Ex.bus 80 0 I2C_SMBUS_READ 17
               I2C_SMBUS_BLOCK_DATA 34 EmptyString w in
  len = 2 /\
  fst res = (0, EmptyString) /\
  resp_n (snd res) = (resp_n w + Z.to_nat (4 + len))%nat /\
  forall idx, data (snd res) idx =
              if (0 <=? idx) && (idx <=? len)
              then (resp_at w (Z.to_nat (idx + 3))).[Rsp.d]
              else data w idx.
Proof.
  split; [reflexivity|].
  apply (hw_block_read_delivers Ex.master_hw Ex.bus 80 0 17 34 EmptyString
           Ex2.hw_ready 1).
  - reflexivity.
  - vm_compute. reflexivity.
  - intros j Hj. destruct j as [|j]; [vm_compute; discriminate|lia].
  - reflexivity.
  - vm_compute. reflexivity.
  - intros j Hj. do 6 (destruct j as [|j]; [vm_compute; reflexivity|]).
    vm_compute in Hj. lia.
Defined.

(** A word read. *)
Lemma word_read_delivers_witness :
  let w := Ex.good 0 in
  let res := scd_smbus_do_impl Ex.master Ex.bus 80 0 I2C_SMBUS_READ 17
               I2C_SMBUS_WORD_DATA 34 EmptyString w in
  fst res = (0, EmptyString) /\
  resp_n (snd res) = (resp_n w + 5)%nat /\
  forall idx, data (snd res) idx =
              if idx =? 0 then (resp_at w 3).[Rsp.d]
              else if idx =? 1 then (resp_at w 4).[Rsp.d]
              else data w idx.
Proof.
  apply (word_read_delivers Ex.master Ex.bus 80 0 17 34 EmptyString (Ex.good 0)).
  intros j Hj. do 5 (destruct j as [|j]; [vm_compute; reflexivity|]). lia.
Defined.

(** A block read of two bytes on a master without the engine: the probe
    and then the read. *)
Lemma probed_block_read_delivers_witness :
  let w := Ex2.probed in
  let len := (resp_at w 3).[Rsp.d] in
  let res := scd_smbus_do_impl Ex.master Ex.bus 80 0 I2C_SMBUS_READ 17
               I2C_SMBUS_BLOCK_DATA 34 EmptyString w in
  len = 2 /\
  fst res = (0, EmptyString) /\
  resp_n (snd res) = (resp_n w + 4 + Z.to_nat (4 + len))%nat /\
  forall idx, data (snd res) idx =
              if (0 <=? idx) && (idx <=? len)
              then (resp_at w (Z.to_nat (idx + 7))).[Rsp.d]
              else data w idx.
Proof.
  split; [reflexivity|].
  apply (probed_block_read_delivers Ex.master Ex.bus 80 0 17 34 EmptyString
           Ex2.probed).
  - reflexivity.
  - intros j Hj. do 4 (destruct j as [|j]; [vm_compute; reflexivity|]). lia.
  - vm_compute. reflexivity.
  - intros j Hj. do 6 (destruct j as [|j]; [vm_compute; reflexivity|]).
    vm_compute in Hj. lia.
Defined.

(** The command 17 written and two bytes read back. *)
Lemma xfer_write_then_read_witness :
  let w := Ex.good 0 in
  let res := scd_smbus_master_xfer Ex.master Ex.bus Ex2.msg_command
               Ex2.msg_read 2 w in
  res = (2, snd (scd_smbus_do_impl Ex.master Ex.bus 80 0 I2C_SMBUS_READ
                   (u8 17) I2C_SMBUS_I2C_BLOCK_DATA_MSG 2 EmptyString w)) /\
  resp_n (snd res) = (resp_n w + Z.to_nat (3 + 2))%nat /\
  forall idx, data (snd res) idx =
              if (0 <=? idx) && (idx <? 2)
              then (resp_at w (Z.to_nat (idx + 3))).[Rsp.d]
              else data w idx.
Proof.
  apply (xfer_write_then_read Ex.master Ex.bus Ex2.msg_command Ex2.msg_read
           (Ex.good 0)).
  - reflexivity.
  - reflexivity.
  - vm_compute. discriminate.
  - vm_compute. split; [discriminate|reflexivity].
  - intros j Hj. do 5 (destruct j as [|j]; [vm_compute; reflexivity|]).
    vm_compute in Hj. lia.
Defined.

(** A write of three bytes in one message. *)
Lemma xfer_single_write_witness :
  let w := Ex.good 9 in
  let res := scd_smbus_master_xfer Ex.master Ex.bus Ex2.msg_write
               Ex2.msg_read 1 w in
  fst res = 1 /\
  map (get Req.d) (reqs (new_events w (snd res))) =
    addr_byte 80 0 mod 256 :: u8 17 ::
    map (fun j => u8 (data w (Z.of_nat j))) (seq 0 (Z.to_nat (3 - 1))) /\
  forall idx, data (snd res) idx = data w idx.
Proof.
  apply (xfer_single_write Ex.master Ex.bus Ex2.msg_write Ex2.msg_read
           (Ex.good 9)).
  - reflexivity.
  - vm_compute. split; [discriminate|reflexivity].
  - intros j Hj. do 4 (destruct j as [|j]; [vm_compute; reflexivity|]).
    vm_compute in Hj. lia.
Defined.

(** Two tweak lines and a final newline, written to both files of the
    device before its initialisation ends. *)
Lemma config_lines_in_order_witness :
  let buf := (join_with NL ["7 81 3 1 2 0"; "7 82 1 1 1 1"] ++ newlines 1)%string in
  let count := String.length buf in
  smbus_tweaks true (Some Ex2.ctx0) buf count =
    (let '(res, ctx') :=
       run_lines (parse_smbus_tweak true) Ex2.ctx0
         ["7 81 3 1 2 0"; "7 82 1 1 1 1"]%string (Z.of_nat count) in
     (res, Some ctx')) /\
  (initialized Ex2.ctx0 = false ->
   new_object Ex2.func0 (Some Ex2.ctx0) buf count =
     (let '(res, ctx') :=
        run_lines (parse_new_object Ex2.func0) Ex2.ctx0
          ["7 81 3 1 2 0"; "7 82 1 1 1 1"]%string (Z.of_nat count) in
      (res, Some ctx'))).
Proof.
  apply (config_lines_in_order true Ex2.func0 Ex2.ctx0 "7 81 3 1 2 0"
           ["7 82 1 1 1 1"%string] 1).
  reflexivity.
Defined.

(** A blank line first. *)
Lemma leading_newline_refused_witness :
  smbus_tweaks true (Some Ex2.ctx0) (String NL "7 81 3 1 2 0") 13 =
    (- EINVAL, Some Ex2.ctx0) /\
  new_object Ex2.func0 (Some Ex2.ctx0) (String NL "smbus_master 0x100 1") 21 =
    (- EINVAL, Some Ex2.ctx0).
Proof.
  destruct (leading_newline_refused true Ex2.func0 Ex2.ctx0 "7 81 3 1 2 0" 12)
    as (A & _).
  destruct (leading_newline_refused true Ex2.func0 Ex2.ctx0
              "smbus_master 0x100 1" 20) as (_ & B).
  split; [exact A|exact (B eq_refl)].
Defined.

(** The line of the examples, with a comment behind the six numbers. *)
Lemma tweak_line_fields_witness :
  let line := join_with SPACE ["7"; "81"; "3"; "1"; "2"; "0"; "# eeprom"]%string in
  parse_smbus_tweak true Ex.ctx line (String.length line) =
  (let '(err, ctx') :=
     scd_set_smbus_params true Ex.ctx 7
       {| bp_addr := 81; bp_t := 3; bp_datw := 2; bp_datr := 1; bp_ed := 0 |} in
   (if err =? 0 then Z.of_nat (String.length line) else err, ctx')).
Proof.
  apply (tweak_line_fields true Ex.ctx "7" "81" "3" "1" "2" "0"
           ["# eeprom"%string] 7 81 3 1 2 0); try reflexivity.
  vm_compute. lia.
Defined.

(** An override for address 81 of bus 7: address 80 keeps its own. *)
Lemma set_smbus_params_frame_witness :
  let ctx' := snd (scd_set_smbus_params true Ex.ctx 7 (BusParams 81 3 2 1 0)) in
  match scd_find_smbus Ex.ctx 7, scd_find_smbus ctx' 7 with
  | Some b, Some b' =>
      get_smbus_params b' 81 = BusParams 81 3 2 1 0 /\
      get_smbus_params b' 80 = get_smbus_params b 80 /\
      get_smbus_params b 80 = BusParams 80 2 1 2 1
  | _, _ => False
  end.
Proof.
  pose proof (set_smbus_params_frame true Ex.ctx
                (snd (scd_set_smbus_params true Ex.ctx 7 (BusParams 81 3 2 1 0)))
                7 (BusParams 81 3 2 1 0) eq_refl) as H.
  generalize (H 7 81) (H 7 80). clear H. cbv zeta.
  change (scd_find_smbus Ex.ctx 7) with (Some Ex.bus).
  destruct (scd_find_smbus _ 7) as [b'|]; [|intros F _; exact F].
  intros (_ & H1) (_ & H2).
  split; [rewrite H1; reflexivity|]. split; [rewrite H2; reflexivity|].
  reflexivity.
Defined.

(** A master at 0x100 with id 1 and four buses. *)
Lemma smbus_master_line_witness :
  let line := join_with SPACE ["smbus_master"; "0x100"; "1"; "4"]%string in
  parse_new_object Ex2.func0 Ex2.ctx0 line (String.length line) =
  if res_size Ex2.ctx0 <? 256 then (- EINVAL, Ex2.ctx0)
  else
    let added (n : Z) :=
      let '(res, ctx') := Ex2.add0 Ex2.ctx0 256 1 n in
      (if res <? 0 then res else Z.of_nat (String.length line), ctx') in
    match kstrtou32 "4" with
    | inl n => added n
    | inr e => (e, Ex2.ctx0)
    end.
Proof.
  apply (smbus_master_line Ex2.add0 Ex2.func0 eq_refl Ex2.ctx0 "0x100" "1"
           ["4"%string] 256 1); try reflexivity.
  vm_compute. lia.
Defined.

(** A 0 stored to the active-low GPIO given the bit position 40, on a
    register that reads 5: the store acts on bit 8. *)
Lemma gpio_set_bits_witness :
  let w := Ex2.gpio_w in
  let r := u32 (Gpio.reg_in w (Gpio.reg_n w)) in
  exists v,
    Gpio.attribute_gpio_set Ex2.gpio_far "0" 1 w =
      (1, Gpio.World (Gpio.reg_in w) (S (Gpio.reg_n w))
            (Gpio.trace w ++ [Gpio.EvRead 20480 r; Gpio.EvWrite 20480 v])) /\
    forall i, 0 <= i < 32 ->
      Z.testbit v i =
      if i =? 8 then
        if 1 =? 0 then 0 =? 1
        else if 0 =? 1 then false else Z.testbit r i
      else
        if (1 =? 0) || (0 =? 1) then Z.testbit r i
        else true.
Proof.
  apply (gpio_set_bits Ex2.gpio_far "0" 1 0 Ex2.gpio_w).
  - reflexivity.
  - left. reflexivity.
Defined.

(** The same store, and the show after it: the GPIO shows 1 as before. *)
Lemma gpio_set_then_get_witness :
  fst (Gpio.attribute_gpio_get Ex2.gpio_far
         (snd (Gpio.attribute_gpio_set Ex2.gpio_far "0" 1 Ex2.gpio_w))) =
  (2, if (if negb (Gpio.g_active_low Ex2.gpio_far =? 0) && (0 =? 0)
          then Gpio.lnot01
                 (Gpio.bit_of (u32 (Gpio.reg_in Ex2.gpio_w (Gpio.reg_n Ex2.gpio_w)))
                    (Gpio.g_bit Ex2.gpio_far))
          else 0) =? 0
      then String "0" (String NL EmptyString)
      else String "1" (String NL EmptyString)).
Proof.
  apply (gpio_set_then_get Ex2.gpio_far "0" 1 0 Ex2.gpio_w).
  - reflexivity.
  - left. reflexivity.
  - vm_compute. reflexivity.
Defined.

(** The text 2 stored to a GPIO, to a transceiver and to a reset. *)
Lemma store_rejects_witness :
  (exists e, e < 0 /\
     Gpio.attribute_gpio_set Ex2.gpio "2" 1 Ex2.gpio_w = (e, Ex2.gpio_w)) /\
  (exists e, e < 0 /\
     Gpio.attribute_xcvr_set Ex2.sfp 6 "2" 1 Ex2.gpio_w =
     ((e, Ex2.sfp), Ex2.gpio_w)) /\
  (exists e, e < 0 /\
     Gpio.attribute_reset_set Ex2.reset "2" 1 Ex2.gpio_w = (e, Ex2.gpio_w)).
Proof.
  apply (store_rejects Ex2.gpio Ex2.sfp 6 Ex2.reset "2" 1 Ex2.gpio_w).
  intros value H. vm_compute in H. inversion H. lia.
Defined.

(** The loss of signal changes while rxlos and present are shown; the
    show of rxlos_changed that follows gives 1 and clears the latch. *)
Lemma xcvr_latch_sticky_witness :
  let w := Ex2.sfp_w in
  let a := nth 3 (Gpio.x_attr Ex2.sfp) Gpio.no_attr in
  let before := Gpio.xcvr_gets Ex2.sfp [0%nat; 2%nat] w in
  let res := Gpio.attribute_xcvr_get (fst before) 3 (snd before) in
  let now := Gpio.bit_of (Gpio.reg_at w 2) (Gpio.x_bit a) in
  fst (fst res) =
    Gpio.show (sprintf_u_nl
            (Z.lor (Z.lor (Gpio.x_clear_on_read_value a) (Gpio.seen w 3 3))
                   (if negb (Gpio.x_active_low a =? 0)
                    then Gpio.lnot01 now else now))) /\
  Gpio.x_clear_on_read_value (nth 3 (Gpio.x_attr (snd (fst res))) Gpio.no_attr) = 0 /\
  Gpio.reg_n (snd res) = (Gpio.reg_n w + 3)%nat.
Proof.
  apply (xcvr_latch_sticky Ex2.sfp [0%nat; 2%nat] 3 Ex2.sfp_w).
  - cbn. lia.
  - cbn. intros [H|[H|[]]]; discriminate H.
  - cbn. discriminate.
Defined.

(** Port 3, device 5, clause 45, and a 5-bit register member. *)
Lemma mii_address_round_trip_witness :
  let addr := Mii.scd_mdio_mii_id 3 5 2 in
  Mii.mii_devad addr = 5 /\
  Mii.mii_clause addr = 1 /\
  Mii.mii_prtad addr = 3 + 1024 /\
  0.[Field 14 5 := Mii.mii_prtad addr] = 0.[Field 14 5 := 3].
Proof.
  apply (mii_address_round_trip 3 5 2 (Field 14 5) 0); cbn; lia.
Defined.

(** A read of register 4 of port 3, device 5: the SET request is ready
    at the third poll, the read at once. *)
Lemma mii_transfer_witness :
  let h := Ex.mdio_h in
  let w := Ex.mdio_w in
  let addr := Mii.scd_mdio_mii_id 3 5 2 in
  let clause := Mii.mii_clause addr in
  let prtad := Mii.mii_prtad addr in
  let devad := Mii.mii_devad addr in
  let ready w k :=
    [Mdio.EvReadCs (Mdio.cs_at w k); Mdio.EvWriteCs (Mdio.irq_clear h 3);
     Mdio.EvReadResp (Mdio.resp_at w 0)] in
  let w1 :=
    Mdio.after w 3 1
      (Mdio.issued h 3 w 1 (Mdio.SCD_MDIO_SET h) clause prtad devad
         (Mii.u16 4) ++ Mdio.polls h w 2 ++ ready w 2%nat) in
  let w2 :=
    Mdio.after w1 1 1
      (Mdio.issued h 3 w1 1 (Mdio.SCD_MDIO_READ h) clause prtad devad (Mii.u16 0) ++
       Mdio.polls h w1 0 ++ ready w1 0%nat) in
  Mii.scd_mii_bus_do h 3 10 1 addr (Mdio.SCD_MDIO_READ h) 4 0 w =
    (Some (if Mdio.SCD_MDIO_READ h =? Mdio.SCD_MDIO_READ h
           then (Mdio.resp_at w 1).[Mdio.resp_d h] else 0), w2) /\
  Mdio.req_id w1 = Mdio.req_id w + 1 /\
  Mdio.req_id w2 = Mdio.req_id w + 2.
Proof.
  apply (mii_transfer Ex.mdio_h 3 10 1 (Mii.scd_mdio_mii_id 3 5 2)
           (Mdio.SCD_MDIO_READ Ex.mdio_h) 4 0 Ex.mdio_w 2 0).
  - vm_compute. discriminate.
  - lia.
  - lia.
  - intros j Hj. do 3 (destruct j as [|j]; [vm_compute; auto|]). lia.
  - vm_compute. reflexivity.
  - intros j Hj. destruct j as [|j]; [vm_compute; auto|lia].
  - vm_compute. reflexivity.
Defined.

(** A write whose SET request gets a response without the
    transaction-started bit. *)
Lemma mii_transfer_aborts_witness :
  let h := Ex.mdio_h in
  let w := Ex2.mdio_bad in
  let addr := Mii.scd_mdio_mii_id 3 5 2 in
  let pre :=
    Mdio.issued h 3 w 1 (Mdio.SCD_MDIO_SET h) (Mii.mii_clause addr)
      (Mii.mii_prtad addr) (Mii.mii_devad addr) (Mii.u16 4) ++ Mdio.polls h w 0 in
  let c := Mdio.cs_at w 0 in
  Mdio.MDIO_WAIT_END h (Mdio.delay_at h 0) = false /\
  c.[Mdio.cs_res_count h] = 1 /\
  Mii.scd_mii_bus_do h 3 10 1 addr (Mdio.SCD_MDIO_WRITE h) 4 7 w =
  if Mdio.MDIO_WAIT_END h (Mdio.delay_at h 0) then
    (Some (- EAGAIN),
     Mdio.after w 0 0 (pre ++ [Mdio.EvWarn "mdio wait_resp timeout"]))
  else if c.[Mdio.cs_res_count h] =? 1 then
    (Some (- EIO),
     Mdio.after w 1 1
       (pre ++ [Mdio.EvReadCs c; Mdio.EvWriteCs (Mdio.irq_clear h 3);
                Mdio.EvReadResp (Mdio.resp_at w 0);
                Mdio.EvWarn "mdio bus request failed in reading resp"]))
  else
    (Some (- EOPNOTSUPP),
     Mdio.after w 1 0
       (pre ++ [Mdio.EvReadCs c; Mdio.EvWarn "mdio wait_resp failed"])).
Proof.
  split; [reflexivity|]. split; [reflexivity|].
  apply (mii_transfer_aborts Ex.mdio_h 3 10 1 (Mii.scd_mdio_mii_id 3 5 2)
           (Mdio.SCD_MDIO_WRITE Ex.mdio_h) 4 7 Ex2.mdio_bad 0).
  - lia.
  - intros j Hj. lia.
  - intros _. split; [vm_compute; discriminate|]. intros _. reflexivity.
Defined.

(** A second master, with id 1 and two buses. *)
Lemma master_add_success_witness :
  let w := Ex.good 0 in
  let master :=
    ScdSmbusMaster 1 (2 <=? (cs_at w 1).[Cs.ver]) 6
      (map (fun j => ScdSmbus (Z.of_nat j) (be_nr (Ex2.env_ok j)) [])
           (seq 0 (Z.to_nat 2))) in
  scd_smbus_master_add true Ex2.env_ok 6 Ex2.ctx0 256 1 2 w =
  (Returns 0 (ScdContext (res_size Ex2.ctx0) (initialized Ex2.ctx0)
                (smbus_master_list Ex2.ctx0 ++ [master])),
   World (cs_in w) (resp_in w) (cs_n w + 2) (resp_n w) (data w)
     (trace w ++ reset_trace (cs_at w 0) ++ [EvReadCs (cs_at w 1)])).
Proof.
  apply (master_add_success Ex2.env_ok 6 Ex2.ctx0 256 1 2 (Ex.good 0)).
  - cbn. intros [H|[]]. discriminate H.
  - intros j _. split; reflexivity.
Defined.

(** The id 0 a second time; and the id 1 when there is no memory for
    the second of its two buses. *)
Lemma master_add_ids_distinct_witness :
  scd_smbus_master_add true Ex2.env_ok 6 Ex2.ctx0 256 0 2 (Ex.good 0) =
  (Returns (- EEXIST) Ex2.ctx0, Ex.good 0) /\
  snd (scd_smbus_master_add true Ex2.env_short 6 Ex2.ctx0 256 1 2 (Ex.good 0)) =
  World (fun _ => 1) Ex.good_resp 1 0 (data (Ex.good 0)) (reset_trace 1).
Proof.
  assert (Hnd : NoDup (map m_id (smbus_master_list Ex2.ctx0)))
    by (cbn; constructor; [intros []|constructor]).
  split.
  - apply (master_add_ids_distinct true Ex2.env_ok 6 Ex2.ctx0 256 0 2 (Ex.good 0)
             Hnd).
    cbn. left. reflexivity.
  - destruct (master_add_ids_distinct true Ex2.env_short 6 Ex2.ctx0 256 1 2
                (Ex.good 0) Hnd) as (_ & H).
    destruct H as (_ & H). exact H.
Defined.

(** No memory for the second of two buses. *)
Lemma master_add_bus_failure_witness :
  let w := Ex.good 0 in
  scd_smbus_master_add true Ex2.env_short 6 Ex2.ctx0 256 1 2 w =
  (UnlinksNewMaster
     (if be_kzalloc (Ex2.env_short 1) then be_err (Ex2.env_short 1) else - ENOMEM),
   World (cs_in w) (resp_in w) (S (cs_n w)) (resp_n w) (data w)
     (trace w ++ reset_trace (cs_at w 0))).
Proof.
  apply (master_add_bus_failure Ex2.env_short 6 Ex2.ctx0 256 1 2 (Ex.good 0) 1).
  - cbn. intros [H|[]]. discriminate H.
  - cbn. lia.
  - intros j Hj. destruct j as [|j]; [split; reflexivity|lia].
  - left. reflexivity.
Defined.

(** The one override of the examples, shown into ten bytes. *)
Lemma dump_is_truncated_witness :
  all_tweaks Ex.ctx = "0/2/50: adap=7 t=2 datr=2 datw=1 ed=1
"%string /\
  (scd_dump_smbus_tweaks Ex.ctx 10 =
     (Z.min (Z.of_nat (String.length (all_tweaks Ex.ctx))) (10 - 1),
      substring 0 (Z.to_nat (10 - 1)) (all_tweaks Ex.ctx)) /\
   dump_masters 10 (smbus_master_list Ex.ctx) (EmptyString, 0) =
     inl (substring 0 (Z.to_nat (10 - 1)) (all_tweaks Ex.ctx),
          Z.min (Z.of_nat (String.length (all_tweaks Ex.ctx))) (10 - 1)) /\
   show_smbus_tweaks (Some Ex.ctx) =
     (Z.min (Z.of_nat (String.length (all_tweaks Ex.ctx))) 4095,
      substring 0 4095 (all_tweaks Ex.ctx))).
Proof.
  split; [reflexivity|].
  apply (dump_is_truncated Ex.ctx 10). lia.
Defined.

(** A byte-data read: four phases, ids 0 to 3.  The read of an SMBus
    block through the length probe, the length byte being 2: the four
    phases of the probe, then six phases whose ids start at 0 again. *)
Lemma do_impl_phase_count_witness :
  (let res := scd_smbus_do_impl Ex.master Ex.bus 80 0 I2C_SMBUS_READ 17
                I2C_SMBUS_BYTE_DATA 34 EmptyString (Ex.good 0) in
   let ids := map (get Req.ti) (reqs (new_events (Ex.good 0) (snd res))) in
   exchange_ids 4 ids) /\
  (let res := scd_smbus_do_impl Ex.master Ex.bus 80 0 I2C_SMBUS_READ 17
                I2C_SMBUS_BLOCK_DATA 34 EmptyString Ex2.probed in
   let ids := map (get Req.ti) (reqs (new_events Ex2.probed (snd res))) in
   exists probe main,
     ids = probe ++ main /\ exchange_ids 4 probe /\ exchange_ids 6 main).
Proof.
  split.
  - apply (do_impl_phase_count Ex.master Ex.bus 80 0 I2C_SMBUS_READ 17
             I2C_SMBUS_BYTE_DATA 34 EmptyString (Ex.good 0)).
    + lia.
    + intros H. discriminate H.
  - apply (do_impl_phase_count Ex.master Ex.bus 80 0 I2C_SMBUS_READ 17
             I2C_SMBUS_BLOCK_DATA 34 EmptyString Ex2.probed).
    + lia.
    + intros _. reflexivity.
Defined.

(** A byte-data read whose first response is an ack error; and the read
    of an SMBus block through the length probe where the second
    response of the block exchange (response 5 of the call) is an ack
    error. *)
Lemma do_impl_validation_failure_resets_witness :
  (let w := Ex.nack in
   let res := scd_smbus_do_impl Ex.master Ex.bus 80 0 I2C_SMBUS_READ 17
                I2C_SMBUS_BYTE_DATA 34 EmptyString w in
   let l := new_events w (snd res) in
   fst (fst res) = - EIO /\
   trace (snd res) = trace w ++ l /\
   resps l = map (resp_at w) (seq 0 1) /\
   exists pre tail cs v1 v2,
     l = pre ++ [EvReadResp (resp_at w 0)] ++ tail ++
         [EvReadCs cs; EvWriteCs v1; EvMdelay 50; EvWriteCs v2; EvMdelay 50] /\
     (tail = [] \/ exists cs', tail = reset_trace cs') /\
     v1.[Cs.reset] = 1 /\ v1.[Cs.foe] = 1 /\
     v2.[Cs.reset] = 0 /\ v2.[Cs.foe] = 1) /\
  (let w := Ex2.late_nack in
   let res := scd_smbus_do_impl Ex.master Ex.bus 80 0 I2C_SMBUS_READ 17
                I2C_SMBUS_BLOCK_DATA 34 EmptyString w in
   let l := new_events w (snd res) in
   fst (fst res) = - EIO /\
   trace (snd res) = trace w ++ l /\
   resps l = map (resp_at w) (seq 0 6) /\
   exists pre tail cs v1 v2,
     l = pre ++ [EvReadResp (resp_at w 5)] ++ tail ++
         [EvReadCs cs; EvWriteCs v1; EvMdelay 50; EvWriteCs v2; EvMdelay 50] /\
     (tail = [] \/ exists cs', tail = reset_trace cs') /\
     v1.[Cs.reset] = 1 /\ v1.[Cs.foe] = 1 /\
     v2.[Cs.reset] = 0 /\ v2.[Cs.foe] = 1).
Proof.
  split.
  - apply (do_impl_validation_failure_resets Ex.master Ex.bus 80 0
             I2C_SMBUS_READ 17 I2C_SMBUS_BYTE_DATA 34 EmptyString Ex.nack 0 0).
    + vm_compute. reflexivity.
    + intros j Hj. lia.
    + vm_compute. reflexivity.
    + intros H. discriminate H.
  - apply (do_impl_validation_failure_resets Ex.master Ex.bus 80 0
             I2C_SMBUS_READ 17 I2C_SMBUS_BLOCK_DATA 34 EmptyString
             Ex2.late_nack 5 0).
    + vm_compute. reflexivity.
    + intros j Hj.
      do 5 (destruct j as [|j]; [vm_compute; split; reflexivity|]). lia.
    + vm_compute. reflexivity.
    + intros _ H. discriminate H.
Defined.

(** The read of an SMBus block through the length probe, to the address
    with the override (timing class 2, read width 2, early data): ten
    requests of timing class 2; the fourth, last of the probe, and the
    tenth, last of the block exchange, carry the width 2 and the flag. *)
Lemma smbus_params_in_phases_witness :
  let res := scd_smbus_do_impl Ex.master Ex.bus 80 0 I2C_SMBUS_READ 17
               I2C_SMBUS_BLOCK_DATA 34 EmptyString Ex2.probed in
  let p := BusParams 80 2 1 2 1 in
  let rq := reqs (new_events Ex2.probed (snd res)) in
  Forall (fun v => v.[Req.t] = 2) rq /\
  exists probe main,
    rq = probe ++ main /\
    exchange_widths p I2C_SMBUS_READ 4 probe /\
    exchange_widths p I2C_SMBUS_READ 6 main.
Proof.
  destruct (smbus_params_in_phases Ex.master Ex.bus 80 0 I2C_SMBUS_READ 17
              I2C_SMBUS_BLOCK_DATA 34 EmptyString Ex2.probed)
    as (_ & _ & Ht & Hw & _).
  split; [exact Ht|exact Hw].
Defined.

End MoreInstances.
